(* ===== verification/_CoqProject ===== *)
-Q . S2P
Prelude.v
PyStr.v
PyDict.v
PyVal.v
PyText.v
ExecState.v
Budget.v
Tenant.v
Isolation.v
Quotas.v
Threads.v
QuotaThreads.v
Events.v
Publisher.v
Observability.v
Abi.v
Runtime.v
RuntimeSpec.v
RuntimeProps.v
Concurrent.v
ConcurrentSpec.v
ConcurrentProps.v
ToolRegistry.v
Gateway.v
Loop.v
Capabilities.v
PolicyEngine.v
Lifecycle.v
Storage.v
Governance.v
Execution.v
Json.v
Persistence.v
DateTime.v
FileStore.v
FileStoreProps.v
Deployment.v
Registry.v
Auth.v
Api.v
Sockets.v
Architecture.v
ArchitectureProps.v
Plugins.v
Regex.v
Marketplace.v
MarketplaceProps.v
Streams.v
StreamsProps.v
Adapters.v
AdaptersProps.v
Config.v
Assembly.v
Domain.v
Telemetry.v
Logging.v
Mirrors.v
Contracts.v
