(* ===== verification/Prelude.v ===== *)
(** * Kitematic: a verification library for the agent runtime

    Kitematic runs intents of agents under governance. An intent enters through
    the REST API, the runtime asks a policy, checks a capability, routes the
    intent to a tool, calls the tool through a gateway, saves a checkpoint and
    answers; tenants, quotas, budgets, logs, metrics, traces and events surround
    that chain. This library models those parts as executable definitions,
    translated from the Python under [src/], and proves what makes them
    correct.

    ** Parts, files and sources

    Foundations. [Prelude]: exceptions, outcomes, the effect monad
    [M S A = S -> outcome A * S] (a [raise] keeps the mutations made before it),
    reflexive-transitive closure of a step relation, stable sorting, tactics and
    hints. [PyStr], [PyDict], [PyVal], [PyText], [Json], [DateTime], [Regex]:
    strings, insertion-ordered dictionaries with their finite-map view, dynamic
    values and their texts, JSON text, ISO dates, regular expressions matched by
    derivatives. [Threads]: threads that run through shared memory under locks.

    Kernel. [ExecState] ([kernel/state.py], [kernel/exceptions.py]), [Budget]
    ([kernel/resources/budget.py]), [Tenant] ([kernel/tenant.py]), [Isolation]
    ([kernel/isolation.py]), [Events] ([kernel/events/models.py], [memory.py]),
    [Publisher] ([kernel/events/protocol.py]), [Streams] ([kernel/events/redis_streams.py], [redis_publisher.py],
    [factory.py]), [Observability], [Logging] and [Mirrors]
    ([kernel/observability/]: what the runtime uses, the JSON lines, the copies
    given to OpenTelemetry), [Telemetry]
    ([kernel/observability/opentelemetry.py]), [Abi] and [Runtime]
    ([kernel/runtime.py]: its contracts and [KitematicRuntime]), [Concurrent]
    (the same executions interleaved at their awaits), [ToolRegistry]
    ([kernel/resources/tool_registry.py]), [Gateway] ([kernel/gateway.py]),
    [Loop] ([kernel/lifecycle.py]), [Execution] ([kernel/execution/],
    [core/contracts/step_*.py], [control_plane/adapters/to_runtime/runtime.py]).

    Control plane and core. [Capabilities] ([core/policies/capability*.py]),
    [PolicyEngine] ([control_plane/policy/], [core/policies/policy.py],
    [control_plane/adapters/to_kernel/policy.py]), [Lifecycle]
    ([control_plane/orchestrator/], [control_plane/lifecycle/manager.py]),
    [Governance] ([control_plane/adapters/to_kernel/router.py] and the runtime
    with policy engine and router behind it), [Storage]
    ([core/domain/checkpoint.py], [memory.py], [infrastructure/storage/*/in_memory.py]),
    [FileStore] ([infrastructure/storage/checkpoint/file_system.py], over a file
    system with path resolution, writes and renames), [Persistence] ([control_plane/adapters/to_kernel/checkpoint.py]), [Registry]
    ([control_plane/registry/memory_*.py]), [Contracts]
    ([core/contracts/memory_repository.py], [control_plane/registry/*_repository.py],
    [control_plane/policy/types.py]), [Marketplace]
    ([control_plane/governance/marketplace/]), [Domain] (the remaining
    [core/domain/] models), [Config] ([config/settings.py], [secrets.py]).

    Plugins and models. [Plugins] ([agents/loader/], [core/domain/plugin.py]),
    [Adapters] ([ai_gateway/], [agents/tools/mcp/]).

    Scripts. [Architecture] ([scripts/verify_architecture.py],
    [check_coverage.py]) over syntax trees and file trees.

    API. [Quotas] and [QuotaThreads] ([api/rest/quotas.py]: whole methods, and
    the same methods access by access between threads), [Auth] ([api/auth/provider.py],
    [api/audit/recorder.py], [core/identity/auth_context.py]), [Api]
    ([api/rest/app.py], [api/schemas/models.py]), [Sockets] (the event socket of
    [api/rest/app.py]), [Assembly] ([create_app] and the start of [lifespan]).

    A file [XProps] or [XSpec] holds the theorems or the specification of [X].

    ** How the parts are put together

    The runtime's collaborators (policy, router, gateway, persistence) are the
    classes [PolicyEvaluator], [IntentRouter], [ToolGateway] and
    [StatePersistence] of [Abi] over a state of their own, so a theorem about
    the runtime holds for every implementation, one that raises or lies
    included; [PolicyEngine], [Governance], [Gateway] and
    [Persistence] give instances, and [Deployment] puts them all behind one
    runtime. [RuntimeSpec] is the runtime without its observers: one governed
    state, no logger, metrics or tracer; the runtime refines it, and
    [RuntimeProps] derives the rest from there. The same pattern is used for the
    step runtime ([ExecutionRuntime] in [Execution]), the checkpoint store
    ([CheckpointStore] in [Persistence], which the in-memory and the file-system
    repository both implement), the agent registry ([Lifecycle]), the event
    publisher ([EventPublisher] and [PublisherLaws] in [Publisher]: the API is
    modelled over any publisher, and the in-memory and both Redis publishers
    satisfy the laws) and the abstract classes of [Contracts]. Services
    outside the repository are classes whose calls may raise: the Redis client
    ([Streams]), HTTP and MCP clients ([Adapters]), the OpenTelemetry packages
    ([Telemetry], [Mirrors], [Logging]).

    State is explicit: an object is a record, a method a function from the
    record to its outcome and the record it leaves. Where objects are shared the
    store is in the model: the queues of [Events], the configurations of
    [Registry], the machines of [Lifecycle]. Calls interleave as sequences of
    steps: each component has an [Inductive] step relation of its operations,
    [star] closes it, and invariants are proved by induction on it. One call is
    one atomic step, as it is in the single event loop of the source when it does
    not await, and as [Threads] proves it to be under a lock. Where the awaits matter they are steps:
    [Concurrent] suspends an execution at each await on a collaborator and lets
    the event loop resume, cancel and start executions in any order, and
    [Sockets] does so for the listener of a socket; an execution that runs alone
    is [execute_intent], so the theorems of [RuntimeProps] are about the
    executions nothing interrupts.

    ** What the theorems show

    The chain ([RuntimeProps], [Governance], [Deployment], [ExecState]): no tool runs unless
    policy, capability check and routing said so, in that order; every failure
    is a typed result in a terminal state; observers do not matter; a denied
    intent leaves the tools untouched; [COMPLETED] is reached through the whole
    chain only, and the table has no run longer than five steps. [Deployment]
    follows one execution from the rules to the audit entry, the client's single
    call and the state that can be restored afterwards. Shutdown is
    final; quota slots are always returned, isolation slots only by a success,
    with the lock-out that follows.

    Interleaving ([ConcurrentSpec], [ConcurrentProps]): whatever the order, the
    slots taken are those of the executions that hold them, an execution ends
    after at most five resumptions, a pool that admits no new one drains, and a
    cancelled execution keeps its slots for good. For the objects that a lock
    guards ([Threads], [QuotaThreads]): however the threads are scheduled, what
    they leave and answer is what whole calls in some order would, the rate
    limit holds for all of them together, and none waits for ever.

    Tenants ([Isolation], [Api], [Publisher], [Auth], [Quotas]): isolation
    invariant and exact ownership checks, the concurrency bound, no event
    crosses tenants, an execution submitted through the API is visible to its
    tenant and to no other, authentication is the map of the keys in force,
    rate limits hold over every window and the advice to retry is enough.

    Resources and loops ([Budget], [Loop], [Execution]): bounds on steps and
    tokens, the number of steps a budget admits, totality and termination of the
    loop, what the step adapter plans and when it fails.

    Decisions ([PolicyEngine], [ToolRegistry], [Capabilities], [Gateway]): the
    decision is that of the best matching rule whatever the cache holds, as long
    as no question put to the engine holds a '|' (its cache keys join their parts
    with it: a finding); what a tool pattern matches, what the registries find, what one access does.

    Records ([Events], [Observability], [Lifecycle], [Storage], [Persistence],
    [FileStoreProps], [Registry]): logs and audit trails only grow and are
    chained, phases are not lost, repositories answer exactly what was saved, a
    saved state is read back as it was; for checkpoints whose identifier is a
    plain file name and whose values JSON carries exactly, the file-system
    repository answers what the in-memory one does, and a crash in the middle of a
    save leaves every checkpoint readable as it was before or after.

    Delivery ([StreamsProps], [Sockets], [AdaptersProps]): the Redis publisher
    refines the in-memory one for the subscribers of its process; a submission is
    recorded whatever the publisher raises ([Assembly]); a socket's
    client is sent its queue in order up to the closing message; a client that
    subscribes with an identifier it was answered is sent no event; the readers
    of model streams recover the text sent.

    Contracts ([Contracts]): to a client a memory repository is a finite map with
    expiry, no template or instance is ever lost or changed but for being
    archived, a cached decision is never stale, what passes validation is
    resolved in full.

    Copies ([Logging], [Mirrors]): a record is one printable line that reads back
    as its fields; instruments hold the registry's counts and values; spans open
    and close in step with the phases.

    Inputs ([Plugins], [MarketplaceProps], [Config], [Domain], [DateTime],
    [Regex]): which plugin and extension manifests are accepted and with which
    error they are refused, which listings a query answers, artifacts addressed
    by their content, which settings are valid and what the publisher factory
    makes of them, where a secret comes from, expiry and durations.

    Scripts ([ArchitectureProps]): the cycle check reports a cycle exactly when
    the import graph has one, the dependency check exactly the forbidden imports
    it can see, and when the coverage gate fails.

    Examples named [demo_*] and the lemmas next to them run the definitions on
    concrete inputs; several show behaviour the source does not intend (an
    override of the tenant, shared configurations, stale indexes, a counter that
    restarts).

    ** Conventions and bounds

    Readings of the clock and fresh identifiers are streams indexed by a
    counter in the state; an instant is an integer number of microseconds. A
    float that is computed with (tokens, durations, percentiles) is an exact
    rational. A string is its UTF-8 bytes; lower-casing and lengths agree with
    Python on ASCII; white space and the digits of a pattern's [\d] are those of
    Unicode 15. Python's [int] is [Z]. The iteration order of a set is an
    argument wherever it can be seen. Digests, [fnmatch], the version parser,
    [repr] of a float and the text of a JSON error are arguments, with
    hypotheses (injectivity, non-emptiness) only where a theorem states them.
    Fuel: the JSON reader has twice the length of the text plus two, since a call
    consumes a character or moves from a value to its first token, and the round
    trip shows that it never runs out on printed text; the cycle search has one
    more than the number of nodes, since the nodes being visited are distinct,
    and its theorem shows that it always ends with an answer; the walk over a
    syntax tree has the number of its nodes, and the pieces of a text the length
    of the text. Durations of [Domain] are computed in binary64 ([SpecFloat]),
    because truncating them shows the rounding.

    ** What is not modelled

    Third-party code: the web framework's routing and request validation, pydantic's reading and conversion of
    settings, the parsers of YAML, Python and XML (their results are arguments),
    the Redis, HTTP and OpenTelemetry clients (classes here). The module
    [control_plane/governance/marketplace/model/listing_status.py] raises when it
    is imported and has no behaviour to model. Interfaces without an
    implementation in the repository ([control_plane/orchestrator/orchestrator.py],
    [core/contracts/model.py], [core/contracts/adapter.py] and the like) declare
    methods and plain data only. Errors of a
    device, text that is not ASCII where lower-casing or lengths show, and the
    depth of Python's stack are left out. Threads are modelled for the two
    objects with a lock ([Quotas]) only: everything else runs in one event loop. *)

From stdpp Require Export base tactics option list list_numbers strings numbers gmap pretty.
From Stdlib Require Export ZArith Sorting.Sorted.

#[export] Set Default Goal Selector "!".

Declare Scope kite_scope.
Delimit Scope kite_scope with kite.
#[global] Open Scope kite_scope.

(** ** Exceptions, outcomes and the effect monad *)

(** A Python exception: the class it is an instance of and its [str()]. *)
Record exn := mkExn { exn_class : string; exn_str : string }.

#[export] Instance exn_eq_dec : EqDecision exn.
Proof. solve_decision. Defined.

(** The outcome of a call: a returned value or a raised exception. *)
Inductive outcome (A : Type) : Type :=
| Ok (a : A)
| Raise (e : exn).
Arguments Ok {_} _.
Arguments Raise {_} _.

#[export] Instance outcome_eq_dec `{EqDecision A} : EqDecision (outcome A).
Proof. solve_decision. Defined.

#[export] Instance outcome_ret : MRet outcome := @Ok.
#[export] Instance outcome_bind : MBind outcome := λ A B f m,
  match m with Ok a => f a | Raise e => Raise e end.

Definition is_ok {A} (o : outcome A) : bool :=
  match o with Ok _ => true | Raise _ => false end.

(** Stateful code: a state transformer that keeps the state reached when an
    exception is raised, as a mutation made before a [raise] stays made. *)
Definition M (S A : Type) : Type := S → outcome A * S.

#[export] Instance M_ret S : MRet (M S) := λ A a s, (Ok a, s).
#[export] Instance M_bind S : MBind (M S) := λ A B f m s,
  match m s with
  | (Ok a, s') => f a s'
  | (Raise e, s') => (Raise e, s')
  end.

Definition raise {S A} (e : exn) : M S A := λ s, (Raise e, s).
Definition read {S A} (f : S → A) : M S A := λ s, (Ok (f s), s).
Definition modify {S} (f : S → S) : M S unit := λ s, (Ok tt, f s).
Definition of_outcome {S A} (o : outcome A) : M S A := λ s, (o, s).

(** [try: ... except Exception as e: ...], the outcome handed to the caller. *)
Definition attempt {S A} (m : M S A) : M S (outcome A) := λ s,
  let '(o, s') := m s in (Ok o, s').

(** Run a computation on a part of the state. *)
Definition zoom {S T A} (get : S → T) (put : T → S → S) (m : M T A) : M S A := λ s,
  let '(o, t) := m (get s) in (o, put t s).

(** [if x is not None: ...] for a collaborator that may be absent. *)
Definition when {S} (b : bool) (m : M S unit) : M S unit :=
  if b then m else mret tt.

Notation "m ;; k" := (mbind (λ _, k) m)
  (at level 100, k at level 200, right associativity) : kite_scope.

(** Stepping through a sequence: the first call's answer is known. *)
Lemma bind_ok {S A B} (m : M S A) (k : A → M S B) s a s' :
  m s = (Ok a, s') → (m ≫= k) s = k a s'.
Proof. unfold mbind, M_bind. by intros ->. Qed.

Lemma bind_raise {S A B} (m : M S A) (k : A → M S B) s e s' :
  m s = (Raise e, s') → (m ≫= k) s = (Raise e, s').
Proof. unfold mbind, M_bind. by intros ->. Qed.

(** The three monad laws, as a class that other effect types can instantiate. *)
Class LawfulMonad (F : Type → Type) `{!MRet F, !MBind F} (eqF : ∀ A, F A → F A → Prop) := {
  law_left_id : ∀ A B (a : A) (f : A → F B), eqF B (mbind f (mret a)) (f a);
  law_right_id : ∀ A (m : F A), eqF A (mbind mret m) m;
  law_assoc : ∀ A B C (m : F A) (f : A → F B) (g : B → F C),
    eqF C (mbind g (mbind f m)) (mbind (λ a, mbind g (f a)) m)
}.

#[export] Instance outcome_lawful : LawfulMonad outcome (λ A, eq).
Proof. split; intros; [done|by destruct m..]. Qed.

#[export] Instance M_lawful S : LawfulMonad (M S) (λ A m m', ∀ s, m s = m' s).
Proof.
  split; intros; unfold mbind, M_bind; simpl; [done|..];
    by destruct (m s) as [[] ?].
Qed.

(** ** Reachability: finite sequences of transitions *)

Section Reach.
Context {A : Type} (R : A → A → Prop).

Inductive star : A → A → Prop :=
| star_refl a : star a a
| star_step a b c : R a b → star b c → star a c.

Lemma star_one a b : R a b → star a b.
Proof. eauto using star. Qed.

Lemma star_trans a b c : star a b → star b c → star a c.
Proof. induction 1; eauto using star. Qed.

Lemma star_snoc a b c : star a b → R b c → star a c.
Proof. eauto using star_trans, star_one. Qed.

(** The invariant rule: what one step preserves, every sequence preserves. *)
Lemma star_invariant (I : A → Prop) a b :
  (∀ x y, I x → R x y → I y) → I a → star a b → I b.
Proof. intros Hstep Ha. induction 1; eauto. Qed.

(** A preorder every step respects holds between the ends of a sequence. *)
Lemma star_preorder (P : A → A → Prop) `{!PreOrder P} a b :
  (∀ x y, R x y → P x y) → star a b → P a b.
Proof.
  intros Hstep. induction 1; [reflexivity|].
  etransitivity; eauto.
Qed.
End Reach.

Arguments star_refl {_ _ _}.
Arguments star_step {_ _ _ _ _}.

(** ** Automation *)

Create HintDb kite.

(** Unfold the monad at a call and reduce; the calls themselves stay folded. *)
Ltac m_unfold :=
  unfold mbind, mret, M_bind, M_ret, outcome_bind, outcome_ret,
    raise, read, modify, attempt, zoom, when, of_outcome in *.
Ltac m_simpl := m_unfold; simpl in *.

(** Case analysis on every [match] in sight, discarding absurd branches. *)
Ltac m_cases := repeat (simplify_eq/= || case_match || case_decide).

(** Decide a goal about booleans computed by [bool_decide] and friends. *)
Ltac b2p :=
  repeat match goal with
  | H : _ && _ = true |- _ => apply andb_true_iff in H as [? ?]
  | H : _ || _ = false |- _ => apply orb_false_iff in H as [? ?]
  | H : negb _ = true |- _ => apply negb_true_iff in H
  | H : negb _ = false |- _ => apply negb_false_iff in H
  | H : bool_decide _ = true |- _ => apply bool_decide_eq_true in H
  | H : bool_decide _ = false |- _ => apply bool_decide_eq_false in H
  | H : (_ <? _)%Z = true |- _ => apply Z.ltb_lt in H
  | H : (_ <? _)%Z = false |- _ => apply Z.ltb_ge in H
  | H : (_ <=? _)%Z = true |- _ => apply Z.leb_le in H
  | H : (_ <=? _)%Z = false |- _ => apply Z.leb_gt in H
  | H : (_ >=? _)%Z = _ |- _ => rewrite Z.geb_leb in H
  | H : (_ >? _)%Z = _ |- _ => rewrite Z.gtb_ltb in H
  | H : (_ =? _)%Z = true |- _ => apply Z.eqb_eq in H
  | H : (_ =? _)%Z = false |- _ => apply Z.eqb_neq in H
  | H : String.eqb _ _ = true |- _ => apply String.eqb_eq in H
  | H : String.eqb _ _ = false |- _ => apply String.eqb_neq in H
  end.

(** ** Stable sorting, as [sorted] and [list.sort] do it *)

Section Sort.
Context {A : Type} (leb : A → A → bool).

(** Insert before the first strictly greater element: equal keys keep the
    order they came in. *)
Fixpoint sort_insert (x : A) (l : list A) : list A :=
  match l with
  | [] => [x]
  | y :: l' => if leb x y then x :: y :: l' else y :: sort_insert x l'
  end.

Definition py_sorted (l : list A) : list A := foldr sort_insert [] l.

Lemma sort_insert_perm x l : sort_insert x l ≡ₚ x :: l.
Proof.
  induction l as [|y l IH]; simpl; [done|].
  case_match; [done|]. rewrite IH. by constructor.
Qed.

Lemma py_sorted_perm l : py_sorted l ≡ₚ l.
Proof.
  induction l as [|x l IH]; simpl; [done|].
  by rewrite sort_insert_perm, IH.
Qed.

Context (leb_total : ∀ x y, leb x y = true ∨ leb y x = true).
Context (leb_trans : ∀ x y z, leb x y = true → leb y z = true → leb x z = true).

Lemma sort_insert_sorted x l :
  Sorted (λ a b, leb a b = true) l → Sorted (λ a b, leb a b = true) (sort_insert x l).
Proof.
  induction 1 as [|y l Hl IH Hhd]; simpl; [by repeat constructor|].
  case_match eqn:Hxy.
  - repeat constructor; auto.
  - constructor; [done|].
    assert (leb y x = true) as Hyx by (destruct (leb_total x y); congruence).
    destruct l as [|z l]; simpl; [by constructor|].
    inversion Hhd; subst. by case_match; constructor.
Qed.

Lemma py_sorted_sorted l : Sorted (λ a b, leb a b = true) (py_sorted l).
Proof.
  induction l as [|x l IH]; simpl; [constructor|].
  by apply sort_insert_sorted.
Qed.

(** The head of a stable sort is the first of the least elements. *)
Lemma py_sorted_head l x l' :
  py_sorted l = x :: l' →
  ∃ l1 l2, l = l1 ++ x :: l2
    ∧ Forall (λ y, leb y x = false) l1
    ∧ Forall (λ y, leb x y = true) l2.
Proof using leb_total leb_trans.
  revert x l'. induction l as [|y l IH]; intros x l'; simpl; [done|].
  destruct (py_sorted l) as [|z zs] eqn:Hs; simpl.
  - intros [= <- <-].
    assert (l = []) as ->.
    { pose proof (py_sorted_perm l) as Hp. rewrite Hs in Hp. by apply Permutation_nil. }
    by exists [], [].
  - destruct (IH z zs eq_refl) as (l1 & l2 & -> & H1 & H2).
    case_match eqn:Hyz; intros [= <- <-].
    + exists [], (l1 ++ z :: l2). split_and!; [done|constructor|].
      apply Forall_app; split; [|constructor; [done|]].
      * eapply Forall_impl; [exact H1|]. intros w Hw.
        destruct (leb_total z w) as [?|?]; [eauto|congruence].
      * eapply Forall_impl; [exact H2|]. eauto.
    + exists (y :: l1), l2. split_and!; [done|by constructor|done].
Qed.
End Sort.
