(* ===== verification/PyStr.v ===== *)
(** * Strings as the source uses them

    A Python [str] as Rocq's [string]: the bytes of its UTF-8 encoding.
    Concatenation, equality, order, [startswith], [endswith] and [in] agree with
    Python's on every such string; case mapping, [len] and slicing agree on
    ASCII. Also [join], [repr] and the decimal formats the source builds
    identifiers with. *)
From S2P Require Import Prelude.

Notation "'ε'" := EmptyString.
#[global] Arguments String.append : simpl nomatch.

(** [if s:] *)
Definition truthy (s : string) : bool := negb (String.eqb s ε).

(** [a or b] on strings *)
Definition str_or (a b : string) : string := if truthy a then a else b.

(** [if o:] on an [str | None] *)
Definition truthy_opt (o : option string) : bool := from_option truthy false o.

(** [o or b] on an [str | None] *)
Definition opt_or (o : option string) (b : string) : string :=
  match o with Some a => str_or a b | None => b end.

Definition ascii_lower (c : Ascii.ascii) : Ascii.ascii :=
  let n := Ascii.nat_of_ascii c in
  if (65 <=? n)%nat && (n <=? 90)%nat then Ascii.ascii_of_nat (n + 32) else c.

Fixpoint str_lower (s : string) : string :=
  match s with ε => ε | String c s' => String (ascii_lower c) (str_lower s') end.

(** [s.startswith(p)] *)
Fixpoint str_startswith (p s : string) : bool :=
  match p, s with
  | ε, _ => true
  | String a p', String b s' => bool_decide (a = b) && str_startswith p' s'
  | String _ _, ε => false
  end.

(** [needle in hay] *)
Fixpoint str_contains (needle hay : string) : bool :=
  str_startswith needle hay ||
  match hay with ε => false | String _ hay' => str_contains needle hay' end.

(** [s[n:]] for [0 <= n] *)
Fixpoint str_drop (n : nat) (s : string) : string :=
  match n, s with
  | S n', String _ s' => str_drop n' s'
  | _, _ => s
  end.

(** [s[:n]] for [0 <= n] *)
Fixpoint str_take (n : nat) (s : string) : string :=
  match n, s with
  | S n', String c s' => String c (str_take n' s')
  | _, _ => ε
  end.

Definition str_len (s : string) : nat := String.length s.

Definition str_endswith (p s : string) : bool :=
  (str_len p <=? str_len s)%nat && String.eqb (str_drop (str_len s - str_len p) s) p.

(** [sep.join(l)] *)
Fixpoint str_join (sep : string) (l : list string) : string :=
  match l with
  | [] => ε
  | [s] => s
  | s :: l' => s +:+ sep +:+ str_join sep l'
  end.

(** [str(n)] and the zero-padded [f"{n:04d}"] for naturals *)
Definition str_of_nat (n : nat) : string := pretty n.
Definition str_of_Z (z : Z) : string := pretty z.

Fixpoint str_zeros (n : nat) : string :=
  match n with 0 => ε | S n' => String (Ascii.ascii_of_nat 48) (str_zeros n') end.

Definition str_pad4 (n : nat) : string :=
  let s := str_of_nat n in str_zeros (4 - str_len s) +:+ s.

(** [repr(s)]: quoted with single quotes unless only those occur inside. *)
Definition hex_digit (n : nat) : string :=
  str_take 1 (str_drop n "0123456789abcdef").

Definition repr_char (quote c : Ascii.ascii) : string :=
  let n := Ascii.nat_of_ascii c in
  if decide (c = quote ∨ n = 92%nat) then String (Ascii.ascii_of_nat 92) (String c ε)
  else if decide (n = 10%nat) then "\n" else if decide (n = 13%nat) then "\r"
  else if decide (n = 9%nat) then "\t"
  else if (n <? 32)%nat || (n =? 127)%nat then
    "\x" +:+ hex_digit (n / 16) +:+ hex_digit (n mod 16)
  else String c ε.

Fixpoint repr_body (quote : Ascii.ascii) (s : string) : string :=
  match s with ε => ε | String c s' => repr_char quote c +:+ repr_body quote s' end.

Definition str_repr (s : string) : string :=
  let dq := Ascii.ascii_of_nat 34 in
  let sq := Ascii.ascii_of_nat 39 in
  let quote := if str_contains (String sq ε) s && negb (str_contains (String dq ε) s)
               then dq else sq in
  String quote (repr_body quote s +:+ String quote ε).

(** Code-point order on characters and strings, as [sorted] compares [str]. *)
Fixpoint str_leb (s t : string) : bool :=
  match s, t with
  | ε, _ => true
  | String _ _, ε => false
  | String a s', String b t' =>
      let na := Ascii.nat_of_ascii a in
      let nb := Ascii.nat_of_ascii b in
      if (na <? nb)%nat then true
      else if (nb <? na)%nat then false else str_leb s' t'
  end.

(** [s.split(c)] *)
Fixpoint str_split (c : Ascii.ascii) (s : string) : list string :=
  match s with
  | ε => [ε]
  | String d s' =>
      if decide (d = c) then ε :: str_split c s'
      else match str_split c s' with
           | w :: ws => String d w :: ws
           | [] => [String d ε]
           end
  end.

(** ** Lemmas *)

Lemma str_app_nil_r s : s +:+ ε = s.
Proof. induction s; simpl; congruence. Qed.

Lemma str_app_assoc s1 s2 s3 : (s1 +:+ s2) +:+ s3 = s1 +:+ s2 +:+ s3.
Proof. induction s1; simpl; congruence. Qed.

Lemma str_app_inj_l s t u : s +:+ t = s +:+ u → t = u.
Proof. induction s; simpl; intros; simplify_eq; auto. Qed.

Lemma str_len_app s t : str_len (s +:+ t) = (str_len s + str_len t)%nat.
Proof. unfold str_len. induction s; simpl; auto. Qed.

Lemma str_drop_app s t : str_drop (str_len s) (s +:+ t) = t.
Proof. unfold str_len. induction s; simpl; [by destruct t|done]. Qed.

Lemma str_startswith_spec p s : str_startswith p s = true ↔ ∃ t, s = p +:+ t.
Proof.
  revert s. induction p as [|a p IH]; intros s; simpl; [naive_solver|].
  destruct s as [|b s]; simpl; [naive_solver|].
  rewrite andb_true_iff, bool_decide_eq_true, IH. naive_solver.
Qed.

Lemma str_contains_spec p s : str_contains p s = true ↔ ∃ t u, s = t +:+ p +:+ u.
Proof.
  induction s as [|c s IH]; simpl.
  - rewrite orb_false_r, str_startswith_spec. split.
    + intros [u Hu]. by exists ε, u.
    + intros (t & u & Htu). destruct t; simpl in *; [eauto|done].
  - rewrite orb_true_iff, str_startswith_spec, IH. split.
    + intros [[u Hu]|(t & u & ->)]; [by exists ε, u|by exists (String c t), u].
    + intros (t & u & Htu). destruct t as [|c' t]; simpl in *; simplify_eq; eauto.
Qed.

Lemma str_contains_mid t p u : str_contains p (t +:+ p +:+ u) = true.
Proof. apply str_contains_spec. eauto. Qed.

Lemma truthy_false s : truthy s = false ↔ s = ε.
Proof. unfold truthy. rewrite negb_false_iff. apply String.eqb_eq. Qed.

Lemma truthy_true s : truthy s = true ↔ s ≠ ε.
Proof. unfold truthy. rewrite negb_true_iff. apply String.eqb_neq. Qed.

Lemma str_or_truthy a b : truthy a = true → str_or a b = a.
Proof. unfold str_or. by intros ->. Qed.

Lemma str_leb_refl s : str_leb s s = true.
Proof.
  induction s as [|a s IH]; simpl; [done|].
  by rewrite !(proj2 (Nat.ltb_ge _ _)) by lia.
Qed.

Lemma str_leb_total s t : str_leb s t = true ∨ str_leb t s = true.
Proof.
  revert t. induction s as [|a s IH]; intros t; [by left|].
  destruct t as [|b t]; simpl; [by right|].
  repeat case_match; auto; rewrite ?Nat.ltb_lt, ?Nat.ltb_ge in *; try lia.
Qed.

Lemma str_leb_antisym s t : str_leb s t = true → str_leb t s = true → s = t.
Proof.
  revert t. induction s as [|a s IH]; intros [|b t]; simpl; try done.
  repeat case_match; rewrite ?Nat.ltb_lt, ?Nat.ltb_ge in *; try done; try lia.
  intros. f_equal; [|auto].
  rewrite <- (Ascii.ascii_nat_embedding a), <- (Ascii.ascii_nat_embedding b).
  f_equal. lia.
Qed.

Lemma str_leb_trans s t u : str_leb s t = true → str_leb t u = true → str_leb s u = true.
Proof.
  revert t u. induction s as [|a s IH]; intros [|b t] [|c u]; simpl; try done.
  repeat case_match; rewrite ?Nat.ltb_lt, ?Nat.ltb_ge in *; try done; try lia.
  eauto.
Qed.

#[export] Hint Resolve str_leb_refl : kite.

(** [o or b] keeps a truthy left operand. *)
Lemma opt_or_some a b : truthy a = true → opt_or (Some a) b = a.
Proof. apply str_or_truthy. Qed.

Example str_repr_plain : str_repr "t1" = "'t1'" ∧ str_repr "a'b" = String (Ascii.ascii_of_nat 34)
  ("a'b" +:+ String (Ascii.ascii_of_nat 34) ε).
Proof. vm_compute. done. Qed.

(** *** Every character *)

Fixpoint str_all (p : Ascii.ascii → bool) (s : string) : bool :=
  match s with ε => true | String c s' => p c && str_all p s' end.

Lemma str_all_app p s t : str_all p (s +:+ t) = str_all p s && str_all p t.
Proof. induction s as [|c s IH]; [done|]. cbn. by rewrite IH, andb_assoc. Qed.
