(* ===== verification/PyDict.v ===== *)
(** * Insertion-ordered dictionaries

    Python's [dict[str, V]] as the association list of its items in insertion
    order. Assigning to a present key keeps its position, assigning to an
    absent one appends, [del] removes the item. [dict_map] is the finite-map
    view of a dictionary; every operation is shown to implement the map
    operation of that view. *)
From S2P Require Import Prelude.

Abbreviation dict V := (list (string * V)).

Section Dict.
Context {V : Type}.
Implicit Types (d : dict V) (k : string) (v : V).

Fixpoint dict_get k d : option V :=
  match d with
  | [] => None
  | (k', v) :: d' => if decide (k = k') then Some v else dict_get k d'
  end.

Definition dict_mem k d : bool := bool_decide (is_Some (dict_get k d)).

Fixpoint dict_set k v d : dict V :=
  match d with
  | [] => [(k, v)]
  | (k', v') :: d' =>
      if decide (k = k') then (k', v) :: d' else (k', v') :: dict_set k v d'
  end.

Definition dict_del k d : dict V := filter (λ kv, kv.1 ≠ k) d.

Definition dict_keys d : list string := d.*1.
Definition dict_values d : list V := d.*2.

(** [d.get(k, default)] *)
Definition dict_get_or (dflt : V) k d : V := default dflt (dict_get k d).

(** The keys of a dictionary are distinct. *)
Definition dict_wf d : Prop := NoDup (dict_keys d).

Definition dict_map d : gmap string V := list_to_map d.

(** [d.update(d')] *)
Definition dict_update d d' : dict V :=
  foldl (λ acc kv, dict_set kv.1 kv.2 acc) d d'.

(** *** Lookup laws *)

Lemma dict_get_set_eq k v d : dict_get k (dict_set k v d) = Some v.
Proof.
  induction d as [|[k' v'] d IH]; simpl; [by rewrite decide_True|].
  case_decide; simpl; [by rewrite decide_True|by rewrite decide_False].
Qed.

Lemma dict_get_set_ne k k' v d :
  k ≠ k' → dict_get k (dict_set k' v d) = dict_get k d.
Proof.
  intros Hne. induction d as [|[k0 v0] d IH]; simpl; [by rewrite decide_False|].
  by repeat (case_decide; simplify_eq/=).
Qed.

Lemma dict_get_set k k' v d :
  dict_get k (dict_set k' v d) = if decide (k = k') then Some v else dict_get k d.
Proof.
  case_decide; subst; [apply dict_get_set_eq|by apply dict_get_set_ne].
Qed.

Lemma dict_get_del_eq k d : dict_get k (dict_del k d) = None.
Proof.
  unfold dict_del. induction d as [|[k' v'] d IH]; [done|].
  rewrite filter_cons; simpl. case_decide; simpl; [|done].
  by rewrite decide_False by congruence.
Qed.

Lemma dict_get_del_ne k k' d : k ≠ k' → dict_get k (dict_del k' d) = dict_get k d.
Proof.
  intros Hne. unfold dict_del. induction d as [|[k0 v0] d IH]; [done|].
  rewrite filter_cons; simpl. repeat (case_decide; simplify_eq/=); auto; congruence.
Qed.

Lemma dict_get_del k k' d :
  dict_get k (dict_del k' d) = if decide (k = k') then None else dict_get k d.
Proof.
  case_decide; subst; [apply dict_get_del_eq|by apply dict_get_del_ne].
Qed.

Lemma dict_mem_true k d : dict_mem k d = true ↔ is_Some (dict_get k d).
Proof. unfold dict_mem. by rewrite bool_decide_eq_true. Qed.

Lemma dict_mem_false k d : dict_mem k d = false ↔ dict_get k d = None.
Proof.
  unfold dict_mem. by rewrite bool_decide_eq_false, eq_None_not_Some.
Qed.

Lemma dict_mem_set k k' v d :
  dict_mem k (dict_set k' v d) = bool_decide (k = k') || dict_mem k d.
Proof.
  unfold dict_mem. rewrite dict_get_set. case_decide; subst.
  - by rewrite !bool_decide_eq_true_2 by eauto.
  - by rewrite (bool_decide_eq_false_2 (k = k')).
Qed.

(** *** Items *)

Lemma dict_get_elem k v d : dict_get k d = Some v → (k, v) ∈ d.
Proof.
  induction d as [|[k' v'] d IH]; simpl; [done|].
  case_decide; intros; simplify_eq; [left|right; auto].
Qed.

Lemma dict_elem_get k v d : dict_wf d → (k, v) ∈ d → dict_get k d = Some v.
Proof.
  unfold dict_wf, dict_keys. induction d as [|[k' v'] d IH]; simpl; [set_solver|].
  rewrite NoDup_cons. intros [Hk Hd] [?|Hin]%elem_of_cons; simplify_eq.
  - by rewrite decide_True.
  - rewrite decide_False; [auto|]. intros ->. apply Hk.
    apply list_elem_of_fmap. by exists (k', v).
Qed.

Lemma dict_elem_keys k d : k ∈ dict_keys d ↔ is_Some (dict_get k d).
Proof.
  unfold dict_keys. induction d as [|[k' v'] d IH]; simpl.
  - split; [set_solver|intros [? ?]; done].
  - rewrite elem_of_cons, IH. case_decide; subst.
    + split; [by eexists|by left].
    + split; [intros [?|?]; done|by right].
Qed.

Lemma dict_set_twice k v w d : dict_set k v (dict_set k w d) = dict_set k v d.
Proof.
  induction d as [|[k' x] d IH]; simpl; [by rewrite decide_True|].
  case_decide; simpl; [by rewrite decide_True|]. by rewrite decide_False, IH.
Qed.

(** *** Key distinctness is preserved *)

Lemma dict_keys_set k v d :
  dict_keys (dict_set k v d)
  = match dict_get k d with Some _ => dict_keys d | None => dict_keys d ++ [k] end.
Proof.
  unfold dict_keys. induction d as [|[k' v'] d IH]; simpl.
  - done.
  - case_decide; csimpl; [done|]. rewrite IH. by case_match.
Qed.

Lemma dict_wf_set k v d : dict_wf d → dict_wf (dict_set k v d).
Proof.
  unfold dict_wf. rewrite dict_keys_set. case_match eqn:Hk; [done|].
  intros Hd. apply NoDup_app. split_and!; [done| |apply NoDup_singleton].
  intros k' Hk' ->%list_elem_of_singleton.
  apply dict_elem_keys in Hk' as [? ?]. congruence.
Qed.

Lemma dict_wf_del k d : dict_wf d → dict_wf (dict_del k d).
Proof.
  unfold dict_wf, dict_keys, dict_del.
  induction d as [|[k' v'] d IH]; simpl; [done|].
  rewrite NoDup_cons, filter_cons. intros [Hk Hd]. case_decide; simpl; [|auto].
  constructor; [|auto]. contradict Hk.
  apply list_elem_of_fmap in Hk as ([? ?] & -> & [? ?]%list_elem_of_filter).
  apply list_elem_of_fmap. eauto.
Qed.

Lemma dict_wf_nil : dict_wf [].
Proof. apply NoDup_nil_2. Qed.

Lemma dict_get_app k d d' :
  dict_get k (d ++ d') = match dict_get k d with Some v => Some v | None => dict_get k d' end.
Proof. induction d as [|[k' v'] d IH]; simpl; [done|]. by case_decide. Qed.

Lemma dict_set_fresh k v d : dict_get k d = None → dict_set k v d = d ++ [(k, v)].
Proof.
  induction d as [|[k' v'] d IH]; simpl; [done|].
  case_decide; [done|]. intros ?. f_equal. auto.
Qed.

Lemma length_dict_set_fresh k v d :
  dict_get k d = None → length (dict_set k v d) = S (length d).
Proof. intros ?. rewrite dict_set_fresh by done. rewrite length_app; simpl; lia. Qed.

(** What an assignment can add to the items. *)
Lemma dict_set_items k v d kv : kv ∈ dict_set k v d → kv = (k, v) ∨ kv ∈ d.
Proof.
  induction d as [|[k' v'] d IH]; simpl.
  - set_solver.
  - case_decide; subst; rewrite !elem_of_cons; naive_solver.
Qed.

Lemma dict_del_items k d kv : kv ∈ dict_del k d → kv ∈ d.
Proof. unfold dict_del. by intros [? ?]%list_elem_of_filter. Qed.

(** *** Refinement of the map view *)

Lemma dict_map_lookup k d : dict_map d !! k = dict_get k d.
Proof.
  unfold dict_map. induction d as [|[k' v'] d IH]; simpl; [apply lookup_empty|].
  rewrite lookup_insert. case_decide; simplify_eq.
  - by rewrite decide_True.
  - by rewrite decide_False.
Qed.

Lemma dict_map_set k v d : dict_map (dict_set k v d) = <[k := v]> (dict_map d).
Proof.
  apply map_eq; intros k'. rewrite dict_map_lookup, dict_get_set, lookup_insert.
  repeat case_decide; simplify_eq; try done. by rewrite dict_map_lookup.
Qed.

Lemma dict_map_del k d : dict_map (dict_del k d) = delete k (dict_map d).
Proof.
  apply map_eq; intros k'. rewrite dict_map_lookup, dict_get_del, lookup_delete.
  repeat case_decide; simplify_eq; try done. by rewrite dict_map_lookup.
Qed.

Lemma dict_map_size d : dict_wf d → size (dict_map d) = length d.
Proof.
  unfold dict_wf, dict_keys, dict_map. induction d as [|[k v] d IH]; simpl.
  - intros _. apply map_size_empty.
  - rewrite NoDup_cons. intros [Hk Hd]. rewrite map_size_insert_None, IH; [done|done|].
    by apply not_elem_of_list_to_map_1.
Qed.
End Dict.

#[export] Hint Resolve dict_wf_nil dict_wf_set dict_wf_del : kite.

(** Rewriting a lookup after one update, with the key test decided. *)
Ltac dict_simpl :=
  repeat first
    [ rewrite dict_get_set_eq | rewrite dict_get_del_eq
    | rewrite dict_get_set_ne by congruence
    | rewrite dict_get_del_ne by congruence ].
