(* ===== verification/PyVal.v ===== *)
(** * Dynamic values and clock readings

    The source passes [dict[str, Any]] payloads around; [pyval] is the type of
    the values it puts there, a float being the exact rational it is computed
    as. A clock reading is an integer number of
    microseconds since the epoch, the resolution of [datetime]; a [time.time()]
    reading is the same instant in seconds. [isoformat] is
    [datetime.isoformat()] of such an instant in UTC. *)
From S2P Require Import Prelude PyStr PyDict.
From Stdlib Require Export QArith_base.

Inductive pyval : Type :=
| VNone
| VBool (b : bool)
| VInt (z : Z)
| VFloat (q : Q)
| VStr (s : string)
| VList (l : list pyval)
| VDict (d : list (string * pyval)).

(** Induction that reaches the values inside lists and dictionaries. *)
Section PyvalInd.
Variable P : pyval → Prop.
Hypothesis HNone : P VNone.
Hypothesis HBool : ∀ b, P (VBool b).
Hypothesis HInt : ∀ z, P (VInt z).
Hypothesis HFloat : ∀ q, P (VFloat q).
Hypothesis HStr : ∀ s, P (VStr s).
Hypothesis HList : ∀ l, Forall P l → P (VList l).
Hypothesis HDict : ∀ d, Forall (λ kv, P kv.2) d → P (VDict d).

Fixpoint pyval_rect' (v : pyval) : P v :=
  match v with
  | VNone => HNone
  | VBool b => HBool b
  | VInt z => HInt z
  | VFloat q => HFloat q
  | VStr s => HStr s
  | VList l => HList l
      ((fix go l : Forall P l :=
          match l with
          | [] => Forall_nil_2 _
          | x :: l' => Forall_cons_2 _ _ _ (pyval_rect' x) (go l')
          end) l)
  | VDict d => HDict d
      ((fix go d : Forall (λ kv, P kv.2) d :=
          match d with
          | [] => Forall_nil_2 _
          | (k, x) :: d' => Forall_cons_2 _ (k, x) _ (pyval_rect' x) (go d')
          end) d)
  end.
End PyvalInd.

Fixpoint pyval_eqb (v w : pyval) : bool :=
  match v, w with
  | VNone, VNone => true
  | VBool a, VBool b => Bool.eqb a b
  | VInt a, VInt b => (a =? b)%Z
  | VFloat a, VFloat b => (Qnum a =? Qnum b)%Z && (Qden a =? Qden b)%positive
  | VStr a, VStr b => String.eqb a b
  | VList l, VList m =>
      (fix go l m :=
         match l, m with
         | [], [] => true
         | x :: l', y :: m' => pyval_eqb x y && go l' m'
         | _, _ => false
         end) l m
  | VDict d, VDict e =>
      (fix go d e :=
         match d, e with
         | [], [] => true
         | (k, x) :: d', (k', y) :: e' => String.eqb k k' && pyval_eqb x y && go d' e'
         | _, _ => false
         end) d e
  | _, _ => false
  end.

Lemma pyval_eqb_eq v w : pyval_eqb v w = true ↔ v = w.
Proof.
  revert w. induction v as [|b|z|q|s|l IH|d IH] using pyval_rect';
    intros w; destruct w as [|b'|z'|q'|s'|m|e]; simpl; try (split; congruence).
  - rewrite Bool.eqb_true_iff. split; congruence.
  - rewrite Z.eqb_eq. split; congruence.
  - rewrite andb_true_iff, Z.eqb_eq, Pos.eqb_eq. destruct q, q'; simpl.
    split; [by intros [-> ->]|by intros [= -> ->]].
  - rewrite String.eqb_eq. split; congruence.
  - trans (l = m); [|split; congruence].
    revert m. induction IH as [|x l Hx _ IHl]; intros [|y m]; try (split; congruence).
    rewrite andb_true_iff, Hx, IHl. split; [intros [-> ->]|intros [= -> ->]]; done.
  - trans (d = e); [|split; congruence].
    revert e. induction IH as [|[k x] d Hx _ IHd]; intros [|[k' y] e]; try (split; congruence).
    simpl in Hx. rewrite !andb_true_iff, String.eqb_eq, Hx, IHd.
    split; [intros [[-> ->] ->]|intros [= -> -> ->]]; done.
Qed.

#[export] Instance pyval_eq_dec : EqDecision pyval.
Proof.
  refine (λ v w, cast_if (decide (pyval_eqb v w = true))); by rewrite <- pyval_eqb_eq.
Defined.

(** ** Clock readings *)

Definition usec_per_sec : Z := 1000000.

(** Year, month and day of a day number counted from 1970-01-01. *)
Definition civil_of_days (n : Z) : Z * Z * Z :=
  let z := (n + 719468)%Z in
  let era := (z / 146097)%Z in
  let doe := (z mod 146097)%Z in
  let yoe := ((doe - doe / 1460 + doe / 36524 - doe / 146096) / 365)%Z in
  let doy := (doe - (365 * yoe + yoe / 4 - yoe / 100))%Z in
  let mp := ((5 * doy + 2) / 153)%Z in
  let d := (doy - (153 * mp + 2) / 5 + 1)%Z in
  let m := (if mp <? 10 then mp + 3 else mp - 9)%Z in
  ((yoe + era * 400 + (if m <=? 2 then 1 else 0))%Z, m, d).

Definition str_pad (w : nat) (z : Z) : string :=
  let s := str_of_Z z in str_zeros (w - str_len s) +:+ s.

(** [datetime.isoformat()]: the fraction appears only when it is not zero. *)
Definition isoformat_naive (t : Z) : string :=
  let '(y, m, d) := civil_of_days (t / (86400 * usec_per_sec)) in
  let u := (t mod (86400 * usec_per_sec))%Z in
  let s := (u / usec_per_sec)%Z in
  let f := (u mod usec_per_sec)%Z in
  str_pad 4 y +:+ "-" +:+ str_pad 2 m +:+ "-" +:+ str_pad 2 d +:+ "T"
  +:+ str_pad 2 (s / 3600) +:+ ":" +:+ str_pad 2 (s / 60 mod 60)
  +:+ ":" +:+ str_pad 2 (s mod 60)
  +:+ (if (f =? 0)%Z then ε else "." +:+ str_pad 6 f).

Definition isoformat (t : Z) : string := isoformat_naive t +:+ "+00:00".

(** Round half to even of [q * scale]. *)
Definition round_scaled (scale : Z) (q : Q) : Z :=
  let n := (Qnum q * scale)%Z in
  let d := Zpos (Qden q) in
  let f := (n / d)%Z in
  let r := (n mod d)%Z in
  if (2 * r <? d)%Z then f
  else if (d <? 2 * r)%Z then (f + 1)%Z
  else if Z.even f then f else (f + 1)%Z.

(** [round(q, 2)] *)
Definition py_round2 (q : Q) : Q := round_scaled 100 q # 100.

(** [f"{q:.1f}"] *)
Definition format_1f (q : Q) : string :=
  let n := Z.abs (round_scaled 10 q) in
  (if (Qnum q <? 0)%Z then "-" else ε)
  +:+ str_of_Z (n / 10) +:+ "." +:+ str_of_Z (n mod 10).

Definition VOptStr (o : option string) : pyval :=
  match o with Some s => VStr s | None => VNone end.

Example isoformat_epoch : isoformat 0 = "1970-01-01T00:00:00+00:00".
Proof. reflexivity. Qed.
Example isoformat_leap_day :
  isoformat 1709210096000123 = "2024-02-29T12:34:56.000123+00:00".
Proof. vm_compute. reflexivity. Qed.
Example format_1f_half : format_1f (1 # 4) = "0.2" ∧ format_1f (59 # 1) = "59.0".
Proof. vm_compute. done. Qed.
