(* ===== verification/PyText.v ===== *)
(** * Built-ins on dynamic values: truth, text, iteration, trimming

    [bool(v)], [str(v)], [repr(v)], [iter(v)] and [str.strip] as the source uses
    them on values of unknown type. The repr of a float is an argument.
    A string is UTF-8: [strip] removes the characters Python calls white space,
    and iteration goes by characters. *)
From S2P Require Import Prelude PyStr PyDict PyVal.
From Stdlib Require Import Ascii.

(** [if v:] *)
Definition py_truth (v : pyval) : bool :=
  match v with
  | VNone => false
  | VBool b => b
  | VInt z => negb (z =? 0)%Z
  | VFloat q => negb (Qeq_bool q 0)
  | VStr s => truthy s
  | VList l => match l with [] => false | _ => true end
  | VDict d => match d with [] => false | _ => true end
  end.

Section Text.
Variable float_repr : Q → string.

(** [repr(v)] *)
Fixpoint py_repr (v : pyval) : string :=
  match v with
  | VNone => "None"
  | VBool b => if b then "True" else "False"
  | VInt z => str_of_Z z
  | VFloat q => float_repr q
  | VStr s => str_repr s
  | VList l => "[" +:+ str_join ", " (map py_repr l) +:+ "]"
  | VDict d => "{" +:+ str_join ", " (map (λ kv, str_repr kv.1 +:+ ": " +:+ py_repr kv.2) d) +:+ "}"
  end.

(** [str(v)] *)
Definition py_str (v : pyval) : string :=
  match v with VStr s => s | _ => py_repr v end.
End Text.

Definition type_name (v : pyval) : string :=
  match v with
  | VNone => "NoneType" | VBool _ => "bool" | VInt _ => "int" | VFloat _ => "float"
  | VStr _ => "str" | VList _ => "list" | VDict _ => "dict"
  end.

Definition TypeError (msg : string) : exn := mkExn "TypeError" msg.

(** The characters of a string: a byte between 128 and 191 continues one. *)
Definition continues (s : string) : bool :=
  match s with String c _ => (128 <=? nat_of_ascii c)%nat && (nat_of_ascii c <? 192)%nat | ε => false end.
Fixpoint chars (s : string) : list string :=
  match s with
  | ε => []
  | String c s' =>
      match chars s' with
      | t :: ts => if continues t then String c t :: ts else String c ε :: t :: ts
      | [] => [String c ε]
      end
  end.

(** [list(iter(v))] *)
Definition py_iter (v : pyval) : outcome (list pyval) :=
  match v with
  | VList l => Ok l
  | VDict d => Ok (map VStr (dict_keys d))
  | VStr s => Ok (map VStr (chars s))
  | _ => Raise (TypeError ("'" +:+ type_name v +:+ "' object is not iterable"))
  end.

Definition is_space (c : ascii) : bool :=
  let n := nat_of_ascii c in
  ((9 <=? n)%nat && (n <=? 13)%nat) || ((28 <=? n)%nat && (n <=? 32)%nat).

(** The white space beyond ASCII, as the two or three bytes of its UTF-8. *)
Definition is_byte (n : nat) (c : ascii) : bool := (nat_of_ascii c =? n)%nat.
Definition is_space2 (c d : ascii) : bool := is_byte 194 c && (is_byte 133 d || is_byte 160 d).
Definition is_space3 (c d e : ascii) : bool :=
  (is_byte 225 c && is_byte 154 d && is_byte 128 e)
  || (is_byte 226 c && is_byte 128 d
      && ((128 <=? nat_of_ascii e)%nat && (nat_of_ascii e <=? 138)%nat
          || is_byte 168 e || is_byte 169 e || is_byte 175 e))
  || (is_byte 226 c && is_byte 129 d && is_byte 159 e)
  || (is_byte 227 c && is_byte 128 d && is_byte 128 e).

Fixpoint str_lstrip (s : string) : string :=
  match s with
  | ε => ε
  | String c s1 =>
      if is_space c then str_lstrip s1
      else match s1 with
      | ε => s
      | String d s2 =>
          if is_space2 c d then str_lstrip s2
          else match s2 with
          | ε => s
          | String e s3 => if is_space3 c d e then str_lstrip s3 else s
          end
      end
  end.

(** What is left once no suffix of white space is. *)
Fixpoint str_rstrip (s : string) : string :=
  match s with
  | ε => ε
  | String c s' => match str_lstrip s with ε => ε | _ => String c (str_rstrip s') end
  end.

(** [s.strip()] *)
Definition str_strip (s : string) : string := str_rstrip (str_lstrip s).

(** A string starts with a character: white space, which is dropped, or not. *)
Lemma lstrip_cases s :
  str_lstrip s = s
  ∨ ∃ p t, s = p +:+ t ∧ p ≠ ε ∧ str_lstrip s = str_lstrip t
      ∧ ∀ u, str_lstrip (p +:+ u) = str_lstrip u.
Proof.
  destruct s as [|c s1]; [by left|]. cbn [str_lstrip]. destruct (is_space c) eqn:H1.
  { right. exists (String c ε), s1. split_and!; [done..|]. intros u. cbn. by rewrite H1. }
  destruct s1 as [|d s2]; [by left|]. destruct (is_space2 c d) eqn:H2.
  { right. exists (String c (String d ε)), s2. split_and!; [done..|]. intros u. cbn. by rewrite H1, H2. }
  destruct s2 as [|e s3]; [by left|]. destruct (is_space3 c d e) eqn:H3; [|by left].
  right. exists (String c (String d (String e ε))), s3. split_and!; [done..|].
  intros u. cbn. by rewrite H1, H2, H3.
Qed.

(** Induction on the white space in front. *)
Lemma lstrip_ind (P : string → Prop) :
  (∀ s, str_lstrip s = s → P s) →
  (∀ p t, (∀ u, str_lstrip (p +:+ u) = str_lstrip u) → P t → P (p +:+ t)) →
  ∀ s, P s.
Proof.
  intros Hfix Hdrop s. remember (str_len s) as n eqn:Hn. revert s Hn.
  induction n as [n IH] using lt_wf_ind. intros s ->.
  destruct (lstrip_cases s) as [?|(p & t & -> & Hp & _ & Hd)]; [by apply Hfix|].
  apply Hdrop; [done|]. eapply IH; [|done]. rewrite str_len_app. destruct p as [|c p]; [done|].
  unfold str_len. simpl. lia.
Qed.

Lemma lstrip_len s : (str_len (str_lstrip s) ≤ str_len s)%nat.
Proof.
  induction s as [s Hs|p t Hd IH] using lstrip_ind; [by rewrite Hs|]. rewrite Hd, str_len_app. lia.
Qed.

Lemma str_lstrip_fix s : str_lstrip (str_lstrip s) = str_lstrip s.
Proof.
  induction s as [s Hs|p t Hd IH] using lstrip_ind; [by rewrite !Hs|]. by rewrite !Hd.
Qed.

(** What ends with white space, and white space in front of anything. *)
Lemma blank_app p u : str_lstrip p = ε → str_lstrip (p +:+ u) = str_lstrip u.
Proof.
  induction p as [p Hp|q t Hd IH] using lstrip_ind; [by rewrite Hp; intros ->|].
  rewrite str_app_assoc, !Hd. exact IH.
Qed.

Lemma str_rstrip_split s : ∃ u, s = str_rstrip s +:+ u ∧ str_lstrip u = ε.
Proof.
  induction s as [|c s (u & Hs & Hu)]; [by exists ε|]. cbn [str_rstrip].
  destruct (str_lstrip (String c s)) eqn:Hl; [by exists (String c s)|].
  exists u. split; [|done]. cbn. by f_equal.
Qed.

Lemma str_rstrip_fix s : str_rstrip (str_rstrip s) = str_rstrip s.
Proof.
  induction s as [|c s IH]; [done|]. destruct (str_rstrip_split (String c s)) as (u & Hs & Hu).
  revert Hs. cbn [str_rstrip]. destruct (str_lstrip (String c s)) eqn:Hl; [done|]. intros Hs.
  cbn [str_rstrip]. destruct (str_lstrip (String c (str_rstrip s))) eqn:Hl'; [|by rewrite IH].
  apply (blank_app _ u) in Hl'. rewrite Hs, Hl', Hu in Hl. done.
Qed.

(** Cutting off the end uncovers no white space in front. *)
Lemma lstrip_prefix p u : str_lstrip (p +:+ u) = p +:+ u → str_lstrip p = p.
Proof.
  intros H. destruct (lstrip_cases p) as [?|(q & t & -> & Hq & _ & Hd)]; [done|]. exfalso.
  rewrite str_app_assoc, Hd in H. pose proof (lstrip_len (t +:+ u)) as Hl.
  rewrite H, str_len_app in Hl. destruct q as [|c q]; [done|]. unfold str_len in Hl. simpl in Hl. lia.
Qed.

(** Trimming twice changes nothing more. *)
Lemma str_strip_idem s : str_strip (str_strip s) = str_strip s.
Proof.
  unfold str_strip. destruct (str_rstrip_split (str_lstrip s)) as (u & Hs & _).
  rewrite (lstrip_prefix _ u) by (rewrite <- Hs; apply str_lstrip_fix). apply str_rstrip_fix.
Qed.

Example demo_py_text :
  py_repr (λ _, "0.5") (VDict [("a", VList [VInt 1; VStr "x"; VNone])]) = "{'a': [1, 'x', None]}"
  ∧ str_strip "  a b  " = "a b"
  ∧ str_strip (String (ascii_of_nat 194) (String (ascii_of_nat 160) "a")) = "a".
Proof. vm_compute. done. Qed.
