(* ===== verification/ExecState.v ===== *)
(** * Execution and runtime life-cycle states ([kernel/state.py], [kernel/exceptions.py])

    The two state enumerations of the kernel, the transition table of an
    execution, and the typed errors of the runtime contract. The theorems say
    what the table allows: states only advance, so an execution makes at most
    five transitions, and the only way to [COMPLETED] is the full governance
    chain. *)
From S2P Require Import Prelude PyStr.

Inductive RuntimeState := RUNNING | DRAINING | STOPPED.

Inductive ExecutionState :=
| CREATED | VALIDATING | AUTHORIZED | EXECUTING | CHECKPOINTING
| COMPLETED | FAILED | HALTED.

#[export] Instance RuntimeState_eq_dec : EqDecision RuntimeState.
Proof. solve_decision. Defined.
#[export] Instance ExecutionState_eq_dec : EqDecision ExecutionState.
Proof. solve_decision. Defined.

Definition RuntimeState_value (s : RuntimeState) : string :=
  match s with RUNNING => "running" | DRAINING => "draining" | STOPPED => "stopped" end.

Definition ExecutionState_value (s : ExecutionState) : string :=
  match s with
  | CREATED => "CREATED" | VALIDATING => "VALIDATING" | AUTHORIZED => "AUTHORIZED"
  | EXECUTING => "EXECUTING" | CHECKPOINTING => "CHECKPOINTING"
  | COMPLETED => "COMPLETED" | FAILED => "FAILED" | HALTED => "HALTED"
  end.

Definition VALID_TRANSITIONS (s : ExecutionState) : list ExecutionState :=
  match s with
  | CREATED => [VALIDATING]
  | VALIDATING => [AUTHORIZED; FAILED; HALTED]
  | AUTHORIZED => [EXECUTING; FAILED; HALTED]
  | EXECUTING => [CHECKPOINTING; FAILED; HALTED]
  | CHECKPOINTING => [COMPLETED; HALTED]
  | COMPLETED | FAILED | HALTED => []
  end.

Definition is_valid_transition (current target : ExecutionState) : bool :=
  bool_decide (target ∈ VALID_TRANSITIONS current).

Definition get_valid_transitions (current : ExecutionState) : list ExecutionState :=
  VALID_TRANSITIONS current.

(** ** Errors of the runtime contract *)

Definition str_quote (s : string) : string := "'" +:+ s +:+ "'".
Definition str_list_repr (l : list string) : string :=
  "[" +:+ str_join ", " (map str_quote l) +:+ "]".

Definition PolicyRejectionError (reason : string) : exn :=
  mkExn "PolicyRejectionError" ("Policy rejected: " +:+ reason).
Definition CapabilityNotFoundError (action agent_id : string) : exn :=
  mkExn "CapabilityNotFoundError"
    ("No capability for action '" +:+ action +:+ "' on agent '" +:+ agent_id +:+ "'").
Definition CapabilityDeniedError (capability_name reason : string) : exn :=
  mkExn "CapabilityDeniedError"
    ("Capability '" +:+ capability_name +:+ "' denied: " +:+ reason).
Definition OrchestrationError (reason : string) : exn :=
  mkExn "OrchestrationError" ("Orchestration failed: " +:+ reason).
Definition GatewayAccessError (tool reason : string) : exn :=
  mkExn "GatewayAccessError"
    ("Gateway access failed for tool '" +:+ tool +:+ "': " +:+ reason).
Definition CheckpointPersistenceError (operation reason : string) : exn :=
  mkExn "CheckpointPersistenceError"
    ("Checkpoint " +:+ operation +:+ " failed: " +:+ reason).
Definition InvalidStateTransitionError (current target : string) (valid : list string) : exn :=
  mkExn "InvalidStateTransitionError"
    ("Invalid transition: " +:+ current +:+ " → " +:+ target
     +:+ ". Valid: " +:+ str_list_repr valid).

(** ** What the table allows *)

Definition edge (a b : ExecutionState) : Prop := is_valid_transition a b = true.

Definition is_terminal (s : ExecutionState) : bool :=
  match s with COMPLETED | FAILED | HALTED => true | _ => false end.

(** A sequence of states whose consecutive members are transitions. *)
Fixpoint is_path (l : list ExecutionState) : bool :=
  match l with
  | a :: ((b :: _) as l') => is_valid_transition a b && is_path l'
  | _ => true
  end.

Definition exec_rank (s : ExecutionState) : nat :=
  match s with
  | CREATED => 0 | VALIDATING => 1 | AUTHORIZED => 2 | EXECUTING => 3
  | CHECKPOINTING => 4 | COMPLETED | FAILED | HALTED => 5
  end.

Lemma edge_rank a b : edge a b → (exec_rank a < exec_rank b)%nat.
Proof.
  unfold edge, is_valid_transition. rewrite bool_decide_eq_true.
  destruct a; simpl; rewrite ?elem_of_cons, ?elem_of_nil;
    intros; destruct_or?; subst; simpl; try lia; done.
Qed.

Lemma terminal_no_edge a b : is_terminal a = true → is_valid_transition a b = false.
Proof. by destruct a, b. Qed.

Lemma is_path_cons a b l :
  is_path (a :: b :: l) = is_valid_transition a b && is_path (b :: l).
Proof. done. Qed.

Lemma is_path_rank a l : is_path (a :: l) = true → (length l + exec_rank a ≤ 5)%nat.
Proof.
  revert a. induction l as [|b l IH]; intros a.
  - destruct a; simpl; lia.
  - rewrite is_path_cons, andb_true_iff. intros [Hab Hl].
    apply edge_rank in Hab. specialize (IH b Hl). simpl. lia.
Qed.

(** Every path that starts at [a] and completes, by enumeration of the table. *)
Lemma completed_suffix a l :
  is_path (a :: l) = true → last (a :: l) = Some COMPLETED →
  match a with
  | CREATED => l = [VALIDATING; AUTHORIZED; EXECUTING; CHECKPOINTING; COMPLETED]
  | VALIDATING => l = [AUTHORIZED; EXECUTING; CHECKPOINTING; COMPLETED]
  | AUTHORIZED => l = [EXECUTING; CHECKPOINTING; COMPLETED]
  | EXECUTING => l = [CHECKPOINTING; COMPLETED]
  | CHECKPOINTING => l = [COMPLETED]
  | COMPLETED => l = []
  | FAILED | HALTED => False
  end.
Proof.
  revert a. induction l as [|b l IH]; intros a.
  - destruct a; simpl; congruence.
  - rewrite is_path_cons, andb_true_iff. intros [Hab Hl] Hlast.
    specialize (IH b Hl Hlast). destruct a, b; done || (by rewrite IH).
Qed.

(** An execution that starts in [CREATED] and reaches [COMPLETED] went
    through the whole governance chain, in order, and through nothing else. *)
Theorem exec_completes_only_by_chain (l : list ExecutionState) :
  is_path (CREATED :: l) = true →
  last (CREATED :: l) = Some COMPLETED →
  CREATED :: l = [CREATED; VALIDATING; AUTHORIZED; EXECUTING; CHECKPOINTING; COMPLETED].
Proof. intros Hp Hlast. by rewrite (completed_suffix _ _ Hp Hlast). Qed.

Lemma exec_completes_only_by_chain_witness :
  is_path [CREATED; VALIDATING; AUTHORIZED; EXECUTING; CHECKPOINTING; COMPLETED] = true
  ∧ [CREATED; VALIDATING; AUTHORIZED; EXECUTING; CHECKPOINTING; COMPLETED]
    = [CREATED; VALIDATING; AUTHORIZED; EXECUTING; CHECKPOINTING; COMPLETED].
Proof.
  split; [vm_compute; reflexivity|].
  apply (exec_completes_only_by_chain
           [VALIDATING; AUTHORIZED; EXECUTING; CHECKPOINTING; COMPLETED]);
    vm_compute; reflexivity.
Defined.

(** The table has no cycle and no run of more than five transitions: every
    path of execution states has at most six members, and one that cannot be
    extended ends in a terminal state. *)
Theorem exec_state_terminates (a : ExecutionState) (l : list ExecutionState) :
  is_path (a :: l) = true →
  (length (a :: l) ≤ 6)%nat
  ∧ ∀ z, last (a :: l) = Some z →
      (get_valid_transitions z = [] ↔ is_terminal z = true).
Proof.
  intros Hp. split.
  - pose proof (is_path_rank _ _ Hp). simpl. lia.
  - intros z _. by destruct z.
Qed.

Lemma exec_state_terminates_witness :
  is_path [CREATED; VALIDATING; HALTED] = true
  ∧ (length [CREATED; VALIDATING; HALTED] ≤ 6)%nat.
Proof.
  split; [vm_compute; reflexivity|].
  apply (exec_state_terminates CREATED [VALIDATING; HALTED]). vm_compute; reflexivity.
Defined.

(** The module comment says every non-terminal state may go to [HALTED];
    the table has no such transition from [CREATED]. *)
Lemma created_cannot_halt : is_valid_transition CREATED HALTED = false.
Proof. reflexivity. Qed.
