(* ===== verification/Budget.v ===== *)
(** * Execution budget ([kernel/resources/budget.py])

    The step, token and time limits of a loop. Every property that looks at the
    time takes the clock reading [now] it makes, in microseconds;
    [timeout_seconds] is in seconds. *)
From S2P Require Import Prelude PyStr PyDict PyVal.

Record ExecutionBudget := mkBudget {
  max_steps : Z;
  max_tokens : Z;
  timeout_seconds : Z;
  current_steps : Z;
  tokens_consumed : Z;
  started_at : option Z
}.

(** [ExecutionBudget(max_steps=.., max_tokens=.., timeout_seconds=..)] *)
Definition ExecutionBudget_new (steps tokens timeout : Z) : ExecutionBudget :=
  mkBudget steps tokens timeout 0 0 None.

Definition ExecutionBudget_default : ExecutionBudget :=
  ExecutionBudget_new 10 100000 3600.

Definition budget_start (now : Z) (b : ExecutionBudget) : ExecutionBudget :=
  match started_at b with
  | None => mkBudget (max_steps b) (max_tokens b) (timeout_seconds b)
              (current_steps b) (tokens_consumed b) (Some now)
  | Some _ => b
  end.

Definition steps_remaining (b : ExecutionBudget) : Z :=
  Z.max 0 (max_steps b - current_steps b).

Definition tokens_remaining (b : ExecutionBudget) : Z :=
  Z.max 0 (max_tokens b - tokens_consumed b).

Definition is_steps_exhausted (b : ExecutionBudget) : bool :=
  (current_steps b >=? max_steps b)%Z.

Definition is_tokens_exhausted (b : ExecutionBudget) : bool :=
  (tokens_consumed b >=? max_tokens b)%Z.

Definition is_timeout (now : Z) (b : ExecutionBudget) : bool :=
  match started_at b with
  | None => false
  | Some t0 => (now - t0 >? timeout_seconds b * usec_per_sec)%Z
  end.

Definition is_exhausted (now : Z) (b : ExecutionBudget) : bool :=
  is_steps_exhausted b || is_tokens_exhausted b || is_timeout now b.

Definition BudgetExhaustedError (steps tokens msteps mtokens : Z) : exn :=
  mkExn "BudgetExhaustedError"
    ("Budget exhausted: steps=" +:+ str_of_Z steps +:+ "/" +:+ str_of_Z msteps
     +:+ ", tokens=" +:+ str_of_Z tokens +:+ "/" +:+ str_of_Z mtokens).

Definition consume_step (now tokens : Z) : M ExecutionBudget unit := λ b,
  if is_exhausted now b then
    (Raise (BudgetExhaustedError (current_steps b) (tokens_consumed b)
              (max_steps b) (max_tokens b)), b)
  else
    (Ok tt, mkBudget (max_steps b) (max_tokens b) (timeout_seconds b)
              (current_steps b + 1) (tokens_consumed b + tokens) (started_at b)).

Definition budget_reset (b : ExecutionBudget) : ExecutionBudget :=
  mkBudget (max_steps b) (max_tokens b) (timeout_seconds b) 0 0 None.

Definition budget_to_dict (now : Z) (b : ExecutionBudget) : dict pyval :=
  [ ("max_steps", VInt (max_steps b));
    ("max_tokens", VInt (max_tokens b));
    ("timeout_seconds", VInt (timeout_seconds b));
    ("current_steps", VInt (current_steps b));
    ("tokens_consumed", VInt (tokens_consumed b));
    ("started_at", match started_at b with Some t => VStr (isoformat t) | None => VNone end);
    ("is_exhausted", VBool (is_exhausted now b));
    ("steps_remaining", VInt (steps_remaining b));
    ("tokens_remaining", VInt (tokens_remaining b)) ].

(** [n] calls of [consume_step] at the same reading; the number that succeed. *)
Fixpoint consume_steps (n : nat) (now tokens : Z) (b : ExecutionBudget)
    : nat * ExecutionBudget :=
  match n with
  | 0%nat => (0%nat, b)
  | S n' =>
      match consume_step now tokens b with
      | (Ok _, b') => let '(k, b'') := consume_steps n' now tokens b' in (S k, b'')
      | (Raise _, b') => consume_steps n' now tokens b'
      end
  end.

(** The operations on a budget, as a step relation. *)
Inductive budget_step (cost : Z) : ExecutionBudget → ExecutionBudget → Prop :=
| bs_start now b : budget_step cost b (budget_start now b)
| bs_consume now t b o b' :
    (0 ≤ t ≤ cost)%Z → consume_step now t b = (o, b') → budget_step cost b b'
| bs_reset b : budget_step cost b (budget_reset b).

Record budget_inv (cost : Z) (b0 b : ExecutionBudget) : Prop := {
  binv_limits : max_steps b = max_steps b0 ∧ max_tokens b = max_tokens b0
                ∧ timeout_seconds b = timeout_seconds b0;
  binv_steps : (0 ≤ current_steps b ≤ Z.max 0 (max_steps b0))%Z;
  binv_tokens : (0 ≤ tokens_consumed b ≤ Z.max 0 (max_tokens b0 - 1 + cost))%Z
}.

(** ** Lemmas *)

Lemma is_exhausted_false now b :
  is_exhausted now b = false →
  (current_steps b < max_steps b)%Z ∧ (tokens_consumed b < max_tokens b)%Z
  ∧ is_timeout now b = false.
Proof.
  unfold is_exhausted, is_steps_exhausted, is_tokens_exhausted. intros H. b2p.
  repeat split; try lia; done.
Qed.

Lemma consume_step_ok now t b b' :
  consume_step now t b = (Ok tt, b') ↔
  is_exhausted now b = false
  ∧ b' = mkBudget (max_steps b) (max_tokens b) (timeout_seconds b)
           (current_steps b + 1) (tokens_consumed b + t) (started_at b).
Proof. unfold consume_step. case_match; naive_solver. Qed.

Lemma consume_step_raise now t b e b' :
  consume_step now t b = (Raise e, b') → is_exhausted now b = true ∧ b' = b.
Proof. unfold consume_step. case_match; naive_solver. Qed.

Lemma budget_step_inv cost b0 b b' :
  (0 ≤ cost)%Z → budget_inv cost b0 b → budget_step cost b b' → budget_inv cost b0 b'.
Proof.
  intros Hc [(H1 & H2 & H3) H4 H5] Hs. destruct Hs as [now b|now t b o b' Ht Hco|b].
  - unfold budget_start. case_match; by split.
  - destruct o as [[]|e].
    + apply consume_step_ok in Hco as [Hx ->]. apply is_exhausted_false in Hx.
      split; simpl; [done|lia..].
    + by apply consume_step_raise in Hco as [_ ->].
  - split; simpl; [done|lia..].
Qed.

Lemma budget_inv_init cost b :
  (0 ≤ cost)%Z → current_steps b = 0%Z → tokens_consumed b = 0%Z → budget_inv cost b b.
Proof. intros. split; [done|lia..]. Qed.

Lemma consume_steps_exhausted n now t b :
  is_exhausted now b = true → consume_steps n now t b = (0%nat, b).
Proof.
  intros Hx. induction n as [|n IH]; simpl; [done|].
  unfold consume_step. by rewrite Hx.
Qed.

Lemma consume_steps_count n now b :
  (0 < max_tokens b)%Z → tokens_consumed b = 0%Z → is_timeout now b = false →
  (consume_steps n now 0 b).1 = (n `min` Z.to_nat (max_steps b - current_steps b))%nat.
Proof.
  revert b. induction n as [|n IH]; intros b Hmt Ht Hto; [done|]. cbn [consume_steps].
  destruct (is_exhausted now b) eqn:Hx.
  - unfold consume_step. rewrite Hx, consume_steps_exhausted by done. cbn [fst].
    unfold is_exhausted, is_steps_exhausted, is_tokens_exhausted in Hx.
    rewrite Hto, orb_false_r in Hx. apply orb_true_iff in Hx as [Hx|Hx]; b2p; lia.
  - destruct (is_exhausted_false _ _ Hx) as (? & ? & _).
    unfold consume_step. rewrite Hx. destruct (consume_steps n now 0 _) as [k b''] eqn:Hk.
    specialize (IH (mkBudget (max_steps b) (max_tokens b) (timeout_seconds b)
           (current_steps b + 1) (tokens_consumed b + 0) (started_at b))).
    rewrite Hk in IH. cbn [fst max_steps max_tokens tokens_consumed current_steps] in IH |- *.
    rewrite IH by (done || lia). lia.
Qed.

(** ** Properties *)

(** Under any sequence of [start], [consume_step] (each of at most [cost]
    tokens) and [reset] calls on a fresh budget, the limits never change, the
    step count never passes [max_steps], and the token count stays below
    [max_tokens] plus the cost of one step: the last step may overshoot. *)
Theorem budget_bounds (cost : Z) (b0 b : ExecutionBudget) :
  (0 ≤ cost)%Z → current_steps b0 = 0%Z → tokens_consumed b0 = 0%Z →
  star (budget_step cost) b0 b → budget_inv cost b0 b.
Proof.
  intros Hc Hs Ht. apply star_invariant; [|by apply budget_inv_init].
  intros x y. by apply budget_step_inv.
Qed.

Lemma budget_bounds_witness :
  let b := snd (consume_step 5 7 (ExecutionBudget_new 2 10 60)) in
  current_steps b = 1%Z ∧ budget_inv 7 (ExecutionBudget_new 2 10 60) b.
Proof.
  split; [vm_compute; reflexivity|].
  apply (budget_bounds 7 (ExecutionBudget_new 2 10 60)); [lia|done|done|].
  eapply star_one, (bs_consume 7 5 7 _ (Ok tt)); [lia|]. vm_compute; reflexivity.
Defined.

(** A started budget with tokens left admits exactly [max_steps] steps
    before its timeout: of [n] calls of [consume_step] the first
    [min n max_steps] succeed and the rest raise. *)
Theorem budget_admits_max_steps (n : nat) (now t0 : Z) (steps tokens timeout : Z) :
  (0 < tokens)%Z → (now - t0 ≤ timeout * usec_per_sec)%Z →
  (consume_steps n now 0 (budget_start t0 (ExecutionBudget_new steps tokens timeout))).1
  = (n `min` Z.to_nat steps)%nat.
Proof.
  intros Ht Hto. rewrite consume_steps_count; simpl; try done.
  - f_equal. lia.
  - unfold is_timeout; simpl. rewrite Z.gtb_ltb. apply Z.ltb_ge. lia.
Qed.

Lemma budget_admits_max_steps_witness :
  (consume_steps 5 30 0 (budget_start 10 (ExecutionBudget_new 3 100 60))).1 = 3%nat.
Proof. apply (budget_admits_max_steps 5 30 10 3 100 60); vm_compute; congruence. Defined.
