(* ===== verification/Tenant.v ===== *)
(** * Tenant model ([kernel/tenant.py])

    Resource limits, tenants and the tenant context an execution is bound to,
    with their validation. A [frozenset[str]] is a [gset string]; [sorted] of
    one is the code-point order of its elements. *)
From S2P Require Import Prelude PyStr PyDict PyVal.

Record ResourceLimits := mkLimits {
  max_agents : Z;
  max_steps_per_agent : Z;
  max_tokens_per_agent : Z;
  max_concurrent_executions : Z;
  max_checkpoints : Z
}.

Definition ResourceLimits_default : ResourceLimits := mkLimits 10 10 100000 5 100.

Definition ResourceLimits_to_dict (l : ResourceLimits) : dict pyval :=
  [ ("max_agents", VInt (max_agents l));
    ("max_steps_per_agent", VInt (max_steps_per_agent l));
    ("max_tokens_per_agent", VInt (max_tokens_per_agent l));
    ("max_concurrent_executions", VInt (max_concurrent_executions l));
    ("max_checkpoints", VInt (max_checkpoints l)) ].

Record TenantModel := mkTenant {
  t_tenant_id : string;
  t_name : string;
  t_policy_scope : string;
  t_resource_limits : ResourceLimits;
  t_allowed_capabilities : gset string;
  t_metadata : dict pyval
}.

(** Errors are appended in the order of the checks. *)
Definition check (b : bool) (msg : string) : list string := if b then [] else [msg].

Definition TenantModel_validate (t : TenantModel) : list string :=
  check (truthy (t_tenant_id t)) "tenant_id is required"
  ++ check (truthy (t_name t)) "name is required".

Definition TenantModel_is_valid (t : TenantModel) : bool :=
  Nat.eqb (length (TenantModel_validate t)) 0.

Definition sorted_set (s : gset string) : list string := py_sorted str_leb (elements s).

Definition TenantModel_to_dict (t : TenantModel) : dict pyval :=
  [ ("tenant_id", VStr (t_tenant_id t));
    ("name", VStr (t_name t));
    ("policy_scope", VStr (t_policy_scope t));
    ("resource_limits", VDict (ResourceLimits_to_dict (t_resource_limits t)));
    ("allowed_capabilities", VList (map VStr (sorted_set (t_allowed_capabilities t))));
    ("metadata", VDict (t_metadata t)) ].

Record TenantContext := mkContext {
  c_tenant_id : string;
  c_agent_id : string;
  c_allowed_capabilities : gset string;
  c_resource_limits : ResourceLimits
}.

Definition TenantContext_validate (c : TenantContext) : list string :=
  check (truthy (c_tenant_id c)) "tenant_id is required"
  ++ check (truthy (c_agent_id c)) "agent_id is required".

Definition TenantContext_is_valid (c : TenantContext) : bool :=
  Nat.eqb (length (TenantContext_validate c)) 0.

(** An empty set of capabilities places no restriction. *)
Definition has_capability (c : TenantContext) (capability : string) : bool :=
  if decide (c_allowed_capabilities c = ∅) then true
  else bool_decide (capability ∈ c_allowed_capabilities c).

Definition TenantContext_to_dict (c : TenantContext) : dict pyval :=
  [ ("tenant_id", VStr (c_tenant_id c));
    ("agent_id", VStr (c_agent_id c));
    ("allowed_capabilities", VList (map VStr (sorted_set (c_allowed_capabilities c))));
    ("resource_limits", VDict (ResourceLimits_to_dict (c_resource_limits c))) ].

(** ** Lemmas *)

Lemma check_nil b msg : check b msg = [] ↔ b = true.
Proof. by destruct b. Qed.

Lemma TenantModel_is_valid_spec t :
  TenantModel_is_valid t = true ↔ t_tenant_id t ≠ ε ∧ t_name t ≠ ε.
Proof.
  unfold TenantModel_is_valid, TenantModel_validate.
  rewrite Nat.eqb_eq, length_zero_iff_nil, app_nil, !check_nil, !truthy_true. done.
Qed.

Lemma TenantContext_is_valid_spec c :
  TenantContext_is_valid c = true ↔ c_tenant_id c ≠ ε ∧ c_agent_id c ≠ ε.
Proof.
  unfold TenantContext_is_valid, TenantContext_validate.
  rewrite Nat.eqb_eq, length_zero_iff_nil, app_nil, !check_nil, !truthy_true. done.
Qed.

Lemma sorted_set_elem s x : x ∈ sorted_set s ↔ x ∈ s.
Proof. unfold sorted_set. by rewrite py_sorted_perm, elem_of_elements. Qed.
