(* ===== verification/Isolation.v ===== *)
(** * Isolation boundary ([kernel/isolation.py])

    Tenants, agents and the number of active executions per tenant, with the
    checks every state access, checkpoint access and execution goes through. *)
From S2P Require Import Prelude PyStr PyDict PyVal Tenant.

(** ** Errors *)

Inductive IsolationError :=
| TenantNotFoundError (tenant_id : string)
| AgentNotInTenantError (agent_id expected_tenant actual_tenant : string)
| CrossTenantAccessError (requesting_tenant target_tenant resource : string)
| CrossAgentAccessError (requesting_agent target_agent resource : string)
| MissingTenantContextError
| ResourceLimitExceededError (tenant_id limit_type : string) (current max_val : Z).

Definition IsolationError_class (e : IsolationError) : string :=
  match e with
  | TenantNotFoundError _ => "TenantNotFoundError"
  | AgentNotInTenantError _ _ _ => "AgentNotInTenantError"
  | CrossTenantAccessError _ _ _ => "CrossTenantAccessError"
  | CrossAgentAccessError _ _ _ => "CrossAgentAccessError"
  | MissingTenantContextError => "MissingTenantContextError"
  | ResourceLimitExceededError _ _ _ _ => "ResourceLimitExceededError"
  end.

Definition IsolationError_str (e : IsolationError) : string :=
  match e with
  | TenantNotFoundError t => "Tenant not found: " +:+ t
  | AgentNotInTenantError a exp act =>
      "Agent '" +:+ a +:+ "' not in tenant '" +:+ exp
      +:+ "' (registered with '" +:+ act +:+ "')"
  | CrossTenantAccessError r t res =>
      "Cross-tenant access denied: tenant '" +:+ r
      +:+ "' cannot access '" +:+ res +:+ "' in tenant '" +:+ t +:+ "'"
  | CrossAgentAccessError r t res =>
      "Cross-agent access denied: agent '" +:+ r
      +:+ "' cannot access '" +:+ res +:+ "' owned by agent '" +:+ t +:+ "'"
  | MissingTenantContextError => "No tenant context — execution denied"
  | ResourceLimitExceededError t l c m =>
      "Resource limit exceeded for tenant '" +:+ t +:+ "': "
      +:+ l +:+ " = " +:+ str_of_Z c +:+ " > " +:+ str_of_Z m
  end.

Definition iso_exn (e : IsolationError) : exn :=
  mkExn (IsolationError_class e) (IsolationError_str e).

(** ** State *)

Record AgentRecord := mkAgent {
  ar_agent_id : string;
  ar_tenant_id : string;
  ar_registered_at : Z
}.

Record IsolationBoundary := mkIso {
  iso_tenants : dict TenantModel;
  iso_agents : dict AgentRecord;
  iso_execution_counts : dict Z
}.

Definition IsolationBoundary_new : IsolationBoundary := mkIso [] [] [].

(** ** Registration *)

Definition register_tenant (tenant : TenantModel) : M IsolationBoundary unit := λ b,
  if TenantModel_is_valid tenant then
    (Ok tt, mkIso (dict_set (t_tenant_id tenant) tenant (iso_tenants b))
              (iso_agents b) (iso_execution_counts b))
  else
    (Raise (mkExn "ValueError"
       ("Invalid tenant: [" +:+
        str_join ", " (map (λ s, "'" +:+ s +:+ "'") (TenantModel_validate tenant))
        +:+ "]")), b).

Definition register_agent (now : Z) (agent_id tenant_id : string)
    : M IsolationBoundary unit := λ b,
  if dict_mem tenant_id (iso_tenants b) then
    (Ok tt, mkIso (iso_tenants b)
              (dict_set agent_id (mkAgent agent_id tenant_id now) (iso_agents b))
              (iso_execution_counts b))
  else (Raise (iso_exn (TenantNotFoundError tenant_id)), b).

Definition get_tenant (b : IsolationBoundary) (tenant_id : string) : option TenantModel :=
  dict_get tenant_id (iso_tenants b).

Definition get_agent_tenant (b : IsolationBoundary) (agent_id : string) : option string :=
  ar_tenant_id <$> dict_get agent_id (iso_agents b).

Definition list_tenants (b : IsolationBoundary) : list string := dict_keys (iso_tenants b).

Definition list_agents (b : IsolationBoundary) (tenant_id : string) : list string :=
  map ar_agent_id
    (filter (λ a, ar_tenant_id a = tenant_id) (dict_values (iso_agents b))).

(** ** Validation *)

Definition validate_agent_scope (b : IsolationBoundary) (agent_id tenant_id : string)
    : outcome bool :=
  match dict_get agent_id (iso_agents b) with
  | None => Raise (iso_exn (AgentNotInTenantError agent_id tenant_id "unregistered"))
  | Some r =>
      if decide (ar_tenant_id r = tenant_id) then Ok true
      else Raise (iso_exn (AgentNotInTenantError agent_id tenant_id (ar_tenant_id r)))
  end.

Definition validate_tenant_context (b : IsolationBoundary) (context : TenantContext)
    : outcome bool :=
  if negb (TenantContext_is_valid context) then Raise (iso_exn MissingTenantContextError)
  else match dict_get (c_tenant_id context) (iso_tenants b) with
       | None => Raise (iso_exn (TenantNotFoundError (c_tenant_id context)))
       | Some _ =>
           validate_agent_scope b (c_agent_id context) (c_tenant_id context) ≫= λ _, Ok true
       end.

Definition validate_state_owner (state_tenant state_agent request_tenant request_agent : string)
    : outcome bool :=
  if decide (state_tenant = request_tenant) then
    if decide (state_agent = request_agent) then Ok true
    else Raise (iso_exn (CrossAgentAccessError request_agent state_agent
                           ("state:" +:+ state_agent)))
  else Raise (iso_exn (CrossTenantAccessError request_tenant state_tenant
                         ("state:" +:+ state_agent))).

Definition validate_checkpoint_owner
    (checkpoint_tenant checkpoint_agent request_tenant request_agent : string)
    : outcome bool :=
  if decide (checkpoint_tenant = request_tenant) then
    if decide (checkpoint_agent = request_agent) then Ok true
    else Raise (iso_exn (CrossAgentAccessError request_agent checkpoint_agent
                           ("checkpoint:" +:+ checkpoint_agent)))
  else Raise (iso_exn (CrossTenantAccessError request_tenant checkpoint_tenant
                         ("checkpoint:" +:+ checkpoint_agent))).

(** ** Resource limits *)

Definition execution_count (b : IsolationBoundary) (tenant_id : string) : Z :=
  dict_get_or 0%Z tenant_id (iso_execution_counts b).

Definition check_resource_limits (b : IsolationBoundary) (tenant_id : string)
    : outcome unit :=
  match dict_get tenant_id (iso_tenants b) with
  | None => Raise (iso_exn (TenantNotFoundError tenant_id))
  | Some tenant =>
      let current_count := execution_count b tenant_id in
      let max_concurrent := max_concurrent_executions (t_resource_limits tenant) in
      if (current_count >=? max_concurrent)%Z then
        Raise (iso_exn (ResourceLimitExceededError tenant_id "concurrent_executions"
                          current_count max_concurrent))
      else Ok tt
  end.

Definition iso_start_execution (tenant_id : string) (b : IsolationBoundary)
    : IsolationBoundary :=
  mkIso (iso_tenants b) (iso_agents b)
    (dict_set tenant_id (execution_count b tenant_id + 1)%Z (iso_execution_counts b)).

Definition iso_end_execution (tenant_id : string) (b : IsolationBoundary)
    : IsolationBoundary :=
  mkIso (iso_tenants b) (iso_agents b)
    (dict_set tenant_id (Z.max 0 (execution_count b tenant_id - 1))%Z
       (iso_execution_counts b)).

Definition IsolationBoundary_to_dict (b : IsolationBoundary) : dict pyval :=
  [ ("tenants",
      VDict (map (λ '(tid, t), (tid, VDict (TenantModel_to_dict t))) (iso_tenants b)));
    ("agents",
      VDict (map (λ '(aid, r), (aid, VDict [ ("agent_id", VStr (ar_agent_id r));
                                             ("tenant_id", VStr (ar_tenant_id r)) ]))
               (iso_agents b)));
    ("execution_counts",
      VDict (map (λ '(tid, n), (tid, VInt n)) (iso_execution_counts b))) ].

(** ** The boundary as a transition system

    Every operation that changes the boundary, executions being started the way
    the runtime starts them: right after [check_resource_limits] let them. *)
Inductive iso_step : IsolationBoundary → IsolationBoundary → Prop :=
| is_register_tenant t b o b' : register_tenant t b = (o, b') → iso_step b b'
| is_register_agent now a t b o b' : register_agent now a t b = (o, b') → iso_step b b'
| is_start t b : check_resource_limits b t = Ok tt → iso_step b (iso_start_execution t b)
| is_end t b : iso_step b (iso_end_execution t b).

Record iso_inv (b : IsolationBoundary) : Prop := {
  iinv_tenants_wf : dict_wf (iso_tenants b);
  iinv_agents_wf : dict_wf (iso_agents b);
  iinv_tenants : ∀ k t, dict_get k (iso_tenants b) = Some t →
    t_tenant_id t = k ∧ TenantModel_is_valid t = true;
  iinv_agents : ∀ a r, dict_get a (iso_agents b) = Some r →
    ar_agent_id r = a ∧ is_Some (dict_get (ar_tenant_id r) (iso_tenants b));
  iinv_counts : ∀ t, (0 ≤ execution_count b t)%Z
}.

(** ** Lemmas *)

Lemma execution_count_set b t n t' :
  execution_count (mkIso (iso_tenants b) (iso_agents b)
                     (dict_set t n (iso_execution_counts b))) t'
  = if decide (t' = t) then n else execution_count b t'.
Proof.
  unfold execution_count, dict_get_or; simpl. rewrite dict_get_set. by case_decide.
Qed.

Lemma execution_count_start b t t' :
  execution_count (iso_start_execution t b) t'
  = if decide (t' = t) then (execution_count b t + 1)%Z else execution_count b t'.
Proof. apply execution_count_set. Qed.

Lemma execution_count_end b t t' :
  execution_count (iso_end_execution t b) t'
  = if decide (t' = t) then Z.max 0 (execution_count b t - 1) else execution_count b t'.
Proof. apply execution_count_set. Qed.

Lemma check_resource_limits_ok b t :
  check_resource_limits b t = Ok tt ↔
  ∃ tm, dict_get t (iso_tenants b) = Some tm
    ∧ (execution_count b t < max_concurrent_executions (t_resource_limits tm))%Z.
Proof.
  unfold check_resource_limits. destruct (dict_get t _) as [tm|].
  - case_match eqn:Hc; b2p; split; try done.
    + intros (? & [= <-] & ?). lia.
    + eauto.
  - split; [done|]. by intros (? & ? & ?).
Qed.

Lemma register_tenant_inv t b o b' :
  iso_inv b → register_tenant t b = (o, b') → iso_inv b'.
Proof.
  intros [H1 H2 H3 H4 H5]. unfold register_tenant.
  destruct (TenantModel_is_valid t) eqn:Hv; intros [= <- <-]; [|by split].
  split; simpl; eauto with kite.
  - intros k t'. rewrite dict_get_set. case_decide; [|apply H3].
    intros [= <-]. by subst.
  - intros a r Hr. destruct (H4 a r Hr) as [? ?]. split; [done|].
    rewrite dict_get_set. case_decide; [by eexists|done].
Qed.

Lemma register_agent_inv now a t b o b' :
  iso_inv b → register_agent now a t b = (o, b') → iso_inv b'.
Proof.
  intros [H1 H2 H3 H4 H5]. unfold register_agent.
  case_match eqn:Hm; intros [= <- <-]; [|by split].
  apply dict_mem_true in Hm. split; simpl; eauto with kite.
  intros a' r. rewrite dict_get_set. case_decide; [|apply H4].
  intros [= <-]. by subst.
Qed.

Lemma counts_inv b n t :
  (0 ≤ n)%Z → iso_inv b →
  iso_inv (mkIso (iso_tenants b) (iso_agents b) (dict_set t n (iso_execution_counts b))).
Proof.
  intros Hn [H1 H2 H3 H4 H5]. split; simpl; try done.
  intros t'. rewrite execution_count_set. by case_decide.
Qed.

Lemma iso_step_inv b b' : iso_inv b → iso_step b b' → iso_inv b'.
Proof.
  intros Hb Hs. destruct Hs; eauto using register_tenant_inv, register_agent_inv.
  - apply counts_inv; [|done]. pose proof (iinv_counts _ Hb t). lia.
  - apply counts_inv; [lia|done].
Qed.

Lemma iso_inv_new : iso_inv IsolationBoundary_new.
Proof. by split; simpl; eauto with kite. Qed.

Lemma validate_agent_scope_ok b a t :
  validate_agent_scope b a t = Ok true ↔
  ∃ r, dict_get a (iso_agents b) = Some r ∧ ar_tenant_id r = t.
Proof.
  unfold validate_agent_scope. destruct (dict_get a _) as [r|]; [|naive_solver].
  case_decide; naive_solver.
Qed.

(** Executions only: guarded starts and ends, in any interleaving. *)
Inductive iso_exec_step : IsolationBoundary → IsolationBoundary → Prop :=
| ies_start t b : check_resource_limits b t = Ok tt → iso_exec_step b (iso_start_execution t b)
| ies_end t b : iso_exec_step b (iso_end_execution t b).

Definition within_limits (b : IsolationBoundary) : Prop := ∀ t tm,
  dict_get t (iso_tenants b) = Some tm →
  (0 ≤ execution_count b t ≤ Z.max 0 (max_concurrent_executions (t_resource_limits tm)))%Z.

Lemma iso_exec_step_limits b b' :
  within_limits b → iso_exec_step b b' → within_limits b'.
Proof.
  intros Hb Hs t' tm. destruct Hs as [t b Hc|t b]; simpl; intros Ht'; specialize (Hb t' tm Ht').
  - apply check_resource_limits_ok in Hc as (tm' & Ht & Hlt).
    rewrite execution_count_start. case_decide; simplify_eq; lia.
  - rewrite execution_count_end. case_decide; subst; lia.
Qed.

(** ** Properties *)

(** In every state the boundary can reach, tenants are valid and stored
    under their own identifier, every agent record is stored under its own
    identifier and belongs to a registered tenant, and no execution count is
    negative. *)
Theorem isolation_invariant (b : IsolationBoundary) :
  star iso_step IsolationBoundary_new b → iso_inv b.
Proof. apply star_invariant; eauto using iso_step_inv, iso_inv_new. Qed.

Definition iso_demo_tenant : TenantModel :=
  mkTenant "t1" "Tenant" "default" (mkLimits 10 10 1000 2 10) ∅ [].
Definition iso_demo : IsolationBoundary :=
  snd (register_agent 0 "a1" "t1" (snd (register_tenant iso_demo_tenant IsolationBoundary_new))).

Lemma isolation_invariant_witness :
  dict_keys (iso_agents iso_demo) = ["a1"] ∧ iso_inv iso_demo.
Proof.
  split; [vm_compute; reflexivity|]. apply isolation_invariant.
  eapply star_step; [eapply (is_register_tenant iso_demo_tenant _ (Ok tt)); vm_compute; reflexivity|].
  eapply star_one, (is_register_agent 0 "a1" "t1" _ (Ok tt)). vm_compute; reflexivity.
Defined.

(** A state or a checkpoint is handed over exactly to the agent of the
    tenant that owns it; every other request raises, the tenant boundary being
    checked before the agent boundary. *)
Theorem ownership_exact (ot oa rt ra : string) :
  (validate_state_owner ot oa rt ra = Ok true ↔ ot = rt ∧ oa = ra)
  ∧ (validate_checkpoint_owner ot oa rt ra = Ok true ↔ ot = rt ∧ oa = ra)
  ∧ (ot ≠ rt →
       validate_state_owner ot oa rt ra
       = Raise (iso_exn (CrossTenantAccessError rt ot ("state:" +:+ oa)))
       ∧ validate_checkpoint_owner ot oa rt ra
         = Raise (iso_exn (CrossTenantAccessError rt ot ("checkpoint:" +:+ oa))))
  ∧ (ot = rt → oa ≠ ra →
       validate_state_owner ot oa rt ra
       = Raise (iso_exn (CrossAgentAccessError ra oa ("state:" +:+ oa)))
       ∧ validate_checkpoint_owner ot oa rt ra
         = Raise (iso_exn (CrossAgentAccessError ra oa ("checkpoint:" +:+ oa)))).
Proof.
  unfold validate_state_owner, validate_checkpoint_owner.
  destruct (decide (ot = rt)) as [->|]; [destruct (decide (oa = ra)) as [->|]|];
    split_and!; (done || (by split; intros; destruct_and?)).
Qed.

(** A tenant context is accepted exactly when both identifiers are
    non-empty, the tenant is registered, and the agent is registered with that
    very tenant; the first check that fails decides the error. *)
Theorem tenant_context_accepted (b : IsolationBoundary) (c : TenantContext) :
  (validate_tenant_context b c = Ok true ↔
     c_tenant_id c ≠ ε ∧ c_agent_id c ≠ ε
     ∧ is_Some (get_tenant b (c_tenant_id c))
     ∧ get_agent_tenant b (c_agent_id c) = Some (c_tenant_id c))
  ∧ (TenantContext_is_valid c = false →
       validate_tenant_context b c = Raise (iso_exn MissingTenantContextError))
  ∧ (TenantContext_is_valid c = true → get_tenant b (c_tenant_id c) = None →
       validate_tenant_context b c
       = Raise (iso_exn (TenantNotFoundError (c_tenant_id c)))).
Proof.
  unfold validate_tenant_context, get_tenant, get_agent_tenant.
  pose proof (TenantContext_is_valid_spec c) as Hv.
  destruct (TenantContext_is_valid c); simpl.
  - destruct Hv as [[Ht Ha] _]; [done|].
    destruct (dict_get (c_tenant_id c) _) as [tm|].
    + unfold validate_agent_scope. split_and!; [|done|done].
      destruct (dict_get (c_agent_id c) _) as [r|]; simpl;
        [case_decide; simpl|].
      * split; [intros _; split_and!; [done|done|done|by f_equal]|done].
      * split; [done|]. intros (_ & _ & _ & [=]); done.
      * split; [done|]. by intros (_ & _ & _ & [=]).
    + split_and!; [|done|done]. split; [done|]. by intros (_ & _ & [? ?] & _).
  - split_and!; [|done|done]. split; [done|].
    intros (H1 & H2 & _). by specialize (proj2 Hv (conj H1 H2)).
Qed.

(** However guarded starts and ends of executions interleave, the number of
    active executions of a registered tenant stays between zero and the
    tenant's limit, and at the limit the next start is refused. *)
Theorem isolation_concurrency_bound (b b' : IsolationBoundary) (t : string) (tm : TenantModel) :
  within_limits b → star iso_exec_step b b' →
  dict_get t (iso_tenants b') = Some tm →
  let limit := max_concurrent_executions (t_resource_limits tm) in
  (0 ≤ execution_count b' t ≤ Z.max 0 limit)%Z
  ∧ (execution_count b' t = limit →
       check_resource_limits b' t
       = Raise (iso_exn (ResourceLimitExceededError t "concurrent_executions" limit limit))).
Proof.
  intros Hb Hs Ht limit.
  assert (within_limits b') as Hb' by (eapply star_invariant; eauto using iso_exec_step_limits).
  split; [by apply Hb'|]. intros Hc. unfold check_resource_limits. rewrite Ht, Hc.
  fold limit. by rewrite Z.geb_leb, Z.leb_refl.
Qed.

Lemma isolation_concurrency_bound_witness :
  let b := iso_start_execution "t1" (iso_start_execution "t1" iso_demo) in
  (0 ≤ execution_count b "t1" ≤ Z.max 0 2)%Z
  ∧ (execution_count b "t1" = 2%Z →
     check_resource_limits b "t1"
     = Raise (iso_exn (ResourceLimitExceededError "t1" "concurrent_executions" 2 2))).
Proof.
  apply (isolation_concurrency_bound iso_demo _ "t1" iso_demo_tenant).
  - intros t tm. unfold iso_demo; simpl. case_decide; [|done].
    intros [= <-]. subst. vm_compute. split; congruence.
  - eapply star_step; [apply (ies_start "t1"); vm_compute; reflexivity|].
    eapply star_one, (ies_start "t1"). vm_compute; reflexivity.
  - vm_compute; reflexivity.
Defined.
