(* ===== verification/Quotas.v ===== *)
(** * Quotas and rate limiting ([api/rest/quotas.py])

    Per-tenant token buckets and the concurrent-execution quota. Token counts
    are exact rationals where the source has floats; a [time.time()] reading is
    passed as the integer number of microseconds it stands for. Each method
    is one atomic transition; [QuotaThreads] derives that from the locks. *)
From S2P Require Import Prelude PyStr PyDict PyVal.
From Stdlib Require Import QArith Qminmax Lqa.

(** ** Token buckets *)

Record TokenBucket := mkBucket {
  tb_tokens : Q;
  tb_max_tokens : Q;
  tb_refill_rate : Q;
  tb_last_refill : Z
}.

Record TokenBucketRateLimiter := mkLimiter {
  rl_max_tokens : Q;
  rl_refill_rate : Q;
  rl_buckets : dict TokenBucket
}.

Definition TokenBucketRateLimiter_new (max_tokens refill_rate : Q) : TokenBucketRateLimiter :=
  mkLimiter max_tokens refill_rate [].

(** Microseconds as seconds. *)
Definition seconds (us : Z) : Q := us # 1000000.

(** [_get_bucket] reads the clock only when it creates the bucket. *)
Definition get_bucket (now0 : Z) (tenant_id : string) (l : TokenBucketRateLimiter)
    : TokenBucket :=
  match dict_get tenant_id (rl_buckets l) with
  | Some b => b
  | None => mkBucket (rl_max_tokens l) (rl_max_tokens l) (rl_refill_rate l) now0
  end.

Definition put_bucket (tenant_id : string) (b : TokenBucket) (l : TokenBucketRateLimiter)
    : TokenBucketRateLimiter :=
  mkLimiter (rl_max_tokens l) (rl_refill_rate l) (dict_set tenant_id b (rl_buckets l)).

Definition refill (now : Z) (b : TokenBucket) : TokenBucket :=
  let elapsed := seconds (now - tb_last_refill b) in
  mkBucket (Qmin (tb_max_tokens b) (tb_tokens b + elapsed * tb_refill_rate b))
    (tb_max_tokens b) (tb_refill_rate b) now.

(** The body of [consume] on the tenant's bucket. *)
Definition bucket_consume (now : Z) (tokens : Q) (b : TokenBucket) : bool * TokenBucket :=
  let b1 := refill now b in
  if Qle_bool tokens (tb_tokens b1) then
    (true, mkBucket (tb_tokens b1 - tokens) (tb_max_tokens b1) (tb_refill_rate b1)
             (tb_last_refill b1))
  else (false, b1).

Definition consume (now0 now : Z) (tenant_id : string) (tokens : Q)
    : M TokenBucketRateLimiter bool := λ l,
  let '(ok, b) := bucket_consume now tokens (get_bucket now0 tenant_id l) in
  (Ok ok, put_bucket tenant_id b l).

(** [deficit / bucket.refill_rate] raises when the rate is zero. *)
Definition bucket_retry_after (b : TokenBucket) : outcome Q :=
  let deficit := 1 - tb_tokens b in
  if Qle_bool deficit 0 then Ok 0
  else if Qeq_bool (tb_refill_rate b) 0 then
    Raise (mkExn "ZeroDivisionError" "float division by zero")
  else Ok (deficit / tb_refill_rate b).

Definition rl_retry_after (now0 now : Z) (tenant_id : string)
    : M TokenBucketRateLimiter Q := λ l,
  let b := refill now (get_bucket now0 tenant_id l) in
  (bucket_retry_after b, put_bucket tenant_id b l).

Definition rl_reset (tenant_id : string) (l : TokenBucketRateLimiter)
    : TokenBucketRateLimiter :=
  mkLimiter (rl_max_tokens l) (rl_refill_rate l) (dict_del tenant_id (rl_buckets l)).

(** ** Quota manager *)

Record TenantQuotaConfig := mkQuotaConfig {
  max_concurrent : Z;
  max_total_per_minute : Z;
  max_steps_per_execution : Z
}.

Definition TenantQuotaConfig_default : TenantQuotaConfig := mkQuotaConfig 5 60 10.

Record QuotaManager := mkQuota {
  qm_rate_limiter : TokenBucketRateLimiter;
  qm_concurrent : dict (gset string);
  qm_configs : dict TenantQuotaConfig
}.

Definition QuotaManager_new (l : TokenBucketRateLimiter) : QuotaManager := mkQuota l [] [].

Definition configure (tenant_id : string) (config : TenantQuotaConfig) (q : QuotaManager)
    : QuotaManager :=
  mkQuota (qm_rate_limiter q) (qm_concurrent q) (dict_set tenant_id config (qm_configs q)).

Definition get_config (q : QuotaManager) (tenant_id : string) : TenantQuotaConfig :=
  dict_get_or TenantQuotaConfig_default tenant_id (qm_configs q).

Definition active_set (q : QuotaManager) (tenant_id : string) : gset string :=
  dict_get_or ∅ tenant_id (qm_concurrent q).

Definition concurrent_count (q : QuotaManager) (tenant_id : string) : Z :=
  Z.of_nat (size (active_set q tenant_id)).

Definition check_concurrent (q : QuotaManager) (tenant_id : string) : bool :=
  (concurrent_count q tenant_id <? max_concurrent (get_config q tenant_id))%Z.

Definition qm_start_execution (tenant_id execution_id : string) (q : QuotaManager)
    : QuotaManager :=
  mkQuota (qm_rate_limiter q)
    (dict_set tenant_id ({[execution_id]} ∪ active_set q tenant_id) (qm_concurrent q))
    (qm_configs q).

(** [if execs:] is false for a missing and for an empty set. *)
Definition qm_end_execution (tenant_id execution_id : string) (q : QuotaManager)
    : QuotaManager :=
  match dict_get tenant_id (qm_concurrent q) with
  | Some execs =>
      if decide (execs = ∅) then q
      else mkQuota (qm_rate_limiter q)
             (dict_set tenant_id (execs ∖ {[execution_id]}) (qm_concurrent q))
             (qm_configs q)
  | None => q
  end.

Definition put_limiter (l : TokenBucketRateLimiter) (q : QuotaManager) : QuotaManager :=
  mkQuota l (qm_concurrent q) (qm_configs q).

Definition check_and_consume_rate (now0 now : Z) (tenant_id : string) : M QuotaManager bool :=
  zoom qm_rate_limiter put_limiter (consume now0 now tenant_id 1).

Definition qm_retry_after (now0 now : Z) (tenant_id : string) : M QuotaManager Q :=
  zoom qm_rate_limiter put_limiter (rl_retry_after now0 now tenant_id).

Definition cleanup (tenant_id : string) (q : QuotaManager) : QuotaManager :=
  mkQuota (rl_reset tenant_id (qm_rate_limiter q)) (dict_del tenant_id (qm_concurrent q))
    (qm_configs q).

(** ** Bucket lemmas *)

(** A sequence of requests for one token; how many are granted. *)
Fixpoint bucket_run (times : list Z) (b : TokenBucket) : nat * TokenBucket :=
  match times with
  | [] => (0%nat, b)
  | t :: ts =>
      let '(ok, b1) := bucket_consume t 1 b in
      let '(n, b2) := bucket_run ts b1 in
      ((if ok then 1 else 0) + n, b2)%nat
  end.

(** Readings that do not go back. *)
Fixpoint monotone_from (t0 : Z) (times : list Z) : Prop :=
  match times with [] => True | t :: ts => (t0 ≤ t)%Z ∧ monotone_from t ts end.

Definition bucket_wf (b : TokenBucket) : Prop :=
  0 <= tb_tokens b ∧ tb_tokens b <= tb_max_tokens b ∧ 0 <= tb_refill_rate b.

Lemma seconds_nonneg z : (0 ≤ z)%Z → 0 <= seconds z.
Proof. unfold seconds, Qle; simpl. lia. Qed.

Lemma seconds_add a b : seconds (a + b) == seconds a + seconds b.
Proof. unfold seconds, Qeq, Qplus; simpl. lia. Qed.

Lemma refill_spec now b :
  bucket_wf b → (tb_last_refill b ≤ now)%Z →
  bucket_wf (refill now b)
  ∧ tb_tokens b <= tb_tokens (refill now b)
  ∧ tb_tokens (refill now b)
    <= tb_tokens b + seconds (now - tb_last_refill b) * tb_refill_rate b.
Proof.
  intros (H0 & Hm & Hr) Ht. unfold bucket_wf, refill; simpl.
  assert (0 <= seconds (now - tb_last_refill b) * tb_refill_rate b).
  { apply Qmult_le_0_compat; [apply seconds_nonneg; lia|done]. }
  set (e := seconds _ * _) in *.
  destruct (Q.min_spec (tb_max_tokens b) (tb_tokens b + e)) as [[? ->]|[? ->]];
    repeat split; lra.
Qed.

Lemma bucket_consume_spec now b ok b' :
  bucket_wf b → (tb_last_refill b ≤ now)%Z → bucket_consume now 1 b = (ok, b') →
  bucket_wf b' ∧ tb_last_refill b' = now ∧ tb_max_tokens b' = tb_max_tokens b
  ∧ tb_refill_rate b' = tb_refill_rate b
  ∧ (if ok then 1 else 0) + tb_tokens b'
    <= tb_tokens b + seconds (now - tb_last_refill b) * tb_refill_rate b.
Proof.
  intros Hwf Ht. destruct (refill_spec now b Hwf Ht) as (Hwf' & _ & Hle).
  unfold bucket_consume. destruct Hwf' as (W0 & W1 & W2).
  destruct (Qle_bool 1 _) eqn:Hq; intros [= <- <-].
  - apply Qle_bool_iff in Hq. unfold bucket_wf; simpl in *. repeat split; lra || done.
  - repeat split; try done. lra.
Qed.

Lemma bucket_run_spec times b :
  bucket_wf b → monotone_from (tb_last_refill b) times →
  let '(n, b') := bucket_run times b in
  bucket_wf b' ∧ tb_max_tokens b' = tb_max_tokens b ∧ tb_refill_rate b' = tb_refill_rate b
  ∧ inject_Z (Z.of_nat n) + tb_tokens b'
    <= tb_tokens b + seconds (tb_last_refill b' - tb_last_refill b) * tb_refill_rate b.
Proof.
  revert b. induction times as [|t ts IH]; intros b Hwf Hmono; simpl.
  - repeat split; try apply Hwf. rewrite Z.sub_diag. change (seconds 0) with (0 # 1000000).
    change (inject_Z (Z.of_nat 0)) with 0. destruct Hwf as (_ & _ & ?).
    assert ((0 # 1000000) * tb_refill_rate b == 0) as -> by ring. lra.
  - destruct Hmono as [Ht Hmono].
    destruct (bucket_consume t 1 b) as [ok b1] eqn:Hb1.
    destruct (bucket_consume_spec _ _ _ _ Hwf Ht Hb1) as (Hwf1 & Hl1 & Hm1 & Hr1 & Hle1).
    rewrite <- Hl1 in Hmono. specialize (IH b1 Hwf1 Hmono).
    destruct (bucket_run ts b1) as [n b2]. destruct IH as (Hwf2 & Hm2 & Hr2 & Hle2).
    rewrite Hm2, Hr2. repeat split; try done; try apply Hwf2.
    rewrite Hr1 in Hle2. rewrite Hl1 in Hle2.
    assert (inject_Z (Z.of_nat ((if ok then 1 else 0) + n))
            == (if ok then 1 else 0) + inject_Z (Z.of_nat n)) as ->.
    { rewrite Nat2Z.inj_add, inject_Z_plus. by destruct ok. }
    assert (seconds (tb_last_refill b2 - tb_last_refill b)
            == seconds (tb_last_refill b2 - t) + seconds (t - tb_last_refill b)) as ->.
    { rewrite <- seconds_add.
      by replace (tb_last_refill b2 - t + (t - tb_last_refill b))%Z
        with (tb_last_refill b2 - tb_last_refill b)%Z by lia. }
    rewrite Qmult_plus_distr_l. lra.
Qed.

(** ** Quota lemmas *)

Lemma active_set_start q t e t' :
  active_set (qm_start_execution t e q) t'
  = if decide (t' = t) then {[e]} ∪ active_set q t else active_set q t'.
Proof.
  unfold active_set, dict_get_or, qm_start_execution; simpl.
  rewrite dict_get_set. by case_decide.
Qed.

Lemma active_set_end q t e t' :
  active_set (qm_end_execution t e q) t'
  = if decide (t' = t) then active_set q t ∖ {[e]} else active_set q t'.
Proof.
  unfold active_set, dict_get_or, qm_end_execution.
  destruct (dict_get t (qm_concurrent q)) as [s|] eqn:Ht.
  - destruct (decide (s = ∅)) as [->|].
    + destruct (decide (t' = t)) as [->|]; [|done]. rewrite Ht. set_solver.
    + simpl. rewrite dict_get_set. by destruct (decide (t' = t)).
  - destruct (decide (t' = t)) as [->|]; [|done]. rewrite Ht. set_solver.
Qed.

(** Starting a fresh execution and ending it leaves the active set as it was. *)
Lemma start_end_active q t e t' :
  e ∉ active_set q t → active_set (qm_end_execution t e (qm_start_execution t e q)) t'
                       = active_set q t'.
Proof.
  intros He. rewrite active_set_end.
  destruct (decide (t' = t)) as [->|]; rewrite active_set_start.
  - rewrite decide_True by done. set_solver.
  - by rewrite decide_False.
Qed.

(** Starts and ends of executions, starts guarded as the runtime guards them. *)
Inductive quota_step : QuotaManager → QuotaManager → Prop :=
| qs_start t e q : check_concurrent q t = true → quota_step q (qm_start_execution t e q)
| qs_end t e q : quota_step q (qm_end_execution t e q)
| qs_rate now0 now t q : quota_step q (snd (check_and_consume_rate now0 now t q))
| qs_retry now0 now t q : quota_step q (snd (qm_retry_after now0 now t q))
| qs_cleanup t q : quota_step q (cleanup t q).

Definition quota_inv (q : QuotaManager) : Prop :=
  ∀ t, (concurrent_count q t ≤ Z.max 0 (max_concurrent (get_config q t)))%Z.

(** No step changes a configuration. *)
Lemma quota_step_config q q' t : quota_step q q' → get_config q' t = get_config q t.
Proof.
  destruct 1; unfold qm_end_execution, check_and_consume_rate, qm_retry_after, zoom;
    by repeat case_match.
Qed.

Lemma quota_step_inv q q' : quota_inv q → quota_step q q' → quota_inv q'.
Proof.
  intros Hq Hs t'. specialize (Hq t').
  destruct Hs as [t e q Hc|t e q|now0 now t q|now0 now t q|t q]; unfold concurrent_count in *.
  - rewrite active_set_start. case_decide; [subst|done].
    unfold check_concurrent, concurrent_count in Hc. b2p.
    change (get_config (qm_start_execution t e q) t) with (get_config q t).
    pose proof (size_union_alt {[e]} (active_set q t)) as Hsz.
    rewrite size_union_alt, size_singleton.
    assert (size (active_set q t ∖ {[e]}) ≤ size (active_set q t))%nat
      by (apply subseteq_size; set_solver).
    lia.
  - rewrite active_set_end.
    assert (get_config (qm_end_execution t e q) t' = get_config q t') as ->
      by (unfold qm_end_execution; by repeat case_match).
    case_decide; [subst|done].
    assert (size (active_set q t ∖ {[e]}) ≤ size (active_set q t))%nat
      by (apply subseteq_size; set_solver).
    lia.
  - unfold check_and_consume_rate, zoom, consume.
    by destruct (bucket_consume _ _ _) as [ok b].
  - unfold qm_retry_after, zoom. by destruct (rl_retry_after _ _ _ _) as [ok b].
  - change (get_config (cleanup t q) t') with (get_config q t').
    unfold active_set, dict_get_or, cleanup in *. cbn [qm_concurrent].
    rewrite dict_get_del. case_decide; [|done].
    change (default ∅ None) with (∅ : gset string). rewrite size_empty. lia.
Qed.

(** ** Properties *)

(** The rate limit holds over every window: of any sequence of requests with
    readings that do not go back, a full bucket grants at most its capacity
    plus the refill rate times the elapsed seconds, and it never holds a
    negative number of tokens or more than its capacity. *)
Theorem rate_limit_bound (times : list Z) (t0 : Z) (cap rate : Q) :
  0 <= cap → 0 <= rate → monotone_from t0 times →
  let '(n, b) := bucket_run times (mkBucket cap cap rate t0) in
  inject_Z (Z.of_nat n) <= cap + rate * seconds (tb_last_refill b - t0)
  ∧ 0 <= tb_tokens b ∧ tb_tokens b <= cap.
Proof.
  intros Hc Hr Hm.
  assert (bucket_wf (mkBucket cap cap rate t0)) as Hwf by (repeat split; simpl; lra).
  pose proof (bucket_run_spec times _ Hwf Hm) as H.
  destruct (bucket_run times _) as [n b]; simpl in *.
  destruct H as ((? & ? & ?) & Hmax & _ & Hle). rewrite Hmax in *.
  split_and!; [|done|done]. rewrite (Qmult_comm rate). lra.
Qed.

Lemma rate_limit_bound_witness :
  (bucket_run [0; 0; 0; 1000000]%Z (mkBucket 2 2 1 0)).1 = 3%nat
  ∧ let '(n, b) := bucket_run [0; 0; 0; 1000000]%Z (mkBucket 2 2 1 0) in
    inject_Z (Z.of_nat n) <= 2 + 1 * seconds (tb_last_refill b - 0)
    ∧ 0 <= tb_tokens b ∧ tb_tokens b <= 2.
Proof.
  split; [vm_compute; reflexivity|].
  apply (rate_limit_bound [0; 0; 0; 1000000]%Z 0 2 1);
    [vm_compute; discriminate|vm_compute; discriminate|].
  repeat split; vm_compute; discriminate.
Defined.

(** The advice of [retry_after] is good: once that many seconds have passed
    the next request for a token is granted, for any bucket that can hold one
    token and refills. *)
Theorem retry_after_suffices (b : TokenBucket) (now now' : Z) (r : Q) :
  1 <= tb_max_tokens b → 0 < tb_refill_rate b →
  bucket_retry_after (refill now b) = Ok r → r <= seconds (now' - now) →
  fst (bucket_consume now' 1 (refill now b)) = true.
Proof.
  intros Hm Hr Hra Hle. unfold bucket_consume.
  set (b1 := refill now b) in *.
  assert (tb_refill_rate b1 = tb_refill_rate b) as Hrate by done.
  assert (1 <= tb_tokens (refill now' b1)) as Hq.
  { change (1 <= Qmin (tb_max_tokens b)
                     (tb_tokens b1 + seconds (now' - now) * tb_refill_rate b)).
    apply Q.min_glb; [done|].
    unfold bucket_retry_after in Hra. rewrite Hrate in Hra.
    destruct (Qle_bool (1 - tb_tokens b1) 0) eqn:H0.
    - apply Qle_bool_iff in H0. injection Hra as <-.
      assert (0 <= seconds (now' - now) * tb_refill_rate b)
        by (apply Qmult_le_0_compat; lra). lra.
    - destruct (Qeq_bool (tb_refill_rate b) 0) eqn:Hz; [done|]. injection Hra as <-.
      assert ((1 - tb_tokens b1) / tb_refill_rate b * tb_refill_rate b
              <= seconds (now' - now) * tb_refill_rate b) as Hmul
        by (apply Qmult_le_compat_r; [exact Hle|lra]).
      assert ((1 - tb_tokens b1) / tb_refill_rate b * tb_refill_rate b
              == 1 - tb_tokens b1) as Hcancel by (field; lra).
      rewrite Hcancel in Hmul. lra. }
  apply Qle_bool_iff in Hq. by rewrite Hq.
Qed.

Lemma retry_after_suffices_witness :
  bucket_retry_after (refill 0 (mkBucket 0 1 2 0)) = Ok (1000000 # 2000000)
  ∧ fst (bucket_consume 500000 1 (refill 0 (mkBucket 0 1 2 0))) = true.
Proof.
  split; [vm_compute; reflexivity|].
  apply (retry_after_suffices (mkBucket 0 1 2 0) 0 500000 (1000000 # 2000000));
    vm_compute; try reflexivity; discriminate.
Defined.

(** With starts guarded by [check_concurrent], no interleaving of starts,
    ends, rate checks and clean-ups lets a tenant hold more active executions
    than its quota allows. *)
Theorem concurrent_quota_bound (q q' : QuotaManager) (t : string) :
  quota_inv q → star quota_step q q' →
  (concurrent_count q' t ≤ Z.max 0 (max_concurrent (get_config q' t)))%Z.
Proof.
  intros Hq Hs. revert t. change (quota_inv q').
  eapply (star_invariant quota_step quota_inv); eauto using quota_step_inv.
Qed.

Lemma concurrent_quota_bound_witness :
  let q0 := configure "t1" (mkQuotaConfig 1 60 10)
              (QuotaManager_new (TokenBucketRateLimiter_new 100 10)) in
  let q1 := qm_start_execution "t1" "e1" q0 in
  check_concurrent q1 "t1" = false
  ∧ (concurrent_count q1 "t1" ≤ Z.max 0 (max_concurrent (get_config q1 "t1")))%Z.
Proof.
  split; [vm_compute; reflexivity|].
  apply (concurrent_quota_bound
    (configure "t1" (mkQuotaConfig 1 60 10)
       (QuotaManager_new (TokenBucketRateLimiter_new 100 10)))).
  - intros t. unfold concurrent_count. change (active_set _ t) with (∅ : gset string).
    rewrite size_empty. lia.
  - eapply star_one, (qs_start "t1" "e1"). vm_compute; reflexivity.
Defined.
