(* ===== verification/Threads.v ===== *)
(** * Threads and locks

    The [with self._lock:] blocks of the source as threads see them. A method is
    a sequence of locked blocks; the body of a block is a sequence of accesses
    to the state its lock protects, each of which another thread may come
    before, and of readings of a clock that moves on meanwhile. [step] lets the
    threads of a pool interleave at every access; [atomic_step] runs a block as
    a whole. *)
From S2P Require Import Prelude.
From stdpp Require Import functions.

(** ** Bodies of locked blocks *)

(** [Access f k]: one indivisible access, which leaves [f s] of the state [s] it
    finds and goes on with [k s]. *)
Inductive body (S A : Type) :=
| Ret (a : A)
| Access (f : S → S) (k : S → body S A)
| Clock (k : Z → body S A).
Arguments Ret {S A}.
Arguments Access {S A}.
Arguments Clock {S A}.

Fixpoint body_bind {S A B} (b : body S A) (g : A → body S B) : body S B :=
  match b with
  | Ret a => g a
  | Access f k => Access f (λ s, body_bind (k s) g)
  | Clock k => Clock (λ t, body_bind (k t) g)
  end.

#[export] Instance body_mret {S} : MRet (body S) := λ _, Ret.
#[export] Instance body_mbind {S} : MBind (body S) := λ _ _ g b, body_bind b g.

Definition get_field {S A} (f : S → A) : body S A := Access id (λ s, Ret (f s)).
Definition put_field {S} (f : S → S) : body S unit := Access f (λ _, Ret tt).
Definition clock_now {S} : body S Z := Clock Ret.

(** The body alone from the state [s], its readings in order from [t]: it ends
    with [a] in [s'], and [t'] is its last reading. *)
Fixpoint runs {S A} (t : Z) (b : body S A) (s : S) (t' : Z) (a : A) (s' : S) : Prop :=
  match b with
  | Ret x => t' = t ∧ a = x ∧ s' = s
  | Access f k => runs t (k s) (f s) t' a s'
  | Clock k => ∃ u, (t ≤ u)%Z ∧ runs u (k u) s t' a s'
  end.

Ltac body_unfold := unfold mbind, mret, body_mbind, body_mret, get_field, put_field, clock_now in *.
Ltac body_simpl := body_unfold; cbn [runs body_bind id] in *.

Lemma runs_time {S A} t (b : body S A) s t' a s' : runs t b s t' a s' → (t ≤ t')%Z.
Proof.
  revert t s. induction b as [x|f k IH|k IH]; intros t s; cbn.
  - intros (-> & _). lia.
  - apply IH.
  - intros (u & Hu & Hr%IH). lia.
Qed.

Lemma runs_bind {S A B} (b : body S A) (g : A → body S B) t s t' a s' :
  runs t (b ≫= g) s t' a s' ↔ ∃ u x s1, runs t b s u x s1 ∧ runs u (g x) s1 t' a s'.
Proof.
  revert t s. induction b as [x|f k IH|k IH]; intros t s; cbn.
  - split; [by eexists _, _, _|]. by intros (? & ? & ? & (-> & -> & ->) & ?).
  - apply IH.
  - split.
    + intros (u & Hu & (v & x & s1 & H1 & H2)%IH). eauto 10.
    + intros (v & x & s1 & (u & Hu & H1) & H2). exists u. split; [done|]. apply IH. eauto.
Qed.

(** ** Methods and pools *)

Section Pool.
Context {L : Type} `{!EqDecision L}.
(** What each lock protects, and what a thread answers in the end. *)
Context (T : L → Type) (A : Type).

(** A block's body gives the rest of the method. *)
Inductive method :=
| Return (a : A)
| Locked (l : L) (b : body (T l) method).

Inductive thread :=
| Ready (m : method)
| Inside (l : L) (b : body (T l) method).

Definition inside_of (th : thread) : option L :=
  match th with Ready _ => None | Inside l _ => Some l end.

Record pool := mkPool {
  shared : ∀ l, T l;
  locked : L → bool;
  now_of : Z;
  threads : list thread
}.

Definition put (l : L) (x : T l) (σ : ∀ l, T l) : ∀ l, T l := λ l',
  match decide (l = l') with left e => eq_rect l T x l' e | right _ => σ l' end.

Lemma put_same l x σ : put l x σ l = x.
Proof.
  unfold put. destruct (decide (l = l)) as [e|]; [|done]. by rewrite (proof_irrel e eq_refl).
Qed.
Lemma put_other l l' x σ : l ≠ l' → put l x σ l' = σ l'.
Proof. intros H. unfold put. by destruct (decide (l = l')). Qed.

(** What the [i]th thread does next: it takes a free lock, makes an access, or
    leaves its block and frees the lock. *)
Definition advance (i : nat) (c : pool) : option pool :=
  match threads c !! i with
  | Some (Ready (Locked l b)) =>
      if locked c l then None
      else Some (mkPool (shared c) (<[l := true]> (locked c)) (now_of c) (<[i := Inside l b]> (threads c)))
  | Some (Inside l b) =>
      match b with
      | Ret m => Some (mkPool (shared c) (<[l := false]> (locked c)) (now_of c) (<[i := Ready m]> (threads c)))
      | Access f k => Some (mkPool (put l (f (shared c l)) (shared c)) (locked c) (now_of c)
                              (<[i := Inside l (k (shared c l))]> (threads c)))
      | Clock k => Some (mkPool (shared c) (locked c) (now_of c) (<[i := Inside l (k (now_of c))]> (threads c)))
      end
  | _ => None
  end.

Inductive step (c : pool) : pool → Prop :=
| s_thread i c' : advance i c = Some c' → step c c'
| s_time t : (now_of c ≤ t)%Z → step c (mkPool (shared c) (locked c) t (threads c)).

(** ** The same methods, a block at a time *)

(** [last_of l]: the last reading made under [l]. *)
Record apool := mkAPool {
  ashared : ∀ l, T l;
  last_of : L → Z;
  anow_of : Z;
  methods : list method
}.

Inductive atomic_step (c : apool) : apool → Prop :=
| a_block i l b t m s :
    methods c !! i = Some (Locked l b) → runs (last_of c l) b (ashared c l) t m s → (t ≤ anow_of c)%Z →
    atomic_step c (mkAPool (put l s (ashared c)) (<[l := t]> (last_of c)) (anow_of c) (<[i := m]> (methods c)))
| a_time t : (anow_of c ≤ t)%Z → atomic_step c (mkAPool (ashared c) (last_of c) t (methods c)).

(** A pool in the middle of blocks stands for the one in which those blocks have
    not begun. *)
Definition thread_stands (c : pool) (a : apool) (th : thread) (m : method) : Prop :=
  match th with
  | Ready m' => m = m'
  | Inside l b => locked c l = true ∧ ∃ b0 t, m = Locked l b0 ∧ (t ≤ now_of c)%Z
      ∧ ∀ t' x s, runs t b (shared c l) t' x s → runs (last_of a l) b0 (ashared a l) t' x s
  end.

Record stands_for (c : pool) (a : apool) : Prop := {
  sf_now : anow_of a = now_of c;
  sf_last l : (last_of a l ≤ now_of c)%Z;
  sf_length : length (methods a) = length (threads c);
  sf_threads i th m : threads c !! i = Some th → methods a !! i = Some m → thread_stands c a th m;
  sf_free l : locked c l = false → shared c l = ashared a l;
  sf_alone i j l th th' : threads c !! i = Some th → threads c !! j = Some th' →
    inside_of th = Some l → inside_of th' = Some l → i = j
}.

(** Every thread outside its blocks. *)
Definition idle (c : pool) : Prop :=
  (∀ i th, threads c !! i = Some th → inside_of th = None) ∧ ∀ l, locked c l = false.
Definition atomic_of (t0 : Z) (c : pool) : apool :=
  mkAPool (shared c) (λ _, t0) (now_of c)
    (map (λ th, match th with Ready m => m | Inside l b => Locked l b end) (threads c)).

Lemma idle_stands t0 c : (t0 ≤ now_of c)%Z → idle c → stands_for c (atomic_of t0 c).
Proof.
  intros Ht [Hi Hl]. split; cbn; try done.
  - by rewrite length_map.
  - intros i th m Hth. rewrite list_lookup_fmap, Hth. cbn. intros [= <-].
    specialize (Hi _ _ Hth). by destruct th.
  - intros i j l th th' H1 H2 H3 H4. by rewrite (Hi _ _ H1) in H3.
Qed.

Lemma stands_at c a i th : stands_for c a → threads c !! i = Some th →
  ∃ m, methods a !! i = Some m ∧ thread_stands c a th m.
Proof.
  intros Hs Hth. destruct (methods a !! i) as [m|] eqn:Hm.
  - exists m. split; [done|]. by eapply sf_threads.
  - apply lookup_ge_None in Hm. rewrite (sf_length _ _ Hs) in Hm.
    apply lookup_lt_Some in Hth. lia.
Qed.
End Pool.
Arguments Return {L T A}.
Arguments Locked {L T A}.
Arguments Ready {L T A}.
Arguments Inside {L T A}.
Arguments inside_of {L T A}.
Arguments mkPool {L T A}.
Arguments shared {L T A}.
Arguments locked {L T A}.
Arguments now_of {L T A}.
Arguments threads {L T A}.
Arguments put {L _ T}.
Arguments advance {L _ T A}.
Arguments step {L _ T A}.
Arguments mkAPool {L T A}.
Arguments ashared {L T A}.
Arguments last_of {L T A}.
Arguments anow_of {L T A}.
Arguments methods {L T A}.
Arguments atomic_step {L _ T A}.
Arguments a_block {L _ T A}.
Arguments a_time {L _ T A}.
Arguments s_thread {L _ T A}.
Arguments s_time {L _ T A}.
Arguments stands_for {L T A}.
Arguments thread_stands {L T A}.
Arguments idle {L T A}.
Arguments atomic_of {L T A}.

(** ** Locked blocks are atomic *)

Section Simulation.
Context {L : Type} `{!EqDecision L} {T : L → Type} {A : Type}.
Implicit Types (c : pool T A) (a : apool T A).

Lemma thread_stands_same c c' a a' th m :
  thread_stands c a th m → (now_of c ≤ now_of c')%Z →
  (∀ l, inside_of th = Some l → locked c' l = locked c l ∧ shared c' l = shared c l
     ∧ last_of a' l = last_of a l ∧ ashared a' l = ashared a l) →
  thread_stands c' a' th m.
Proof.
  destruct th as [m'|l b]; [done|]. cbn. intros (Hl & b0 & t & -> & Ht & Hr) Hnow Hsame.
  destruct (Hsame l eq_refl) as (-> & -> & -> & ->). split; [done|]. exists b0, t. split_and!; [done|lia|done].
Qed.

(** Thread [i] moved from [th] to [th'] and nothing else of another lock changed. *)
Lemma stands_for_moved c a i th th' m m' σ lk σa la :
  stands_for c a → threads c !! i = Some th → methods a !! i = Some m →
  let c' := mkPool σ lk (now_of c) (<[i := th']> (threads c)) in
  let a' := mkAPool σa la (anow_of a) (<[i := m']> (methods a)) in
  thread_stands c' a' th' m' →
  (∀ j thj l, j ≠ i → threads c !! j = Some thj → inside_of thj = Some l → locked c l = true →
     inside_of th' ≠ Some l ∧ lk l = locked c l ∧ σ l = shared c l ∧ la l = last_of a l ∧ σa l = ashared a l) →
  (∀ l, lk l = false → σ l = σa l) → (∀ l, (la l ≤ now_of c)%Z) →
  stands_for c' a'.
Proof.
  intros Hs Hi Hm c' a' Hth Hother Hfree Hlast.
  assert (∀ j thj l, j ≠ i → threads c !! j = Some thj → inside_of thj = Some l → locked c l = true) as Hlocked.
  { intros j thj l _ Hj Hl. destruct (stands_at _ _ c a j thj Hs Hj) as (mj & _ & Hst).
    destruct thj as [|l' b]; [done|]. injection Hl as <-. apply Hst. }
  subst c' a'. split; cbn [shared locked now_of threads ashared last_of anow_of methods].
  - apply (sf_now _ _ _ _ Hs).
  - done.
  - rewrite !length_insert. apply (sf_length _ _ _ _ Hs).
  - intros j thj mj Hj Hmj. destruct (decide (j = i)) as [->|Hne].
    + rewrite list_lookup_insert_eq in Hj by (by eapply lookup_lt_Some).
      rewrite list_lookup_insert_eq in Hmj by (by eapply lookup_lt_Some). by simplify_eq.
    + rewrite list_lookup_insert_ne in Hj by done. rewrite list_lookup_insert_ne in Hmj by done.
      eapply thread_stands_same; [by eapply sf_threads|done|]. intros l Hl.
      apply (Hother j thj l Hne Hj Hl). eauto.
  - done.
  - assert (∀ j thj l, j ≠ i → threads c !! j = Some thj → inside_of thj = Some l → inside_of th' = Some l → False) as Hno.
    { intros j thj l Hne Hj Hl Hl'. destruct (Hother j thj l Hne Hj Hl) as [Hd _]; [eauto|done]. }
    intros j k l thj thk Hj Hk Hjl Hkl.
    destruct (decide (j = i)) as [->|Hji], (decide (k = i)) as [->|Hki]; [done|..].
    + rewrite list_lookup_insert_eq in Hj by (by eapply lookup_lt_Some).
      rewrite list_lookup_insert_ne in Hk by done. simplify_eq. exfalso; eauto.
    + rewrite list_lookup_insert_eq in Hk by (by eapply lookup_lt_Some).
      rewrite list_lookup_insert_ne in Hj by done. simplify_eq. exfalso; eauto.
    + rewrite list_lookup_insert_ne in Hj by done. rewrite list_lookup_insert_ne in Hk by done. by eapply sf_alone.
Qed.

Lemma other_inside c a i j th thj l l' : stands_for c a →
  threads c !! i = Some th → inside_of th = Some l → j ≠ i → threads c !! j = Some thj →
  inside_of thj = Some l' → l ≠ l'.
Proof. intros Hs Hi Hl Hne Hj Hl' <-. apply Hne. by eapply sf_alone. Qed.

Lemma advance_simulates c a i c' : stands_for c a → advance i c = Some c' →
  ∃ a', star atomic_step a a' ∧ stands_for c' a'.
Proof.
  intros Hs. unfold advance. destruct (threads c !! i) as [th|] eqn:Hi; [|done].
  destruct (stands_at _ _ c a i th Hs Hi) as (m & Hm & Hst).
  assert (methods a = <[i := m]> (methods a)) as Hid by (by rewrite list_insert_id).
  assert (a = mkAPool (ashared a) (last_of a) (anow_of a) (<[i := m]> (methods a))) as Ha
    by (rewrite <- Hid; by destruct a).
  pose proof (sf_last _ _ _ _ Hs) as Hlast. pose proof (sf_free _ _ _ _ Hs) as Hfree.
  destruct th as [[x|l b]|l b]; [done|..].
  - cbn in Hst. subst m. destruct (locked c l) eqn:Hl; [done|]. intros [= <-].
    exists a. split; [apply star_refl|]. rewrite Ha. eapply stands_for_moved; [done..| | | |done].
    + cbn. split; [by rewrite fn_lookup_insert|]. exists b, (last_of a l). split_and!; [done|done|].
      by rewrite (Hfree l Hl).
    + intros j thj l' Hne Hj Hl' Hlk. assert (l ≠ l') by congruence.
      split; [cbn; congruence|]. by rewrite fn_lookup_insert_ne.
    + intros l'. destruct (decide (l = l')) as [<-|Hne]; [by rewrite fn_lookup_insert|].
      rewrite fn_lookup_insert_ne by done. apply Hfree.
  - pose proof Hst as (Hl & b0 & t & -> & Ht & Hr). destruct b as [m'|f k|k]; intros [= <-].
    + exists (mkAPool (put l (shared c l) (ashared a)) (<[l := t]> (last_of a)) (anow_of a)
                (<[i := m']> (methods a))). split.
      { apply star_one, (a_block a i l b0 t m' (shared c l)); [done|by apply Hr|].
        by rewrite (sf_now _ _ _ _ Hs). }
      eapply stands_for_moved; [done..| | |].
      * intros j thj l' Hne Hj Hl' _. pose proof (other_inside c a i j _ _ l l' Hs Hi eq_refl Hne Hj Hl').
        split; [done|]. rewrite !fn_lookup_insert_ne, put_other by done. done.
      * intros l'. destruct (decide (l = l')) as [<-|Hne]; [by rewrite put_same|].
        rewrite fn_lookup_insert_ne, put_other by done. apply Hfree.
      * intros l'. destruct (decide (l = l')) as [<-|Hne]; [by rewrite fn_lookup_insert|].
        by rewrite fn_lookup_insert_ne.
    + exists a. split; [apply star_refl|]. rewrite Ha. eapply stands_for_moved; [done..| | | |done].
      * cbn. split; [done|]. exists b0, t. split_and!; [done|done|]. intros t' x s.
        rewrite put_same. apply Hr.
      * intros j thj l' Hne Hj Hl' _. pose proof (other_inside c a i j _ _ l l' Hs Hi eq_refl Hne Hj Hl').
        split; [cbn; congruence|]. by rewrite put_other.
      * intros l' Hl'. rewrite put_other by congruence. by apply Hfree.
    + exists a. split; [apply star_refl|]. rewrite Ha. eapply stands_for_moved; [done..| | |done|done].
      * cbn. split; [done|]. exists b0, (now_of c). split_and!; [done|done|]. intros t' x s Hx.
        apply Hr. by exists (now_of c).
      * intros j thj l' Hne Hj Hl' _. pose proof (other_inside c a i j _ _ l l' Hs Hi eq_refl Hne Hj Hl').
        split; [cbn; congruence|done].
Qed.

Lemma step_simulates c a c' : stands_for c a → step c c' →
  ∃ a', star atomic_step a a' ∧ stands_for c' a'.
Proof.
  intros Hs [i c'' Hadv|t Ht]; [by eapply advance_simulates|].
  exists (mkAPool (ashared a) (last_of a) t (methods a)). split.
  { apply star_one, a_time. by rewrite (sf_now _ _ _ _ Hs). }
  split; cbn; try apply Hs; [done| |].
  - intros l. pose proof (sf_last _ _ _ _ Hs l). lia.
  - intros i th m Hi Hm. eapply thread_stands_same; [by eapply sf_threads|done|done].
Qed.

(** However threads interleave, there is a sequence of whole blocks that comes to
    what they come to: with the same state where no lock is held, the same rest
    of every thread, and the readings of each lock's blocks in order. *)
Lemma blocks_are_atomic c0 c t0 : (t0 ≤ now_of c0)%Z → idle c0 → star step c0 c →
  ∃ a, star atomic_step (atomic_of t0 c0) a ∧ stands_for c a.
Proof.
  intros Ht Hi Hs. pose proof (idle_stands _ _ t0 c0 Ht Hi) as H0. revert H0. generalize (atomic_of t0 c0).
  clear Hi Ht. induction Hs as [c|c c1 c2 Hstep Hs IH]; intros a Ha; [by exists a; split; [apply star_refl|]|].
  destruct (step_simulates _ _ _ Ha Hstep) as (a1 & Ha1 & Hs1).
  destruct (IH _ Hs1) as (a2 & Ha2 & Hs2). exists a2. split; [by eapply star_trans|done].
Qed.
End Simulation.

(** ** Every thread finishes *)

(** One element of a list that goes down in [R]. *)
Definition one_down {X} (R : X → X → Prop) (l' l : list X) : Prop :=
  ∃ i x y, l !! i = Some x ∧ R y x ∧ l' = <[i := y]> l.

Lemma one_down_acc {X} (R : X → X → Prop) l : Forall (Acc R) l → Acc (one_down R) l.
Proof.
  induction 1 as [|x l Hx _ IH]; [constructor; by intros l' (i & x & y & ? & _)|].
  revert l IH. induction Hx as [x _ IHx]. intros l Hl. induction Hl as [l Hl IHl].
  constructor. intros l' ([|i] & x' & y & Hi & Hy & ->); cbn in *.
  - injection Hi as <-. apply IHx; [done|by constructor].
  - apply IHl. by exists i, x', y.
Qed.

Section Progress.
Context {L : Type} `{!EqDecision L} {T : L → Type} {A : Type}.
Implicit Types c : pool T A.

(** What a thread may be after one of its steps, whatever the state it finds. *)
Definition shorter (th' th : thread T A) : Prop :=
  match th with
  | Ready (Return _) => False
  | Ready (Locked l b) => th' = Inside l b
  | Inside l (Ret m) => th' = Ready m
  | Inside l (Access f k) => ∃ s, th' = Inside l (k s)
  | Inside l (Clock k) => ∃ t, th' = Inside l (k t)
  end.

Lemma ready_acc : ∀ m, Acc shorter (Ready m).
Proof.
  fix IH 1. intros [x|l b]; constructor; cbn; [done|]. intros th ->.
  induction b as [m|f k IHb|k IHb]; constructor; cbn.
  - intros th ->. apply IH.
  - intros th [s ->]. apply IHb.
  - intros th [t ->]. apply IHb.
Qed.

Lemma shorter_acc th : Acc shorter th.
Proof.
  destruct th as [m|l b]; [apply ready_acc|].
  apply (Acc_inv (ready_acc (Locked l b))). done.
Qed.

Lemma advance_shorter i c c' : advance i c = Some c' → one_down shorter (threads c') (threads c).
Proof.
  unfold advance. destruct (threads c !! i) as [th|] eqn:Hi; [|done].
  destruct th as [[x|l b]|l [m|f k|k]]; [done| |..].
  - destruct (locked c l); [done|]. intros [= <-]. by eexists i, _, _.
  - intros [= <-]. by eexists i, _, _.
  - intros [= <-]. eexists i, _, _. split; [done|]. split; [|done]. by eexists.
  - intros [= <-]. eexists i, _, _. split; [done|]. split; [|done]. by eexists.
Qed.

Definition thread_step c c' : Prop := ∃ i, advance i c = Some c'.

(** The threads cannot go on for ever. *)
Lemma thread_step_acc c : Acc (flip thread_step) c.
Proof.
  assert (Acc (one_down shorter) (threads c)) as Hacc.
  { apply one_down_acc, Forall_forall. intros th _. apply shorter_acc. }
  remember (threads c) as ths eqn:Hths. revert c Hths.
  induction Hacc as [ths _ IH]. intros c ->. constructor. intros c' [i Hi].
  eapply IH; [|done]. by eapply advance_shorter.
Qed.

(** A lock that is taken is held by a thread inside a block of it. *)
Definition owned c : Prop := ∀ l, locked c l = true →
  ∃ i th, threads c !! i = Some th ∧ inside_of th = Some l.

Lemma owned_moved c i th th' σ lk : owned c → threads c !! i = Some th →
  (∀ l, lk l = true → inside_of th' = Some l ∨ locked c l = true ∧ inside_of th ≠ Some l) →
  owned (mkPool σ lk (now_of c) (<[i := th']> (threads c))).
Proof.
  intros Ho Hi Hl l Hlk. cbn in *. destruct (Hl l Hlk) as [Hth|[Hlc Hne]].
  - exists i, th'. split; [|done]. apply list_lookup_insert_eq. by eapply lookup_lt_Some.
  - destruct (Ho l Hlc) as (j & thj & Hj & Hjl). exists j, thj. split; [|done].
    rewrite list_lookup_insert_ne; [done|]. intros ->. congruence.
Qed.

Lemma step_owned c c' : owned c → step c c' → owned c'.
Proof.
  intros Ho [i c'' Ha|t Ht]; [|done]. revert Ha. unfold advance.
  destruct (threads c !! i) as [th|] eqn:Hi; [|done].
  destruct th as [[x|l b]|l [m|f k|k]]; [done| |..].
  - destruct (locked c l) eqn:Hl; [done|]. intros [= <-]. eapply owned_moved; [done..|].
    intros l'. destruct (decide (l = l')) as [<-|Hne]; [by left|].
    rewrite fn_lookup_insert_ne by done. by right.
  - intros [= <-]. eapply owned_moved; [done..|].
    intros l'. destruct (decide (l = l')) as [<-|Hne]; [by rewrite fn_lookup_insert|].
    rewrite fn_lookup_insert_ne by done. right. split; [done|]. cbn. congruence.
  - intros [= <-]. eapply owned_moved; [done..|]. intros l' Hl'. cbn.
    destruct (decide (l = l')) as [<-|Hne]; [by left|right; split; [done|congruence]].
  - intros [= <-]. eapply owned_moved; [done..|]. intros l' Hl'. cbn.
    destruct (decide (l = l')) as [<-|Hne]; [by left|right; split; [done|congruence]].
Qed.

(** No deadlock: when no thread can move, all have returned. *)
Lemma stuck_returned c : owned c → (∀ i, advance i c = None) →
  ∀ i th, threads c !! i = Some th → ∃ x, th = Ready (Return x).
Proof.
  intros Ho Hstuck.
  assert (∀ i l b, threads c !! i ≠ Some (Inside l b)) as Hno.
  { intros i l b Hi. specialize (Hstuck i). unfold advance in Hstuck. rewrite Hi in Hstuck. by destruct b. }
  intros i [[x|l b]|l b] Hi; [by exists x| |by destruct (Hno i l b)].
  specialize (Hstuck i). unfold advance in Hstuck. rewrite Hi in Hstuck.
  destruct (locked c l) eqn:Hl; [|done]. destruct (Ho l Hl) as (j & [m|l' b'] & Hj & Hjl); [done|].
  by destruct (Hno j l' b').
Qed.

Lemma threads_finish c0 c : idle c0 → star step c0 c →
  Acc (flip thread_step) c
  ∧ ((∀ i, advance i c = None) → ∀ i th, threads c !! i = Some th → ∃ x, th = Ready (Return x)).
Proof.
  intros [_ Hl] Hs. split; [apply thread_step_acc|]. apply stuck_returned.
  refine (star_invariant step owned c0 c step_owned _ Hs). intros l. by rewrite Hl.
Qed.

(** A schedule: the threads that move, in order. *)
Fixpoint run_schedule (sched : list nat) (c : pool T A) : option (pool T A) :=
  match sched with [] => Some c | i :: sched => c' ← advance i c; run_schedule sched c' end.

Lemma run_schedule_star sched c c' : run_schedule sched c = Some c' → star step c c'.
Proof.
  revert c. induction sched as [|i sched IH]; intros c; cbn; [intros [= ->]; apply star_refl|].
  destruct (advance i c) as [c1|] eqn:Ha; [|done]. cbn. intros Hr.
  eapply star_step; [by eapply s_thread|by apply IH].
Qed.

(** Where a schedule ends; the start if it is not possible. *)
Definition scheduled_to (sched : list nat) (c : pool T A) : pool T A := default c (run_schedule sched c).

Lemma scheduled_to_star sched c : star step c (scheduled_to sched c).
Proof.
  unfold scheduled_to. destruct (run_schedule sched c) as [c'|] eqn:Hr; [by eapply run_schedule_star|apply star_refl].
Qed.
End Progress.
