(* ===== verification/QuotaThreads.v ===== *)
(** * Quotas under threads ([api/rest/quotas.py])

    The methods of the rate limiter and of the quota manager access by access,
    as the threads that share them run them: two locks, one over the buckets and
    one over the sets and configurations. [Quotas] has the same methods as whole
    functions; here it is shown that the locks make them so, for any threads. A
    method that takes a lock twice ([check_concurrent]) or both ([cleanup]) is
    two blocks, between which others may come. *)
From S2P Require Import Prelude PyStr PyDict PyVal Threads Quotas.
From stdpp Require Import functions.
From Stdlib Require Import QArith Qminmax Lqa.

Inductive quota_lock := LimiterLock | ManagerLock.
#[export] Instance quota_lock_eq_dec : EqDecision quota_lock.
Proof. solve_decision. Defined.

(** What the manager's lock protects. *)
Record tables := mkTables {
  qt_concurrent : dict (gset string);
  qt_configs : dict TenantQuotaConfig
}.

Definition quota_state (l : quota_lock) : Type :=
  match l with LimiterLock => TokenBucketRateLimiter | ManagerLock => tables end.

(** ** Bodies, access by access *)

(** Fields of the tenant's bucket: the object [_get_bucket] answered stays the
    one in the table while the lock is held. *)
Definition bucket_of (tenant_id : string) (l : TokenBucketRateLimiter) : TokenBucket :=
  get_bucket 0 tenant_id l.
Definition read_bucket {X} (tenant_id : string) (f : TokenBucket → X) : body TokenBucketRateLimiter X :=
  get_field (λ l, f (bucket_of tenant_id l)).
Definition write_bucket (tenant_id : string) (f : TokenBucket → TokenBucket) : body TokenBucketRateLimiter unit :=
  put_field (λ l, put_bucket tenant_id (f (bucket_of tenant_id l)) l).
Definition set_tokens (x : Q) (b : TokenBucket) : TokenBucket :=
  mkBucket x (tb_max_tokens b) (tb_refill_rate b) (tb_last_refill b).
Definition set_last_refill (t : Z) (b : TokenBucket) : TokenBucket :=
  mkBucket (tb_tokens b) (tb_max_tokens b) (tb_refill_rate b) t.

Definition get_bucket_body (tenant_id : string) : body TokenBucketRateLimiter unit :=
  present ← get_field (λ l, dict_mem tenant_id (rl_buckets l));
  if (present : bool) then mret tt else
    tokens ← get_field rl_max_tokens;
    max_tokens ← get_field rl_max_tokens;
    refill_rate ← get_field rl_refill_rate;
    now ← clock_now;
    put_field (put_bucket tenant_id (mkBucket tokens max_tokens refill_rate now)).

Definition refill_body (tenant_id : string) : body TokenBucketRateLimiter unit :=
  now ← clock_now;
  last_refill ← read_bucket tenant_id tb_last_refill;
  let elapsed := seconds (now - last_refill) in
  max_tokens ← read_bucket tenant_id tb_max_tokens;
  tokens ← read_bucket tenant_id tb_tokens;
  refill_rate ← read_bucket tenant_id tb_refill_rate;
  write_bucket tenant_id (set_tokens (Qmin max_tokens (tokens + elapsed * refill_rate))) ;;
  write_bucket tenant_id (set_last_refill now).

(** A refused request still refills the bucket. *)
Definition consume_body (tenant_id : string) (tokens : Q) : body TokenBucketRateLimiter (outcome bool) :=
  get_bucket_body tenant_id ;;
  refill_body tenant_id ;;
  held ← read_bucket tenant_id tb_tokens;
  if Qle_bool tokens held then
    held ← read_bucket tenant_id tb_tokens;
    write_bucket tenant_id (set_tokens (held - tokens)) ;;
    mret (Ok true)
  else mret (Ok false).

(** The lock is released when the division raises. *)
Definition retry_after_body (tenant_id : string) : body TokenBucketRateLimiter (outcome Q) :=
  get_bucket_body tenant_id ;;
  refill_body tenant_id ;;
  tokens ← read_bucket tenant_id tb_tokens;
  let deficit := 1 - tokens in
  if Qle_bool deficit 0 then mret (Ok 0) else
    refill_rate ← read_bucket tenant_id tb_refill_rate;
    mret (if Qeq_bool refill_rate 0
          then Raise (mkExn "ZeroDivisionError" "float division by zero")
          else Ok (deficit / refill_rate)).

Definition put_concurrent (f : dict (gset string) → dict (gset string)) : body tables unit :=
  put_field (λ q, mkTables (f (qt_concurrent q)) (qt_configs q)).
Definition active_in (q : tables) (tenant_id : string) : gset string :=
  dict_get_or ∅ tenant_id (qt_concurrent q).

(** [setdefault(tenant_id, set())], then [add]. *)
Definition start_body (tenant_id execution_id : string) : body tables unit :=
  put_concurrent (λ d, if dict_mem tenant_id d then d else dict_set tenant_id ∅ d) ;;
  put_concurrent (λ d, dict_set tenant_id ({[execution_id]} ∪ dict_get_or ∅ tenant_id d) d).

(** [get], the truth of the set, then [discard]. *)
Definition end_body (tenant_id execution_id : string) : body tables unit :=
  execs ← get_field (λ q, dict_get tenant_id (qt_concurrent q));
  match execs with
  | None => mret tt
  | Some _ =>
      some_active ← get_field (λ q, bool_decide (active_in q tenant_id ≠ ∅));
      if (some_active : bool)
      then put_concurrent (λ d, dict_set tenant_id (dict_get_or ∅ tenant_id d ∖ {[execution_id]}) d)
      else mret tt
  end.

(** ** Blocks and methods *)

Inductive block :=
| BConsume (tenant_id : string) (tokens : Q)
| BRetryAfter (tenant_id : string)
| BReset (tenant_id : string)
| BConfigure (tenant_id : string) (config : TenantQuotaConfig)
| BGetConfig (tenant_id : string)
| BCount (tenant_id : string)
| BStart (tenant_id execution_id : string)
| BEnd (tenant_id execution_id : string)
| BDrop (tenant_id : string).

Inductive answer :=
| AAllowed (o : outcome bool)
| AWait (o : outcome Q)
| AConfig (config : TenantQuotaConfig)
| ACount (n : Z)
| ADone.

Definition lock_of (b : block) : quota_lock :=
  match b with BConsume _ _ | BRetryAfter _ | BReset _ => LimiterLock | _ => ManagerLock end.

Definition body_of (b : block) : body (quota_state (lock_of b)) answer :=
  match b with
  | BConsume x n => o ← consume_body x n; mret (AAllowed o)
  | BRetryAfter x => o ← retry_after_body x; mret (AWait o)
  | BReset x => put_field (rl_reset x) ;; mret ADone
  | BConfigure x config =>
      put_field (λ q, mkTables (qt_concurrent q) (dict_set x config (qt_configs q))) ;; mret ADone
  | BGetConfig x => config ← get_field (λ q, dict_get_or TenantQuotaConfig_default x (qt_configs q));
                    mret (AConfig config)
  | BCount x => n ← get_field (λ q, Z.of_nat (size (active_in q x))); mret (ACount n)
  | BStart x e => start_body x e ;; mret ADone
  | BEnd x e => end_body x e ;; mret ADone
  | BDrop x => put_concurrent (dict_del x) ;; mret ADone
  end.

(** What a thread does with the two objects: blocks and what comes of each
    answer. *)
Inductive prog := Done | Do (b : block) (k : answer → prog).

(** Its log: the blocks it ran with their answers. *)
Fixpoint method_of (p : prog) (log : list (block * answer))
    : method quota_state (list (block * answer)) :=
  match p with
  | Done => Return log
  | Do b k => Locked (lock_of b) (a ← body_of b; mret (method_of (k a) (log ++ [(b, a)])))
  end.

(** [check_concurrent]: the configuration under one lock, the count under the
    next. [cleanup]: the manager's lock, then the limiter's. *)
Definition check_concurrent_prog (tenant_id : string) (k : bool → prog) : prog :=
  Do (BGetConfig tenant_id) (λ c, Do (BCount tenant_id) (λ n,
    k (match c, n with AConfig config, ACount n => (n <? max_concurrent config)%Z | _, _ => false end))).
Definition start_execution_prog (tenant_id execution_id : string) (k : prog) : prog :=
  Do (BStart tenant_id execution_id) (λ _, k).
Definition check_and_consume_rate_prog (tenant_id : string) (k : answer → prog) : prog :=
  Do (BConsume tenant_id 1) k.
Definition cleanup_prog (tenant_id : string) (k : prog) : prog :=
  Do (BDrop tenant_id) (λ _, Do (BReset tenant_id) (λ _, k)).

(** ** The manager the two locks protect *)

Definition manager (σ : ∀ l, quota_state l) : QuotaManager :=
  mkQuota (σ LimiterLock) (qt_concurrent (σ ManagerLock)) (qt_configs (σ ManagerLock)).
Definition split_manager (q : QuotaManager) : ∀ l, quota_state l := λ l,
  match l with
  | LimiterLock => qm_rate_limiter q
  | ManagerLock => mkTables (qm_concurrent q) (qm_configs q)
  end.

Definition quota_pool (t0 : Z) (q : QuotaManager) (ps : list prog)
    : pool quota_state (list (block * answer)) :=
  mkPool (split_manager q) (λ _, false) t0 (map (λ p, Ready (method_of p [])) ps).

(** A block as the functions of [Quotas] have it. *)
Definition spec_block (now0 now : Z) (b : block) (q : QuotaManager) : answer * QuotaManager :=
  match b with
  | BConsume x n => let '(o, l) := consume now0 now x n (qm_rate_limiter q) in (AAllowed o, put_limiter l q)
  | BRetryAfter x => let '(o, q') := qm_retry_after now0 now x q in (AWait o, q')
  | BReset x => (ADone, put_limiter (rl_reset x (qm_rate_limiter q)) q)
  | BConfigure x config => (ADone, configure x config q)
  | BGetConfig x => (AConfig (get_config q x), q)
  | BCount x => (ACount (concurrent_count q x), q)
  | BStart x e => (ADone, qm_start_execution x e q)
  | BEnd x e => (ADone, qm_end_execution x e q)
  | BDrop x => (ADone, mkQuota (qm_rate_limiter q) (dict_del x (qm_concurrent q)) (qm_configs q))
  end.

(** ** A block alone is the function *)

Lemma put_put x b b' l : put_bucket x b (put_bucket x b' l) = put_bucket x b l.
Proof. unfold put_bucket. cbn. by rewrite dict_set_twice. Qed.

Lemma bucket_of_put x b l : bucket_of x (put_bucket x b l) = b.
Proof. unfold bucket_of, get_bucket. cbn. by rewrite dict_get_set_eq. Qed.

Lemma get_bucket_runs x t l t' u l' : runs t (get_bucket_body x) l t' u l' →
  ∃ now0, (t ≤ now0 ≤ t')%Z ∧ bucket_of x l' = get_bucket now0 x l ∧ ∀ b, put_bucket x b l' = put_bucket x b l.
Proof.
  unfold get_bucket_body. body_simpl. destruct (dict_mem x (rl_buckets l)) eqn:Hm; body_simpl.
  - apply dict_mem_true in Hm as [b Hb]. intros (-> & _ & ->). exists t. split_and!; [lia|lia| |done].
    unfold bucket_of, get_bucket. by rewrite Hb.
  - apply dict_mem_false in Hm. intros (v & Hv & -> & _ & ->). exists v. split_and!; [lia|lia| |].
    + rewrite bucket_of_put. unfold get_bucket. by rewrite Hm.
    + intros b. apply put_put.
Qed.

Lemma refill_runs x t l t' u l' : runs t (refill_body x) l t' u l' →
  (t ≤ t')%Z ∧ l' = put_bucket x (refill t' (bucket_of x l)) l.
Proof.
  unfold refill_body, read_bucket, write_bucket. body_simpl. intros (v & Hv & -> & _ & ->). split; [done|]. by rewrite put_put, bucket_of_put.
Qed.

Lemma consume_runs x n t l t' o l' : runs t (consume_body x n) l t' o l' →
  ∃ now0, (t ≤ now0 ≤ t')%Z ∧ consume now0 t' x n l = (o, l').
Proof.
  unfold consume_body. rewrite runs_bind. intros (v & [] & l1 & (now0 & Hn & Hb & Hp)%get_bucket_runs & H).
  rewrite runs_bind in H. destruct H as (w & [] & l2 & [Hw ->]%refill_runs & H). rewrite Hb, Hp in H.
  exists now0. unfold consume, bucket_consume.
  unfold read_bucket, write_bucket in H. body_simpl. rewrite bucket_of_put in H.
  destruct (Qle_bool n (tb_tokens (refill w (get_bucket now0 x l)))) eqn:Hq; body_simpl;
    destruct H as (-> & -> & ->); (split; [lia|]); rewrite Hq; [by rewrite put_put, !bucket_of_put|done].
Qed.

Lemma retry_runs x t l t' o l' : runs t (retry_after_body x) l t' o l' →
  ∃ now0, (t ≤ now0 ≤ t')%Z ∧ rl_retry_after now0 t' x l = (o, l').
Proof.
  unfold retry_after_body. rewrite runs_bind. intros (v & [] & l1 & (now0 & Hn & Hb & Hp)%get_bucket_runs & H).
  rewrite runs_bind in H. destruct H as (w & [] & l2 & [Hw ->]%refill_runs & H). rewrite Hb, Hp in H.
  exists now0. unfold rl_retry_after, bucket_retry_after.
  unfold read_bucket, write_bucket in H. body_simpl. rewrite bucket_of_put in H.
  destruct (Qle_bool (1 - tb_tokens (refill w (get_bucket now0 x l))) 0) eqn:Hq; body_simpl;
    destruct H as (-> & -> & ->); (split; [lia|]); rewrite Hq; [done|]. by rewrite bucket_of_put.
Qed.

Definition with_tables (q : QuotaManager) (tb : tables) : QuotaManager :=
  mkQuota (qm_rate_limiter q) (qt_concurrent tb) (qt_configs tb).

Lemma start_runs x e t q t' u s' :
  runs t (start_body x e) (mkTables (qm_concurrent q) (qm_configs q)) t' u s' →
  t' = t ∧ qm_start_execution x e q = with_tables q s'.
Proof.
  unfold start_body, put_concurrent. body_simpl. cbn [qt_concurrent qt_configs]. intros (-> & _ & ->).
  split; [done|]. unfold qm_start_execution, with_tables, active_set. cbn. f_equal.
  destruct (dict_mem x (qm_concurrent q)) eqn:Hm; [done|]. apply dict_mem_false in Hm.
  unfold dict_get_or. by rewrite dict_set_twice, dict_get_set_eq, Hm.
Qed.

Lemma end_runs x e t q t' u s' :
  runs t (end_body x e) (mkTables (qm_concurrent q) (qm_configs q)) t' u s' →
  t' = t ∧ qm_end_execution x e q = with_tables q s'.
Proof.
  unfold end_body, put_concurrent, qm_end_execution, active_in. body_simpl. cbn [qt_concurrent qt_configs].
  destruct (dict_get x (qm_concurrent q)) as [execs|] eqn:Hx.
  - unfold dict_get_or. body_simpl. cbn [qt_concurrent qt_configs]. rewrite Hx. cbn [default].
    case_decide as Hd; [rewrite bool_decide_eq_false_2 by tauto|rewrite bool_decide_eq_true_2 by done];
      body_simpl; cbn [qt_concurrent qt_configs]; intros (-> & _ & ->); (split; [done|]).
    + by destruct q.
    + unfold with_tables. cbn. by rewrite Hx.
  - intros (-> & _ & ->). split; [done|]. by destruct q.
Qed.

(** A block alone, whatever readings it makes, is the function of [Quotas]. *)
Lemma block_runs b t (σ : ∀ l, quota_state l) t' ans s :
  runs t (body_of b) (σ (lock_of b)) t' ans s →
  ∃ now0, (t ≤ now0 ≤ t')%Z ∧ spec_block now0 t' b (manager σ) = (ans, manager (put (lock_of b) s σ)).
Proof.
  intros H. pose proof (runs_time _ _ _ _ _ _ H) as Ht. revert H.
  assert (∀ s : TokenBucketRateLimiter, manager (put (T := quota_state) LimiterLock s σ) = put_limiter s (manager σ)) as HL.
  { intros s0. unfold manager, put_limiter. cbn. by rewrite put_same, !put_other. }
  assert (∀ s : tables, manager (put (T := quota_state) ManagerLock s σ) = with_tables (manager σ) s) as HM.
  { intros s0. unfold manager, with_tables. cbn. by rewrite put_same, !put_other. }
  destruct b; cbn [body_of lock_of spec_block] in *; rewrite ?HL, ?HM.
  - rewrite runs_bind. intros (v & o & l1 & (now0 & Hn & Hc)%consume_runs & H). body_simpl.
    destruct H as (-> & -> & ->). exists now0. split; [done|]. cbn. by rewrite Hc.
  - rewrite runs_bind. intros (v & o & l1 & (now0 & Hn & Hc)%retry_runs & H). body_simpl.
    destruct H as (-> & -> & ->). exists now0. split; [done|]. unfold qm_retry_after, zoom.
    change (qm_rate_limiter (manager σ)) with (σ LimiterLock). by rewrite Hc.
  - body_simpl. intros (-> & -> & ->). by exists t.
  - body_simpl. intros (-> & -> & ->). by exists t.
  - body_simpl. intros (-> & -> & ->). by exists t.
  - body_simpl. intros (-> & -> & ->). by exists t.
  - rewrite runs_bind. intros (v & [] & s1 & H1 & H). body_simpl. destruct H as (-> & -> & ->).
    exists t. assert (σ ManagerLock = mkTables (qm_concurrent (manager σ)) (qm_configs (manager σ))) as Hσ
      by (cbn; by destruct (σ ManagerLock)). rewrite Hσ in H1. apply start_runs in H1 as [-> H1].
    split; [done|]. by rewrite H1.
  - rewrite runs_bind. intros (v & [] & s1 & H1 & H). body_simpl. destruct H as (-> & -> & ->).
    exists t. assert (σ ManagerLock = mkTables (qm_concurrent (manager σ)) (qm_configs (manager σ))) as Hσ
      by (cbn; by destruct (σ ManagerLock)). rewrite Hσ in H1. apply end_runs in H1 as [-> H1].
    split; [done|]. by rewrite H1.
  - unfold put_concurrent. body_simpl. intros (-> & -> & ->). by exists t.
Qed.

(** ** One order for all calls *)

(** A block that thread [qe_thread] ran and its answer. *)
Record event := mkQEvent { qe_thread : nat; qe_block : block; qe_answer : answer }.

(** The functions of [Quotas] one after the other, their readings in order. *)
Inductive sequential (q0 : QuotaManager) (t0 : Z) : list event → Z → QuotaManager → Prop :=
| sq_nil : sequential q0 t0 [] t0 q0
| sq_snoc h t q i b now0 now ans q' :
    sequential q0 t0 h t q → (t ≤ now0 ≤ now)%Z → spec_block now0 now b q = (ans, q') →
    sequential q0 t0 (h ++ [mkQEvent i b ans]) now q'.

Definition log_of (i : nat) (h : list event) : list (block * answer) :=
  (λ e, (qe_block e, qe_answer e)) <$> filter (λ e, qe_thread e = i) h.

(** [p'] is what is left of [p] after [log]. *)
Fixpoint leads (p : prog) (log : list (block * answer)) (p' : prog) {struct log} : Prop :=
  match log with
  | [] => p' = p
  | (b, a) :: log => match p with Do b' k => b = b' ∧ leads (k a) log p' | Done => False end
  end.

Lemma log_of_snoc i h j b a :
  log_of i (h ++ [mkQEvent j b a]) = log_of i h ++ (if decide (j = i) then [(b, a)] else []).
Proof.
  unfold log_of. rewrite list.filter_app, fmap_app. f_equal. rewrite list.filter_cons. cbn. by case_decide.
Qed.

Lemma leads_snoc p log b k a : leads p log (Do b k) → leads p (log ++ [(b, a)]) (k a).
Proof.
  revert p. induction log as [|[b' a'] log IH]; intros p; cbn; [by intros <-|].
  destruct p as [|b1 k1]; [done|]. intros [-> H]. split; [done|]. by apply IH.
Qed.

Lemma spec_block_readings b n0 n1 m0 m1 q : lock_of b = ManagerLock → spec_block n0 n1 b q = spec_block m0 m1 b q.
Proof. by destruct b. Qed.

(** What a state of whole blocks has behind it. *)
Definition explained (q0 : QuotaManager) (t0 : Z) (ps : list prog)
    (a : apool quota_state (list (block * answer))) (h : list event) : Prop :=
  sequential q0 t0 h (last_of a LimiterLock) (manager (ashared a))
  ∧ (last_of a LimiterLock ≤ anow_of a)%Z
  ∧ length (methods a) = length ps
  ∧ Forall (λ e, qe_thread e < length ps)%nat h
  ∧ ∀ i p, ps !! i = Some p → ∃ p', leads p (log_of i h) p' ∧ methods a !! i = Some (method_of p' (log_of i h)).

Lemma Locked_inj {A} l (b b' : body (quota_state l) (method quota_state A)) :
  Locked l b = Locked l b' → b = b'.
Proof. intros H. injection H. apply Eqdep_dec.inj_pair2_eq_dec. intros x y. apply quota_lock_eq_dec. Qed.

(** Only the limiter's blocks move its last reading. *)
Lemma lock_reading l (u : Z) (last : quota_lock → Z) :
  l = LimiterLock ∧ <[l := u]> last LimiterLock = u
  ∨ l = ManagerLock ∧ <[l := u]> last LimiterLock = last LimiterLock.
Proof. destruct l; [left|right]; (split; [done|]); [apply fn_lookup_insert|by apply fn_lookup_insert_ne]. Qed.

Lemma atomic_explained q0 t0 ps a a' h : explained q0 t0 ps a h → atomic_step a a' →
  ∃ h', explained q0 t0 ps a' h'.
Proof.
  intros (Hseq & Hlast & Hlen & Hall & Hps) [i l b t m s Hi Hr Ht|t Ht]; [|exists h; split_and!; cbn; auto; lia].
  destruct (ps !! i) as [p|] eqn:Hp.
  2:{ apply lookup_ge_None in Hp. apply lookup_lt_Some in Hi. lia. }
  destruct (Hps i p Hp) as (p' & Hleads & Hm). rewrite Hi in Hm. injection Hm as Hm.
  destruct p' as [|blk k]; [done|]. cbn [method_of] in Hm.
  assert (l = lock_of blk) as -> by (by injection Hm). apply Locked_inj in Hm. subst b.
  apply runs_bind in Hr as (u & ans & s1 & Hr & Hm). body_simpl. destruct Hm as (-> & -> & ->).
  apply block_runs in Hr as (now0 & Hn & Hspec).
  exists (h ++ [mkQEvent i blk ans]). split_and!.
  - cbn [last_of ashared]. destruct (lock_reading (lock_of blk) u (last_of a)) as [(Hl & ->)|(Hl & ->)].
    + eapply sq_snoc; [exact Hseq| |exact Hspec]. by replace (last_of a LimiterLock) with (last_of a (lock_of blk)) by (by f_equal).
    + eapply sq_snoc; [exact Hseq| |rewrite <- Hspec; by apply spec_block_readings].
      split; apply Z.le_refl.
  - cbn [last_of anow_of]. by destruct (lock_reading (lock_of blk) u (last_of a)) as [(_ & ->)|(_ & ->)].
  - cbn. by rewrite length_insert.
  - apply Forall_app. split; [done|]. constructor; [by eapply lookup_lt_Some|done].
  - intros j pj Hj. cbn [methods]. rewrite log_of_snoc. destruct (decide (i = j)) as [<-|Hne].
    + simplify_eq. exists (k ans). split; [by apply leads_snoc|].
      apply list_lookup_insert_eq. by eapply lookup_lt_Some.
    + rewrite app_nil_r. destruct (Hps j pj Hj) as (pj' & H1 & H2). exists pj'. split; [done|].
      by rewrite list_lookup_insert_ne.
Qed.

Lemma quota_pool_idle t0 q ps : idle (quota_pool t0 q ps).
Proof.
  split; [|done]. intros i th. cbn. rewrite list_lookup_fmap. by destruct (ps !! i); intros [= <-].
Qed.

Lemma quota_explained t0 q ps c : star step (quota_pool t0 q ps) c →
  ∃ a h, stands_for c a ∧ explained q t0 ps a h.
Proof.
  intros Hs. destruct (blocks_are_atomic (quota_pool t0 q ps) c t0) as (a & Ha & Hst);
    [apply Z.le_refl|apply quota_pool_idle|done|].
  assert (∃ h, explained q t0 ps (atomic_of t0 (quota_pool t0 q ps)) h) as H0.
  { exists []. split_and!; cbn.
    - replace (manager (split_manager q)) with q by (by destruct q). constructor.
    - lia.
    - by rewrite !length_map.
    - done.
    - intros i p Hp. exists p. split; [done|]. by rewrite !list_lookup_fmap, Hp. }
  enough (∃ h, explained q t0 ps a h) as [h Hh] by (by exists a, h).
  refine (star_invariant atomic_step (λ a, ∃ h, explained q t0 ps a h) _ a _ H0 Ha).
  intros x y [h Hh] Hxy. by eapply atomic_explained.
Qed.

Lemma returned_log c a h q t0 ps i log : stands_for c a → explained q t0 ps a h →
  threads c !! i = Some (Ready (Return log)) → log = log_of i h ∧ ∃ p, ps !! i = Some p ∧ leads p log Done.
Proof.
  intros Hs (_ & _ & Hlen & _ & Hps) Hi. destruct (stands_at _ _ c a i _ Hs Hi) as (m & Hm & ->).
  destruct (ps !! i) as [p|] eqn:Hp.
  2:{ apply lookup_ge_None in Hp. apply lookup_lt_Some in Hm. lia. }
  destruct (Hps i p Hp) as (p' & Hl & Hm'). rewrite Hm in Hm'. injection Hm' as Hm'.
  destruct p'; [|done]. cbn in Hm'. injection Hm' as ->. split; [done|]. by exists p.
Qed.

(** C17: the locks make the two objects safe to share. However the threads
    interleave, access by access, and whatever the clock reads meanwhile, there
    is one order of all their locked blocks in which each is the function of
    [Quotas]: every thread's answers are those of that order, its blocks are
    in it in the order of its program, the readings of the limiter do not go
    back, and when no lock is held the objects are what that order leaves. *)
Theorem quota_calls_linearizable q t0 ps c :
  star step (quota_pool t0 q ps) c →
  ∃ h t q', sequential q t0 h t q' ∧ (t ≤ now_of c)%Z
    ∧ (∀ i log, threads c !! i = Some (Ready (Return log)) →
         log = log_of i h ∧ ∃ p, ps !! i = Some p ∧ leads p log Done)
    ∧ ((∀ l, locked c l = false) → manager (shared c) = q').
Proof.
  intros Hs. destruct (quota_explained t0 q ps c Hs) as (a & h & Hst & He).
  exists h, (last_of a LimiterLock), (manager (ashared a)). split; [apply He|].
  split; [rewrite <- (sf_now _ _ _ _ Hst); apply He|]. split; [intros i log; by eapply returned_log|].
  intros Hl. pose proof (sf_free _ _ _ _ Hst) as Hf. unfold manager. by rewrite !Hf.
Qed.

(** ** The rate limit, for all threads together *)

(** Programs whose blocks all satisfy [P]. *)
Fixpoint uses (P : block → Prop) (p : prog) : Prop :=
  match p with Done => True | Do b k => P b ∧ ∀ a, uses P (k a) end.

(** The tenant's requests are [check_and_consume_rate]'s, for one token each, and
    its bucket is not thrown away. *)
Definition asks_one (tenant_id : string) (b : block) : Prop :=
  match b with
  | BConsume x tokens => x = tenant_id → tokens = 1
  | BReset x => x ≠ tenant_id
  | _ => True
  end.

Definition granted (tenant_id : string) (e : block * answer) : nat :=
  match e with
  | (BConsume x _, AAllowed (Ok true)) => if decide (x = tenant_id) then 1 else 0
  | _ => 0
  end%nat.
Definition grants (tenant_id : string) (log : list (block * answer)) : nat :=
  sum_list_with (granted tenant_id) log.

(** What the threads that returned were granted. *)
Definition thread_grants (tenant_id : string) (th : thread quota_state (list (block * answer))) : nat :=
  match th with Ready (Return log) => grants tenant_id log | _ => 0 end%nat.

Lemma leads_uses P p log p' : uses P p → leads p log p' → Forall (λ e, P e.1) log.
Proof.
  revert p. induction log as [|[b a] log IH]; intros p Hp; [done|].
  destruct p as [|b' k]; [done|]. destruct Hp as [Hb Hk]. intros [-> Hl]. constructor; [done|].
  by eapply IH.
Qed.

Lemma sum_point_le (f : nat → nat) j d l : NoDup l →
  (sum_list_with (λ i, f i + if decide (j = i) then d else 0) l ≤ sum_list_with f l + d)%nat.
Proof.
  assert (∀ l, j ∉ l → sum_list_with (λ i, f i + if decide (j = i) then d else 0) l = sum_list_with f l)%nat as Hno.
  { intros l'. induction l' as [|i l' IH]; [done|]. intros [Hj Hl]%not_elem_of_cons. cbn.
    rewrite decide_False, IH by done. lia. }
  induction 1 as [|i l Hi Hl IH]; [cbn; lia|]. cbn. case_decide; [subst; rewrite Hno by done; lia|lia].
Qed.

Lemma sum_logs_le x h n :
  (sum_list_with (λ i, grants x (log_of i h)) (seq 0 n) ≤ grants x ((λ e, (qe_block e, qe_answer e)) <$> h))%nat.
Proof.
  induction h as [|[j b a] h IH] using rev_ind.
  { induction (seq 0 n) as [|i l IHl]; [cbn; lia|exact IHl]. }
  rewrite fmap_app. unfold grants at 2. rewrite sum_list_with_app. fold (grants x ((λ e, (qe_block e, qe_answer e)) <$> h)).
  etrans; [|apply Nat.add_le_mono_r, IH]. cbn [sum_list_with fmap list_fmap qe_block qe_answer]. rewrite Nat.add_0_r.
  etrans; [|apply (sum_point_le _ j), NoDup_ListNoDup, seq_NoDup]. apply Nat.eq_le_incl.
  clear IH. induction (seq 0 n) as [|i l IHl]; [done|]. cbn [sum_list_with]. f_equal; [|exact IHl].
  rewrite log_of_snoc. unfold grants. rewrite sum_list_with_app. f_equal. case_decide; cbn; lia.
Qed.

Lemma sum_threads_le {X} (g : X → nat) (f : nat → nat) l k :
  (∀ i x, l !! i = Some x → g x ≤ f (k + i))%nat → (sum_list_with g l ≤ sum_list_with f (seq k (length l)))%nat.
Proof.
  revert k. induction l as [|x l IH]; intros k H; [done|]. cbn.
  apply Nat.add_le_mono; [specialize (H 0%nat x eq_refl); by rewrite Nat.add_0_r in H|].
  apply IH. intros i y Hy. specialize (H (S i) y Hy). by rewrite Nat.add_succ_r in H.
Qed.

Section RateBound.
Context (tenant_id : string) (cap rate : Q) (t0 : Z).
Context (cap_nonneg : 0 <= cap) (rate_nonneg : 0 <= rate).

(** The tenant's bucket after [n] grants. *)
Definition bucket_accounts (n : nat) (t : Z) (q : QuotaManager) : Prop :=
  rl_max_tokens (qm_rate_limiter q) = cap ∧ rl_refill_rate (qm_rate_limiter q) = rate
  ∧ match dict_get tenant_id (rl_buckets (qm_rate_limiter q)) with
    | None => n = 0%nat
    | Some b => bucket_wf b ∧ tb_max_tokens b = cap ∧ tb_refill_rate b = rate
        ∧ (t0 ≤ tb_last_refill b ≤ t)%Z
        ∧ inject_Z (Z.of_nat n) + tb_tokens b <= cap + seconds (tb_last_refill b - t0) * rate
    end.

Lemma get_bucket_accounts n t q now0 : bucket_accounts n t q → (t0 ≤ t ≤ now0)%Z →
  let b := get_bucket now0 tenant_id (qm_rate_limiter q) in
  bucket_wf b ∧ tb_max_tokens b = cap ∧ tb_refill_rate b = rate ∧ (t0 ≤ tb_last_refill b ≤ now0)%Z
  ∧ inject_Z (Z.of_nat n) + tb_tokens b <= cap + seconds (tb_last_refill b - t0) * rate.
Proof.
  intros (Hc & Hr & Hb) Ht. unfold get_bucket. destruct (dict_get _ _) as [b|].
  - destruct Hb as (? & ? & ? & ? & ?). split_and!; try done; lia.
  - subst n. rewrite Hc, Hr. cbn.
    split; [split_and!; cbn; lra|]. split; [done|]. split; [done|]. split; [lia|].
    assert (0 <= seconds (now0 - t0) * rate)
      by (apply Qmult_le_0_compat; [apply seconds_nonneg; lia|done]).
    change (inject_Z (Z.of_nat 0)) with 0. lra.
Qed.

(** The bucket after [refill], and what follows for any later account. *)
Lemma refill_accounts n b now : bucket_wf b → tb_max_tokens b = cap → tb_refill_rate b = rate →
  (t0 ≤ tb_last_refill b ≤ now)%Z →
  inject_Z (Z.of_nat n) + tb_tokens b <= cap + seconds (tb_last_refill b - t0) * rate →
  bucket_wf (refill now b)
  ∧ inject_Z (Z.of_nat n) + tb_tokens (refill now b) <= cap + seconds (now - t0) * rate.
Proof.
  intros Hwf Hc Hr Ht Hn. destruct (refill_spec now b Hwf) as (Hwf' & _ & Hle); [lia|]. split; [done|].
  rewrite Hr in Hle.
  assert (seconds (now - t0) == seconds (now - tb_last_refill b) + seconds (tb_last_refill b - t0)) as ->.
  { rewrite <- seconds_add. by replace (now - t0)%Z with (now - tb_last_refill b + (tb_last_refill b - t0))%Z by lia. }
  lra.
Qed.

Lemma put_accounts n now q x b : (x = tenant_id →
    bucket_wf b ∧ tb_max_tokens b = cap ∧ tb_refill_rate b = rate ∧ tb_last_refill b = now
    ∧ inject_Z (Z.of_nat n) + tb_tokens b <= cap + seconds (now - t0) * rate) →
  (t0 ≤ now)%Z → (x ≠ tenant_id → bucket_accounts n now q) →
  rl_max_tokens (qm_rate_limiter q) = cap → rl_refill_rate (qm_rate_limiter q) = rate →
  bucket_accounts n now (put_limiter (put_bucket x b (qm_rate_limiter q)) q).
Proof.
  intros Hb Ht Hq Hc Hr. split; [done|]. split; [done|]. cbn. rewrite dict_get_set. case_decide as Hd.
  - destruct (Hb (eq_sym Hd)) as (? & ? & ? & Hl & ?). rewrite Hl. split_and!; try done; lia.
  - apply Hq. congruence.
Qed.

Lemma accounts_later n t t' q : bucket_accounts n t q → (t ≤ t')%Z → bucket_accounts n t' q.
Proof.
  intros (Hc & Hr & Hb) Ht. split_and!; [done..|]. destruct (dict_get _ _) as [b|]; [|done].
  destruct Hb as (? & ? & ? & ? & ?). split_and!; try done; lia.
Qed.

(** One call of the limiter for [tokens] of the tenant [x]. *)
Lemma consume_accounts n t now0 now q x tokens ok l :
  bucket_accounts n t q → (t0 ≤ t)%Z → (t ≤ now0 ≤ now)%Z → (x = tenant_id → tokens = 1) →
  consume now0 now x tokens (qm_rate_limiter q) = (Ok ok, l) →
  bucket_accounts (n + (if decide (x = tenant_id) then if ok : bool then 1 else 0 else 0))%nat now (put_limiter l q).
Proof.
  intros Hn Ht0 Ht Hone. unfold consume. destruct (bucket_consume now tokens _) as [ok' b] eqn:Hb. intros [= <- <-].
  pose proof Hn as (Hc & Hr & _). apply put_accounts; [|lia| |done|done].
  - intros ->. rewrite decide_True by done. rewrite (Hone eq_refl) in Hb.
    destruct (get_bucket_accounts n t q now0 Hn) as (Hwf & Hcap & Hrate & Hlast & Hle); [lia|].
    assert (tb_last_refill (get_bucket now0 tenant_id (qm_rate_limiter q)) ≤ now)%Z as Hlt by lia.
    destruct (bucket_consume_spec _ _ _ _ Hwf Hlt Hb) as (Hwf' & Hl' & Hm' & Hr' & Hle').
    rewrite Hm', Hr', Hl'. split; [exact Hwf'|]. split; [exact Hcap|]. split; [exact Hrate|]. split; [done|].
    rewrite Hrate in Hle'. set (b0 := get_bucket _ _ _) in *.
    assert (seconds (now - t0) == seconds (now - tb_last_refill b0) + seconds (tb_last_refill b0 - t0)) as ->.
    { rewrite <- seconds_add. by replace (now - t0)%Z with (now - tb_last_refill b0 + (tb_last_refill b0 - t0))%Z by lia. }
    rewrite Nat2Z.inj_add, inject_Z_plus. destruct ok'; cbn [Z.of_nat];
      [change (inject_Z (Z.of_nat 1)) with 1|change (inject_Z (Z.of_nat 0)) with 0]; lra.
  - intros Hne. rewrite decide_False, Nat.add_0_r by done. eapply accounts_later; [done|lia].
Qed.

Lemma retry_accounts n t now0 now q x o l :
  bucket_accounts n t q → (t0 ≤ t)%Z → (t ≤ now0 ≤ now)%Z →
  rl_retry_after now0 now x (qm_rate_limiter q) = (o, l) → bucket_accounts n now (put_limiter l q).
Proof.
  intros Hn Ht0 Ht [= _ <-]. pose proof Hn as (Hc & Hr & _). apply put_accounts; [|lia| |done|done].
  - intros ->. destruct (get_bucket_accounts n t q now0 Hn) as (Hwf & Hcap & Hrate & Hlast & Hle); [lia|].
    destruct (refill_accounts n _ now Hwf Hcap Hrate) as [Hwf' Hle']; [lia|exact Hle|].
    split; [exact Hwf'|]. split; [exact Hcap|]. split; [exact Hrate|]. by split.
  - intros Hne. eapply accounts_later; [done|lia].
Qed.

Lemma block_accounts n t now0 now b ans q q' :
  bucket_accounts n t q → (t0 ≤ t)%Z → (t ≤ now0 ≤ now)%Z → asks_one tenant_id b →
  spec_block now0 now b q = (ans, q') → bucket_accounts (n + granted tenant_id (b, ans)) now q'.
Proof.
  intros Hn Ht0 Ht Hb. pose proof (accounts_later n t now q Hn ltac:(lia)) as Hnow.
  destruct b as [x tokens|x|x|x config|x|x|x e|x e|x]; cbn [spec_block granted];
    rewrite ?Nat.add_0_r; try (intros [= <- <-]; exact Hnow).
  - destruct (consume now0 now x tokens (qm_rate_limiter q)) as [[ok|e] l] eqn:Hc; intros [= <- <-].
    + pose proof (consume_accounts n t now0 now q x tokens ok l Hn Ht0 Ht Hb Hc) as H.
      destruct ok; [exact H|]. by destruct (decide (x = tenant_id)).
    + unfold consume in Hc. by destruct (bucket_consume _ _ _).
  - destruct (qm_retry_after now0 now x q) as [o q1] eqn:Hr. intros [= <- <-]. revert Hr.
    unfold qm_retry_after, zoom. destruct (rl_retry_after _ _ _ _) as [o1 l] eqn:Hr. intros [= _ <-].
    exact (retry_accounts n t now0 now q x o1 l Hn Ht0 Ht Hr).
  - intros [= <- <-]. destruct Hnow as (Hc & Hr & Hm). split_and!; [done..|]. cbn. rewrite dict_get_del.
    by rewrite decide_False by (intros ->; by apply Hb).
  - intros [= <- <-]. unfold qm_end_execution. destruct (dict_get x (qm_concurrent q)) as [s|]; [|exact Hnow].
    by case_decide.
Qed.

Lemma sequential_accounts q0 h t q : bucket_accounts 0 t0 q0 → sequential q0 t0 h t q →
  Forall (λ e, asks_one tenant_id (qe_block e)) h →
  (t0 ≤ t)%Z ∧ bucket_accounts (grants tenant_id ((λ e, (qe_block e, qe_answer e)) <$> h)) t q.
Proof.
  intros H0. induction 1 as [|h t q i b now0 now ans q' Hseq IH Hn Hspec]; intros Hall; [split; [lia|exact H0]|].
  apply Forall_app in Hall as [Hall [Hb _]%Forall_cons_1]. destruct (IH Hall) as [Ht Hacc]. split; [lia|].
  rewrite fmap_app. unfold grants. rewrite sum_list_with_app. cbn [fmap list_fmap sum_list_with].
  rewrite Nat.add_0_r. exact (block_accounts _ _ _ _ _ _ _ _ Hacc Ht Hn Hb Hspec).
Qed.

(** C16: the rate limit holds for all the threads together: whatever they do with
    the two objects and however they interleave, the requests of one token each
    that a tenant was granted are at most the capacity of its bucket and what it
    refilled, for a capacity and a rate that are not negative and a clock that
    does not go back, as long as the tenant asks for one token at a time and no
    thread throws its bucket away. *)
Theorem threads_rate_bound ps c :
  Forall (uses (asks_one tenant_id)) ps →
  star step (quota_pool t0 (QuotaManager_new (TokenBucketRateLimiter_new cap rate)) ps) c →
  inject_Z (Z.of_nat (sum_list_with (thread_grants tenant_id) (threads c)))
  <= cap + seconds (now_of c - t0) * rate.
Proof.
  intros Hps Hs. destruct (quota_explained _ _ _ _ Hs) as (a & h & Hst & He).
  pose proof He as (Hseq & Hlast & Hlen & Hthreads & Hlogs). rewrite (sf_now _ _ _ _ Hst) in Hlast.
  assert (Forall (λ e, asks_one tenant_id (qe_block e)) h) as Hall.
  { apply list.Forall_forall. intros [i b ans] Hin.
    destruct (lookup_lt_is_Some_2 ps i) as [p Hp]; [exact (proj1 (list.Forall_forall _ _) Hthreads _ Hin)|].
    destruct (Hlogs i p Hp) as (p' & Hl & _). rewrite list.Forall_forall in Hps.
    pose proof (leads_uses _ _ _ _ (Hps p (list_elem_of_lookup_2 _ _ _ Hp)) Hl) as Huse.
    refine (proj1 (list.Forall_forall _ _) Huse (b, ans) _). unfold log_of. apply list_elem_of_fmap.
    exists (mkQEvent i b ans). split; [done|]. by apply list_elem_of_filter. }
  assert (bucket_accounts 0 t0 (QuotaManager_new (TokenBucketRateLimiter_new cap rate))) as H0 by done.
  destruct (sequential_accounts _ _ _ _ H0 Hseq Hall) as (Ht & Hc & Hr & Hb).
  set (n := grants _ _) in Hb.
  assert (sum_list_with (thread_grants tenant_id) (threads c) ≤ n)%nat as Hsum.
  { etrans; [|apply (sum_logs_le tenant_id h (length (threads c)))].
    apply sum_threads_le. intros i th Hi. cbn. destruct th as [[log|l b]|l b]; cbn; try lia.
    by destruct (returned_log _ _ _ _ _ _ _ _ Hst He Hi) as [-> _]. }
  assert (inject_Z (Z.of_nat (sum_list_with (thread_grants tenant_id) (threads c))) <= inject_Z (Z.of_nat n)) as Hle
    by (rewrite <- Zle_Qle; lia).
  assert (0 <= seconds (now_of c - t0) * rate) as Hpos
    by (apply Qmult_le_0_compat; [apply seconds_nonneg; lia|done]).
  destruct (dict_get _ _) as [b|].
  - destruct Hb as ((Hb0 & _) & _ & _ & Hl & Hacc).
    assert (seconds (tb_last_refill b - t0) * rate <= seconds (now_of c - t0) * rate).
    { apply Qmult_le_compat_r; [|done]. unfold seconds, Qle. cbn. lia. }
    lra.
  - rewrite Hb in Hle. change (inject_Z (Z.of_nat 0)) with 0 in Hle. lra.
Qed.
End RateBound.

(** ** No deadlock *)

(** No thread waits for ever: from every state the threads reach they make
    only finitely many steps more, and when none can move every thread has run
    its whole program. *)
Theorem quota_threads_finish q t0 ps c :
  star step (quota_pool t0 q ps) c →
  Acc (flip thread_step) c
  ∧ ((∀ i, advance i c = None) →
     ∀ i p, ps !! i = Some p → ∃ log, threads c !! i = Some (Ready (Return log)) ∧ leads p log Done).
Proof.
  intros Hs. destruct (threads_finish _ c (quota_pool_idle t0 q ps) Hs) as [Hacc Hret].
  split; [exact Hacc|]. intros Hstuck i p Hp.
  destruct (quota_explained t0 q ps c Hs) as (a & h & Hst & He).
  assert (is_Some (threads c !! i)) as [th Hth].
  { apply lookup_lt_is_Some. rewrite <- (sf_length _ _ _ _ Hst). destruct He as (_ & _ & -> & _).
    by eapply lookup_lt_Some. }
  destruct (Hret Hstuck i th Hth) as [log ->]. exists log. split; [done|].
  destruct (returned_log _ _ _ _ _ _ _ _ Hst He Hth) as (_ & p' & Hp' & Hl). by simplify_eq.
Qed.

(** ** Threads at work *)

Definition ask_twice : prog :=
  check_and_consume_rate_prog "t" (λ _, check_and_consume_rate_prog "t" (λ _, Done)).
Definition demo_quota : QuotaManager := QuotaManager_new (TokenBucketRateLimiter_new 2 1).
Definition demo_threads : pool quota_state (list (block * answer)) :=
  quota_pool 0 demo_quota [ask_twice; ask_twice; cleanup_prog "u" Done].

(** The third thread drops its set while the first is in the limiter, and waits
    for the limiter's lock; the second gets it first. *)
Definition demo_schedule : list nat :=
  repeat 0%nat 9 ++ repeat 2%nat 3 ++ repeat 0%nat 9 ++ repeat 1%nat 5 ++ repeat 1%nat 8
  ++ repeat 2%nat 3 ++ repeat 0%nat 11 ++ repeat 1%nat 11.

Example demo_schedule_runs :
  run_schedule demo_schedule demo_threads ≠ None
  ∧ (∀ i, (i < 3)%nat → advance i (scheduled_to demo_schedule demo_threads) = None).
Proof.
  split; [by vm_compute|]. intros i Hi.
  assert (i = 0 ∨ i = 1 ∨ i = 2)%nat as [-> | [-> | ->]] by lia; vm_compute; reflexivity.
Qed.
Definition demo_end := scheduled_to demo_schedule demo_threads.

Lemma quota_calls_linearizable_witness :
  threads demo_end !! 1%nat
  = Some (Ready (Return [(BConsume "t" 1, AAllowed (Ok true)); (BConsume "t" 1, AAllowed (Ok false))]))
  ∧ ∃ h t q', sequential demo_quota 0 h t q'
      ∧ log_of 1 h = [(BConsume "t" 1, AAllowed (Ok true)); (BConsume "t" 1, AAllowed (Ok false))]
      ∧ manager (shared demo_end) = q'.
Proof.
  assert (threads demo_end !! 1%nat
    = Some (Ready (Return [(BConsume "t" 1, AAllowed (Ok true)); (BConsume "t" 1, AAllowed (Ok false))]))) as H1
    by (vm_compute; reflexivity).
  split; [exact H1|].
  destruct (quota_calls_linearizable demo_quota 0 [ask_twice; ask_twice; cleanup_prog "u" Done] demo_end
    (scheduled_to_star demo_schedule demo_threads)) as (h & t & q' & Hs & _ & Hlog & Hq).
  exists h, t, q'. split; [exact Hs|]. split; [symmetry; apply (Hlog 1%nat _ H1)|].
  apply Hq. intros []; vm_compute; reflexivity.
Defined.

Lemma threads_rate_bound_witness :
  sum_list_with (thread_grants "t") (threads demo_end) = 2%nat
  ∧ inject_Z (Z.of_nat (sum_list_with (thread_grants "t") (threads demo_end)))
    <= 2 + seconds (now_of demo_end - 0) * 1.
Proof.
  split; [vm_compute; reflexivity|].
  apply (threads_rate_bound "t" 2 1 0 ltac:(discriminate) ltac:(discriminate)
    [ask_twice; ask_twice; cleanup_prog "u" Done] demo_end).
  - repeat constructor; cbn; congruence || (intros; congruence).
  - apply (scheduled_to_star demo_schedule demo_threads).
Defined.

Lemma quota_threads_finish_witness :
  ∃ log, threads demo_end !! 0%nat = Some (Ready (Return log)) ∧ leads ask_twice log Done.
Proof.
  destruct (quota_threads_finish demo_quota 0 [ask_twice; ask_twice; cleanup_prog "u" Done] demo_end
    (scheduled_to_star demo_schedule demo_threads)) as [_ H].
  apply H; [|reflexivity]. intros i. destruct i as [|[|[|i]]]; vm_compute; reflexivity.
Defined.

(** [check_concurrent] and [start_execution] are blocks of their own: two threads
    that both check before either starts exceed the limit. The runtime calls both
    without an await between them, in one event loop. *)
Definition guarded_start (e : string) : prog :=
  check_concurrent_prog "t" (λ ok, if ok then start_execution_prog "t" e Done else Done).
Definition limit_one : QuotaManager := configure "t" (mkQuotaConfig 1 60 10) demo_quota.

Example check_then_start_races :
  let c := quota_pool 0 limit_one [guarded_start "e1"; guarded_start "e2"] in
  let end_of sched := manager (shared (scheduled_to sched c)) in
  concurrent_count (end_of (repeat 0 10 ++ repeat 1 6)%nat) "t" = 1%Z
  ∧ concurrent_count (end_of (repeat 0 6 ++ repeat 1 10 ++ repeat 0 4)%nat) "t" = 2%Z.
Proof. vm_compute. done. Qed.
