(* ===== verification/Events.v ===== *)
(** * Execution events ([kernel/events/models.py], [kernel/events/memory.py])

    The event envelope, the append-only log of one execution, and the in-memory
    publisher. Subscriber queues are shared objects: the publisher keeps
    references to them, so the model keeps them in a store and the
    subscriptions hold their index. *)
From S2P Require Import Prelude PyStr PyDict PyVal.

Inductive EventType :=
| LOOP_STARTED | BUDGET_CHECKED | POLICY_EVALUATED | CAPABILITY_CHECKED
| INTENT_ROUTED | GATEWAY_ACCESSED | TOOL_EXECUTED | CHECKPOINT_SAVED
| STEP_COMPLETED | LOOP_TERMINATED | LOOP_FAILED | LOOP_HALTED
| BUDGET_EXHAUSTED | TIMEOUT_OCCURRED.

#[export] Instance EventType_eq_dec : EqDecision EventType.
Proof. solve_decision. Defined.

Definition EventType_value (t : EventType) : string :=
  match t with
  | LOOP_STARTED => "LOOP_STARTED" | BUDGET_CHECKED => "BUDGET_CHECKED"
  | POLICY_EVALUATED => "POLICY_EVALUATED" | CAPABILITY_CHECKED => "CAPABILITY_CHECKED"
  | INTENT_ROUTED => "INTENT_ROUTED" | GATEWAY_ACCESSED => "GATEWAY_ACCESSED"
  | TOOL_EXECUTED => "TOOL_EXECUTED" | CHECKPOINT_SAVED => "CHECKPOINT_SAVED"
  | STEP_COMPLETED => "STEP_COMPLETED" | LOOP_TERMINATED => "LOOP_TERMINATED"
  | LOOP_FAILED => "LOOP_FAILED" | LOOP_HALTED => "LOOP_HALTED"
  | BUDGET_EXHAUSTED => "BUDGET_EXHAUSTED" | TIMEOUT_OCCURRED => "TIMEOUT_OCCURRED"
  end.

(** [event_type: EventType | str] *)
Inductive event_kind := EKType (t : EventType) | EKStr (s : string).

#[export] Instance event_kind_eq_dec : EqDecision event_kind.
Proof. solve_decision. Defined.

Definition event_kind_value (k : event_kind) : string :=
  match k with EKType t => EventType_value t | EKStr s => s end.

Record ExecutionEvent := mkEvent {
  ev_event_id : string;
  ev_execution_id : string;
  ev_tenant_id : string;
  ev_agent_id : option string;
  ev_event_type : event_kind;
  ev_payload : dict pyval;
  ev_created_at : Z;
  ev_schema_version : string
}.

Definition ExecutionEvent_to_dict (e : ExecutionEvent) : dict pyval :=
  [ ("event_id", VStr (ev_event_id e));
    ("execution_id", VStr (ev_execution_id e));
    ("tenant_id", VStr (ev_tenant_id e));
    ("agent_id", VOptStr (ev_agent_id e));
    ("event_type", VStr (event_kind_value (ev_event_type e)));
    ("payload", VDict (ev_payload e));
    ("created_at", VStr (isoformat (ev_created_at e)));
    ("schema_version", VStr (ev_schema_version e)) ].

(** ** The event log *)

Record EventLog := mkEventLog {
  log_execution_id : string;
  log_events : list ExecutionEvent;
  log_counter : nat
}.

Definition EventLog_new (execution_id : string) : EventLog := mkEventLog execution_id [] 0.

(** The identifier of the [n]-th event of an execution. *)
Definition event_id_of (execution_id : string) (n : nat) : string :=
  "evt-" +:+ execution_id +:+ "-" +:+ str_pad4 n.

Definition emit (now : Z) (event_type : EventType) (state : string)
    (metadata : dict pyval) (error : option string) (l : EventLog) : EventLog :=
  let counter := S (log_counter l) in
  let event :=
    mkEvent (event_id_of (log_execution_id l) counter) (log_execution_id l) ε None
      (EKType event_type)
      [ ("state", VStr state);
        ("step_number", VInt (Z.of_nat counter));
        ("metadata", VDict metadata);
        ("error", VOptStr error) ]
      now "1.0" in
  mkEventLog (log_execution_id l) (log_events l ++ [event]) counter.

Definition log_count (l : EventLog) : nat := length (log_events l).
Definition last_event (l : EventLog) : option ExecutionEvent := last (log_events l).
Definition get_events_by_type (l : EventLog) (t : EventType) : list ExecutionEvent :=
  filter (λ e, ev_event_type e = EKType t) (log_events l).

Definition EventLog_to_dict (l : EventLog) : dict pyval :=
  [ ("execution_id", VStr (log_execution_id l));
    ("event_count", VInt (Z.of_nat (log_count l)));
    ("events", VList (map (λ e, VDict (ExecutionEvent_to_dict e)) (log_events l))) ].

(** ** The in-memory publisher *)

(** What a queue carries: an event's dictionary, or the [None] that ends it. *)
Inductive queue_item := QEvent (d : dict pyval) | QEnd.

Record InMemoryEventPublisher := mkPub {
  pub_subscribers : dict (list (nat * string));
  pub_queues : list (list queue_item)
}.

Definition InMemoryEventPublisher_new : InMemoryEventPublisher := mkPub [] [].

Definition subs_of (p : InMemoryEventPublisher) (execution_id : string)
    : list (nat * string) := dict_get_or [] execution_id (pub_subscribers p).

(** [queue.put_nowait(item)] *)
Definition put_nowait (q : nat) (item : queue_item) (qs : list (list queue_item))
    : list (list queue_item) := alter (λ items, items ++ [item]) q qs.

Definition subscribe (execution_id tenant_id : string) (p : InMemoryEventPublisher)
    : nat * InMemoryEventPublisher :=
  let queue := length (pub_queues p) in
  (queue,
   mkPub (dict_set execution_id (subs_of p execution_id ++ [(queue, tenant_id)])
            (pub_subscribers p))
         (pub_queues p ++ [[]])).

Definition unsubscribe (execution_id : string) (queue : nat) (p : InMemoryEventPublisher)
    : InMemoryEventPublisher :=
  mkPub (dict_set execution_id (filter (λ s, s.1 ≠ queue) (subs_of p execution_id))
           (pub_subscribers p))
        (pub_queues p).

(** The tenant filter of [publish]: a subscriber is skipped only when both
    tenants are given and differ. *)
Definition tenant_match (sub_tenant event_tenant : string) : bool :=
  negb (truthy sub_tenant && truthy event_tenant
        && negb (String.eqb sub_tenant event_tenant)).

(** The loop over the subscribers of an event's execution, which every publisher
    has: [item] goes to those whose tenant matches. *)
Definition deliver (item : queue_item) (event : ExecutionEvent) (p : InMemoryEventPublisher)
    : InMemoryEventPublisher :=
  mkPub (pub_subscribers p)
    (foldl (λ qs s, if tenant_match s.2 (ev_tenant_id event) then put_nowait s.1 item qs else qs)
       (pub_queues p) (subs_of p (ev_execution_id event))).

(** [publish(event)] *)
Definition publish (event : ExecutionEvent) (p : InMemoryEventPublisher)
    : InMemoryEventPublisher :=
  deliver (QEvent (ExecutionEvent_to_dict event)) event p.

(** [publish(execution_id, event_dict)], the untyped form: no tenant filter. *)
Definition publish_dict (execution_id : string) (event_dict : dict pyval)
    (p : InMemoryEventPublisher) : InMemoryEventPublisher :=
  mkPub (pub_subscribers p)
    (foldl (λ qs s, put_nowait s.1 (QEvent event_dict) qs)
       (pub_queues p) (subs_of p execution_id)).

Definition pub_close (execution_id : string) (p : InMemoryEventPublisher)
    : InMemoryEventPublisher :=
  mkPub (dict_del execution_id (pub_subscribers p))
    (foldl (λ qs s, put_nowait s.1 QEnd qs) (pub_queues p) (subs_of p execution_id)).

Definition close_all (p : InMemoryEventPublisher) : InMemoryEventPublisher :=
  foldl (λ p execution_id, pub_close execution_id p) p (dict_keys (pub_subscribers p)).

Definition active_executions (p : InMemoryEventPublisher) : list string :=
  dict_keys (pub_subscribers p).

Definition subscriber_count (p : InMemoryEventPublisher) (execution_id : string) : nat :=
  length (subs_of p execution_id).

(** ** Decimal identifiers are injective *)

Fixpoint dec_value (acc : N) (s : string) : N :=
  match s with
  | ε => acc
  | String c s' => dec_value (acc * 10 + (N.of_nat (Ascii.nat_of_ascii c) - 48)) s'
  end.

Lemma pretty_char_value x : (x < 10)%N →
  (N.of_nat (Ascii.nat_of_ascii (pretty_N_char x)) - 48 = x)%N.
Proof.
  intros Hx. destruct x as [|p]; [done|].
  do 4 (destruct p as [p|p|]; try (vm_compute; reflexivity); try (exfalso; lia)).
Qed.

Lemma dec_value_go x s : dec_value 0 (pretty_N_go x s) = dec_value x s.
Proof.
  revert s. induction (N.lt_wf_0 x) as [x _ IH]; intros s.
  destruct (decide (x = 0%N)) as [->|Hx]; [by rewrite pretty_N_go_0|].
  rewrite pretty_N_go_step by lia. rewrite IH by (apply N.div_lt; lia).
  simpl. rewrite pretty_char_value by (apply N.mod_lt; lia). f_equal.
  pose proof (N.div_mod x 10). lia.
Qed.

Lemma dec_value_pretty (n : nat) : dec_value 0 (str_of_nat n) = N.of_nat n.
Proof.
  unfold str_of_nat, pretty, pretty_nat, pretty, pretty_N.
  case_decide as H; [by rewrite H|]. by rewrite dec_value_go.
Qed.

Lemma dec_value_zeros k s : dec_value 0 (str_zeros k +:+ s) = dec_value 0 s.
Proof. induction k; simpl; done. Qed.

Lemma str_pad4_inj n m : str_pad4 n = str_pad4 m → n = m.
Proof.
  unfold str_pad4. intros H%(f_equal (dec_value 0)).
  rewrite !dec_value_zeros, !dec_value_pretty in H. lia.
Qed.

Lemma event_id_inj x n m : event_id_of x n = event_id_of x m → n = m.
Proof.
  unfold event_id_of. intros H.
  apply str_app_inj_l, str_app_inj_l, str_app_inj_l in H. by apply str_pad4_inj.
Qed.

(** ** Log lemmas *)

Inductive log_step : EventLog → EventLog → Prop :=
| ls_emit now t st md err l : log_step l (emit now t st md err l).

(** The [n]-th event carries number [n + 1], in its identifier and its payload. *)
Record log_inv (l : EventLog) : Prop := {
  linv_counter : log_counter l = length (log_events l);
  linv_events : ∀ i e, log_events l !! i = Some e →
    ev_event_id e = event_id_of (log_execution_id l) (S i)
    ∧ ev_execution_id e = log_execution_id l
    ∧ dict_get "step_number" (ev_payload e) = Some (VInt (Z.of_nat (S i)))
}.

Definition log_extends (l l' : EventLog) : Prop :=
  log_execution_id l' = log_execution_id l ∧ log_events l `prefix_of` log_events l'.

#[export] Instance log_extends_preorder : PreOrder log_extends.
Proof.
  split; [done|]. intros x y z [H1 H2] [H3 H4].
  split; [congruence|by etrans].
Qed.

Lemma log_step_extends l l' : log_step l l' → log_extends l l'.
Proof. intros []. split; [done|]. simpl. by apply prefix_app_r. Qed.

Lemma log_step_inv l l' : log_inv l → log_step l l' → log_inv l'.
Proof.
  intros [Hc He] Hs. destruct Hs as [now t st md err l]. split; simpl.
  - rewrite length_app, Hc; simpl. lia.
  - intros i e [Hi|[Hlen Hi]]%lookup_app_Some; [by apply He|].
    apply list_lookup_singleton_Some in Hi as [Hi <-]; simpl.
    assert (i = log_counter l) as -> by lia. done.
Qed.

Lemma log_inv_new x : log_inv (EventLog_new x).
Proof. by split. Qed.

(** An event log is append-only and numbers its events: whatever is emitted
    after a point extends the log seen at that point without changing it, the
    events are numbered 1, 2, 3, ... in order, all carry the log's execution, and
    no two share an identifier. *)
Theorem event_log_append_only (x : string) (l l' : EventLog) :
  star log_step (EventLog_new x) l → star log_step l l' →
  log_events l `prefix_of` log_events l'
  ∧ log_inv l'
  ∧ (∀ i j e f, log_events l' !! i = Some e → log_events l' !! j = Some f →
       ev_event_id e = ev_event_id f → i = j).
Proof.
  intros H1 H2.
  assert (log_inv l') as Hinv.
  { eapply (star_invariant log_step log_inv); [apply log_step_inv| |exact H2].
    eapply (star_invariant log_step log_inv); [apply log_step_inv| |exact H1].
    apply log_inv_new. }
  split_and!; [|done|].
  - eapply (star_preorder log_step log_extends); [apply log_step_extends|done].
  - intros i j e f Hi Hj Heq.
    destruct (linv_events _ Hinv _ _ Hi) as [Ei _], (linv_events _ Hinv _ _ Hj) as [Ej _].
    rewrite Ei, Ej in Heq. apply event_id_inj in Heq. lia.
Qed.

Lemma event_log_append_only_witness :
  let l := emit 0 LOOP_STARTED "CREATED" [] None (EventLog_new "x") in
  let l' := emit 1 STEP_COMPLETED "COMPLETED" [] None l in
  log_count l' = 2%nat ∧ log_events l `prefix_of` log_events l' ∧ log_inv l'.
Proof.
  intros l l'. split; [vm_compute; reflexivity|].
  destruct (event_log_append_only "x" l l') as (H1 & H2 & _);
    [apply star_one; constructor..|]. by split.
Defined.

(** ** Publisher lemmas *)

(** Who may put what in a queue opened by tenant [t] for execution [x]. *)
Definition item_ok (x t : string) (item : queue_item) : Prop :=
  match item with
  | QEnd => True
  | QEvent d =>
      dict_get "execution_id" d = Some (VStr x)
      ∧ ∃ t', dict_get "tenant_id" d = Some (VStr t') ∧ (t = ε ∨ t' = ε ∨ t = t')
  end.

(** A dictionary with the fields of an event, and maybe more. *)
Definition carries (e : ExecutionEvent) (d : dict pyval) : Prop :=
  ∀ k v, dict_get k (ExecutionEvent_to_dict e) = Some v → dict_get k d = Some v.

(** [own] records, for each queue, the execution and the tenant it was opened with. *)
Record pub_inv (own : list (string * string)) (p : InMemoryEventPublisher) : Prop := {
  pinv_own : length own = length (pub_queues p);
  pinv_subs : ∀ x q t, (q, t) ∈ subs_of p x → own !! q = Some (x, t);
  pinv_items : ∀ q x t items, own !! q = Some (x, t) → pub_queues p !! q = Some items →
    Forall (item_ok x t) items
}.

(** The operations of the [EventPublisher] protocol, which publishes typed events.
    The in-memory publisher's second form of [publish], an identifier with a
    dictionary, is [publish_dict]; it filters by no tenant ([demo_publish_dict]) and
    only tests call it. *)
Inductive pub_step : list (string * string) * InMemoryEventPublisher →
    list (string * string) * InMemoryEventPublisher → Prop :=
| ps_subscribe own x t p q p' :
    subscribe x t p = (q, p') → pub_step (own, p) (own ++ [(x, t)], p')
| ps_unsubscribe own x q p : pub_step (own, p) (own, unsubscribe x q p)
| ps_deliver own e d p : carries e d → pub_step (own, p) (own, deliver (QEvent d) e p)
| ps_close own x p : pub_step (own, p) (own, pub_close x p).

Lemma ps_publish own e p : pub_step (own, p) (own, publish e p).
Proof. apply ps_deliver. by intros k v. Qed.

Lemma tenant_match_true s t : tenant_match s t = true → s = ε ∨ t = ε ∨ s = t.
Proof.
  unfold tenant_match. rewrite negb_true_iff, !andb_false_iff, negb_false_iff.
  rewrite !truthy_false, String.eqb_eq. tauto.
Qed.

(** A fold of [put_nowait] of one acceptable item keeps all queues acceptable. *)
Lemma puts_ok (own : list (string * string)) (item : queue_item)
    (f : nat * string → bool) (subs : list (nat * string)) (qs : list (list queue_item)) :
  (∀ s x t, s ∈ subs → f s = true → own !! s.1 = Some (x, t) → item_ok x t item) →
  (∀ q (x t : string) items, own !! q = Some (x, t) → qs !! q = Some items →
     Forall (item_ok x t) items) →
  let qs' := foldl (λ qs s, if f s then put_nowait s.1 item qs else qs) qs subs in
  length qs' = length qs
  ∧ ∀ q x t items, own !! q = Some (x, t) → qs' !! q = Some items →
      Forall (item_ok x t) items.
Proof.
  revert qs. induction subs as [|s subs IH]; intros qs Hf Hqs; simpl; [done|].
  assert (∀ s' x t, s' ∈ subs → f s' = true → own !! s'.1 = Some (x, t) → item_ok x t item)
    as Hf' by (intros; eapply Hf; [by right|..]; done).
  destruct (f s) eqn:Hs; [|by apply IH].
  destruct (IH (put_nowait s.1 item qs)) as [Hl Hq]; [done| |].
  - intros q x t items Hown. unfold put_nowait. rewrite list_lookup_alter.
    case_decide as Hsq; [|by eauto].
    intros (items0 & Hi & ->)%fmap_Some. rewrite Hsq in Hi.
    apply Forall_app. split; [eauto|]. constructor; [|done].
    eapply Hf; [by left|done|by rewrite Hsq].
  - split; [|done]. rewrite Hl. unfold put_nowait. apply length_alter.
Qed.

Lemma subs_of_set p x subs qs y :
  subs_of (mkPub (dict_set x subs (pub_subscribers p)) qs) y
  = if decide (y = x) then subs else subs_of p y.
Proof.
  unfold subs_of, dict_get_or; simpl. rewrite dict_get_set. by case_decide.
Qed.

Lemma subscribe_inv own x t p q p' :
  pub_inv own p → subscribe x t p = (q, p') → pub_inv (own ++ [(x, t)]) p'.
Proof.
  intros [Hl Hs Hi] [= <- <-]. split; simpl.
  - rewrite !length_app; simpl. lia.
  - intros y q t'. rewrite subs_of_set. case_decide; [subst|].
    + intros [Hin|Heq%list_elem_of_singleton]%elem_of_app.
      * apply lookup_app_l_Some. eauto.
      * injection Heq as -> ->. apply lookup_app_Some. right. rewrite Hl.
        split; [lia|]. by rewrite Nat.sub_diag.
    + intros Hin. apply lookup_app_l_Some. eauto.
  - intros q y t' items [Hown|[Hge Hown]]%lookup_app_Some
      [Hq|[Hge' Hq]]%lookup_app_Some; eauto.
    + apply lookup_lt_Some in Hown. lia.
    + apply lookup_lt_Some in Hq. lia.
    + apply list_lookup_singleton_Some in Hq as [_ <-]. constructor.
Qed.

Lemma puts_inv own p item f x subs' :
  pub_inv own p →
  (∀ t, (∃ q, (q, t) ∈ subs_of p x ∧ f (q, t) = true) → item_ok x t item) →
  (∀ y q t, (q, t) ∈ dict_get_or [] y subs' → (q, t) ∈ subs_of p y) →
  pub_inv own (mkPub subs' (foldl (λ qs s, if f s then put_nowait s.1 item qs else qs)
                              (pub_queues p) (subs_of p x))).
Proof.
  intros [Hl Hs Hi] Hf Hsub.
  destruct (puts_ok own item f (subs_of p x) (pub_queues p)) as [Hlen Hq]; [|done|].
  - intros [q t] y t' Hin Hft Hown; simpl in *.
    assert (own !! q = Some (x, t)) as Hown' by eauto.
    rewrite Hown in Hown'. injection Hown' as -> ->. eauto.
  - split; simpl; [congruence| |exact Hq].
    intros y q t Hin. apply Hs. by apply Hsub.
Qed.

Lemma foldl_ext_true {A B} (g : A → B → A) (a : A) (l : list B) :
  foldl g a l = foldl (λ a b, if true then g a b else a) a l.
Proof. done. Qed.

Lemma pub_step_inv s s' : pub_inv s.1 s.2 → pub_step s s' → pub_inv s'.1 s'.2.
Proof.
  intros Hinv Hs. destruct Hs as [own x t p q p' Hp|own x q p|own e d p Hd|own x p]; simpl in *.
  - eauto using subscribe_inv.
  - destruct Hinv as [Hl Hs Hi]. split; simpl; [done| |done].
    intros y q' t. unfold unsubscribe. rewrite subs_of_set. case_decide; subst; [|apply Hs].
    intros [_ Hin]%list_elem_of_filter. eauto.
  - apply (puts_inv own p (QEvent d)
             (λ s, tenant_match s.2 (ev_tenant_id e)) (ev_execution_id e)); [done| |done].
    intros t (q & _ & Hm). simpl in *. split; [by apply Hd|].
    exists (ev_tenant_id e). split; [by apply Hd|]. by apply tenant_match_true.
  - apply (puts_inv own p QEnd (λ _, true) x); [done|done|].
    intros y q t. unfold dict_get_or. rewrite dict_get_del.
    case_decide; [simpl; set_solver|done].
Qed.

(** The typed publisher never leaks across tenants or executions: in every
    reachable state, whatever sits in the queue a tenant opened for an execution
    is that execution's event and carries the subscriber's tenant, unless one of
    the two left the tenant empty. *)
Theorem no_cross_tenant_delivery (own : list (string * string)) (p : InMemoryEventPublisher)
    (q : nat) (x t : string) (items : list queue_item) (d : dict pyval) :
  star pub_step ([], InMemoryEventPublisher_new) (own, p) →
  own !! q = Some (x, t) → pub_queues p !! q = Some items → QEvent d ∈ items →
  dict_get "execution_id" d = Some (VStr x)
  ∧ ∃ t', dict_get "tenant_id" d = Some (VStr t') ∧ (t = ε ∨ t' = ε ∨ t = t').
Proof.
  intros Hs Hown Hq Hd.
  assert (pub_inv own p) as [_ _ Hi].
  { apply (star_invariant pub_step (λ s, pub_inv s.1 s.2)) in Hs;
      [done|apply pub_step_inv|]. by split; simpl; [|set_solver|]. }
  exact (proj1 (Forall_forall _ _) (Hi _ _ _ _ Hown Hq) _ Hd).
Qed.

Definition demo_event : ExecutionEvent :=
  mkEvent "e1" "x" "t1" None (EKStr "execution.completed") [] 0 "1.0".

Lemma no_cross_tenant_delivery_witness :
  let p := publish demo_event
             (snd (subscribe "x" "t2" (snd (subscribe "x" "t1" InMemoryEventPublisher_new)))) in
  pub_queues p = [[QEvent (ExecutionEvent_to_dict demo_event)]; []]
  ∧ dict_get "execution_id" (ExecutionEvent_to_dict demo_event) = Some (VStr "x").
Proof.
  split; [vm_compute; reflexivity|].
  eapply (no_cross_tenant_delivery [("x", "t1"); ("x", "t2")]
            (publish demo_event
             (snd (subscribe "x" "t2" (snd (subscribe "x" "t1" InMemoryEventPublisher_new)))))
            0 "x" "t1").
  - eapply star_step; [eapply (ps_subscribe [] "x" "t1"); reflexivity|].
    eapply star_step; [eapply (ps_subscribe [("x", "t1")] "x" "t2"); reflexivity|].
    apply star_one, ps_publish.
  - reflexivity.
  - vm_compute; reflexivity.
  - left.
Defined.

(** [close] ends every subscription of the execution and forgets it. *)
Lemma pub_close_active x p : x ∉ active_executions (pub_close x p).
Proof.
  unfold active_executions. rewrite dict_elem_keys; simpl. rewrite dict_get_del_eq.
  by intros [? ?].
Qed.

(** [unsubscribe] keeps the execution's entry, even an empty one, and creates it
    for an execution nobody subscribed to: [active_executions] then lists an
    execution without subscribers. *)
Lemma unsubscribe_leaves_entry x q p :
  x ∈ active_executions (unsubscribe x q p).
Proof.
  unfold active_executions. rewrite dict_elem_keys; simpl. rewrite dict_get_set_eq. eauto.
Qed.

(** The untyped form hands a dictionary to the subscribers of every tenant, though
    the one in it be another's. *)
Example demo_publish_dict :
  let p := snd (subscribe "x" "t2" (snd (subscribe "x" "t1" InMemoryEventPublisher_new))) in
  let d := ExecutionEvent_to_dict demo_event in
  dict_get "tenant_id" d = Some (VStr "t1")
  ∧ pub_queues (publish_dict "x" d p) = [[QEvent d]; [QEvent d]].
Proof. vm_compute. done. Qed.
