(* ===== verification/Publisher.v ===== *)
(** * The interface of the event publishers ([kernel/events/protocol.py])

    [EventPublisher] is the protocol the API is written against, [PublisherLaws]
    what an implementation promises: to the subscribers of its own process it
    behaves as the in-memory publisher, except that a [publish] may raise and
    that the dictionary it delivers may have more than the event's own fields.
    What follows from that is proved here once for every implementation. *)
From S2P Require Import Prelude PyStr PyDict PyVal Events.

(** The methods of the protocol. [ep_local] gives the queues and subscriptions of
    the process, [ep_put_local] changes them: a client that takes an item from
    its queue does so without the publisher. *)
Class EventPublisher (P : Type) := {
  ep_publish : ExecutionEvent → M P unit;
  ep_subscribe : string → string → M P nat;
  ep_unsubscribe : string → nat → M P unit;
  ep_close : string → M P unit;
  ep_close_all : M P unit;
  ep_active_executions : P → list string;
  ep_subscriber_count : P → string → nat;
  ep_local : P → InMemoryEventPublisher;
  ep_put_local : InMemoryEventPublisher → P → P
}.

(** Computations that return [a] and take the local part where [f] takes it. *)
Definition locally {P A} `{!EventPublisher P} (m : M P A) (a : A)
    (f : InMemoryEventPublisher → InMemoryEventPublisher) (p : P) : Prop :=
  ∃ p', m p = (Ok a, p') ∧ ep_local p' = f (ep_local p).

Lemma locally_local {P A} `{!EventPublisher P} (m : M P A) a f p :
  locally m a f p → ep_local (m p).2 = f (ep_local p).
Proof. by intros (p' & -> & Hl). Qed.

Class PublisherLaws (P : Type) `{!EventPublisher P} : Prop := {
  law_publish e p :
    match ep_publish e p with
    | (Ok _, p') => ∃ d, carries e d ∧ ep_local p' = deliver (QEvent d) e (ep_local p)
    | (Raise _, p') => ep_local p' = ep_local p
    end;
  law_subscribe x t p :
    locally (ep_subscribe x t) (subscribe x t (ep_local p)).1 (λ l, (subscribe x t l).2) p;
  law_unsubscribe x q p : locally (ep_unsubscribe x q) tt (unsubscribe x q) p;
  law_close x p : locally (ep_close x) tt (pub_close x) p;
  law_close_all p : locally ep_close_all tt close_all p;
  law_active p : ep_active_executions p = active_executions (ep_local p);
  law_count p x : ep_subscriber_count p x = subscriber_count (ep_local p) x;
  law_put_local l p : ep_local (ep_put_local l p) = l
}.

(** ** The in-memory publisher *)

#[export] Instance memory_publisher : EventPublisher InMemoryEventPublisher := {|
  ep_publish e := modify (publish e);
  ep_subscribe x t := λ p, let '(q, p') := subscribe x t p in (Ok q, p');
  ep_unsubscribe x q := modify (unsubscribe x q);
  ep_close x := modify (pub_close x);
  ep_close_all := modify close_all;
  ep_active_executions := active_executions;
  ep_subscriber_count := subscriber_count;
  ep_local p := p;
  ep_put_local l _ := l
|}.

#[export] Instance memory_laws : PublisherLaws InMemoryEventPublisher.
Proof.
  split; try done; try (by intros; eexists).
  intros e p. cbn. exists (ExecutionEvent_to_dict e). split; [by intros k v|done].
Qed.

(** ** What a loop over the subscribers does to one queue *)

Lemma puts_grow (item : queue_item) (f : nat * string → bool) subs qs q items :
  qs !! q = Some items →
  ∃ new, foldl (λ qs s, if f s then put_nowait s.1 item qs else qs) qs subs !! q
         = Some (items ++ new)
    ∧ Forall (eq item) new ∧ ((∀ t, (q, t) ∉ subs) → new = []).
Proof.
  revert qs items. induction subs as [|[q' t'] subs IH]; intros qs items Hq; cbn [foldl].
  { exists []. rewrite app_nil_r. auto. }
  destruct (f (q', t')) eqn:Hf; cbn [fst].
  - destruct (decide (q' = q)) as [->|Hne].
    + destruct (IH (put_nowait q item qs) (items ++ [item])) as (new & Hn & Ha & _).
      { unfold put_nowait. by rewrite list_lookup_alter_eq, Hq. }
      exists (item :: new). rewrite Hn, <- app_assoc. split_and!; [done|by constructor|].
      intros Hs. destruct (Hs t'). by left.
    + destruct (IH (put_nowait q' item qs) items) as (new & Hn & Ha & Hs).
      { unfold put_nowait. by rewrite list_lookup_alter_ne. }
      exists new. split_and!; [done|done|]. intros Hs'. apply Hs. intros t Ht. apply (Hs' t). by right.
  - destruct (IH qs items Hq) as (new & Hn & Ha & Hs).
    exists new. split_and!; [done|done|]. intros Hs'. apply Hs. intros t Ht. apply (Hs' t). by right.
Qed.

(** Every matching subscriber gets the item. *)
Lemma puts_reach item (f : nat * string → bool) subs qs s :
  s ∈ subs → f s = true → (s.1 < length qs)%nat →
  ∃ items, foldl (λ qs s, if f s then put_nowait s.1 item qs else qs) qs subs !! s.1 = Some items
    ∧ item ∈ items.
Proof.
  intros Hin Hf. revert qs. induction subs as [|s0 subs IH]; intros qs Hlt; [set_solver|].
  cbn [foldl]. apply elem_of_cons in Hin as [<-|Hin].
  - rewrite Hf. destruct (lookup_lt_is_Some_2 qs s.1 Hlt) as [items Hq].
    destruct (puts_grow item f subs (put_nowait s.1 item qs) s.1 (items ++ [item]))
      as (new & Hn & _); [by unfold put_nowait; rewrite list_lookup_alter_eq, Hq|].
    exists ((items ++ [item]) ++ new). split; [exact Hn|set_solver].
  - apply IH; [done|]. destruct (f s0); [|done]. unfold put_nowait. by rewrite length_alter.
Qed.

(** ** Any publisher and its clients *)

Section Clients.
Context {P : Type} `{!EventPublisher P, !PublisherLaws P}.
Implicit Types p : P.

(** The calls the API makes, whatever they answer, with who opened which queue. *)
Inductive client_step : list (string * string) * P → list (string * string) * P → Prop :=
| cs_subscribe own x t p : client_step (own, p) (own ++ [(x, t)], (ep_subscribe x t p).2)
| cs_unsubscribe own x q p : client_step (own, p) (own, (ep_unsubscribe x q p).2)
| cs_publish own e p : client_step (own, p) (own, (ep_publish e p).2)
| cs_close own x p : client_step (own, p) (own, (ep_close x p).2)
| cs_close_all own p : client_step (own, p) (own, (ep_close_all p).2).

Lemma close_all_inv own l : pub_inv own l → pub_inv own (close_all l).
Proof.
  unfold close_all. generalize (dict_keys (pub_subscribers l)). intros xs. revert l.
  induction xs as [|x xs IH]; intros l Hl; [done|]. apply IH.
  by apply (pub_step_inv (own, l) (own, pub_close x l)); [|constructor].
Qed.

Lemma client_step_inv s s' :
  pub_inv s.1 (ep_local s.2) → client_step s s' → pub_inv s'.1 (ep_local s'.2).
Proof.
  intros Hi Hs. destruct Hs as [own x t p|own x q p|own e p|own x p|own p]; cbn [fst snd] in *.
  - rewrite (locally_local _ _ _ _ (law_subscribe x t p)). by eapply subscribe_inv.
  - rewrite (locally_local _ _ _ _ (law_unsubscribe x q p)).
    by apply (pub_step_inv (own, ep_local p) (own, _)); [|constructor].
  - pose proof (law_publish e p) as Hl.
    destruct (ep_publish e p) as [[[]|ex] p']; cbn [snd]; [|by rewrite Hl].
    destruct Hl as (d & Hd & ->). by apply (pub_step_inv (own, ep_local p) (own, _)); [|constructor].
  - rewrite (locally_local _ _ _ _ (law_close x p)).
    by apply (pub_step_inv (own, ep_local p) (own, _)); [|constructor].
  - rewrite (locally_local _ _ _ _ (law_close_all p)). by apply close_all_inv.
Qed.

(** C18: whichever publisher the runtime is configured with, and whether Redis
    accepts its calls or not, with events published as the protocol has it, as
    [ExecutionEvent] objects: what sits in the queue a tenant opened for an
    execution is that execution's event and carries the subscriber's tenant,
    unless one of the two left the tenant empty; and an event whose [publish]
    returned sits in the queue of every subscriber of its execution with a
    matching tenant. *)
Theorem publisher_isolates_tenants own p0 p :
  ep_local p0 = InMemoryEventPublisher_new → star client_step ([], p0) (own, p) →
  (∀ q x t items d,
     own !! q = Some (x, t) → pub_queues (ep_local p) !! q = Some items → QEvent d ∈ items →
     dict_get "execution_id" d = Some (VStr x)
     ∧ ∃ t', dict_get "tenant_id" d = Some (VStr t') ∧ (t = ε ∨ t' = ε ∨ t = t'))
  ∧ ∀ e p' q t, ep_publish e p = (Ok tt, p') → (q, t) ∈ subs_of (ep_local p) (ev_execution_id e) →
      tenant_match t (ev_tenant_id e) = true →
      ∃ items d, pub_queues (ep_local p') !! q = Some items ∧ QEvent d ∈ items ∧ carries e d.
Proof.
  intros H0 Hs. assert (pub_inv own (ep_local p)) as [Hl Hsub Hi].
  { apply (star_invariant client_step (λ s, pub_inv s.1 (ep_local s.2))) in Hs;
      [done|apply client_step_inv|]. cbn. rewrite H0. split; cbn; [done|set_solver|done]. }
  split.
  - intros q x t items d Hown Hq Hd. exact (proj1 (Forall_forall _ _) (Hi _ _ _ _ Hown Hq) _ Hd).
  - intros e p' q t He Hin Hm. pose proof (law_publish e p) as Hlaw. rewrite He in Hlaw.
    destruct Hlaw as (d & Hd & Hp').
    destruct (puts_reach (QEvent d) (λ s, tenant_match s.2 (ev_tenant_id e))
      (subs_of (ep_local p) (ev_execution_id e)) (pub_queues (ep_local p)) (q, t) Hin Hm)
      as (items & Hq & Hit); [|exists items, d; rewrite Hp'; done].
    cbn [fst]. rewrite <- Hl. eapply lookup_lt_Some, Hsub, Hin.
Qed.
End Clients.

(** Two tenants listen to one execution; the event of one of them is published. *)
Lemma publisher_isolates_tenants_witness :
  let l := snd (subscribe "x" "t2" (snd (subscribe "x" "t1" InMemoryEventPublisher_new))) in
  pub_queues (publish demo_event l) = [[QEvent (ExecutionEvent_to_dict demo_event)]; []]
  ∧ dict_get "execution_id" (ExecutionEvent_to_dict demo_event) = Some (VStr "x")
  ∧ ∃ items d, pub_queues (publish demo_event l) !! 0%nat = Some items ∧ QEvent d ∈ items
      ∧ carries demo_event d.
Proof.
  intros l. split; [vm_compute; reflexivity|].
  assert (star (client_step (P := InMemoryEventPublisher)) ([], InMemoryEventPublisher_new)
            ([("x", "t1"); ("x", "t2")], l)) as H2.
  { eapply star_step; [apply (cs_subscribe [] "x" "t1" InMemoryEventPublisher_new)|].
    eapply star_step; [apply (cs_subscribe [("x", "t1")] "x" "t2")|apply star_refl]. }
  assert (star (client_step (P := InMemoryEventPublisher)) ([], InMemoryEventPublisher_new)
            ([("x", "t1"); ("x", "t2")], publish demo_event l)) as H3.
  { eapply star_trans; [exact H2|]. apply star_one.
    exact (cs_publish [("x", "t1"); ("x", "t2")] demo_event l). }
  split.
  - destruct (publisher_isolates_tenants (EventPublisher0 := memory_publisher) _
      InMemoryEventPublisher_new _ eq_refl H3) as [Hq _].
    apply (Hq 0%nat "x" "t1" [QEvent (ExecutionEvent_to_dict demo_event)]);
      [reflexivity|vm_compute; reflexivity|left].
  - destruct (publisher_isolates_tenants (EventPublisher0 := memory_publisher) _
      InMemoryEventPublisher_new _ eq_refl H2) as [_ Hp].
    apply (Hp demo_event (publish demo_event l) 0%nat "t1"); [reflexivity| |vm_compute; reflexivity].
    vm_compute. left.
Defined.
