(* ===== verification/Observability.v ===== *)
(** * Observability ([kernel/observability/])

    The correlation context, the structured logger, the metrics registry and the
    phase tracer, as they are without a third-party logger, meter or tracer; with
    one they are in [Logging] and [Mirrors]. Durations and recorded values are exact rationals where the
    source has floats; a [time.time()] reading is its microseconds. *)
From S2P Require Import Prelude PyStr PyDict PyVal.
From Stdlib Require Import QArith Lqa.

Record ObservabilityContext := mkObs {
  oc_execution_id : string;
  oc_tenant_id : string;
  oc_agent_id : string;
  oc_intent_action : string
}.

(** [asdict(obs_ctx)] *)
Definition ObservabilityContext_asdict (c : ObservabilityContext) : dict pyval :=
  [ ("execution_id", VStr (oc_execution_id c));
    ("tenant_id", VStr (oc_tenant_id c));
    ("agent_id", VStr (oc_agent_id c));
    ("intent_action", VStr (oc_intent_action c)) ].

(** ** Logger *)

Inductive log_level := LDebug | LInfo | LWarning | LError.

Record LogRecord := mkLogRecord {
  lr_name : string;
  lr_level : log_level;
  lr_message : string;
  lr_correlation : dict pyval;
  lr_metrics : option (dict pyval)
}.

Record RuntimeLogger := mkLogger {
  lg_name : string;
  lg_base_correlation : dict pyval
}.

Definition RuntimeLogger_new (name : string) : RuntimeLogger := mkLogger name [].

(** [{**base, **correlation}], and [extra if extra else None] *)
Definition logger_record (l : RuntimeLogger) (level : log_level) (message : string)
    (extra : dict pyval) : LogRecord :=
  mkLogRecord (lg_name l) level message (lg_base_correlation l)
    (match extra with [] => None | _ => Some extra end).

Definition with_correlation (l : RuntimeLogger) (correlation : dict pyval) : RuntimeLogger :=
  mkLogger (lg_name l) (dict_update (lg_base_correlation l) correlation).

(** The logger is set to [INFO], yet [Logger.handle] does not test the level: a
    debug record is handled like the others. *)
Definition log_to (l : RuntimeLogger) (level : log_level) (message : string)
    (extra : dict pyval) (sink : list LogRecord) : list LogRecord :=
  sink ++ [logger_record l level message extra].

(** ** Metrics *)

Record MetricsRegistry := mkMetrics {
  mt_counters : dict Z;
  mt_histograms : dict (list Q);
  mt_gauges : dict pyval
}.

Definition MetricsRegistry_new : MetricsRegistry := mkMetrics [] [] [].

Definition increment (metric : string) (value : Z) (m : MetricsRegistry) : MetricsRegistry :=
  mkMetrics (dict_set metric (dict_get_or 0 metric (mt_counters m) + value)%Z (mt_counters m))
    (mt_histograms m) (mt_gauges m).

Definition get_counter (m : MetricsRegistry) (metric : string) : Z :=
  dict_get_or 0%Z metric (mt_counters m).

Definition metrics_record (metric : string) (value : Q) (m : MetricsRegistry)
    : MetricsRegistry :=
  mkMetrics (mt_counters m)
    (dict_set metric (dict_get_or [] metric (mt_histograms m) ++ [value]) (mt_histograms m))
    (mt_gauges m).

Definition get_histogram (m : MetricsRegistry) (metric : string) : list Q :=
  dict_get_or [] metric (mt_histograms m).

Record HistSummary := mkSummary {
  hs_count : nat;
  hs_min : Q;
  hs_max : Q;
  hs_avg : Q;
  hs_p50 : Q;
  hs_p99 : Q
}.

Definition Qsum (l : list Q) : Q := foldr Qplus 0 l.

(** [int(count * 0.50)] and [int(count * 0.99)] index the sorted values. *)
Definition get_histogram_summary (m : MetricsRegistry) (metric : string)
    : outcome HistSummary :=
  match get_histogram m metric with
  | [] => Ok (mkSummary 0 0 0 0 0 0)
  | values =>
      let sorted_vals := py_sorted Qle_bool values in
      let count := length sorted_vals in
      let total := Qsum sorted_vals in
      match sorted_vals !! 0%nat, last sorted_vals,
            sorted_vals !! (count * 50 / 100)%nat, sorted_vals !! (count * 99 / 100)%nat with
      | Some lo, Some hi, Some p50, Some p99 =>
          Ok (mkSummary count lo hi
                (py_round2 (total / inject_Z (Z.of_nat count))) p50 p99)
      | _, _, _, _ => Raise (mkExn "IndexError" "list index out of range")
      end
  end.

Definition set_gauge (metric : string) (value : pyval) (m : MetricsRegistry)
    : MetricsRegistry :=
  mkMetrics (mt_counters m) (mt_histograms m) (dict_set metric value (mt_gauges m)).

Definition get_gauge (m : MetricsRegistry) (metric : string) : option pyval :=
  dict_get metric (mt_gauges m).

(** [current + delta] on a gauge that holds a number. A [bool] counts as 0 or
    1; the other values cannot be added to an [int]. *)
Definition increment_gauge (metric : string) (delta : Z) : M MetricsRegistry unit := λ m,
  let put v := (Ok tt, mkMetrics (mt_counters m) (mt_histograms m)
                         (dict_set metric v (mt_gauges m))) in
  match dict_get_or (VInt 0) metric (mt_gauges m) with
  | VInt z => put (VInt (z + delta))
  | VFloat q => put (VFloat (q + inject_Z delta))
  | VBool b => put (VInt ((if b then 1 else 0) + delta))
  | _ => (Raise (mkExn "TypeError" "unsupported operand type(s) for +"), m)
  end.

(** [snapshot()]: every histogram summarised, counters and gauges copied. *)
Record MetricsSnapshot := mkSnapshot {
  sn_counters : dict Z;
  sn_histograms : dict HistSummary;
  sn_gauges : dict pyval
}.

Fixpoint summaries (m : MetricsRegistry) (names : list string) : outcome (dict HistSummary) :=
  match names with
  | [] => Ok []
  | n :: names' =>
      s ← get_histogram_summary m n;
      rest ← summaries m names';
      Ok ((n, s) :: rest)
  end.

Definition snapshot (m : MetricsRegistry) : outcome MetricsSnapshot :=
  hs ← summaries m (dict_keys (mt_histograms m));
  Ok (mkSnapshot (mt_counters m) hs (mt_gauges m)).

(** ** Tracer *)

Inductive TracePhase :=
| INTENT_RECEIVED | POLICY_EVALUATION | CAPABILITY_CHECK | INTENT_ROUTING
| TOOL_EXECUTION | CHECKPOINT_SAVE | EXECUTION_COMPLETED.

#[export] Instance TracePhase_eq_dec : EqDecision TracePhase.
Proof. solve_decision. Defined.

Definition TracePhase_value (p : TracePhase) : string :=
  match p with
  | INTENT_RECEIVED => "intent.received" | POLICY_EVALUATION => "policy.evaluation"
  | CAPABILITY_CHECK => "capability.check" | INTENT_ROUTING => "intent.routing"
  | TOOL_EXECUTION => "tool.execution" | CHECKPOINT_SAVE => "checkpoint.save"
  | EXECUTION_COMPLETED => "execution.completed"
  end.

Record TraceEntry := mkTrace {
  te_phase : TracePhase;
  te_start_time : Z;
  te_end_time : Z;
  te_duration_ms : Q;
  te_success : bool;
  te_error : option string;
  te_metadata : dict pyval
}.

Record ExecutionTracer := mkTracer {
  tr_context : ObservabilityContext;
  tr_entries : list TraceEntry;
  tr_current_phase : option TracePhase;
  tr_current_start : Z;
  tr_current_metadata : dict pyval
}.

Definition ExecutionTracer_new (c : ObservabilityContext) : ExecutionTracer :=
  mkTracer c [] None 0 [].

Definition no_phase_error : exn := mkExn "RuntimeError" "No active phase to end".

(** [end_phase(success, error)]; [now] is its clock reading. *)
Definition end_phase (now : Z) (success : bool) (error : option string)
    : M ExecutionTracer unit := λ t,
  match tr_current_phase t with
  | None => (Raise no_phase_error, t)
  | Some phase =>
      let entry := mkTrace phase (tr_current_start t) now
                     ((now - tr_current_start t) # 1000) success error
                     (tr_current_metadata t) in
      (Ok tt, mkTracer (tr_context t) (tr_entries t ++ [entry]) None 0 [])
  end.

(** [start_phase(phase, metadata)] ends an active phase as a success first. *)
Definition start_phase (now0 now : Z) (phase : TracePhase) (metadata : dict pyval)
    : M ExecutionTracer unit := λ t,
  let t1 := match tr_current_phase t with
            | Some _ => snd (end_phase now0 true None t)
            | None => t
            end in
  (Ok tt, mkTracer (tr_context t1) (tr_entries t1) (Some phase) now metadata).

Definition tracer_clear (t : ExecutionTracer) : ExecutionTracer :=
  mkTracer (tr_context t) [] None 0 [].

Record TraceSummary := mkTraceSummary {
  ts_context : ObservabilityContext;
  ts_total_duration_ms : Q;
  ts_phase_count : nat;
  ts_phases : list string;
  ts_failures : nat;
  ts_status : string
}.

Definition get_summary (t : ExecutionTracer) : TraceSummary :=
  let failures := filter (λ e, te_success e = false) (tr_entries t) in
  mkTraceSummary (tr_context t)
    (py_round2 (Qsum (map te_duration_ms (tr_entries t))))
    (length (tr_entries t))
    (map (λ e, TracePhase_value (te_phase e)) (tr_entries t))
    (length failures)
    (match failures with [] => "success" | _ => "failure" end).

(** ** Lemmas *)

Lemma Qle_bool_total x y : Qle_bool x y = true ∨ Qle_bool y x = true.
Proof.
  rewrite !Qle_bool_iff. destruct (Qlt_le_dec x y) as [H|H]; [left|right]; lra.
Qed.

Lemma Qle_bool_trans x y z :
  Qle_bool x y = true → Qle_bool y z = true → Qle_bool x z = true.
Proof. rewrite !Qle_bool_iff. lra. Qed.

(** In a sorted list an earlier element is no greater than a later one. *)
Lemma sorted_lookup_le (l : list Q) i j x y :
  Sorted (λ a b, Qle_bool a b = true) l →
  (i ≤ j)%nat → l !! i = Some x → l !! j = Some y → x <= y.
Proof.
  intros Hs%Sorted_StronglySorted; [|intros ???; apply Qle_bool_trans].
  revert i j. induction Hs as [|a l Hs IH Hall]; intros i j Hij Hi Hj; [done|].
  destruct i as [|i], j as [|j]; simpl in *; simplify_eq; [lra| |lia|].
  - apply list_elem_of_lookup_2 in Hj.
    eapply Forall_forall in Hall; [|done]. by apply Qle_bool_iff.
  - eapply (IH i j); [lia|done..].
Qed.

Lemma percentile_index (n k : nat) : (k < 100)%nat → (0 < n)%nat → (n * k / 100 < n)%nat.
Proof. intros. apply Nat.Div0.div_lt_upper_bound. nia. Qed.

Definition summary_ok (values : list Q) (s : HistSummary) : Prop :=
  hs_count s = length values
  ∧ hs_min s ∈ values ∧ hs_max s ∈ values
  ∧ hs_p50 s ∈ values ∧ hs_p99 s ∈ values
  ∧ (∀ v, v ∈ values → hs_min s <= v ∧ v <= hs_max s)
  ∧ hs_p50 s <= hs_p99 s.

Lemma summary_values m metric v vs :
  get_histogram m metric = v :: vs →
  ∃ s, get_histogram_summary m metric = Ok s ∧ summary_ok (v :: vs) s.
Proof.
  intros Hh. unfold get_histogram_summary. rewrite Hh.
  assert (∀ q, q ∈ py_sorted Qle_bool (v :: vs) ↔ q ∈ v :: vs) as Hin
    by (intros q; by rewrite py_sorted_perm).
  assert (length (py_sorted Qle_bool (v :: vs)) = length (v :: vs)) as Hlen
    by (by rewrite py_sorted_perm).
  pose proof (py_sorted_sorted Qle_bool Qle_bool_total (v :: vs)) as Hs.
  set (l := py_sorted Qle_bool (v :: vs)) in *. clearbody l. set (n := length l) in *.
  assert (0 < n)%nat as Hn by (rewrite Hlen; simpl; lia).
  destruct (lookup_lt_is_Some_2 l 0) as [lo Hlo]; [done|].
  destruct (lookup_lt_is_Some_2 l (n * 50 / 100)) as [p50 H50];
    [apply percentile_index; [lia|exact Hn]|].
  destruct (lookup_lt_is_Some_2 l (n * 99 / 100)) as [p99 H99];
    [apply percentile_index; [lia|exact Hn]|].
  destruct (lookup_lt_is_Some_2 l (pred n)) as [hi Hhi]; [fold n; lia|].
  rewrite Hlo, H50, H99, last_lookup. fold n. rewrite Hhi.
  eexists; split; [done|]. unfold summary_ok; simpl.
  rewrite <- !Hin. split_and!; try (eapply list_elem_of_lookup_2; eassumption).
  - simpl in Hlen. congruence.
  - intros w Hw%Hin. apply list_elem_of_lookup_1 in Hw as [i Hi].
    pose proof (lookup_lt_Some _ _ _ Hi) as Hlt. fold n in Hlt. split.
    + eapply (sorted_lookup_le l 0 i); [done|lia|done..].
    + eapply (sorted_lookup_le l i (pred n)); [done|lia|done..].
  - eapply (sorted_lookup_le l (n * 50 / 100) (n * 99 / 100)); [done| |done..].
    apply Nat.Div0.div_le_mono. lia.
Qed.

(** Calls on a tracer; an [end_phase] without an active phase raises and changes
    nothing. *)
Inductive tracer_call :=
| TStart (now0 now : Z) (phase : TracePhase) (metadata : dict pyval)
| TEnd (now : Z) (success : bool) (error : option string).

Definition tracer_do (c : tracer_call) (t : ExecutionTracer) : ExecutionTracer :=
  match c with
  | TStart now0 now p md => snd (start_phase now0 now p md t)
  | TEnd now ok err => snd (end_phase now ok err t)
  end.

Definition started (c : tracer_call) : list TracePhase :=
  match c with TStart _ _ p _ => [p] | TEnd _ _ _ => [] end.

Definition traced_phases (t : ExecutionTracer) : list TracePhase :=
  map te_phase (tr_entries t) ++ match tr_current_phase t with Some p => [p] | None => [] end.

Lemma tracer_do_phases c t :
  traced_phases (tracer_do c t) = traced_phases t ++ started c.
Proof.
  unfold traced_phases, tracer_do, start_phase, end_phase.
  destruct c; destruct (tr_current_phase t) eqn:Hq; simpl;
    rewrite ?map_app, ?Hq, ?app_nil_r; done.
Qed.

(** ** Properties *)

(** The summary of a histogram never fails: the percentile positions are in
    range for every number of values, each reported value is a recorded one,
    and minimum, median, 99th percentile and maximum are in order. *)
Theorem histogram_summary_total (m : MetricsRegistry) (metric : string) :
  ∃ s, get_histogram_summary m metric = Ok s
    ∧ hs_count s = length (get_histogram m metric)
    ∧ (get_histogram m metric ≠ [] → summary_ok (get_histogram m metric) s).
Proof.
  destruct (get_histogram m metric) as [|v vs] eqn:Hh.
  - exists (mkSummary 0 0 0 0 0 0). unfold get_histogram_summary. by rewrite Hh.
  - destruct (summary_values m metric v vs Hh) as (s & Hs & Hok).
    exists s. split_and!; [done|apply Hok|done].
Qed.

(** The tracer loses no phase and invents none: after any sequence of calls
    the recorded entries, followed by the active phase, are the started phases
    in the order they were started. *)
Theorem tracer_records_every_phase (calls : list tracer_call) (c : ObservabilityContext) :
  traced_phases (foldl (λ t call, tracer_do call t) (ExecutionTracer_new c) calls)
  = concat (map started calls).
Proof.
  assert (∀ t, traced_phases (foldl (λ t call, tracer_do call t) t calls)
               = traced_phases t ++ concat (map started calls)) as H.
  { induction calls as [|call calls IH]; intros t; simpl; [by rewrite app_nil_r|].
    by rewrite IH, tracer_do_phases, <- app_assoc. }
  apply H.
Qed.
