(* ===== verification/Abi.v ===== *)
(** * The runtime's contracts ([kernel/runtime.py], lines 38-139)

    The data that crosses the boundary of the runtime, and the four
    collaborators it calls, as classes over the state [E] the collaborators
    keep: any implementation is an instance, and the theorems about the runtime
    hold for all of them. A collaborator may answer, raise, and change [E]. *)
From S2P Require Import Prelude PyStr PyDict PyVal ExecState.

Record Intent := mkIntent {
  in_agent_id : string;
  in_action : string;
  in_parameters : dict pyval;
  in_timestamp : Z
}.

Record ExecutionResult := mkResult {
  er_success : bool;
  er_execution_id : string;
  er_checkpoint_id : option string;
  er_data : dict pyval;
  er_error : option string;
  er_state : ExecutionState
}.

Record ToolResult := mkToolResult {
  tl_success : bool;
  tl_data : dict pyval;
  tl_error : option string
}.

Record ExecutionPath := mkPath {
  ep_tool : string;
  ep_adapter : string;
  ep_parameters : dict pyval
}.

Class PolicyEvaluator (E : Type) := {
  evaluate_intent : Intent → M E (bool * option string);
  check_capability : string → string → M E (bool * option string)
}.

Class IntentRouter (E : Type) := {
  route_intent : Intent → M E ExecutionPath
}.

Class ToolGateway (E : Type) := {
  access_tool : ExecutionPath → Intent → M E ToolResult
}.

(** [restore] is annotated to return a dictionary; the runtime passes on whatever
    value the store gives. *)
Class StatePersistence (E : Type) := {
  save : string → dict pyval → M E string;
  restore : string → M E pyval
}.

(** ** Recording the calls of a run

    An instance of the contracts that forwards every call to another one and
    appends the call and its answer to a list: what the runtime asked, in
    order. *)
Inductive ext_call :=
| CEvaluate (i : Intent) (o : outcome (bool * option string))
| CCheck (action agent : string) (o : outcome (bool * option string))
| CRoute (i : Intent) (o : outcome ExecutionPath)
| CAccess (p : ExecutionPath) (i : Intent) (o : outcome ToolResult)
| CSave (execution_id : string) (state : dict pyval) (o : outcome string)
| CRestore (checkpoint_id : string) (o : outcome pyval).

Definition traced (E : Type) : Type := E * list ext_call.

Definition record_call {E A} (call : outcome A → ext_call) (m : M E A) : M (traced E) A :=
  λ s, let '(o, e) := m (fst s) in (o, (e, snd s ++ [call o])).

Section Traced.
Context {E : Type}.

#[export] Instance traced_policy `{!PolicyEvaluator E} : PolicyEvaluator (traced E) := {
  evaluate_intent i := record_call (CEvaluate i) (evaluate_intent i);
  check_capability a g := record_call (CCheck a g) (check_capability a g)
}.

#[export] Instance traced_router `{!IntentRouter E} : IntentRouter (traced E) := {
  route_intent i := record_call (CRoute i) (route_intent i)
}.

#[export] Instance traced_gateway `{!ToolGateway E} : ToolGateway (traced E) := {
  access_tool p i := record_call (CAccess p i) (access_tool p i)
}.

#[export] Instance traced_persistence `{!StatePersistence E} : StatePersistence (traced E) := {
  save x st := record_call (CSave x st) (save x st);
  restore c := record_call (CRestore c) (restore c)
}.
End Traced.
