(* ===== verification/Runtime.v ===== *)
(** * The runtime ([kernel/runtime.py])

    [KitematicRuntime]: hosting agents, draining and stopping, and
    [execute_intent], the chain policy, capability, routing, gateway,
    checkpoint. The collaborators are the classes of [Abi]; what the governed
    part of the runtime keeps is [Core], what its observers keep is [Obs], and
    the local variables of one execution that outlive a statement are in a
    [Frame]. Readings of the clock and fresh identifiers are streams: [clock n]
    is the [n]-th reading made by the governed code, [obs_clock n] the [n]-th
    made for a trace or a duration, [uuid n] the [n]-th [uuid4()]. *)
From S2P Require Import Prelude PyStr PyDict PyVal ExecState Tenant Isolation Quotas Observability Abi.
From Stdlib Require Import QArith.

Record HostedAgent := mkHosted {
  ha_capabilities : list string;
  ha_hosted_at : string
}.

Record Core (E : Type) := mkCore {
  rt_state : RuntimeState;
  rt_agents : dict HostedAgent;
  rt_tenant_context : option TenantContext;
  rt_isolation : option IsolationBoundary;
  rt_quota : option QuotaManager;
  rt_ext : E;
  rt_ticks : nat;
  rt_uuids : nat
}.
Arguments mkCore {_} _ _ _ _ _ _ _ _.
Arguments rt_state {_} _.
Arguments rt_agents {_} _.
Arguments rt_tenant_context {_} _.
Arguments rt_isolation {_} _.
Arguments rt_quota {_} _.
Arguments rt_ext {_} _.
Arguments rt_ticks {_} _.
Arguments rt_uuids {_} _.

(** The optional observers a runtime is built with. *)
Record Observers := mkObservers {
  ob_logger : option RuntimeLogger;
  ob_metrics : bool;
  ob_tracer : bool
}.

Record Obs := mkObsState {
  os_log : list LogRecord;
  os_metrics : MetricsRegistry;
  os_ticks : nat
}.

Record World (E : Type) := mkWorld { w_core : Core E; w_obs : Obs }.
Arguments mkWorld {_} _ _.
Arguments w_core {_} _.
Arguments w_obs {_} _.

Record Frame (E : Type) := mkFrame { fr_world : World E; fr_tracer : option ExecutionTracer }.
Arguments mkFrame {_} _ _.
Arguments fr_world {_} _.
Arguments fr_tracer {_} _.

(** ** Transitions of an execution *)

Definition _transition {S} (current target : ExecutionState) : M S ExecutionState :=
  if is_valid_transition current target then mret target
  else raise (InvalidStateTransitionError (ExecutionState_value current)
                (ExecutionState_value target)
                (map ExecutionState_value (get_valid_transitions current))).

Definition _transition_safe (current target : ExecutionState) : ExecutionState :=
  if is_valid_transition current target then target
  else if negb (bool_decide (current = HALTED)) && is_valid_transition current HALTED
       then HALTED
       else current.

Section Runtime.
Context {E : Type} `{!PolicyEvaluator E, !IntentRouter E, !ToolGateway E,
  !StatePersistence E}.
Variable clock obs_clock : nat → Z.
Variable uuid : nat → string.
Variable ob : Observers.

(** *** Access to the parts of the state *)

Definition put_ext (e : E) (c : Core E) : Core E :=
  mkCore (rt_state c) (rt_agents c) (rt_tenant_context c) (rt_isolation c) (rt_quota c)
    e (rt_ticks c) (rt_uuids c).
Definition put_isolation (i : option IsolationBoundary) (c : Core E) : Core E :=
  mkCore (rt_state c) (rt_agents c) (rt_tenant_context c) i (rt_quota c)
    (rt_ext c) (rt_ticks c) (rt_uuids c).
Definition put_quota (q : option QuotaManager) (c : Core E) : Core E :=
  mkCore (rt_state c) (rt_agents c) (rt_tenant_context c) (rt_isolation c) q
    (rt_ext c) (rt_ticks c) (rt_uuids c).
Definition put_state (s : RuntimeState) (c : Core E) : Core E :=
  mkCore s (rt_agents c) (rt_tenant_context c) (rt_isolation c) (rt_quota c)
    (rt_ext c) (rt_ticks c) (rt_uuids c).

Definition on_core {A} : M (Core E) A → M (World E) A :=
  zoom w_core (λ c w, mkWorld c (w_obs w)).
Definition on_obs {A} : M Obs A → M (World E) A :=
  zoom w_obs (λ o w, mkWorld (w_core w) o).
Definition on_world {A} : M (World E) A → M (Frame E) A :=
  zoom fr_world (λ w f, mkFrame w (fr_tracer f)).
Definition call_ext {A} (m : M E A) : M (Core E) A := zoom rt_ext put_ext m.

Definition now_core : M (Core E) Z := λ c,
  (Ok (clock (rt_ticks c)),
   mkCore (rt_state c) (rt_agents c) (rt_tenant_context c) (rt_isolation c) (rt_quota c)
     (rt_ext c) (S (rt_ticks c)) (rt_uuids c)).
Definition new_uuid : M (Core E) string := λ c,
  (Ok (uuid (rt_uuids c)),
   mkCore (rt_state c) (rt_agents c) (rt_tenant_context c) (rt_isolation c) (rt_quota c)
     (rt_ext c) (rt_ticks c) (S (rt_uuids c))).
Definition now_obs : M Obs Z := λ o,
  (Ok (obs_clock (os_ticks o)), mkObsState (os_log o) (os_metrics o) (S (os_ticks o))).

Definition log (l : option RuntimeLogger) (level : log_level) (message : string)
    (extra : dict pyval) : M Obs unit :=
  match l with
  | Some l => modify (λ o, mkObsState (log_to l level message extra (os_log o))
                             (os_metrics o) (os_ticks o))
  | None => mret tt
  end.
Definition count (metric : string) : M Obs unit :=
  when (ob_metrics ob)
    (modify (λ o, mkObsState (os_log o) (increment metric 1 (os_metrics o)) (os_ticks o))).
Definition observe_value (metric : string) (q : Q) : M Obs unit :=
  when (ob_metrics ob)
    (modify (λ o, mkObsState (os_log o) (metrics_record metric q (os_metrics o))
                    (os_ticks o))).

(** *** Tenant context and agents *)

Definition set_tenant_context (context : TenantContext) : M (Core E) unit :=
  if negb (TenantContext_is_valid context) then raise (iso_exn MissingTenantContextError)
  else
    iso ← read rt_isolation;
    match iso with
    | Some i => of_outcome (validate_tenant_context i context) ;; mret tt
    | None => mret tt
    end ;;
    modify (λ c, mkCore (rt_state c) (rt_agents c) (Some context) (rt_isolation c)
                   (rt_quota c) (rt_ext c) (rt_ticks c) (rt_uuids c)).

Definition host_agent (agent_id : string) (capabilities : list string)
    : M (Core E) unit :=
  now ← now_core;
  modify (λ c, mkCore (rt_state c)
                 (dict_set agent_id (mkHosted capabilities (isoformat now)) (rt_agents c))
                 (rt_tenant_context c) (rt_isolation c) (rt_quota c) (rt_ext c)
                 (rt_ticks c) (rt_uuids c)).

Definition get_agent (c : Core E) (agent_id : string) : option HostedAgent :=
  dict_get agent_id (rt_agents c).
Definition rt_list_agents (c : Core E) : list string := dict_keys (rt_agents c).

(** *** Life cycle of the runtime *)

Definition drain : M (World E) unit :=
  s ← on_core (read rt_state);
  if bool_decide (s ≠ RUNNING) then mret tt
  else
    on_core (modify (put_state DRAINING)) ;;
    on_obs (log (ob_logger ob) LInfo "Runtime draining — new executions rejected" []).

Definition stop : M (World E) unit :=
  s ← on_core (read rt_state);
  if bool_decide (s = STOPPED) then mret tt
  else
    on_core (modify (put_state STOPPED)) ;;
    on_obs (log (ob_logger ob) LInfo "Runtime stopped" []) ;;
    on_obs (count "runtime.shutdown.count").

(** *** The tracer of one execution *)

Definition on_tracer {A} (m : M ExecutionTracer A) (dflt : A) : M (Frame E) A := λ f,
  match fr_tracer f with
  | None => (Ok dflt, f)
  | Some t => let '(o, t') := m t in (o, mkFrame (fr_world f) (Some t'))
  end.

(** [if tracer: tracer.start_phase(p)]; the clock is read once more when a
    phase is active. *)
Definition t_start (p : TracePhase) : M (Frame E) unit := λ f,
  match fr_tracer f with
  | None => (Ok tt, f)
  | Some t =>
      (now0 ← (if tr_current_phase t is Some _ then on_world (on_obs now_obs) else mret 0%Z);
       now ← on_world (on_obs now_obs);
       on_tracer (start_phase now0 now p []) tt) f
  end.

(** [if tracer: tracer.end_phase(success, error)] *)
Definition t_end (success : bool) (error : option string) : M (Frame E) unit := λ f,
  match fr_tracer f with
  | None => (Ok tt, f)
  | Some t =>
      (now ← (if tr_current_phase t is Some _ then on_world (on_obs now_obs) else mret 0%Z);
       on_tracer (end_phase now success error) tt) f
  end.

(** *** The governance chain, last stage first *)

Section Chain.
Variable execution_id : string.
Variable intent : Intent.
Variable tenant_ctx : option TenantContext.
Variable logger : option RuntimeLogger.
Variable start_time : Z.

Definition f_log level message extra : M (Frame E) unit :=
  on_world (on_obs (log logger level message extra)).
Definition f_count metric : M (Frame E) unit := on_world (on_obs (count metric)).
Definition f_core {A} (m : M (Core E) A) : M (Frame E) A := on_world (on_core m).

Definition failure (error : string) (state : ExecutionState) : ExecutionResult :=
  mkResult false execution_id None [] (Some error) state.

Definition stage_complete (state : ExecutionState) (tool_result : ToolResult)
    (checkpoint_id : string) : M (Frame E) ExecutionResult :=
  state ← _transition state COMPLETED;
  t_end true None ;;
  t_start EXECUTION_COMPLETED ;;
  t_end true None ;;
  iso ← f_core (read rt_isolation);
  match iso, tenant_ctx with
  | Some i, Some c =>
      f_core (modify (put_isolation (Some (iso_end_execution (c_tenant_id c) i))))
  | _, _ => mret tt
  end ;;
  t1 ← on_world (on_obs now_obs);
  let elapsed := ((t1 - start_time) # 1000)%Q in
  f_log LInfo "Execution completed"
    [("checkpoint_id", VStr checkpoint_id); ("duration_ms", VFloat (py_round2 elapsed))] ;;
  f_count "runtime.executions.completed" ;;
  on_world (on_obs (observe_value "runtime.execution.duration_ms" elapsed)) ;;
  mret (mkResult true execution_id (Some checkpoint_id) (tl_data tool_result) None state).

Definition checkpoint_state (tool_result : ToolResult) (now : Z) : dict pyval :=
  [ ("execution_id", VStr execution_id);
    ("intent_action", VStr (in_action intent));
    ("intent_agent", VStr (in_agent_id intent));
    ("tool_result", VDict (tl_data tool_result));
    ("timestamp", VStr (isoformat now)) ]
  ++ match tenant_ctx with
     | Some c => [("tenant_id", VStr (c_tenant_id c))]
     | None => []
     end.

Definition stage_checkpoint (state : ExecutionState) (tool_result : ToolResult)
    : M (Frame E) ExecutionResult :=
  state ← _transition state CHECKPOINTING;
  t_end true None ;;
  t_start CHECKPOINT_SAVE ;;
  now ← f_core now_core;
  r ← attempt (f_core (call_ext (save execution_id (checkpoint_state tool_result now))));
  match r with
  | Raise e =>
      let state := _transition_safe state HALTED in
      t_end false (Some (exn_str e)) ;;
      f_log LError "Checkpoint save failed" [("error", VStr (exn_str e))] ;;
      f_count "runtime.checkpoint.error" ;;
      f_count "runtime.executions.failed" ;;
      mret (failure ("Checkpoint save error: " +:+ exn_str e) state)
  | Ok checkpoint_id => stage_complete state tool_result checkpoint_id
  end.

Definition stage_access (state : ExecutionState) (path : ExecutionPath)
    : M (Frame E) ExecutionResult :=
  r ← attempt (f_core (call_ext (access_tool path intent)));
  match r with
  | Raise e =>
      let state := _transition_safe state FAILED in
      t_end false (Some (exn_str e)) ;;
      f_log LError "Gateway access failed"
        [("tool", VStr (ep_tool path)); ("error", VStr (exn_str e))] ;;
      f_count "runtime.gateway.error" ;;
      f_count "runtime.executions.failed" ;;
      mret (failure ("Gateway access error: " +:+ exn_str e) state)
  | Ok tool_result =>
      if negb (tl_success tool_result) then
        let state := _transition_safe state FAILED in
        t_end false (tl_error tool_result) ;;
        f_log LError "Tool execution failed" [("error", VOptStr (tl_error tool_result))] ;;
        f_count "runtime.executions.failed" ;;
        mret (failure (opt_or (tl_error tool_result) "Tool execution failed") state)
      else stage_checkpoint state tool_result
  end.

Definition stage_route (state : ExecutionState) : M (Frame E) ExecutionResult :=
  state ← _transition state EXECUTING;
  t_end true None ;;
  t_start INTENT_ROUTING ;;
  r ← attempt (f_core (call_ext (route_intent intent)));
  match r with
  | Raise e =>
      let state := _transition_safe state HALTED in
      t_end false (Some (exn_str e)) ;;
      f_log LError "Orchestration error" [("error", VStr (exn_str e))] ;;
      f_count "runtime.executions.failed" ;;
      mret (failure ("Orchestration error: " +:+ exn_str e) state)
  | Ok path =>
      t_end true None ;;
      t_start TOOL_EXECUTION ;;
      stage_access state path
  end.

Definition stage_capability (state : ExecutionState) : M (Frame E) ExecutionResult :=
  state ← _transition state AUTHORIZED;
  t_end true None ;;
  t_start CAPABILITY_CHECK ;;
  r ← attempt (f_core (call_ext (check_capability (in_action intent) (in_agent_id intent))));
  match r with
  | Raise e =>
      let state := _transition_safe state FAILED in
      t_end false (Some (exn_str e)) ;;
      f_log LError "Capability check error" [("error", VStr (exn_str e))] ;;
      f_count "runtime.executions.failed" ;;
      mret (failure ("Capability check error: " +:+ exn_str e) state)
  | Ok (cap_allowed, cap_reason) =>
      if negb cap_allowed then
        let state := _transition_safe state FAILED in
        t_end false cap_reason ;;
        f_log LWarning "Capability denied"
          [("reason", VOptStr cap_reason); ("action", VStr (in_action intent))] ;;
        f_count "runtime.capability.denied" ;;
        f_count "runtime.executions.failed" ;;
        mret (failure (opt_or cap_reason
                         ("Capability not allowed for action: " +:+ in_action intent))
                state)
      else stage_route state
  end.

Definition stage_policy : M (Frame E) ExecutionResult :=
  f_log LInfo "Execution started" [] ;;
  f_count "runtime.executions.total" ;;
  t_start INTENT_RECEIVED ;;
  state ← _transition CREATED VALIDATING;
  r ← attempt (f_core (call_ext (evaluate_intent intent)));
  match r with
  | Raise e =>
      let state := _transition_safe state HALTED in
      t_end false (Some (exn_str e)) ;;
      f_log LError "Policy evaluation error" [("error", VStr (exn_str e))] ;;
      f_count "runtime.executions.failed" ;;
      mret (failure ("Policy evaluation error: " +:+ exn_str e) state)
  | Ok (allowed, reason) =>
      if negb allowed then
        let state := _transition_safe state FAILED in
        t_end false reason ;;
        f_log LWarning "Policy rejected" [("reason", VOptStr reason)] ;;
        f_count "runtime.policy.rejected" ;;
        f_count "runtime.executions.failed" ;;
        mret (failure (opt_or reason "Policy rejected intent") state)
      else stage_capability state
  end.
End Chain.

(** The chain with its local tracer, correlated logger and start time; the
    frame it ends in still holds the tracer. *)
Definition run_chain (execution_id : string) (intent : Intent)
    (tenant_ctx : option TenantContext) (w : World E)
    : outcome ExecutionResult * Frame E :=
  let obs_ctx := mkObs execution_id (from_option c_tenant_id ε tenant_ctx)
                   (in_agent_id intent) (in_action intent) in
  let tracer := if ob_tracer ob then Some (ExecutionTracer_new obs_ctx) else None in
  let logger := (λ l, with_correlation l (ObservabilityContext_asdict obs_ctx))
                <$> ob_logger ob in
  (start_time ← on_world (on_obs now_obs);
   stage_policy execution_id intent tenant_ctx logger start_time) (mkFrame w tracer).

Definition _execute_quota_guarded (execution_id : string) (intent : Intent)
    (tenant_ctx : option TenantContext) : M (World E) ExecutionResult := λ w,
  let '(o, f) := run_chain execution_id intent tenant_ctx w in (o, fr_world f).

(** *** Admission *)

Definition rejected (execution_id error : string) : ExecutionResult :=
  mkResult false execution_id None [] (Some error) CREATED.

(** [check_resource_limits], then [start_execution] *)
Definition isolation_admit (tenant_ctx : option TenantContext) : M (Core E) unit :=
  iso ← read rt_isolation;
  match iso, tenant_ctx with
  | Some i, Some c =>
      of_outcome (check_resource_limits i (c_tenant_id c)) ;;
      modify (put_isolation (Some (iso_start_execution (c_tenant_id c) i)))
  | _, _ => mret tt
  end.

(** The quota check: an error result, or whether a slot was acquired. *)
Definition quota_admit (execution_id quota_tenant : string)
    : M (World E) (ExecutionResult + bool) :=
  quota ← on_core (read rt_quota);
  match quota with
  | Some q =>
      if negb (truthy quota_tenant) then mret (inr false)
      else if negb (check_concurrent q quota_tenant) then
        on_obs (count "resource.quota.exceeded") ;;
        mret (inl (rejected execution_id
                     ("Concurrent execution limit exceeded for tenant "
                      +:+ str_repr quota_tenant)))
      else
        now0 ← on_core now_core;
        now ← on_core now_core;
        let '(granted, q1) := check_and_consume_rate now0 now quota_tenant q in
        on_core (modify (put_quota (Some q1))) ;;
        ok ← of_outcome granted;
        if negb ok then
          now1 ← on_core now_core;
          let '(r, q2) := qm_retry_after now1 now1 quota_tenant q1 in
          on_core (modify (put_quota (Some q2))) ;;
          retry ← of_outcome r;
          on_obs (count "resource.rate_limit.hit") ;;
          mret (inl (rejected execution_id
                       ("Rate limit exceeded for tenant " +:+ str_repr quota_tenant
                        +:+ ". Retry after " +:+ format_1f retry +:+ "s")))
        else
          on_core (modify (put_quota
            (Some (qm_start_execution quota_tenant execution_id q1)))) ;;
          mret (inr true)
  | None => mret (inr false)
  end.

Definition _release_quota (acquired : bool) (quota_tenant execution_id : string)
    : M (Core E) unit :=
  quota ← read rt_quota;
  match quota with
  | Some q =>
      when (acquired && truthy quota_tenant)
        (modify (put_quota (Some (qm_end_execution quota_tenant execution_id q))))
  | None => mret tt
  end.

Definition reject_shutdown (acquired : bool) (quota_tenant execution_id word : string)
    : M (World E) ExecutionResult :=
  on_core (_release_quota acquired quota_tenant execution_id) ;;
  on_obs (log (ob_logger ob) LWarning ("Execution rejected — runtime " +:+ word) []) ;;
  on_obs (count "runtime.executions.rejected") ;;
  mret (rejected execution_id ("Runtime is " +:+ word)).

Definition execute_intent (intent : Intent) : M (World E) ExecutionResult :=
  execution_id ← on_core new_uuid;
  tenant_ctx ← on_core (read rt_tenant_context);
  iso ← on_core (read rt_isolation);
  match iso, tenant_ctx with
  | Some _, None => mret (rejected execution_id "No tenant context — execution denied")
  | _, _ =>
      on_core (isolation_admit tenant_ctx) ;;
      let quota_tenant := from_option c_tenant_id ε tenant_ctx in
      gate ← quota_admit execution_id quota_tenant;
      match gate with
      | inl result => mret result
      | inr acquired =>
          s ← on_core (read rt_state);
          match s with
          | DRAINING => reject_shutdown acquired quota_tenant execution_id "draining"
          | STOPPED => reject_shutdown acquired quota_tenant execution_id "stopped"
          | RUNNING =>
              result ← _execute_quota_guarded execution_id intent tenant_ctx;
              on_core (_release_quota acquired quota_tenant execution_id) ;;
              mret result
          end
      end
  end.

(** *** Restoring a checkpoint *)

Definition restore_from_checkpoint (checkpoint_id checkpoint_tenant checkpoint_agent : string)
    : M (Core E) pyval :=
  tenant_ctx ← read rt_tenant_context;
  iso ← read rt_isolation;
  match tenant_ctx, iso with
  | Some c, Some _ =>
      if truthy checkpoint_tenant && truthy checkpoint_agent then
        of_outcome (validate_checkpoint_owner checkpoint_tenant checkpoint_agent
                      (c_tenant_id c) (c_agent_id c)) ;; mret tt
      else mret tt
  | _, _ => mret tt
  end ;;
  r ← attempt (call_ext (restore checkpoint_id));
  match r with
  | Ok st => mret st
  | Raise e =>
      if decide (exn_class e = "CheckpointPersistenceError") then raise e
      else raise (CheckpointPersistenceError "restore" (exn_str e))
  end.
End Runtime.
