(* ===== verification/RuntimeSpec.v ===== *)
(** * What [execute_intent] does, without its observers

    [spec_execute] is the governance chain as a specification over the governed
    state alone: no logger, no metrics, no tracer, no local state machine. The
    refinement theorem says that [execute_intent] implements it whatever its
    observers are; the other theorems follow from the specification. *)
From S2P Require Import Prelude PyStr PyDict PyVal ExecState Tenant Isolation Quotas Observability Abi Runtime.
From Stdlib Require Import QArith.

Section Spec.
Context {E : Type} `{!PolicyEvaluator E, !IntentRouter E, !ToolGateway E,
  !StatePersistence E}.
Variable clock : nat → Z.
Variable uuid : nat → string.

Definition refuse (execution_id error : string) (s : ExecutionState)
    : M (Core E) ExecutionResult :=
  mret (mkResult false execution_id None [] (Some error) s).

(** Ask a collaborator; an exception is an error result in state [s]. *)
Definition ask {A} (execution_id prefix : string) (s : ExecutionState) (m : M E A)
    (k : A → M (Core E) ExecutionResult) : M (Core E) ExecutionResult :=
  r ← attempt (call_ext m);
  match r with
  | Raise e => refuse execution_id (prefix +:+ exn_str e) s
  | Ok a => k a
  end.

Definition spec_chain (x : string) (i : Intent) (ctx : option TenantContext)
    : M (Core E) ExecutionResult :=
  ask x "Policy evaluation error: " HALTED (evaluate_intent i) (λ '(allowed, reason),
  if negb allowed then refuse x (opt_or reason "Policy rejected intent") FAILED else
  ask x "Capability check error: " FAILED
    (check_capability (in_action i) (in_agent_id i)) (λ '(allowed, reason),
  if negb allowed then
    refuse x (opt_or reason ("Capability not allowed for action: " +:+ in_action i)) FAILED
  else
  ask x "Orchestration error: " HALTED (route_intent i) (λ path,
  ask x "Gateway access error: " FAILED (access_tool path i) (λ r,
  if negb (tl_success r) then
    refuse x (opt_or (tl_error r) "Tool execution failed") FAILED
  else
  now ← now_core clock;
  ask x "Checkpoint save error: " HALTED (save x (checkpoint_state x i ctx r now)) (λ cid,
  iso ← read rt_isolation;
  match iso, ctx with
  | Some b, Some c => modify (put_isolation (Some (iso_end_execution (c_tenant_id c) b)))
  | _, _ => mret tt
  end ;;
  mret (mkResult true x (Some cid) (tl_data r) None COMPLETED)))))).

Definition spec_started (x : string) (i : Intent) (ctx : option TenantContext)
    (s : RuntimeState)
    : M (Core E) ExecutionResult :=
  match s with
  | RUNNING => spec_chain x i ctx
  | DRAINING => mret (rejected x "Runtime is draining")
  | STOPPED => mret (rejected x "Runtime is stopped")
  end.

Definition spec_quota_admit (x tenant : string)
    : M (Core E) (ExecutionResult + bool) :=
  quota ← read rt_quota;
  match quota with
  | Some q =>
      if negb (truthy tenant) then mret (inr false)
      else if negb (check_concurrent q tenant) then
        mret (inl (rejected x ("Concurrent execution limit exceeded for tenant "
                               +:+ str_repr tenant)))
      else
        now0 ← now_core clock;
        now ← now_core clock;
        let '(granted, q1) := check_and_consume_rate now0 now tenant q in
        modify (put_quota (Some q1)) ;;
        ok ← of_outcome granted;
        if negb ok then
          now1 ← now_core clock;
          let '(r, q2) := qm_retry_after now1 now1 tenant q1 in
          modify (put_quota (Some q2)) ;;
          retry ← of_outcome r;
          mret (inl (rejected x
                       ("Rate limit exceeded for tenant " +:+ str_repr tenant
                        +:+ ". Retry after " +:+ format_1f retry +:+ "s")))
        else
          modify (put_quota (Some (qm_start_execution tenant x q1))) ;;
          mret (inr true)
  | None => mret (inr false)
  end.

Definition spec_admitted (x : string) (i : Intent) (ctx : option TenantContext)
    : M (Core E) ExecutionResult :=
  isolation_admit ctx ;;
  let tenant := from_option c_tenant_id ε ctx in
  gate ← spec_quota_admit x tenant;
  match gate with
  | inl result => mret result
  | inr acquired =>
      s ← read rt_state;
      result ← spec_started x i ctx s;
      _release_quota acquired tenant x ;;
      mret result
  end.

Definition spec_execute (i : Intent) : M (Core E) ExecutionResult :=
  x ← new_uuid uuid;
  ctx ← read rt_tenant_context;
  iso ← read rt_isolation;
  match iso, ctx with
  | Some _, None => mret (rejected x "No tenant context — execution denied")
  | _, _ => spec_admitted x i ctx
  end.
End Spec.

(** ** Simulation

    [erases m m']: [m] answers and changes the governed state as [m'] does.
    [fsim a m m' b] says so of code that also holds a tracer, whose phase is
    active (or not) as [a] says before and, on return, as [b] says after. *)
Section Simulation.
Context {E : Type}.

Definition erases {A} (m : M (World E) A) (m' : M (Core E) A) : Prop :=
  ∀ w, m' (w_core w) = (fst (m w), w_core (snd (m w))).

Definition phase_is (a : bool) (t : option ExecutionTracer) : Prop :=
  match t with
  | None => True
  | Some t => match tr_current_phase t with Some _ => a = true | None => a = false end
  end.

Definition f_core_of (f : Frame E) : Core E := w_core (fr_world f).

Definition fsim {A} (a : bool) (m : M (Frame E) A) (m' : M (Core E) A) (b : bool) : Prop :=
  ∀ f, phase_is a (fr_tracer f) →
    m' (f_core_of f) = (fst (m f), f_core_of (snd (m f)))
    ∧ (is_ok (fst (m f)) = true → phase_is b (fr_tracer (snd (m f)))).

Lemma erases_ret {A} (x : A) : erases (mret x) (mret x).
Proof. done. Qed.

Lemma erases_core {A} (m : M (Core E) A) : erases (on_core m) m.
Proof. intros [c o]. unfold on_core, zoom; simpl. by destruct (m c). Qed.

Lemma erases_bind {A B} (m : M (World E) A) m' (k : A → M (World E) B) k' :
  erases m m' → (∀ x, erases (k x) (k' x)) → erases (mbind k m) (mbind k' m').
Proof.
  intros Hm Hk w. unfold mbind, M_bind. rewrite (Hm w).
  destruct (m w) as [[x|e] w']; simpl; [apply Hk|done].
Qed.

Lemma erases_skip {A} (m : M Obs unit) (k : M (World E) A) k' :
  (∀ o, fst (m o) = Ok tt) → erases k k' → erases (mbind (λ _, k) (on_obs m)) k'.
Proof.
  intros Hm Hk [c o]. unfold mbind, M_bind, on_obs, zoom; simpl.
  specialize (Hm o). destruct (m o) as [r o']; simpl in *; subst. apply (Hk (mkWorld c o')).
Qed.

Lemma fsim_ret {A} a (x : A) : fsim a (mret x) (mret x) a.
Proof. intros f Hf. done. Qed.

Lemma fsim_bind {A B} a b c (m : M (Frame E) A) m' (k : A → M (Frame E) B) k' :
  fsim a m m' b → (∀ x, fsim b (k x) (k' x) c) → fsim a (mbind k m) (mbind k' m') c.
Proof.
  intros Hm Hk f Hf. destruct (Hm f Hf) as [Heq Hp].
  unfold mbind, M_bind. rewrite Heq.
  destruct (m f) as [[x|e] f']; simpl in *; [|done].
  apply Hk. by apply Hp.
Qed.

(** An observation before the rest. *)
Lemma fsim_skip {A} a b c (m : M (Frame E) unit) (k : M (Frame E) A) k' :
  fsim a m (mret tt) b → fsim b k k' c → fsim a (m ;; k) k' c.
Proof.
  intros Hm Hk f Hf. destruct (Hm f Hf) as [Heq Hp].
  unfold mbind, M_bind. destruct (m f) as [[x|e] f']; simpl in *; [|done].
  injection Heq as _ ->. apply Hk. by apply Hp.
Qed.

Lemma fsim_core {A} a (m : M (Core E) A) : fsim a (f_core m) m a.
Proof.
  intros [[c o] t] Hf. unfold f_core, on_world, on_core, zoom, f_core_of; simpl.
  by destruct (m c).
Qed.

Lemma fsim_attempt {A} a (m : M (Core E) A) :
  fsim a (attempt (f_core m)) (attempt m) a.
Proof.
  intros [[c o] t] Hf. unfold attempt, f_core, on_world, on_core, zoom, f_core_of; simpl.
  by destruct (m c).
Qed.

Lemma fsim_obs a (m : M Obs unit) :
  (∀ o, fst (m o) = Ok tt) → fsim a (on_world (on_obs m)) (mret tt : M (Core E) unit) a.
Proof.
  intros Hm [[c o] t] Hf. unfold on_world, on_obs, zoom, f_core_of; simpl.
  specialize (Hm o). destruct (m o) as [r o']; simpl in *. by subst.
Qed.

Lemma fsim_now {B} a c obs_clock (k : Z → M (Frame E) B) k' :
  (∀ z, fsim a (k z) k' c) → fsim a (mbind k (on_world (on_obs (now_obs obs_clock)))) k' c.
Proof.
  intros Hk [[c0 o] t] Hf.
  apply (Hk _ (mkFrame (mkWorld c0 (snd (now_obs obs_clock o))) t)). done.
Qed.

Lemma fsim_transition {A} a c s t (k : ExecutionState → M (Frame E) A) k' :
  is_valid_transition s t = true → fsim a (k t) k' c → fsim a (mbind k (_transition s t)) k' c.
Proof. intros Ht Hk f Hf. unfold mbind, M_bind, _transition. rewrite Ht. by apply Hk. Qed.

Lemma log_ok l level msg extra o : fst (log l level msg extra o) = Ok tt.
Proof. by destruct l. Qed.
Lemma count_ok ob metric o : fst (count ob metric o) = Ok tt.
Proof. unfold count, when. by destruct (ob_metrics ob). Qed.
Lemma observe_ok ob metric q o : fst (observe_value ob metric q o) = Ok tt.
Proof. unfold observe_value, when. by destruct (ob_metrics ob). Qed.

Lemma fsim_t_end obs_clock ok err :
  fsim true (t_end obs_clock ok err) (mret tt : M (Core E) unit) false.
Proof.
  intros [[c o] [t|]] Hf; [|done]. unfold t_end; simpl in *.
  destruct (tr_current_phase t) as [p|] eqn:Hp; [|done].
  m_unfold; unfold on_world, on_obs, on_tracer, end_phase, now_obs, zoom; simpl.
  by rewrite Hp.
Qed.

Lemma fsim_t_start obs_clock a p :
  fsim a (t_start obs_clock p) (mret tt : M (Core E) unit) true.
Proof.
  intros [[c o] [t|]] Hf; [|done]. unfold t_start; simpl in *.
  destruct (tr_current_phase t) as [q|] eqn:Hp;
    m_unfold; unfold on_world, on_obs, on_tracer, start_phase, end_phase, now_obs, zoom;
    simpl; rewrite Hp; done.
Qed.
End Simulation.

#[export] Hint Resolve erases_ret erases_core log_ok count_ok observe_ok
  fsim_ret fsim_core fsim_attempt fsim_t_end fsim_t_start : kite.

(** One statement of the chain: a transition, an observation, a collaborator, a
    test on the answers. *)
Ltac fsim_step :=
  match goal with
  | |- fsim _ (mbind _ (_transition _ _)) _ _ => apply fsim_transition; [reflexivity|]
  | |- fsim _ (mbind _ (on_world (on_obs (now_obs _)))) _ _ => apply fsim_now; intros
  | |- fsim _ (mbind _ (t_end _ _ _)) _ _ => eapply fsim_skip; [apply fsim_t_end|]
  | |- fsim _ (mbind _ (t_start _ _)) _ _ => eapply fsim_skip; [apply fsim_t_start|]
  | |- fsim _ (mbind _ (f_log _ _ _ _)) _ _ => eapply fsim_skip; [apply fsim_obs, log_ok|]
  | |- fsim _ (mbind _ (f_count _ _)) _ _ => eapply fsim_skip; [apply fsim_obs, count_ok|]
  | |- fsim _ (mbind _ (on_world (on_obs (observe_value _ _ _)))) _ _ =>
      eapply fsim_skip; [apply fsim_obs, observe_ok|]
  | |- fsim _ (mbind _ (attempt (f_core _))) _ _ =>
      eapply fsim_bind; [apply fsim_attempt|]; intros [?|?]
  | |- fsim _ (mbind _ (f_core _)) _ _ => eapply fsim_bind; [apply fsim_core|]; intros ?
  | |- fsim _ (mret _) _ _ => apply fsim_ret
  | |- fsim _ (f_core _) _ _ => apply fsim_core
  | |- fsim _ (match ?x with _ => _ end) _ _ => destruct x eqn:?; simpl
  end.

(** The same for the code that holds no tracer. *)
Ltac erases_step :=
  match goal with
  | |- erases (mbind _ (on_obs (log _ _ _ _))) _ => apply erases_skip; [apply log_ok|]
  | |- erases (mbind _ (on_obs (count _ _))) _ => apply erases_skip; [apply count_ok|]
  | |- erases (mbind _ (on_core _)) _ => apply erases_bind; [apply erases_core|]; intros ?
  | |- erases (mret _) _ => apply erases_ret
  | |- erases (mbind _ (of_outcome _)) _ => apply erases_bind; [done|]; intros ?
  | |- erases (match ?x with _ => _ end) _ => destruct x eqn:?; cbv beta iota
  end.

Section Refinement.
Context {E : Type} `{!PolicyEvaluator E, !IntentRouter E, !ToolGateway E,
  !StatePersistence E}.
Variable clock obs_clock : nat → Z.
Variable uuid : nat → string.
Variable ob : Observers.

Lemma stage_policy_sim x i ctx logger t0 :
  fsim false (stage_policy clock obs_clock ob x i ctx logger t0) (spec_chain clock x i ctx)
    false.
Proof.
  unfold stage_policy, spec_chain, ask, refuse. repeat fsim_step.
  unfold stage_capability. repeat fsim_step.
  unfold stage_route. repeat fsim_step.
  unfold stage_access. repeat fsim_step.
  unfold stage_checkpoint. repeat fsim_step.
  unfold stage_complete. repeat fsim_step.
  eapply fsim_bind; [|intros; repeat fsim_step].
  repeat fsim_step.
Qed.

Lemma run_chain_sim x i ctx w :
  spec_chain clock x i ctx (w_core w)
  = (fst (run_chain clock obs_clock ob x i ctx w),
     f_core_of (snd (run_chain clock obs_clock ob x i ctx w)))
  ∧ (is_ok (fst (run_chain clock obs_clock ob x i ctx w)) = true →
     phase_is false (fr_tracer (snd (run_chain clock obs_clock ob x i ctx w)))).
Proof.
  set (tracer := if ob_tracer ob then
    Some (ExecutionTracer_new (mkObs x (from_option c_tenant_id ε ctx)
            (in_agent_id i) (in_action i))) else None).
  assert (phase_is false tracer) as Hidle by (unfold tracer; by destruct (ob_tracer ob)).
  refine (fsim_now false false obs_clock _ _ _ (mkFrame w tracer) Hidle).
  intros. apply stage_policy_sim.
Qed.

(** The chain itself never raises. *)
Lemma ask_ok {A} x p s (m : M E A) (k : A → M (Core E) ExecutionResult) c :
  (∀ a c, is_ok (fst (k a c)) = true) → is_ok (fst (ask x p s m k c)) = true.
Proof.
  intros Hk. unfold ask, refuse. m_unfold. destruct (call_ext m c) as [[a|e] c']; [|done].
  apply Hk.
Qed.

Lemma spec_chain_ok x i ctx c : is_ok (fst (spec_chain clock x i ctx c)) = true.
Proof.
  unfold spec_chain. apply ask_ok. intros [[|] ?] ?; [|done].
  apply ask_ok. intros [[|] ?] ?; [|done].
  do 2 (apply ask_ok; intros). destruct (tl_success a0); [|done].
  apply ask_ok. intros cid c'. m_unfold. by destruct (rt_isolation c'), ctx.
Qed.

Lemma guarded_erases x i ctx :
  erases (_execute_quota_guarded clock obs_clock ob x i ctx) (spec_chain clock x i ctx).
Proof.
  intros w. destruct (run_chain_sim x i ctx w) as [Heq _]. rewrite Heq.
  unfold _execute_quota_guarded. by destruct (run_chain _ _ _ _ _ _ w).
Qed.

Lemma quota_admit_erases x t :
  erases (E := E) (quota_admit clock ob x t) (spec_quota_admit clock x t).
Proof.
  unfold quota_admit, spec_quota_admit. repeat erases_step.
Qed.

Lemma reject_shutdown_erases acquired t x word :
  erases (E := E) (reject_shutdown ob acquired t x word)
    (mret (rejected x ("Runtime is " +:+ word)) ≫= λ result,
       _release_quota acquired t x ;; mret result).
Proof.
  change (erases (E := E) (reject_shutdown ob acquired t x word)
            (_release_quota acquired t x ;; mret (rejected x ("Runtime is " +:+ word)))).
  unfold reject_shutdown. repeat erases_step.
Qed.

Lemma execute_erases i :
  erases (execute_intent clock obs_clock uuid ob i) (spec_execute clock uuid i).
Proof.
  unfold execute_intent, spec_execute, spec_admitted. repeat erases_step.
  all: apply erases_bind; [apply quota_admit_erases|]; intros [result|acquired]; [done|].
  all: apply erases_bind; [apply erases_core|]; intros [].
  all: first [ apply erases_bind; [apply guarded_erases|]; intros; by repeat erases_step
             | apply reject_shutdown_erases ].
Qed.
End Refinement.

(** ** What an execution leaves behind *)

Section Effects.
Context {E : Type} `{!PolicyEvaluator E, !IntentRouter E, !ToolGateway E,
  !StatePersistence E}.
Variable clock : nat → Z.
Variable uuid : nat → string.

(** The executions a tenant's quota holds, and its isolation slots. *)
Definition active_of (c : Core E) (t : string) : gset string :=
  from_option (λ q, active_set q t) ∅ (rt_quota c).
Definition slots_of (c : Core E) (t : string) : Z :=
  from_option (λ b, execution_count b t) 0%Z (rt_isolation c).

(** Nothing changed but what the collaborators keep, and the clock. *)
Record same_rt (c c' : Core E) : Prop := {
  sr_state : rt_state c' = rt_state c;
  sr_agents : rt_agents c' = rt_agents c;
  sr_ctx : rt_tenant_context c' = rt_tenant_context c;
  sr_isolation : rt_isolation c' = rt_isolation c;
  sr_quota : rt_quota c' = rt_quota c;
  sr_uuids : rt_uuids c' = rt_uuids c
}.

#[local] Instance same_rt_preorder : PreOrder same_rt.
Proof.
  split; [by split|]. intros a b c [] []. split; congruence.
Qed.

Record chain_post (x : string) (ctx : option TenantContext) (c : Core E)
    (r : ExecutionResult) (c' : Core E) : Prop := {
  cp_id : er_execution_id r = x;
  cp_terminal : is_terminal (er_state r) = true;
  cp_success : er_success r = true ↔ er_state r = COMPLETED;
  cp_frame : ∃ c1, same_rt c c1 ∧
    c' = if er_success r then
           match rt_isolation c1, ctx with
           | Some b, Some k => put_isolation (Some (iso_end_execution (c_tenant_id k) b)) c1
           | _, _ => c1
           end
         else c1
}.

Lemma chain_post_same x ctx c c1 r c' :
  same_rt c c1 → chain_post x ctx c1 r c' → chain_post x ctx c r c'.
Proof.
  intros Hs [H1 H2 H3 (c2 & Hs2 & ->)]. split; [done..|].
  exists c2. split; [by transitivity c1|done].
Qed.

Lemma ask_post {A} x ctx p s (m : M E A) (k : A → M (Core E) ExecutionResult) c :
  s = FAILED ∨ s = HALTED →
  (∀ a c1, ∃ r c', k a c1 = (Ok r, c') ∧ chain_post x ctx c1 r c') →
  ∃ r c', ask x p s m k c = (Ok r, c') ∧ chain_post x ctx c r c'.
Proof.
  intros Hs Hk. unfold ask, refuse, call_ext. m_unfold.
  destruct (m (rt_ext c)) as [[a|e] e'].
  - destruct (Hk a (put_ext e' c)) as (r & c' & -> & Hp).
    exists r, c'. split; [done|]. eapply chain_post_same; [|exact Hp]. by split.
  - eexists _, _. split; [done|].
    split; simpl; [done|by destruct Hs; subst|by destruct Hs; subst|].
    eexists; split; [|done]. by split.
Qed.

Lemma refuse_post x ctx err c :
  ∃ r c', refuse x err FAILED c = (Ok r, c') ∧ chain_post x ctx c r c'.
Proof. eexists _, _. split; [done|]. split; simpl; try done. by exists c. Qed.

Lemma spec_chain_post x i ctx c :
  ∃ r c', spec_chain clock x i ctx c = (Ok r, c') ∧ chain_post x ctx c r c'.
Proof.
  unfold spec_chain. apply ask_post; [by right|]. intros [[|] ?] cc; [|apply refuse_post]; clear c; rename cc into c.
  apply ask_post; [by left|]. intros [[|] ?] cc; [|apply refuse_post]; clear c; rename cc into c.
  apply ask_post; [by right|]. intros path cc; clear c; rename cc into c.
  apply ask_post; [by left|]. intros r c1. cbv beta.
  destruct (tl_success r); [|apply refuse_post]. simpl negb; cbv iota.
  assert (same_rt c1 (snd (now_core clock c1))) as Hs by by split.
  edestruct (ask_post (A := string)) as (r' & c' & Heq & Hp); [by right| |].
  2:{ exists r', c'. split; [exact Heq|]. eapply chain_post_same; [exact Hs|exact Hp]. }
  intros cid c2. m_unfold.
  destruct (rt_isolation c2) as [b|] eqn:Hb, ctx as [k|]; eexists _, _; (split; [done|]);
    split; simpl; try done; exists c2; by rewrite Hb.
Qed.

(** What the quota gate may change: the quota manager and the clock. *)
Record gate_post (x t : string) (c : Core E) (o : outcome (ExecutionResult + bool))
    (c' : Core E) : Prop := {
  gp_state : rt_state c' = rt_state c;
  gp_agents : rt_agents c' = rt_agents c;
  gp_ctx : rt_tenant_context c' = rt_tenant_context c;
  gp_isolation : rt_isolation c' = rt_isolation c;
  gp_ext : rt_ext c' = rt_ext c;
  gp_uuids : rt_uuids c' = rt_uuids c;
  gp_active : ∀ t', active_of c' t' =
    match o with
    | Ok (inr true) => if decide (t' = t) then {[x]} ∪ active_of c t else active_of c t'
    | _ => active_of c t'
    end;
  gp_truthy : o = Ok (inr true) → truthy t = true ∧ is_Some (rt_quota c');
  gp_result : ∀ r, o = Ok (inl r) →
    er_execution_id r = x ∧ er_success r = false ∧ er_state r = CREATED;
  gp_raise : ∀ e, o = Raise e → exn_class e = "ZeroDivisionError"
}.

Lemma active_set_consume now0 now t q t' :
  active_set (snd (check_and_consume_rate now0 now t q)) t' = active_set q t'.
Proof. unfold check_and_consume_rate, zoom, consume. by destruct (bucket_consume _ _ _). Qed.

Lemma consume_never_raises now0 now t q :
  is_ok (fst (check_and_consume_rate now0 now t q)) = true.
Proof. unfold check_and_consume_rate, zoom, consume. by destruct (bucket_consume _ _ _). Qed.

Lemma retry_raises now0 now t q e :
  fst (qm_retry_after now0 now t q) = Raise e → exn_class e = "ZeroDivisionError".
Proof.
  unfold qm_retry_after, zoom, rl_retry_after; simpl. unfold bucket_retry_after.
  repeat case_match; by intros [= <-].
Qed.

Lemma active_set_retry now0 now t q t' :
  active_set (snd (qm_retry_after now0 now t q)) t' = active_set q t'.
Proof. done. Qed.

Lemma spec_quota_admit_post x t c o c' :
  spec_quota_admit clock x t c = (o, c') → gate_post x t c o c'.
Proof.
  unfold spec_quota_admit. m_unfold.
  destruct (rt_quota c) as [q|] eqn:Hq; [|by intros [= <- <-]; split].
  destruct (truthy t) eqn:Ht; cbn [negb]; cbv beta iota; [|by intros [= <- <-]; split].
  destruct (check_concurrent q t); cbn [negb]; cbv beta iota;
    [|intros [= <- <-]; split; by try intros ? [= <-]].
  unfold now_core. cbv beta iota. cbn [rt_ticks].
  generalize (clock (rt_ticks c)) (clock (S (rt_ticks c))); intros n0 n1.
  pose proof (active_set_consume n0 n1 t q) as Hc.
  pose proof (consume_never_raises n0 n1 t q) as Hok.
  destruct (check_and_consume_rate n0 n1 t q) as [[granted|e] q1]; [|done].
  cbn [snd] in Hc.
  destruct granted; cbn [negb]; cbv beta iota.
  - intros [= <- <-]. split; try done; simpl.
    intros t'. unfold active_of; simpl. rewrite Hq; simpl.
    rewrite active_set_start, !Hc. by repeat case_decide.
  - match goal with |- context [clock ?k] => generalize (clock k); intros n2 end.
    pose proof (active_set_retry n2 n2 t q1) as Hr.
    pose proof (retry_raises n2 n2 t q1) as Hz.
    destruct (qm_retry_after n2 n2 t q1) as [[r|e] q2]; cbn [fst snd] in Hr, Hz;
      cbv beta iota; intros [= <- <-]; (split; try done; simpl;
        try (by intros ? [= <-]); try (intros ? [= <-]; by apply Hz));
      intros t'; unfold active_of; simpl; rewrite Hq; simpl; by rewrite Hr, Hc.
Qed.

Lemma release_post acquired t x (c : Core E) :
  ∃ c', _release_quota acquired t x c = (Ok tt, c')
    ∧ rt_state c' = rt_state c ∧ rt_agents c' = rt_agents c
    ∧ rt_tenant_context c' = rt_tenant_context c ∧ rt_isolation c' = rt_isolation c
    ∧ rt_ext c' = rt_ext c ∧ rt_uuids c' = rt_uuids c
    ∧ ∀ t', active_of c' t' =
        if decide (acquired && truthy t = true ∧ t' = t) then active_of c t ∖ {[x]}
        else active_of c t'.
Proof.
  unfold _release_quota. m_unfold.
  destruct (rt_quota c) as [q|] eqn:Hq; [destruct (acquired && truthy t)|];
    (eexists; split_and!; [done..|]); intros t'; unfold active_of;
    cbn [rt_quota put_quota]; rewrite ?Hq; cbn [from_option].
  - rewrite active_set_end. destruct (decide (t' = t)).
    + by rewrite decide_True.
    + rewrite decide_False; [done|]. by intros [? ?].
  - rewrite decide_False; [done|]. by intros [? ?].
  - destruct (decide _) as [[? ->]|]; [set_solver|done].
Qed.

(** *** Admission *)

(** The isolation boundary lets the current tenant start an execution. *)
Definition admitted (c : Core E) (t : string) : bool :=
  match rt_isolation c, rt_tenant_context c with
  | Some b, Some k => bool_decide (t = c_tenant_id k) && is_ok (check_resource_limits b t)
  | _, _ => false
  end.

(** *** The whole call *)

Definition succeeded (o : outcome ExecutionResult) : bool :=
  match o with Ok r => er_success r | Raise _ => false end.

Record exec_post (c : Core E) (o : outcome ExecutionResult) (c' : Core E) : Prop := {
  ep_state : rt_state c' = rt_state c;
  ep_agents : rt_agents c' = rt_agents c;
  ep_ctx : rt_tenant_context c' = rt_tenant_context c;
  ep_uuids : rt_uuids c' = S (rt_uuids c);
  ep_active : (∀ t, uuid (rt_uuids c) ∉ active_of c t) →
    ∀ t, active_of c' t = active_of c t;
  ep_slots : ∀ t, (0 ≤ slots_of c t)%Z →
    slots_of c' t
    = (slots_of c t + if admitted c t && negb (succeeded o) then 1 else 0)%Z;
  ep_result : ∀ r, o = Ok r →
    er_execution_id r = uuid (rt_uuids c)
    ∧ (er_success r = true ↔ er_state r = COMPLETED)
    ∧ (er_state r = CREATED ∨ is_terminal (er_state r) = true);
  ep_raise : ∀ e, o = Raise e →
    (∃ b k, rt_isolation c = Some b ∧ rt_tenant_context c = Some k
       ∧ check_resource_limits b (c_tenant_id k) = Raise e)
    ∨ exn_class e = "ZeroDivisionError";
  ep_halted : rt_state c ≠ RUNNING → succeeded o = false ∧ rt_ext c' = rt_ext c;
  ep_tenants : iso_tenants <$> rt_isolation c' = iso_tenants <$> rt_isolation c
}.

(** An execution past the gate, before and after its quota slot is released. *)
Record run_post (x : string) (ctx : option TenantContext) (c2 : Core E)
    (r : ExecutionResult) (c3 : Core E) : Prop := {
  rp_id : er_execution_id r = x;
  rp_success : er_success r = true ↔ er_state r = COMPLETED;
  rp_final : er_state r = CREATED ∨ is_terminal (er_state r) = true;
  rp_halted : rt_state c2 ≠ RUNNING → er_success r = false ∧ rt_ext c3 = rt_ext c2;
  rp_state : rt_state c3 = rt_state c2;
  rp_agents : rt_agents c3 = rt_agents c2;
  rp_ctx : rt_tenant_context c3 = rt_tenant_context c2;
  rp_uuids : rt_uuids c3 = rt_uuids c2;
  rp_isolation : rt_isolation c3 =
    match rt_isolation c2, ctx with
    | Some b, Some k =>
        if er_success r then Some (iso_end_execution (c_tenant_id k) b) else Some b
    | o, _ => o
    end
}.

Lemma spec_started_post x i ctx c2 :
  ∃ r c3, spec_started clock x i ctx (rt_state c2) c2 = (Ok r, c3)
    ∧ run_post x ctx c2 r c3 ∧ rt_quota c3 = rt_quota c2.
Proof.
  unfold spec_started. destruct (rt_state c2) eqn:Hs.
  - destruct (spec_chain_post x i ctx c2) as (r & c3 & -> & [P1 P2 P3 (c1 & [] & ->)]).
    eexists _, _. split; [done|].
    destruct (er_success r) eqn:Hr, (rt_isolation c1) eqn:Hi, ctx; (split; [split|]); simpl;
      try congruence; try tauto; rewrite ?Hr, <- sr_isolation0; congruence.
  - eexists _, _. split; [done|]. split; [|done].
    split; try done; [by left|]. by destruct (rt_isolation c2), ctx.
  - eexists _, _. split; [done|]. split; [|done].
    split; try done; [by left|]. by destruct (rt_isolation c2), ctx.
Qed.

Lemma released_post x i ctx c2 acquired t :
  ∃ r c4,
    (s ← read rt_state;
     result ← spec_started clock x i ctx s;
     _release_quota acquired t x ;; mret result) c2 = (Ok r, c4)
    ∧ run_post x ctx c2 r c4
    ∧ ∀ t', active_of c4 t' =
        if decide (acquired && truthy t = true ∧ t' = t) then active_of c2 t ∖ {[x]}
        else active_of c2 t'.
Proof.
  destruct (spec_started_post x i ctx c2) as (r & c3 & Heq & [] & Hq).
  destruct (release_post acquired t x c3) as (c4 & Hrel & R1 & R2 & R3 & R4 & R5 & R6 & R7).
  exists r, c4. m_unfold. rewrite Heq, Hrel. split_and!; [done| |].
  - split; try congruence; try done.
    intros Hn. destruct (rp_halted0 Hn). split; congruence.
  - intros t'. rewrite R7. unfold active_of. by rewrite Hq.
Qed.

(** The state between the isolation gate and the rest. *)
Record entered (c : Core E) (ctx : option TenantContext) (c1 : Core E) : Prop := {
  en_state : rt_state c1 = rt_state c;
  en_agents : rt_agents c1 = rt_agents c;
  en_ctx : rt_tenant_context c1 = rt_tenant_context c;
  en_quota : rt_quota c1 = rt_quota c;
  en_ext : rt_ext c1 = rt_ext c;
  en_uuids : rt_uuids c1 = S (rt_uuids c);
  en_isolation : rt_isolation c1 = match rt_isolation c, ctx with
                   | Some b, Some k => Some (iso_start_execution (c_tenant_id k) b)
                   | o, _ => o
                   end;
  en_slots : ∀ t, slots_of c1 t = (slots_of c t + if admitted c t then 1 else 0)%Z
}.

Lemma entered_tenants c ctx c1 :
  entered c ctx c1 → iso_tenants <$> rt_isolation c1 = iso_tenants <$> rt_isolation c.
Proof. intros []. rewrite en_isolation0. by destruct (rt_isolation c), ctx. Qed.

Lemma slots_after c c1 ctx c' (s : bool) t :
  ctx = rt_tenant_context c → entered c ctx c1 →
  rt_isolation c' = match rt_isolation c1, ctx with
                    | Some b, Some k =>
                        if s then Some (iso_end_execution (c_tenant_id k) b) else Some b
                    | o, _ => o
                    end →
  (∀ b k, rt_isolation c = Some b → ctx = Some k →
     check_resource_limits b (c_tenant_id k) = Ok tt) →
  (0 ≤ slots_of c t)%Z →
  slots_of c' t = (slots_of c t + if admitted c t && negb s then 1 else 0)%Z.
Proof.
  intros Hctx [? ? ? ? ? ? Hi Hsl] Hc' Hck Hpos. specialize (Hsl t).
  unfold slots_of, admitted in *. rewrite <- Hctx in *. rewrite Hi in *.
  destruct (rt_isolation c) as [b|], ctx as [k|]; simpl in *; rewrite Hc'; simpl in *; try lia.
  specialize (Hck b k eq_refl eq_refl).
  destruct s; simpl; [|rewrite andb_true_r; lia].
  rewrite andb_false_r, execution_count_end, !execution_count_start.
  destruct (decide (t = c_tenant_id k)) as [->|]; [|lia].
  rewrite decide_True by done. lia.
Qed.

Lemma isolation_admit_entered c ctx :
  ctx = rt_tenant_context c →
  (∃ c1, isolation_admit ctx (snd (new_uuid uuid c)) = (Ok tt, c1) ∧ entered c ctx c1
     ∧ ∀ b k, rt_isolation c = Some b → ctx = Some k →
         check_resource_limits b (c_tenant_id k) = Ok tt)
  ∨ (∃ b k e, isolation_admit ctx (snd (new_uuid uuid c)) = (Raise e, snd (new_uuid uuid c))
       ∧ rt_isolation c = Some b ∧ ctx = Some k
       ∧ check_resource_limits b (c_tenant_id k) = Raise e ∧ ∀ t, admitted c t = false).
Proof.
  intros Hctx. unfold isolation_admit, new_uuid. cbn [snd]. m_unfold.
  cbn [rt_isolation].
  assert (∀ t, admitted c t = match rt_isolation c, ctx with
    | Some b, Some k => bool_decide (t = c_tenant_id k) && is_ok (check_resource_limits b t)
    | _, _ => false end) as Hadm by (intros t; unfold admitted; by rewrite <- Hctx).
  destruct (rt_isolation c) as [b|] eqn:Hb;
    [destruct ctx as [k|]; [destruct (check_resource_limits b (c_tenant_id k)) eqn:Hc|]|].
  1: left; eexists; split_and!; [done| |by intros ?? [= <-] [= <-]; destruct a].
  2: right; eexists _, _, _; split_and!; [done..|]; intros t; rewrite Hadm;
     destruct (bool_decide_reflect (t = c_tenant_id k)); subst; [by rewrite Hc|done].
  2-3: left; eexists; split_and!; [done| |done].
  all: split; try done; cbn [put_isolation rt_isolation]; rewrite ?Hb; try done;
    intros t; rewrite Hadm; unfold slots_of; cbn [put_isolation rt_isolation];
    rewrite Hb; simpl; try lia.
  rewrite execution_count_start. destruct (decide (t = c_tenant_id k)) as [->|].
  - by rewrite bool_decide_eq_true_2, Hc.
  - rewrite bool_decide_eq_false_2 by done. simpl. lia.
Qed.

Lemma difference_union_fresh (y : string) (X : gset string) :
  y ∉ X → ({[y]} ∪ X) ∖ {[y]} = X.
Proof. set_solver. Qed.

(** What the refusals come to. *)
Lemma exec_post_refused c c' r :
  rt_state c' = rt_state c → rt_agents c' = rt_agents c →
  rt_tenant_context c' = rt_tenant_context c → rt_uuids c' = S (rt_uuids c) →
  (∀ t, active_of c' t = active_of c t) → rt_ext c' = rt_ext c →
  (∀ t, slots_of c' t = (slots_of c t + if admitted c t then 1 else 0)%Z) →
  er_execution_id r = uuid (rt_uuids c) → er_success r = false → er_state r = CREATED →
  iso_tenants <$> rt_isolation c' = iso_tenants <$> rt_isolation c →
  exec_post c (Ok r) c'.
Proof.
  intros ???????? Hs Hst Hte. split; simpl; try done.
  - intros t _. rewrite Hs. simpl. by rewrite andb_true_r.
  - intros ? [= <-]. rewrite Hs, Hst. split_and!; [done..|by left].
Qed.

(** A run past both gates. *)
Lemma exec_post_run c ctx c1 c2 r c4 acquired :
  let x := uuid (rt_uuids c) in
  let tenant := from_option c_tenant_id ε ctx in
  ctx = rt_tenant_context c → entered c ctx c1 →
  (∀ b k, rt_isolation c = Some b → ctx = Some k →
     check_resource_limits b (c_tenant_id k) = Ok tt) →
  gate_post x tenant c1 (Ok (inr acquired)) c2 →
  run_post x ctx c2 r c4 →
  (∀ t', active_of c4 t' =
     if decide (acquired && truthy tenant = true ∧ t' = tenant)
     then active_of c2 tenant ∖ {[x]} else active_of c2 t') →
  exec_post c (Ok r) c4.
Proof.
  intros x tenant Hctx Hen Hck [] [] Hact.
  pose proof (entered_tenants _ _ _ Hen) as Hte.
  pose proof (slots_after c c1 ctx c4 (er_success r)) as Hsl.
  rewrite rp_isolation0, gp_isolation0 in Hsl.
  destruct Hen. split; try congruence.
  - intros Hfresh t. rewrite Hact. specialize (gp_active0 t) as Ht.
    specialize (gp_active0 tenant) as Htt. specialize (Hfresh tenant).
    assert (∀ t, active_of c1 t = active_of c t) as Hsame
      by (intros; unfold active_of; congruence).
    destruct acquired; simpl in *.
    + destruct gp_truthy0 as [Htr _]; [done|]. rewrite Htr.
      rewrite decide_True in Htt by done. rewrite Ht, Htt, !Hsame. unfold x.
      destruct (decide (true = true ∧ t = tenant)) as [[_ ->]|Hne].
      * by apply difference_union_fresh.
      * destruct (decide (t = tenant)) as [->|]; [by destruct Hne|done].
    + by rewrite Ht, Hsame.
  - intros t Hpos. by apply Hsl; try done; split.
  - intros ? [= <-]. done.
  - intros Hn. rewrite <- en_state0, <- gp_state0 in Hn.
    destruct (rp_halted0 Hn). simpl. split; congruence.
  - rewrite <- Hte, <- gp_isolation0, rp_isolation0.
    by destruct (rt_isolation c2), ctx, (er_success r).
Qed.

Lemma spec_admitted_post i c :
  let m := spec_admitted clock (uuid (rt_uuids c)) i (rt_tenant_context c)
             (snd (new_uuid uuid c)) in
  exec_post c (fst m) (snd m).
Proof.
  unfold spec_admitted. set (x := uuid (rt_uuids c)). m_unfold.
  destruct (isolation_admit_entered c _ eq_refl)
    as [(c1 & -> & Hen & Hck)|(b & k & e & -> & Hb & Hk & He & Hno)].
  2:{ split; simpl; try done.
      - intros t _. rewrite Hno. unfold slots_of; simpl. lia.
      - intros ? [= <-]. left. eauto. }
  set (tenant := from_option _ _ _).
  destruct (spec_quota_admit clock x tenant c1) as [[[res|acq]|e] c2] eqn:Hg;
    apply spec_quota_admit_post in Hg; cbn [fst snd].
  - pose proof (entered_tenants _ _ _ Hen). destruct Hg, Hen.
    destruct (gp_result0 res eq_refl) as (H1 & H2 & H3).
    apply exec_post_refused; try congruence; try done.
    + intros t. rewrite gp_active0. unfold active_of; congruence.
    + intros t. rewrite <- en_slots0. unfold slots_of; congruence.
  - destruct (released_post x i (rt_tenant_context c) c2 acq tenant) as (r & c4 & Hrun & Hp & Ha).
    m_unfold. rewrite Hrun. by eapply exec_post_run.
  - pose proof (entered_tenants _ _ _ Hen). destruct Hg, Hen. split; try congruence; try done.
    + intros _ t. rewrite gp_active0. unfold active_of; congruence.
    + intros t _. simpl. rewrite andb_true_r, <- en_slots0. unfold slots_of; congruence.
    + intros ? [= <-]. right. by apply gp_raise0.
    + intros _. split; [done|congruence].
Qed.

Lemma spec_execute_eq i c :
  (rt_tenant_context c = None ∧ is_Some (rt_isolation c)
   ∧ spec_execute clock uuid i c
     = (Ok (rejected (uuid (rt_uuids c)) "No tenant context — execution denied"),
        snd (new_uuid uuid c)))
  ∨ spec_execute clock uuid i c
    = spec_admitted clock (uuid (rt_uuids c)) i (rt_tenant_context c) (snd (new_uuid uuid c)).
Proof.
  unfold spec_execute, new_uuid. m_unfold. cbn [fst snd rt_tenant_context rt_isolation].
  destruct (rt_isolation c), (rt_tenant_context c); eauto.
Qed.

Lemma spec_execute_post i c :
  exec_post c (fst (spec_execute clock uuid i c)) (snd (spec_execute clock uuid i c)).
Proof.
  destruct (spec_execute_eq i c) as [(Hk & _ & ->)| ->]; [|apply spec_admitted_post].
  cbn [fst snd].
  apply exec_post_refused; try done. intros t. unfold slots_of, admitted.
  change (rt_isolation (snd (new_uuid uuid c))) with (rt_isolation c).
  rewrite Hk. destruct (rt_isolation c); by rewrite Z.add_0_r.
Qed.

(** A tenant at its limit: the call raises what [check_resource_limits] does. *)
Lemma spec_execute_limit i c b k e :
  rt_isolation c = Some b → rt_tenant_context c = Some k →
  check_resource_limits b (c_tenant_id k) = Raise e →
  fst (spec_execute clock uuid i c) = Raise e.
Proof.
  intros Hb Hk He. destruct (spec_execute_eq i c) as [(? & _ & _)| ->]; [congruence|].
  unfold spec_admitted. rewrite Hk.
  destruct (isolation_admit_entered c (Some k)) as [(c1 & Hc1 & Hen & Hck)|(b' & k' & e' & Ha & ? & ? & ? & _)];
    [done| |].
  - exfalso. specialize (Hck b k Hb eq_refl). congruence.
  - m_unfold. rewrite Ha. cbn [fst]. congruence.
Qed.
End Effects.
