(* ===== verification/RuntimeProps.v ===== *)
(** * Theorems about the runtime

    The governance chain is obeyed call by call, a failure is always a typed
    result, the quota slot is always given back, a shutdown is final, and what
    isolation does not give back. Each follows from [RuntimeSpec]. *)
From S2P Require Import Prelude PyStr PyDict PyVal ExecState Tenant Isolation Quotas Observability Abi Runtime RuntimeSpec.
From Stdlib Require Import QArith.

(** ** The calls a run may make *)

(** Every trace of calls of one execution of [i], with the success flag and the
    final state of its result. A call is made only when the answer before it
    allows it, with that answer's value. *)
Inductive governed (x : string) (i : Intent) (ctx : option TenantContext)
  : list ext_call → bool → ExecutionState → Prop :=
| gov_policy_error e :
    governed x i ctx [CEvaluate i (Raise e)] false HALTED
| gov_policy_denied why :
    governed x i ctx [CEvaluate i (Ok (false, why))] false FAILED
| gov_capability_error why e :
    governed x i ctx
      [CEvaluate i (Ok (true, why)); CCheck (in_action i) (in_agent_id i) (Raise e)]
      false FAILED
| gov_capability_denied why why' :
    governed x i ctx
      [CEvaluate i (Ok (true, why)); CCheck (in_action i) (in_agent_id i) (Ok (false, why'))]
      false FAILED
| gov_route_error why why' e :
    governed x i ctx
      [CEvaluate i (Ok (true, why)); CCheck (in_action i) (in_agent_id i) (Ok (true, why'));
       CRoute i (Raise e)] false HALTED
| gov_access_error why why' p e :
    governed x i ctx
      [CEvaluate i (Ok (true, why)); CCheck (in_action i) (in_agent_id i) (Ok (true, why'));
       CRoute i (Ok p); CAccess p i (Raise e)] false FAILED
| gov_tool_failed why why' p r :
    tl_success r = false →
    governed x i ctx
      [CEvaluate i (Ok (true, why)); CCheck (in_action i) (in_agent_id i) (Ok (true, why'));
       CRoute i (Ok p); CAccess p i (Ok r)] false FAILED
| gov_save_error why why' p r now e :
    tl_success r = true →
    governed x i ctx
      [CEvaluate i (Ok (true, why)); CCheck (in_action i) (in_agent_id i) (Ok (true, why'));
       CRoute i (Ok p); CAccess p i (Ok r);
       CSave x (checkpoint_state x i ctx r now) (Raise e)] false HALTED
| gov_completed why why' p r now cid :
    tl_success r = true →
    governed x i ctx
      [CEvaluate i (Ok (true, why)); CCheck (in_action i) (in_agent_id i) (Ok (true, why'));
       CRoute i (Ok p); CAccess p i (Ok r);
       CSave x (checkpoint_state x i ctx r now) (Ok cid)] true COMPLETED.

Section Traces.
Context {E : Type} `{!PolicyEvaluator E, !IntentRouter E, !ToolGateway E,
  !StatePersistence E}.
Variable clock : nat → Z.
Variable uuid : nat → string.

Definition calls_of (c : Core (traced E)) : list ext_call := snd (rt_ext c).

(** [m] returns a result, and the calls it makes are related to it by [P]. *)
Definition traces (m : M (Core (traced E)) ExecutionResult)
    (P : list ext_call → bool → ExecutionState → Prop) : Prop :=
  ∀ c, ∃ r c' l, m c = (Ok r, c') ∧ calls_of c' = calls_of c ++ l
    ∧ P l (er_success r) (er_state r).

Lemma refuse_traces x err s P : P [] false s → traces (refuse x err s) P.
Proof. intros HP c. eexists _, _, []. split; [done|]. by rewrite app_nil_r. Qed.

Lemma ask_traces {A} x p s (f : outcome A → ext_call) (m : M E A) k P :
  (∀ e, P [f (Raise e)] false s) →
  (∀ a, traces (k a) (λ l, P (f (Ok a) :: l))) →
  traces (ask x p s (record_call f m) k) P.
Proof.
  intros He Hk c. unfold ask, refuse, call_ext, record_call. m_unfold.
  destruct (m (fst (rt_ext c))) as [[a|e] e'] eqn:Hm.
  - destruct (Hk a (put_ext (e', calls_of c ++ [f (Ok a)]) c)) as (r & c' & l & Hr & Hl & HP).
    exists r, c', (f (Ok a) :: l).
    split_and!; [exact Hr| |done]. rewrite Hl. unfold calls_of; simpl. by rewrite <- app_assoc.
  - by eexists _, _, [f (Raise e)].
Qed.

Lemma now_traces k P : (∀ z, traces (k z) P) → traces (mbind k (now_core clock)) P.
Proof. intros Hk c. apply (Hk _ (snd (now_core clock c))). Qed.

Lemma spec_chain_traces x i ctx : traces (spec_chain clock x i ctx) (governed x i ctx).
Proof.
  unfold spec_chain.
  apply (ask_traces _ _ _ (CEvaluate i)); [intros; by constructor|]. intros [[|] why];
    [|apply refuse_traces; cbv beta; by constructor].
  apply (ask_traces _ _ _ (CCheck _ _)); [intros; by constructor|]. intros [[|] why'];
    [|apply refuse_traces; cbv beta; by constructor].
  apply (ask_traces _ _ _ (CRoute i)); [intros; by constructor|]. intros p.
  apply (ask_traces _ _ _ (CAccess p i)); [intros; by constructor|]. intros r. cbv beta.
  destruct (tl_success r) eqn:Hr; [|apply refuse_traces; cbv beta; by constructor].
  apply now_traces. intros now.
  apply (ask_traces _ _ _ (CSave x _)); [intros; by constructor|].
  intros cid c1. m_unfold.
  destruct (rt_isolation c1), ctx; eexists _, _, []; rewrite app_nil_r;
    (split_and!; [done|done|by constructor]).
Qed.

(** The calls one execution of [i] adds, from state [c] to state [c']. *)
Definition exec_calls (i : Intent) (c : Core (traced E)) (o : outcome ExecutionResult)
    (c' : Core (traced E)) : Prop :=
  ∃ l, calls_of c' = calls_of c ++ l
    ∧ ((l = [] ∧ succeeded o = false)
       ∨ ∃ r, o = Ok r ∧ rt_state c = RUNNING
           ∧ governed (uuid (rt_uuids c)) i (rt_tenant_context c) l
               (er_success r) (er_state r)).

Lemma exec_calls_none i c o c' :
  succeeded o = false → rt_ext c' = rt_ext c → exec_calls i c o c'.
Proof. intros Ho He. exists []. unfold calls_of. rewrite He, app_nil_r. auto. Qed.

Lemma spec_admitted_calls i c :
  rt_state c = RUNNING →
  let m := spec_admitted clock (uuid (rt_uuids c)) i (rt_tenant_context c)
             (snd (new_uuid uuid c)) in
  exec_calls i c (fst m) (snd m).
Proof.
  intros Hrun. unfold spec_admitted. set (x := uuid (rt_uuids c)). m_unfold.
  destruct (isolation_admit_entered uuid c _ eq_refl)
    as [(c1 & -> & [] & _)|(b & k & e & -> & _)]; [|by apply exec_calls_none].
  set (tenant := from_option _ _ _).
  destruct (spec_quota_admit clock x tenant c1) as [[[res|acq]|e] c2] eqn:Hg;
    apply spec_quota_admit_post in Hg; cbn [fst snd];
    pose proof (gp_ext _ _ _ _ _ Hg) as Hext; pose proof (gp_state _ _ _ _ _ Hg) as Hst;
    [apply exec_calls_none; [by apply (gp_result _ _ _ _ _ Hg)|congruence]|
    |apply exec_calls_none; [done|congruence]].
  assert (rt_state c2 = RUNNING) as Hs by congruence. rewrite Hs. cbn [spec_started].
  destruct (spec_chain_traces x i (rt_tenant_context c) c2) as (r & c3 & l & -> & Hl & HP).
  destruct (release_post acq tenant x c3) as (c4 & -> & _ & _ & _ & _ & He & _).
  exists l. split; [|by eauto]. unfold calls_of in *. cbn [snd]. congruence.
Qed.

Lemma spec_execute_calls i c :
  let m := spec_execute clock uuid i c in exec_calls i c (fst m) (snd m).
Proof.
  cbv zeta. destruct (decide (rt_state c = RUNNING)) as [Hrun|Hrun].
  - destruct (spec_execute_eq clock uuid i c) as [(_ & _ & ->)| ->];
      [by apply exec_calls_none|by apply spec_admitted_calls].
  - pose proof (spec_execute_post clock uuid i c) as Hpost.
    by destruct (ep_halted _ _ _ _ Hpost Hrun); apply exec_calls_none.
Qed.
End Traces.

(** ** Operations of the runtime *)

Section Operations.
Context {E : Type} `{!PolicyEvaluator E, !IntentRouter E, !ToolGateway E,
  !StatePersistence E}.
Variable clock obs_clock : nat → Z.
Variable uuid : nat → string.
Variable ob : Observers.

(** Every operation a caller can make on a runtime, whatever its outcome. *)
Inductive rt_step : World E → World E → Prop :=
| rs_execute i w o w' :
    execute_intent clock obs_clock uuid ob i w = (o, w') → rt_step w w'
| rs_drain w o w' : drain ob w = (o, w') → rt_step w w'
| rs_stop w o w' : stop ob w = (o, w') → rt_step w w'
| rs_host a caps w o w' : on_core (host_agent clock a caps) w = (o, w') → rt_step w w'
| rs_context k w o w' : on_core (set_tenant_context k) w = (o, w') → rt_step w w'
| rs_restore x t a w o w' :
    on_core (restore_from_checkpoint x t a) w = (o, w') → rt_step w w'.

Definition shutdown_rank (w : World E) : nat :=
  match rt_state (w_core w) with RUNNING => 0 | DRAINING => 1 | STOPPED => 2 end.

Lemma execute_post i (w : World E) :
  let m := execute_intent clock obs_clock uuid ob i w in
  exec_post uuid (w_core w) (fst m) (w_core (snd m)).
Proof.
  cbv zeta. pose proof (spec_execute_post clock uuid i (w_core w)) as H.
  by rewrite (execute_erases clock obs_clock uuid ob i w) in H.
Qed.

(** The state of the runtime is changed by [drain] and [stop] only. *)
Lemma drain_core (w : World E) :
  w_core (snd (drain ob w))
  = match rt_state (w_core w) with RUNNING => put_state DRAINING (w_core w) | _ => w_core w end.
Proof.
  unfold drain, on_core, on_obs. m_unfold. destruct w as [c o]. cbn [w_core w_obs].
  destruct (rt_state c); [|done..]. simpl. by destruct (ob_logger ob).
Qed.

Lemma stop_core (w : World E) :
  w_core (snd (stop ob w))
  = match rt_state (w_core w) with STOPPED => w_core w | _ => put_state STOPPED (w_core w) end.
Proof.
  unfold stop, on_core, on_obs, count. m_unfold. destruct w as [c o]. cbn [w_core w_obs].
  destruct (rt_state c); [..|done]; simpl; destruct (ob_logger ob); simpl;
    by destruct (ob_metrics ob).
Qed.

Lemma set_context_result k (c : Core E) o c' :
  set_tenant_context k c = (o, c') →
  rt_state c' = rt_state c ∧ rt_isolation c' = rt_isolation c ∧
  ((o = Ok tt ∧ rt_tenant_context c' = Some k ∧ TenantContext_is_valid k = true
    ∧ ∀ b, rt_isolation c = Some b → validate_tenant_context b k = Ok true)
   ∨ (∃ e, o = Raise e ∧ c' = c)).
Proof.
  unfold set_tenant_context. m_unfold.
  destruct (TenantContext_is_valid k) eqn:Hv; cbn [negb]; [|naive_solver].
  destruct (rt_isolation c) as [b|] eqn:Hb.
  - destruct (validate_tenant_context b k) as [v|e] eqn:Hk; [|naive_solver].
    intros [= <- <-]. split_and!; [done|done|left]. split_and!; try done.
    intros ? [= <-]. rewrite Hk. f_equal. revert Hk. unfold validate_tenant_context.
    m_unfold. repeat case_match; by intros [= <-].
  - intros [= <- <-]. split_and!; [done|done|left]. by split_and!.
Qed.

Lemma restore_state x t a (c : Core E) :
  rt_state (snd (restore_from_checkpoint x t a c)) = rt_state c.
Proof.
  unfold restore_from_checkpoint, call_ext. m_unfold.
  repeat (case_match; simplify_eq/=; try done).
Qed.

Lemma on_core_snd {A} (m : M (Core E) A) (w : World E) o w' :
  on_core m w = (o, w') → w_core w' = snd (m (w_core w)).
Proof. unfold on_core, zoom. destruct (m (w_core w)). by intros [= <- <-]. Qed.

Lemma rt_step_rank w w' : rt_step w w' → (shutdown_rank w ≤ shutdown_rank w')%nat.
Proof.
  unfold shutdown_rank. intros Hs; destruct Hs as [i w o w' H|w o w' H|w o w' H|a caps w o w' H
    |k w o w' H|x t a w o w' H].
  - pose proof (execute_post i w) as Hp. rewrite H in Hp.
    apply ep_state in Hp. cbn [fst snd] in Hp. by rewrite Hp.
  - pose proof (drain_core w) as Hd. rewrite H in Hd. simpl in Hd. rewrite Hd.
    destruct (rt_state (w_core w)) eqn:Hw; rewrite ?Hw; simpl; lia.
  - pose proof (stop_core w) as Hd. rewrite H in Hd. simpl in Hd. rewrite Hd.
    destruct (rt_state (w_core w)) eqn:Hw; rewrite ?Hw; simpl; lia.
  - apply on_core_snd in H. by rewrite H.
  - apply on_core_snd in H. destruct (set_tenant_context k (w_core w)) as [o' c'] eqn:Hk.
    apply set_context_result in Hk as [Hst _]. rewrite H; simpl. by rewrite Hst.
  - apply on_core_snd in H. by rewrite H, restore_state.
Qed.

Lemma shutdown_rank_star w w' :
  star rt_step w w' → (shutdown_rank w ≤ shutdown_rank w')%nat.
Proof.
  intros Hs. induction Hs as [|? ? ? Hab _ IH]; [done|].
  apply rt_step_rank in Hab. lia.
Qed.
End Operations.

Section Lockout.
Context {E : Type} `{!PolicyEvaluator E, !IntentRouter E, !ToolGateway E,
  !StatePersistence E}.
Variable clock obs_clock : nat → Z.
Variable uuid : nat → string.
Variable ob : Observers.

(** Executions one after the other. *)
Fixpoint run_intents (l : list Intent) (w : World E)
    : list (outcome ExecutionResult) * World E :=
  match l with
  | [] => ([], w)
  | i :: l' =>
      let '(o, w1) := execute_intent clock obs_clock uuid ob i w in
      let '(os, w2) := run_intents l' w1 in
      (o :: os, w2)
  end.

(** The boundary of [w] lets tenant [t], whose context is set, hold [n] slots. *)
Definition limit_of (w : World E) (t : string) (n : Z) : Prop :=
  ∃ b k tm, rt_isolation (w_core w) = Some b ∧ rt_tenant_context (w_core w) = Some k
    ∧ c_tenant_id k = t ∧ dict_get t (iso_tenants b) = Some tm
    ∧ max_concurrent_executions (t_resource_limits tm) = n.

Lemma limit_of_execute i w t n :
  limit_of w t n → limit_of (snd (execute_intent clock obs_clock uuid ob i w)) t n.
Proof.
  intros (b & k & tm & Hb & Hk & Ht & Htm & Hn).
  pose proof (ep_tenants _ _ _ _ (execute_post clock obs_clock uuid ob i w)) as Hte.
  pose proof (ep_ctx _ _ _ _ (execute_post clock obs_clock uuid ob i w)) as Hctx.
  rewrite Hb in Hte. apply fmap_Some in Hte as (b' & Hb' & Hten).
  exists b', k, tm. rewrite Hctx, <- Hten. done.
Qed.

Lemma limit_of_admitted w t n :
  limit_of w t n → admitted (w_core w) t = (slots_of (w_core w) t <? n)%Z.
Proof.
  intros (b & k & tm & Hb & Hk & Ht & Htm & Hn). unfold admitted, slots_of.
  rewrite Hb, Hk. simpl. rewrite bool_decide_eq_true_2 by done. simpl.
  unfold check_resource_limits. rewrite Htm, Hn, Z.geb_leb, Z.ltb_antisym.
  by destruct (n <=? execution_count b t)%Z.
Qed.

Lemma limit_of_raises i w t n :
  limit_of w t n → (n ≤ slots_of (w_core w) t)%Z →
  ∃ count, fst (execute_intent clock obs_clock uuid ob i w)
    = Raise (iso_exn (ResourceLimitExceededError t "concurrent_executions" count n)).
Proof.
  intros (b & k & tm & Hb & Hk & Ht & Htm & Hn) Hle.
  exists (execution_count b t).
  pose proof (execute_erases clock obs_clock uuid ob i w) as He.
  apply (f_equal fst) in He. cbn [fst] in He. rewrite <- He.
  eapply spec_execute_limit; [exact Hb|exact Hk|].
  unfold check_resource_limits. rewrite Ht, Htm, Hn, Z.geb_leb.
  unfold slots_of in Hle. rewrite Hb in Hle. simpl in Hle.
  by rewrite (proj2 (Z.leb_le _ _) Hle).
Qed.

(** Unsuccessful executions fill the slots and never empty them. *)
Lemma failures_fill l w t n os w' :
  limit_of w t n → (0 ≤ slots_of (w_core w) t)%Z →
  run_intents l w = (os, w') → Forall (λ o, succeeded o = false) os →
  limit_of w' t n
  ∧ (Z.min n (slots_of (w_core w) t + Z.of_nat (length l)) ≤ slots_of (w_core w') t)%Z.
Proof.
  revert w os w'. induction l as [|i l IH]; intros w os w' Hlim Hpos; simpl.
  - intros [= <- <-] _. split; [done|]. lia.
  - pose proof (limit_of_execute i w t n Hlim) as Hlim1.
    pose proof (ep_slots _ _ _ _ (execute_post clock obs_clock uuid ob i w) t Hpos) as Hsl.
    rewrite (limit_of_admitted _ _ _ Hlim) in Hsl.
    destruct (execute_intent _ _ _ _ i w) as [o w1]. cbn [fst snd] in *.
    destruct (run_intents l w1) as [os1 w2] eqn:Hrun.
    intros [= <- <-] [Ho Hos]%Forall_cons. rewrite Ho in Hsl.
    rewrite andb_true_r in Hsl.
    destruct (Z.ltb_spec (slots_of (w_core w) t) n);
      (destruct (IH w1 os1 w2 Hlim1) as [? ?]; [lia|done|done|split; [done|lia]]).
Qed.
End Lockout.

(** ** Properties *)

Section Properties.
Context {E : Type} `{!PolicyEvaluator E, !IntentRouter E, !ToolGateway E,
  !StatePersistence E}.
Variable clock obs_clock : nat → Z.
Variable uuid : nat → string.
Variable ob : Observers.

(** C3: [execute_intent] implements the specification for every set of
    observers: the logger, the metrics, the tracer and the local state machine
    change neither its outcome nor what it does to the governed state, and no
    transition of the chain is ever refused. *)
Theorem execute_refines_spec (i : Intent) (w : World E) :
  let '(o, w') := execute_intent clock obs_clock uuid ob i w in
  spec_execute clock uuid i (w_core w) = (o, w_core w').
Proof.
  pose proof (execute_erases clock obs_clock uuid ob i w) as H.
  by destruct (execute_intent _ _ _ _ i w).
Qed.

(** C1: the calls of one execution obey the governance chain: either none was
    made and nothing succeeded, or they are one of the nine traces of
    [governed]. No tool is accessed before the policy allowed the intent and
    the capability, no checkpoint is saved before the tool succeeded, and a
    success is exactly the full chain. *)
Theorem chain_is_governed (i : Intent) (w : World (traced E)) :
  let '(o, w') := execute_intent clock obs_clock uuid ob i w in
  exec_calls uuid i (w_core w) o (w_core w').
Proof.
  pose proof (execute_erases clock obs_clock uuid ob i w) as H.
  pose proof (spec_execute_calls clock uuid i (w_core w)) as Hc. rewrite H in Hc.
  by destruct (execute_intent _ _ _ _ i w).
Qed.

(** C6: the chain always returns: whatever the collaborators answer or raise it
    ends with a result in a terminal state, successful exactly when that state
    is [COMPLETED], and every phase its tracer started has been ended. *)
Theorem chain_total (x : string) (i : Intent) (ctx : option TenantContext) (w : World E) :
  ∃ r f, run_chain clock obs_clock ob x i ctx w = (Ok r, f)
    ∧ er_execution_id r = x
    ∧ is_terminal (er_state r) = true
    ∧ (er_success r = true ↔ er_state r = COMPLETED)
    ∧ phase_is false (fr_tracer f).
Proof.
  destruct (run_chain_sim clock obs_clock ob x i ctx w) as [Heq Hp].
  destruct (spec_chain_post clock x i ctx (w_core w)) as (r & c' & Hr & []).
  rewrite Hr in Heq. destruct (run_chain _ _ _ _ _ _ w) as [o f]. cbn [fst snd] in *.
  injection Heq as <- _. exists r, f. split_and!; auto.
Qed.


(** C13: the isolation slot is given back by a success only: an execution the
    boundary admitted that does not succeed (a refusal, an error, a quota
    rejection, a shutdown, an exception) keeps its slot, and no other tenant's
    count changes. *)
Theorem isolation_slot_accounting (i : Intent) (w : World E) (t : string) :
  (0 ≤ slots_of (w_core w) t)%Z →
  let '(o, w') := execute_intent clock obs_clock uuid ob i w in
  slots_of (w_core w') t
  = (slots_of (w_core w) t
     + if admitted (w_core w) t && negb (succeeded o) then 1 else 0)%Z.
Proof.
  intros Hpos.
  pose proof (ep_slots _ _ _ _ (execute_post clock obs_clock uuid ob i w) t Hpos) as H.
  by destruct (execute_intent _ _ _ _ i w).
Qed.

(** C14: as many unsuccessful executions as the tenant's limit lock the tenant
    out: from then on [execute_intent] raises a resource-limit error for it,
    although nothing is running. *)
Theorem failures_lock_out_tenant (l : list Intent) (i : Intent) (w w' : World E) (t : string)
    (n : Z) (os : list (outcome ExecutionResult)) :
  limit_of w t n → (0 ≤ slots_of (w_core w) t)%Z → (n ≤ Z.of_nat (length l))%Z →
  run_intents clock obs_clock uuid ob l w = (os, w') →
  Forall (λ o, succeeded o = false) os →
  ∃ count, fst (execute_intent clock obs_clock uuid ob i w')
    = Raise (iso_exn (ResourceLimitExceededError t "concurrent_executions" count n)).
Proof.
  intros Hlim Hpos Hlen Hrun Hos.
  destruct (failures_fill clock obs_clock uuid ob l w t n os w') as [Hlim' Hfill]; [done..|].
  apply limit_of_raises; [done|lia].
Qed.

(** C12: a shutdown is final: once the runtime drains or is stopped, after any
    further operations it still is, and every execution is refused without a
    single call to a collaborator. *)
Theorem shutdown_is_final (i : Intent) (w w' : World E) :
  rt_state (w_core w) ≠ RUNNING →
  star (rt_step clock obs_clock uuid ob) w w' →
  rt_state (w_core w') ≠ RUNNING
  ∧ let '(o, w'') := execute_intent clock obs_clock uuid ob i w' in
    succeeded o = false ∧ rt_ext (w_core w'') = rt_ext (w_core w').
Proof.
  intros Hw Hs%shutdown_rank_star.
  assert (rt_state (w_core w') ≠ RUNNING) as Hw'.
  { unfold shutdown_rank in Hs. intros Hr. rewrite Hr in Hs.
    destruct (rt_state (w_core w)); [done|lia..]. }
  split; [done|].
  pose proof (ep_halted _ _ _ _ (execute_post clock obs_clock uuid ob i w') Hw') as H.
  by destruct (execute_intent _ _ _ _ i w').
Qed.

(** What a request to restore says about its owner, and the error when that is
    not who asks: both parts must be given for the check to be made. *)
Definition owner_error (ot oa : string) (c : Core E) : option exn :=
  match rt_tenant_context c, rt_isolation c with
  | Some k, Some _ =>
      if truthy ot && truthy oa then
        if decide (ot = c_tenant_id k) then
          if decide (oa = c_agent_id k) then None
          else Some (iso_exn (CrossAgentAccessError (c_agent_id k) oa ("checkpoint:" +:+ oa)))
        else Some (iso_exn (CrossTenantAccessError (c_tenant_id k) ot ("checkpoint:" +:+ oa)))
      else None
  | _, _ => None
  end.

(** C15: restoring a checkpoint on behalf of another owner is refused before
    the store is asked, with the error that says whose it is; otherwise the
    store is asked once, its answer is handed over as it is and its errors
    reach the caller as checkpoint errors. A request that leaves out the tenant
    or the agent of the checkpoint is never refused. *)
Theorem restore_guarded (x ot oa : string) (c : Core E) :
  let '(o, c') := restore_from_checkpoint x ot oa c in
  (∀ e, o = Raise e →
     exn_class e ∈ ["CheckpointPersistenceError"; "CrossTenantAccessError";
                    "CrossAgentAccessError"])
  ∧ match owner_error ot oa c with
    | Some e => o = Raise e ∧ c' = c
    | None =>
        let '(o1, e1) := restore x (rt_ext c) in
        c' = put_ext e1 c
        ∧ match o1 with
          | Ok v => o = Ok v
          | Raise e =>
              o = Raise (if decide (exn_class e = "CheckpointPersistenceError") then e
                         else CheckpointPersistenceError "restore" (exn_str e))
          end
    end.
Proof.
  destruct (restore_from_checkpoint x ot oa c) as [o c'] eqn:Heq. revert Heq.
  unfold restore_from_checkpoint, call_ext, validate_checkpoint_owner, owner_error. m_unfold.
  intros Heq. split.
  - intros e ->. revert Heq. repeat (case_match; simplify_eq/=); intros; simplify_eq/=;
      set_solver.
  - revert Heq. destruct (restore x (rt_ext c)) as [[v|e] e1] eqn:Hr;
      repeat (case_match || case_decide; simplify_eq/=); intros; simplify_eq/=;
      rewrite ?Hr in *; simplify_eq/=; auto.
Qed.
End Properties.

(** ** A concrete runtime

    A policy that allows or denies everything, a router, a gateway and a store
    that always answer; one registered tenant with two slots. *)

Definition demo_policy (ok : bool) : PolicyEvaluator unit := {|
  evaluate_intent i := mret (ok, None);
  check_capability a g := mret (true, None)
|}.
Definition demo_router : IntentRouter unit := {|
  route_intent i := mret (mkPath "tool" ε (in_parameters i))
|}.
Definition demo_gateway : ToolGateway unit := {|
  access_tool p i := mret (mkToolResult true [("done", VBool true)] None)
|}.
Definition demo_store : StatePersistence unit := {|
  save x st := mret ("ckpt-" +:+ x);
  restore x := raise (mkExn "KeyError" x)
|}.

Definition demo_clock (n : nat) : Z := Z.of_nat n.
Definition demo_uuid (n : nat) : string := "exec-" +:+ str_of_nat n.

Lemma demo_uuid_inj m n : demo_uuid m = demo_uuid n → m = n.
Proof.
  unfold demo_uuid. intros H. apply (str_app_inj_l "exec-") in H.
  unfold str_of_nat in H. by apply (inj pretty) in H.
Qed.

Definition demo_observers : Observers := mkObservers (Some (RuntimeLogger_new "runtime")) true true.
Definition demo_context : TenantContext := mkContext "t1" "a1" ∅ (mkLimits 10 10 1000 2 10).

Definition demo_world (s : RuntimeState) : World unit :=
  mkWorld
    (mkCore s [] (Some demo_context) (Some iso_demo)
       (Some (QuotaManager_new (TokenBucketRateLimiter_new 10 1))) tt 0 0)
    (mkObsState [] MetricsRegistry_new 0).

Definition demo_intent : Intent := mkIntent "a1" "act" [] 0.

Definition demo_execute (ok : bool) : Intent → M (World unit) ExecutionResult :=
  @execute_intent unit (demo_policy ok) demo_router demo_gateway demo_store
    demo_clock demo_clock demo_uuid demo_observers.

(** The full chain, with everything observed. *)
Example demo_completes :
  (r ← fst (demo_execute true demo_intent (demo_world RUNNING)); Ok (er_state r)) = Ok COMPLETED
  ∧ length (os_log (w_obs (snd (demo_execute true demo_intent (demo_world RUNNING))))) = 2%nat.
Proof. vm_compute. done. Qed.



Lemma isolation_slot_accounting_witness :
  admitted (w_core (demo_world RUNNING)) "t1" = true
  ∧ let '(o, w') := demo_execute false demo_intent (demo_world RUNNING) in
    slots_of (w_core w') "t1"
    = (slots_of (w_core (demo_world RUNNING)) "t1"
       + if admitted (w_core (demo_world RUNNING)) "t1" && negb (succeeded o) then 1 else 0)%Z.
Proof.
  split; [vm_compute; reflexivity|].
  apply (@isolation_slot_accounting unit (demo_policy false) demo_router demo_gateway demo_store
           demo_clock demo_clock demo_uuid demo_observers demo_intent (demo_world RUNNING) "t1").
  vm_compute. discriminate.
Defined.

Definition demo_failures :=
  @run_intents unit (demo_policy false) demo_router demo_gateway demo_store
    demo_clock demo_clock demo_uuid demo_observers [demo_intent; demo_intent]
    (demo_world RUNNING).

Lemma failures_lock_out_tenant_witness :
  ∃ count, fst (demo_execute false demo_intent (snd demo_failures))
    = Raise (iso_exn (ResourceLimitExceededError "t1" "concurrent_executions" count 2)).
Proof.
  apply (@failures_lock_out_tenant unit (demo_policy false) demo_router demo_gateway demo_store
           demo_clock demo_clock demo_uuid demo_observers [demo_intent; demo_intent]
           demo_intent (demo_world RUNNING) (snd demo_failures) "t1" 2 (fst demo_failures)).
  - exists iso_demo, demo_context, iso_demo_tenant. by vm_compute.
  - vm_compute. discriminate.
  - vm_compute. discriminate.
  - apply surjective_pairing.
  - vm_compute. by repeat constructor.
Defined.

Definition demo_drained : World unit := snd (drain demo_observers (demo_world RUNNING)).

Lemma shutdown_is_final_witness :
  let w' := snd (stop demo_observers demo_drained) in
  rt_state (w_core w') ≠ RUNNING
  ∧ let '(o, w'') := demo_execute true demo_intent w' in
    succeeded o = false ∧ rt_ext (w_core w'') = rt_ext (w_core w').
Proof.
  cbv zeta.
  apply (@shutdown_is_final unit (demo_policy true) demo_router demo_gateway demo_store
           demo_clock demo_clock demo_uuid demo_observers demo_intent demo_drained).
  - vm_compute. discriminate.
  - apply star_one.
    apply (@rs_stop unit (demo_policy true) demo_router demo_gateway demo_store
             demo_clock demo_clock demo_uuid demo_observers demo_drained
             (fst (stop demo_observers demo_drained))).
    apply surjective_pairing.
Defined.
