(* ===== verification/Concurrent.v ===== *)
(** * Executions that interleave ([kernel/runtime.py])

    [execute_intent] is a coroutine: between two awaits it runs alone, at an
    await any other coroutine of the event loop may run. Here an execution is a
    task suspended at one of the five awaits on its collaborators; resuming it
    runs the answer of the collaborator and the code up to the next await. A
    pool of such tasks shares one governed state, and the event loop resumes
    them in any order, cancels them, starts new ones, and runs the other
    operations of the runtime in between. The observers are left out, as in
    [RuntimeSpec]: they cannot be seen in an answer or in the governed state. *)
From S2P Require Import Prelude PyStr PyDict PyVal ExecState Tenant Isolation Quotas Observability.
From S2P Require Import Abi Runtime RuntimeSpec.

(** ** One task *)

(** The await a task is suspended at, with the locals it still needs. *)
Inductive point :=
| AtPolicy
| AtCapability
| AtRoute
| AtAccess (path : ExecutionPath)
| AtSave (tool_result : ToolResult) (now : Z).

(** The locals of [execute_intent]: the tenant context is the one read at the
    start, [tk_acquired] whether a quota slot is to be released. *)
Record task := mkTask {
  tk_id : string;
  tk_intent : Intent;
  tk_ctx : option TenantContext;
  tk_acquired : bool;
  tk_point : point
}.

Definition at_point (p : point) (tk : task) : task :=
  mkTask (tk_id tk) (tk_intent tk) (tk_ctx tk) (tk_acquired tk) p.
Definition tenant_of (tk : task) : string := from_option c_tenant_id ε (tk_ctx tk).

Section Tasks.
Context {E : Type} `{!PolicyEvaluator E, !IntentRouter E, !ToolGateway E, !StatePersistence E}.
Variable clock : nat → Z.
Variable uuid : nat → string.

(** The answer of a collaborator: an exception ends the execution in state [s]. *)
Definition awaited {A} (x prefix : string) (s : ExecutionState) (m : M E A)
    (k : A → M (Core E) (point + ExecutionResult)) : M (Core E) (point + ExecutionResult) :=
  r ← attempt (call_ext m);
  match r with
  | Raise e => mret (inr (failure x (prefix +:+ exn_str e) s))
  | Ok a => k a
  end.

(** [_execute_quota_guarded] from one await to the next. *)
Definition chain_step (x : string) (i : Intent) (ctx : option TenantContext) (p : point)
    : M (Core E) (point + ExecutionResult) :=
  match p with
  | AtPolicy =>
      awaited x "Policy evaluation error: " HALTED (evaluate_intent i) (λ '(allowed, reason),
      mret (if negb allowed then inr (failure x (opt_or reason "Policy rejected intent") FAILED)
            else inl AtCapability))
  | AtCapability =>
      awaited x "Capability check error: " FAILED
        (check_capability (in_action i) (in_agent_id i)) (λ '(allowed, reason),
      mret (if negb allowed
            then inr (failure x (opt_or reason
                        ("Capability not allowed for action: " +:+ in_action i)) FAILED)
            else inl AtRoute))
  | AtRoute =>
      awaited x "Orchestration error: " HALTED (route_intent i) (λ path, mret (inl (AtAccess path)))
  | AtAccess path =>
      awaited x "Gateway access error: " FAILED (access_tool path i) (λ r,
      if negb (tl_success r)
      then mret (inr (failure x (opt_or (tl_error r) "Tool execution failed") FAILED))
      else now ← now_core clock; mret (inl (AtSave r now)))
  | AtSave r now =>
      awaited x "Checkpoint save error: " HALTED (save x (checkpoint_state x i ctx r now)) (λ cid,
      iso ← read rt_isolation;
      match iso, ctx with
      | Some b, Some c => modify (put_isolation (Some (iso_end_execution (c_tenant_id c) b)))
      | _, _ => mret tt
      end ;;
      mret (inr (mkResult true x (Some cid) (tl_data r) None COMPLETED)))
  end.

(** [execute_intent] up to its first await, past the check for a tenant context. *)
Definition begin_admitted (x : string) (i : Intent) (ctx : option TenantContext)
    : M (Core E) (task + ExecutionResult) :=
  isolation_admit ctx ;;
  let tenant := from_option c_tenant_id ε ctx in
  gate ← spec_quota_admit clock x tenant;
  match gate with
  | inl result => mret (inr result)
  | inr acquired =>
      s ← read rt_state;
      match s with
      | RUNNING => mret (inl (mkTask x i ctx acquired AtPolicy))
      | DRAINING =>
          _release_quota acquired tenant x ;; mret (inr (rejected x "Runtime is draining"))
      | STOPPED =>
          _release_quota acquired tenant x ;; mret (inr (rejected x "Runtime is stopped"))
      end
  end.

Definition begin_execution (i : Intent) : M (Core E) (task + ExecutionResult) :=
  x ← new_uuid uuid;
  ctx ← read rt_tenant_context;
  iso ← read rt_isolation;
  match iso, ctx with
  | Some _, None => mret (inr (rejected x "No tenant context — execution denied"))
  | _, _ => begin_admitted x i ctx
  end.

(** Resuming a task; its quota slot is released with its result. *)
Definition resume (tk : task) : M (Core E) (task + ExecutionResult) :=
  r ← chain_step (tk_id tk) (tk_intent tk) (tk_ctx tk) (tk_point tk);
  match r with
  | inl p => mret (inl (at_point p tk))
  | inr result => _release_quota (tk_acquired tk) (tenant_of tk) (tk_id tk) ;; mret (inr result)
  end.

(** A task that is resumed up to [n] times in a row. *)
Fixpoint run_task (n : nat) (tk : task) : M (Core E) (task + ExecutionResult) :=
  match n with
  | 0%nat => mret (inl tk)
  | S n =>
      r ← resume tk;
      match r with inl tk => run_task n tk | inr result => mret (inr result) end
  end.

Definition run_alone (i : Intent) : M (Core E) (task + ExecutionResult) :=
  r ← begin_execution i;
  match r with inl tk => run_task 5 tk | inr result => mret (inr result) end.

(** ** The pool *)

(** A cancelled task has the [CancelledError] raised at its await, which no
    [except Exception] of the chain catches and no [finally] follows. *)
Inductive status :=
| Running (tk : task)
| Returned (o : outcome ExecutionResult)
| Cancelled (tk : task).

(** [ex_slot]: the tenant an isolation slot was taken for. *)
Record execution := mkExec { ex_slot : option string; ex_status : status }.

Record Pool := mkPool { po_core : Core E; po_execs : list execution }.

Definition status_of (o : outcome (task + ExecutionResult)) : status :=
  match o with
  | Ok (inl tk) => Running tk
  | Ok (inr result) => Returned (Ok result)
  | Raise e => Returned (Raise e)
  end.

(** The slot [isolation_admit] takes in a state. *)
Definition slot_taken (c : Core E) : option string :=
  match rt_isolation c, rt_tenant_context c with
  | Some b, Some k =>
      if is_ok (check_resource_limits b (c_tenant_id k)) then Some (c_tenant_id k) else None
  | _, _ => None
  end.

(** What else may happen to the governed state: the operations of the runtime,
    and whatever the collaborators do on their own. *)
Inductive aside (c : Core E) : Core E → Prop :=
| as_drain ob o : aside c (w_core (drain ob (mkWorld c o)).2)
| as_stop ob o : aside c (w_core (stop ob (mkWorld c o)).2)
| as_context k : aside c (set_tenant_context k c).2
| as_agent a caps : aside c (host_agent clock a caps c).2
| as_restore x t a : aside c (restore_from_checkpoint x t a c).2
| as_ext e : aside c (put_ext e c).

(** What the event loop does next. *)
Inductive label := Submit (i : Intent) | Resume (x : string) | Cancel (x : string) | Aside.

Inductive pool_step : label → Pool → Pool → Prop :=
| po_submit i c execs o c' :
    begin_execution i c = (o, c') →
    pool_step (Submit i)
      (mkPool c execs) (mkPool c' (execs ++ [mkExec (slot_taken c) (status_of o)]))
| po_resume c l1 slot tk l2 o c' :
    resume tk c = (o, c') →
    pool_step (Resume (tk_id tk)) (mkPool c (l1 ++ mkExec slot (Running tk) :: l2))
      (mkPool c' (l1 ++ mkExec slot (status_of o) :: l2))
| po_cancel c l1 slot tk l2 :
    pool_step (Cancel (tk_id tk)) (mkPool c (l1 ++ mkExec slot (Running tk) :: l2))
      (mkPool c (l1 ++ mkExec slot (Cancelled tk) :: l2))
| po_aside c execs c' : aside c c' → pool_step Aside (mkPool c execs) (mkPool c' execs).

(** A schedule: the labels of a sequence of steps. *)
Inductive scheduled : list label → Pool → Pool → Prop :=
| sch_nil p : scheduled [] p p
| sch_cons a ls p q r : pool_step a p q → scheduled ls q r → scheduled (a :: ls) p r.

(** A schedule can be executed: the running execution with an id, what is before
    it and what is after. *)
Fixpoint find_running (x : string) (es : list execution)
    : option (list execution * option string * task * list execution) :=
  match es with
  | [] => None
  | e :: es =>
      match ex_status e with
      | Running tk =>
          if bool_decide (tk_id tk = x) then Some ([], ex_slot e, tk, es)
          else '(l1, slot, tk, l2) ← find_running x es; Some (e :: l1, slot, tk, l2)
      | _ => '(l1, slot, tk, l2) ← find_running x es; Some (e :: l1, slot, tk, l2)
      end
  end.

Definition drive (a : label) (p : Pool) : option Pool :=
  match a with
  | Submit i =>
      let '(o, c') := begin_execution i (po_core p) in
      Some (mkPool c' (po_execs p ++ [mkExec (slot_taken (po_core p)) (status_of o)]))
  | Resume x =>
      '(l1, slot, tk, l2) ← find_running x (po_execs p);
      let '(o, c') := resume tk (po_core p) in
      Some (mkPool c' (l1 ++ mkExec slot (status_of o) :: l2))
  | Cancel x =>
      '(l1, slot, tk, l2) ← find_running x (po_execs p);
      Some (mkPool (po_core p) (l1 ++ mkExec slot (Cancelled tk) :: l2))
  | Aside => None
  end.
Fixpoint drive_all (ls : list label) (p : Pool) : option Pool :=
  match ls with [] => Some p | a :: ls => p ← drive a p; drive_all ls p end.
End Tasks.
Arguments mkPool {E} _ _.
Arguments po_core {E} _.
Arguments po_execs {E} _.
