(* ===== verification/ConcurrentSpec.v ===== *)
(** * Lemmas about interleaved executions

    A task by itself against [spec_execute]; what one resumption and one start
    leave behind; the accounting of a pool, and that every step keeps it. *)
From S2P Require Import Prelude PyStr PyDict PyVal ExecState Tenant Isolation Quotas Observability.
From S2P Require Import Abi Runtime RuntimeSpec RuntimeProps Concurrent.

(** ** A task by itself *)

Definition lifted {A B} (f : A → B) (o : outcome A) : outcome B :=
  match o with Ok a => Ok (f a) | Raise e => Raise e end.

Section Alone.
Context {E : Type} `{!PolicyEvaluator E, !IntentRouter E, !ToolGateway E, !StatePersistence E}.
Context (clock : nat → Z) (uuid : nat → string).
Implicit Types c : Core E.

(** Five resumptions are the chain, then the release of the quota slot. *)
Lemma run_task_chain x i ctx acquired c :
  run_task clock 5 (mkTask x i ctx acquired AtPolicy) c
  = (r ← spec_chain clock x i ctx;
     _release_quota acquired (from_option c_tenant_id ε ctx) x ;; mret (inr r)) c.
Proof.
  unfold run_task, resume, chain_step, awaited, spec_chain, ask, refuse, call_ext. m_unfold.
  cbn [tk_id tk_intent tk_ctx tk_point tk_acquired at_point].
  destruct (evaluate_intent i (rt_ext c)) as [[[[] reason]|e] e1];
    cbn -[_release_quota checkpoint_state]; [|by destruct (_release_quota _ _ _ _) as [[]]..].
  destruct (check_capability _ _ e1) as [[[[] reason']|e] e2];
    cbn -[_release_quota checkpoint_state]; [|by destruct (_release_quota _ _ _ _) as [[]]..].
  destruct (route_intent i e2) as [[path|e] e3];
    cbn -[_release_quota checkpoint_state]; [|by destruct (_release_quota _ _ _ _) as [[]]].
  destruct (access_tool path i e3) as [[r|e] e4];
    cbn -[_release_quota checkpoint_state]; [|by destruct (_release_quota _ _ _ _) as [[]]].
  destruct (tl_success r); cbn -[_release_quota checkpoint_state];
    [|by destruct (_release_quota _ _ _ _) as [[]]].
  destruct (save _ _ e4) as [[cid|e] e5]; cbn -[_release_quota];
    [|by destruct (_release_quota _ _ _ _) as [[]]].
  destruct (rt_isolation c), ctx; cbn -[_release_quota];
    by destruct (_release_quota _ _ _ _) as [[]].
Qed.

Lemma admitted_alone x i ctx c :
  (r ← begin_admitted clock x i ctx;
   match r with inl tk => run_task clock 5 tk | inr result => mret (inr result) end) c
  = (lifted inr (spec_admitted clock x i ctx c).1, (spec_admitted clock x i ctx c).2).
Proof.
  unfold begin_admitted, spec_admitted, mbind, M_bind, read, mret, M_ret.
  cbn -[run_task isolation_admit spec_quota_admit spec_started _release_quota].
  destruct (isolation_admit ctx c) as [[[]|e] c1]; [|done].
  destruct (spec_quota_admit clock x (from_option c_tenant_id ε ctx) c1) as [[[res|acq]|e] c2];
    [done| |done].
  destruct (rt_state c2).
  - cbn -[run_task spec_chain _release_quota]. rewrite run_task_chain. unfold mbind, M_bind.
    destruct (spec_chain clock x i ctx c2) as [[r|e] c3]; [|done].
    by destruct (_release_quota _ _ _ c3) as [[]].
  - cbn -[_release_quota]. by destruct (_release_quota _ _ _ c2) as [[]].
  - cbn -[_release_quota]. by destruct (_release_quota _ _ _ c2) as [[]].
Qed.

Lemma run_alone_spec i c :
  run_alone clock uuid i c
  = (lifted inr (spec_execute clock uuid i c).1, (spec_execute clock uuid i c).2).
Proof.
  unfold run_alone, begin_execution, spec_execute, new_uuid, read, mbind, M_bind, mret, M_ret.
  cbn -[begin_admitted spec_admitted run_task].
  set (c1 := mkCore _ _ _ _ _ _ _ (S _)).
  destruct (rt_isolation c), (rt_tenant_context c); try done;
    match goal with |- context [begin_admitted _ ?x ?i ?k c1] => exact (admitted_alone x i k c1) end.
Qed.
End Alone.

(** ** What one resumption and one start do *)

Section Steps.
Context {E : Type} `{!PolicyEvaluator E, !IntentRouter E, !ToolGateway E, !StatePersistence E}.
Context (clock : nat → Z) (uuid : nat → string).
Implicit Types (c : Core E) (tk : task).

(** How many resumptions a task still needs at most. *)
Definition point_rank (p : point) : nat :=
  match p with
  | AtPolicy => 5 | AtCapability => 4 | AtRoute => 3 | AtAccess _ => 2 | AtSave _ _ => 1
  end.

(** From one await to the next: on to a later one and nothing but the
    collaborators' state and the clock changed, or an end of the chain. *)
Definition stepped (x : string) (ctx : option TenantContext) (rank : nat) c
    (r : point + ExecutionResult) c' : Prop :=
  match r with
  | inl p => (point_rank p < rank)%nat ∧ same_rt c c'
  | inr res => chain_post x ctx c res c'
  end.

Lemma awaited_post {A} x ctx n prefix s (m : M E A) k c :
  s = FAILED ∨ s = HALTED →
  (∀ a c1, ∃ r c', k a c1 = (Ok r, c') ∧ stepped x ctx n c1 r c') →
  ∃ r c', awaited x prefix s m k c = (Ok r, c') ∧ stepped x ctx n c r c'.
Proof.
  intros Hs Hk. unfold awaited, call_ext. m_unfold.
  destruct (m (rt_ext c)) as [[a|e] e'].
  - destruct (Hk a (put_ext e' c)) as (r & c' & -> & Hp). exists r, c'. split; [done|].
    assert (same_rt c (put_ext e' c)) as Hc by by split.
    destruct r; cbn in *; [|by eapply chain_post_same].
    destruct Hp as [? Hp]. split; [done|]. destruct Hc, Hp. split; congruence.
  - eexists _, _. split; [done|].
    split; cbn; [done|by destruct Hs; subst|by destruct Hs; subst|]. eexists. split; [|done]. by split.
Qed.

Lemma failure_post x ctx n err c :
  stepped x ctx n c (inr (failure x err FAILED)) c.
Proof. split; cbn; try done. by exists c. Qed.

Lemma chain_step_post x i ctx p c :
  ∃ r c', chain_step clock x i ctx p c = (Ok r, c') ∧ stepped x ctx (point_rank p) c r c'.
Proof.
  destruct p as [| | |path|r now]; cbn [chain_step point_rank];
    (apply awaited_post; [tauto|]); clear c.
  1-2: intros [[] reason] c; eexists _, _; (split; [reflexivity|]); [|apply failure_post].
  1-2: split; [cbn; lia|done].
  - intros path c. eexists _, _. split; [reflexivity|]. split; [cbn; lia|done].
  - intros r c. destruct (tl_success r); cbn [negb].
    + eexists _, _. split; [reflexivity|]. split; [cbn; lia|]. by split.
    + eexists _, _. split; [reflexivity|]. apply failure_post.
  - intros cid c. m_unfold. destruct (rt_isolation c) as [b|] eqn:Hb, ctx as [k|];
      eexists _, _; (split; [done|]); split; cbn; try done; exists c; by rewrite Hb.
Qed.

(** What a result leaves of the state it was reached in. *)
Record ended (tk : task) c (res : ExecutionResult) c' : Prop := {
  ed_id : er_execution_id res = tk_id tk;
  ed_terminal : is_terminal (er_state res) = true;
  ed_success : er_success res = true ↔ er_state res = COMPLETED;
  ed_state : rt_state c' = rt_state c;
  ed_ctx : rt_tenant_context c' = rt_tenant_context c;
  ed_uuids : rt_uuids c' = rt_uuids c;
  ed_isolation : rt_isolation c' =
    match rt_isolation c, tk_ctx tk with
    | Some b, Some k =>
        if er_success res then Some (iso_end_execution (c_tenant_id k) b) else Some b
    | o, _ => o
    end;
  ed_active : ∀ t, active_of c' t =
    if decide (tk_acquired tk && truthy (tenant_of tk) = true ∧ t = tenant_of tk)
    then active_of c (tenant_of tk) ∖ {[tk_id tk]} else active_of c t
}.

Lemma resume_post tk c :
  ∃ r c', resume clock tk c = (Ok r, c')
    ∧ match r with
      | inl tk' => ∃ p, tk' = at_point p tk ∧ (point_rank p < point_rank (tk_point tk))%nat
          ∧ same_rt c c'
      | inr res => ended tk c res c'
      end.
Proof.
  unfold resume. destruct (chain_step_post (tk_id tk) (tk_intent tk) (tk_ctx tk) (tk_point tk) c)
    as (r & c1 & Hr & Hp). rewrite (bind_ok _ _ _ _ _ Hr). destruct r as [p|res].
  - exists (inl (at_point p tk)), c1. split; [done|]. exists p. by destruct Hp.
  - destruct Hp as [H1 H2 H3 (c2 & [Q1 Q2 Q3 Q4 Q5 Q6] & ->)].
    set (c3 := if er_success res then _ else c2).
    destruct (release_post (tk_acquired tk) (tenant_of tk) (tk_id tk) c3)
      as (c4 & Hrel & R1 & R2 & R3 & R4 & R5 & R6 & R7).
    exists (inr res), c4. rewrite (bind_ok _ _ _ _ _ Hrel). split; [done|].
    assert (rt_state c3 = rt_state c2 ∧ rt_tenant_context c3 = rt_tenant_context c2
      ∧ rt_uuids c3 = rt_uuids c2 ∧ rt_quota c3 = rt_quota c2) as (S1 & S2 & S3 & S4)
      by (unfold c3; destruct (er_success res), (rt_isolation c2), (tk_ctx tk); done).
    split; try congruence.
    + rewrite R4. unfold c3. rewrite <- Q4.
      destruct (er_success res), (rt_isolation c2) eqn:Hi, (tk_ctx tk); cbn; congruence.
    + intros t. rewrite R7. unfold active_of. by rewrite S4, Q5.
Qed.

(** A start, whatever its outcome. *)
Record started c (o : outcome (task + ExecutionResult)) c' : Prop := {
  sd_state : rt_state c' = rt_state c;
  sd_ctx : rt_tenant_context c' = rt_tenant_context c;
  sd_uuids : rt_uuids c' = S (rt_uuids c);
  sd_some : is_Some (rt_isolation c') ↔ is_Some (rt_isolation c);
  sd_slots : ∀ t, slots_of c' t
    = (slots_of c t + if decide (slot_taken c = Some t) then 1 else 0)%Z;
  sd_task : ∀ tk, o = Ok (inl tk) →
    tk_id tk = uuid (rt_uuids c) ∧ tk_ctx tk = rt_tenant_context c ∧ tk_point tk = AtPolicy
    ∧ rt_state c = RUNNING
    ∧ slot_taken c = match rt_isolation c, rt_tenant_context c with
                     | Some _, Some k => Some (c_tenant_id k) | _, _ => None end
    ∧ (tk_acquired tk = true → truthy (tenant_of tk) = true);
  sd_result : ∀ res, o = Ok (inr res) → er_success res = false;
  sd_active : (∀ t, uuid (rt_uuids c) ∉ active_of c t) → ∀ t, active_of c' t =
    match o with
    | Ok (inl tk) =>
        if decide (tk_acquired tk = true ∧ tenant_of tk = t)
        then {[tk_id tk]} ∪ active_of c t else active_of c t
    | _ => active_of c t
    end
}.

Lemma slot_taken_admitted c t :
  (if admitted c t then 1 else 0)%Z = (if decide (slot_taken c = Some t) then 1 else 0)%Z.
Proof.
  unfold admitted, slot_taken. destruct (rt_isolation c) as [b|], (rt_tenant_context c) as [k|];
    try (by rewrite decide_False).
  destruct (bool_decide_reflect (t = c_tenant_id k)) as [->|Hne]; cbn [andb].
  - destruct (is_ok _); [by rewrite decide_True|by rewrite decide_False].
  - rewrite decide_False; [done|]. destruct (is_ok _); [|done]. intros [= Heq]. congruence.
Qed.

(** Past the quota gate: a task, or a refusal that gives the slot back. *)
Lemma begin_gate_post i c c2 acquired :
  let x := uuid (rt_uuids c) in
  let ctx := rt_tenant_context c in
  let tenant := from_option c_tenant_id ε ctx in
  let m := (s ← read rt_state;
            match s with
            | RUNNING => mret (inl (mkTask x i ctx acquired AtPolicy))
            | DRAINING => _release_quota acquired tenant x ;;
                          mret (inr (rejected x "Runtime is draining"))
            | STOPPED => _release_quota acquired tenant x ;;
                         mret (inr (rejected x "Runtime is stopped"))
            end) c2 in
  rt_state c2 = rt_state c → rt_tenant_context c2 = rt_tenant_context c →
  rt_uuids c2 = S (rt_uuids c) → (is_Some (rt_isolation c2) ↔ is_Some (rt_isolation c)) →
  (∀ t, slots_of c2 t = (slots_of c t + if decide (slot_taken c = Some t) then 1 else 0)%Z) →
  slot_taken c = match rt_isolation c, ctx with
                 | Some _, Some k => Some (c_tenant_id k) | _, _ => None end →
  (acquired = true → truthy tenant = true) →
  (∀ t, active_of c2 t = if acquired
     then if decide (t = tenant) then {[x]} ∪ active_of c tenant else active_of c t
     else active_of c t) →
  started c m.1 m.2.
Proof.
  intros x ctx tenant m Hs Hc Hu Hi Hsl Htk Htr Hact. unfold m.
  rewrite (bind_ok _ _ _ _ _ (eq_refl : read rt_state c2 = (Ok _, _))).
  assert (∀ word, let m := (_release_quota acquired tenant x ;;
    mret (inr (rejected x ("Runtime is " +:+ word)))) c2 in started c m.1 m.2) as Hrej.
  { intros word. cbv zeta.
    destruct (release_post acquired tenant x c2) as (c3 & Hr & R1 & R2 & R3 & R4 & R5 & R6 & R7).
    rewrite (bind_ok _ _ _ _ _ Hr). split; cbn [fst snd mret M_ret]; try congruence; try done.
    - intros t. rewrite <- Hsl. unfold slots_of. by rewrite R4.
    - by intros res [= <-].
    - intros Hfresh t. rewrite R7, !Hact.
      destruct acquired; cbn [andb]; [|by rewrite decide_False by (by intros [? ?])].
      rewrite (Htr eq_refl), (decide_True (P := tenant = tenant)) by done.
      destruct (decide (true = true ∧ t = tenant)) as [[_ ->]|Hne].
      + by apply difference_union_fresh.
      + rewrite decide_False; [done|]. intros ->. by apply Hne. }
  destruct (rt_state c2) eqn:Hr; [|apply (Hrej "draining")|apply (Hrej "stopped")].
  split; cbn [fst snd mret M_ret]; try congruence; try done.
  - intros tk [= <-]. cbn. by split_and!.
  - intros _ t. rewrite Hact. cbn [tk_acquired tk_id]. change (tenant_of _) with tenant.
    destruct acquired.
    + destruct (decide (t = tenant)) as [->|]; [by rewrite decide_True|].
      rewrite decide_False; [done|]. intros [_ ?]. congruence.
    + rewrite decide_False; [done|]. by intros [? _].
Qed.

Lemma begin_admitted_post i c :
  let ctx := rt_tenant_context c in
  let m := begin_admitted clock (uuid (rt_uuids c)) i ctx (new_uuid uuid c).2 in
  started c m.1 m.2.
Proof.
  intros ctx m. unfold m, begin_admitted. set (x := uuid (rt_uuids c)).
  destruct (isolation_admit_entered uuid c ctx eq_refl)
    as [(c1 & Ha & Hen & Hck)|(b & k & e & Ha & Hb & Hk & He & Hno)].
  2:{ rewrite (bind_raise _ _ _ _ _ Ha). cbn [fst snd]. split; try done.
      intros t. rewrite <- slot_taken_admitted, Hno. unfold slots_of. cbn. lia. }
  rewrite (bind_ok _ _ _ _ _ Ha). cbv zeta. set (tenant := from_option _ _ _).
  destruct Hen as [N1 N2 N3 N4 N5 N6 N7 N8].
  assert (∀ t, active_of c1 t = active_of c t) as Hact
    by (intros t; unfold active_of; by rewrite N4).
  assert (is_Some (rt_isolation c1) ↔ is_Some (rt_isolation c)) as Hsome
    by (rewrite N7; by destruct (rt_isolation c), ctx).
  assert (slot_taken c = match rt_isolation c, rt_tenant_context c with
                     | Some _, Some k => Some (c_tenant_id k) | _, _ => None end) as Hslot.
  { unfold slot_taken. destruct (rt_isolation c) as [b|] eqn:Hb, (rt_tenant_context c) as [k|] eqn:Hk;
      try done. by rewrite (Hck b k eq_refl eq_refl). }
  destruct (spec_quota_admit clock x tenant c1) as [[[res|acq]|e] c2] eqn:Hg;
    [rewrite (bind_ok _ _ _ _ _ Hg)..|rewrite (bind_raise _ _ _ _ _ Hg)];
    apply spec_quota_admit_post in Hg as [G1 G2 G3 G4 G5 G6 G7 G8 G9 G10]; cbn [fst snd mret M_ret];
    (assert (is_Some (rt_isolation c2) ↔ is_Some (rt_isolation c)) as Hsm by (by rewrite G4));
    (assert (∀ t, slots_of c2 t
      = (slots_of c t + if decide (slot_taken c = Some t) then 1 else 0)%Z) as Hsl
      by (intros t; rewrite <- slot_taken_admitted, <- N8; unfold slots_of; by rewrite G4)).
  1,3: split; try congruence; try done.
  - intros res' [= <-]. by destruct (G9 res eq_refl) as (_ & ? & _).
  - apply (begin_gate_post i c c2 acq); try congruence; try done.
    + intros ->. by destruct (G8 eq_refl).
    + intros t. rewrite G7. destruct acq; [|done]. by rewrite !Hact.
Qed.

Lemma begin_post i c o c' : begin_execution clock uuid i c = (o, c') → started c o c'.
Proof.
  intros Hb. pose proof (begin_admitted_post i c) as Ha. cbv zeta in Ha.
  unfold begin_execution in Hb.
  set (c1 := (new_uuid uuid c).2) in *.
  rewrite (bind_ok _ _ _ _ _ (eq_refl : new_uuid uuid c = (Ok (uuid (rt_uuids c)), c1))),
    (bind_ok _ _ _ _ _ (eq_refl : read rt_tenant_context c1 = (Ok (rt_tenant_context c), c1))),
    (bind_ok _ _ _ _ _ (eq_refl : read rt_isolation c1 = (Ok (rt_isolation c), c1))) in Hb.
  destruct (rt_isolation c) as [b|] eqn:Hi; [destruct (rt_tenant_context c) as [k|] eqn:Hk|].
  - by rewrite Hb in Ha.
  - injection Hb as <- <-. split; try done; try congruence.
    + intros t. unfold slot_taken. rewrite Hi, Hk, decide_False by done.
      unfold slots_of. cbn. lia.
    + by intros ? [= <-].
  - by rewrite Hb in Ha.
Qed.
End Steps.

(** ** The accounting of a pool *)

Section Pools.
Context {E : Type} `{!PolicyEvaluator E, !IntentRouter E, !ToolGateway E, !StatePersistence E}.
Context (clock : nat → Z) (uuid : nat → string).
Implicit Types (c : Core E) (p : Pool (E := E)) (e : execution) (es : list execution).

(** The tasks that were begun and have not returned. *)
Definition task_of (e : execution) : option task :=
  match ex_status e with Running tk | Cancelled tk => Some tk | Returned _ => None end.
Definition tasks (es : list execution) : list task := omap task_of es.
Definition ids (es : list execution) : list string := tk_id <$> tasks es.

(** The executions tenant [t]'s quota is charged with. *)
Definition held (t : string) (es : list execution) : list string :=
  tk_id <$> filter (λ tk, tk_acquired tk = true ∧ tenant_of tk = t) (tasks es).

(** The isolation slots of [t]: every slot taken, less those a success gave back. *)
Definition gave_back (s : status) : bool :=
  match s with Returned (Ok res) => er_success res | _ => false end.
Definition charged (t : string) (e : execution) : Z :=
  if decide (ex_slot e = Some t) then if gave_back (ex_status e) then 0%Z else 1%Z else 0%Z.
Definition charges (t : string) (es : list execution) : Z := foldr (λ e n, charged t e + n)%Z 0%Z es.

Record well_begun c e (tk : task) : Prop := {
  wb_id : ∃ n, (n < rt_uuids c)%nat ∧ tk_id tk = uuid n;
  wb_tenant : tk_acquired tk = true → truthy (tenant_of tk) = true;
  wb_slot : ex_slot e
    = match rt_isolation c, tk_ctx tk with Some _, Some k => Some (c_tenant_id k) | _, _ => None end
}.

Record pool_inv p : Prop := {
  pi_tasks : ∀ e tk, e ∈ po_execs p → task_of e = Some tk → well_begun (po_core p) e tk;
  pi_nodup : NoDup (ids (po_execs p));
  pi_active : ∀ t, active_of (po_core p) t = list_to_set (held t (po_execs p));
  pi_slots : ∀ t, slots_of (po_core p) t = charges t (po_execs p);
  pi_quota : from_option quota_inv True (rt_quota (po_core p));
  pi_limits : from_option within_limits True (rt_isolation (po_core p))
}.

Lemma tasks_app es es' : tasks (es ++ es') = tasks es ++ tasks es'.
Proof. apply omap_app. Qed.
Lemma ids_app es es' : ids (es ++ es') = ids es ++ ids es'.
Proof. unfold ids. by rewrite tasks_app, fmap_app. Qed.
Lemma held_app t es es' : held t (es ++ es') = held t es ++ held t es'.
Proof. unfold held. by rewrite tasks_app, filter_app, fmap_app. Qed.
Lemma charges_app t es es' : charges t (es ++ es') = (charges t es + charges t es')%Z.
Proof. unfold charges. induction es as [|e es IH]; cbn; [done|]. rewrite IH. lia. Qed.
Lemma charges_cons t e es : charges t (e :: es) = (charged t e + charges t es)%Z.
Proof. done. Qed.
Lemma charged_nonneg t e : (0 ≤ charged t e)%Z.
Proof. unfold charged. by repeat case_match. Qed.
Lemma charges_nonneg t es : (0 ≤ charges t es)%Z.
Proof.
  unfold charges. induction es as [|e es IH]; cbn; [done|]. pose proof (charged_nonneg t e). lia.
Qed.
Lemma held_ids t es : held t es ⊆ ids es.
Proof.
  intros x. unfold held, ids. rewrite !list_elem_of_fmap.
  intros (tk & -> & [_ Ht]%list_elem_of_filter). eauto.
Qed.
Lemma held_nodup t es : NoDup (ids es) → NoDup (held t es).
Proof.
  unfold held, ids. induction (tasks es) as [|tk tks IH]; [done|].
  rewrite fmap_cons, filter_cons. intros [Hni Hnd]%NoDup_cons.
  case_decide; [|by apply IH]. rewrite fmap_cons. apply NoDup_cons. split; [|by apply IH].
  intros (tk' & ? & [_ ?]%list_elem_of_filter)%list_elem_of_fmap. apply Hni, list_elem_of_fmap. eauto.
Qed.
Lemma task_ids e es tk : e ∈ es → task_of e = Some tk → tk_id tk ∈ ids es.
Proof.
  intros He Ht. apply list_elem_of_fmap. exists tk. split; [done|].
  apply list_elem_of_omap. eauto.
Qed.
End Pools.

(** ** Every step keeps the accounting *)

(** How the quota manager and the isolation boundary may move. *)
Definition opt_star {A} (R : A → A → Prop) (o o' : option A) : Prop :=
  match o, o' with Some a, Some a' => star R a a' | None, None => True | _, _ => False end.

Lemma opt_star_refl {A} (R : A → A → Prop) o : opt_star R o o.
Proof. destruct o; [constructor|done]. Qed.

Lemma opt_star_inv {A} (R : A → A → Prop) (I : A → Prop) o o' :
  (∀ a b, I a → R a b → I b) → opt_star R o o' → from_option I True o → from_option I True o'.
Proof. intros HR. destruct o, o'; cbn; try done. intros Hs Ha. by eapply star_invariant. Qed.

Section Moves.
Context {E : Type} `{!PolicyEvaluator E, !IntentRouter E, !ToolGateway E, !StatePersistence E}.
Context (clock : nat → Z) (uuid : nat → string).
Implicit Types c : Core E.

Record moved c c' : Prop := {
  mv_quota : opt_star quota_step (rt_quota c) (rt_quota c');
  mv_isolation : opt_star iso_exec_step (rt_isolation c) (rt_isolation c')
}.

Lemma moved_same c c' : rt_quota c' = rt_quota c → rt_isolation c' = rt_isolation c → moved c c'.
Proof. intros Hq Hi. split; [rewrite Hq|rewrite Hi]; apply opt_star_refl. Qed.

Lemma opt_star_trans {A} (R : A → A → Prop) o1 o2 o3 :
  opt_star R o1 o2 → opt_star R o2 o3 → opt_star R o1 o3.
Proof. destruct o1, o2, o3; cbn; try done. apply star_trans. Qed.

Lemma moved_trans c1 c2 c3 : moved c1 c2 → moved c2 c3 → moved c1 c3.
Proof. intros [] []. split; by eapply opt_star_trans. Qed.

Lemma check_concurrent_consume now0 now t q :
  check_concurrent (check_and_consume_rate now0 now t q).2 t = check_concurrent q t.
Proof.
  unfold check_concurrent, concurrent_count. rewrite active_set_consume.
  by rewrite (quota_step_config q _ t (qs_rate now0 now t q)).
Qed.

Lemma quota_admit_moved x t c : moved c (spec_quota_admit clock x t c).2.
Proof.
  unfold spec_quota_admit. m_unfold. destruct (rt_quota c) as [q|] eqn:Hq; [|by apply moved_same].
  destruct (truthy t); [|by apply moved_same].
  destruct (check_concurrent q t) eqn:Hc; [|by apply moved_same].
  unfold now_core. cbn -[check_and_consume_rate qm_retry_after].
  pose proof (check_concurrent_consume (clock (rt_ticks c)) (clock (S (rt_ticks c))) t q) as Hcc.
  pose proof (qs_rate (clock (rt_ticks c)) (clock (S (rt_ticks c))) t q) as Hr.
  destruct (check_and_consume_rate _ _ t q) as [granted q1]. cbn [fst snd] in Hcc, Hr.
  assert (∀ q2 c2, star quota_step q1 q2 → rt_quota c2 = Some q2 → rt_isolation c2 = rt_isolation c →
    moved c c2) as Hm.
  { intros q2 c2 Hs H2 Hi. split; [|rewrite Hi; apply opt_star_refl].
    rewrite Hq, H2. by eapply star_step. }
  destruct granted as [[]|]; cbn -[qm_retry_after].
  - eapply Hm; [|done..]. apply star_one, qs_start. congruence.
  - pose proof (qs_retry (clock (S (S (rt_ticks c)))) (clock (S (S (rt_ticks c)))) t q1) as H2.
    destruct (qm_retry_after _ _ t q1) as [[r|e] q2]; cbn in *; (eapply Hm; [by apply star_one|done..]).
  - eapply Hm; [constructor|done..].
Qed.

Lemma release_moved acquired t x c : moved c (_release_quota acquired t x c).2.
Proof.
  unfold _release_quota. m_unfold. destruct (rt_quota c) as [q|] eqn:Hq; [|by apply moved_same].
  destruct (acquired && truthy t); [|by apply moved_same].
  split; [|apply opt_star_refl]. rewrite Hq. apply star_one, qs_end.
Qed.

Lemma isolation_admit_moved ctx c : moved c (isolation_admit ctx c).2.
Proof.
  unfold isolation_admit. m_unfold. destruct (rt_isolation c) as [b|] eqn:Hb; [|by apply moved_same].
  destruct ctx as [k|]; [|by apply moved_same].
  destruct (check_resource_limits b (c_tenant_id k)) as [[]|e] eqn:Hk; [|by apply moved_same].
  split; [apply opt_star_refl|]. rewrite Hb. by apply star_one, ies_start.
Qed.

(** A run of parts that move, moves. *)
Lemma moved_bind {A B} (m : M (Core E) A) (k : A → M (Core E) B) c :
  moved c (m c).2 → (∀ a c1, moved c1 (k a c1).2) → moved c ((a ← m; k a) c).2.
Proof.
  intros Hm Hk. unfold mbind, M_bind. destruct (m c) as [[a|e] c1]; [|done].
  eapply moved_trans; [exact Hm|apply Hk].
Qed.

Lemma begin_moved i c o c' : begin_execution clock uuid i c = (o, c') → moved c c'.
Proof.
  intros Hb. change c' with (o, c').2. rewrite <- Hb. clear.
  assert (∀ x k c1, moved c1 (begin_admitted clock x i k c1).2) as Ha.
  { intros x k c1. apply moved_bind; [apply isolation_admit_moved|]. intros [] c2.
    apply moved_bind; [apply quota_admit_moved|]. intros [r|acq] c3; [by apply moved_same|].
    apply moved_bind; [by apply moved_same|]. intros [] c4; [by apply moved_same|..];
      (apply moved_bind; [apply release_moved|]); intros [] c5; by apply moved_same. }
  repeat (apply moved_bind; [by apply moved_same|]; intros ??).
  repeat case_match; try apply Ha; by apply moved_same.
Qed.

Lemma resume_moved tk c o c' : resume clock tk c = (o, c') → moved c c'.
Proof.
  intros Hb. change c' with (o, c').2. rewrite <- Hb. clear.
  destruct (chain_step_post clock (tk_id tk) (tk_intent tk) (tk_ctx tk) (tk_point tk) c)
    as (r & c1 & Hr & Hp). unfold resume. rewrite (bind_ok _ _ _ _ _ Hr).
  destruct r as [p|res].
  - destruct Hp as [_ [_ _ _ Hi Hq _]]. by apply moved_same.
  - destruct Hp as [_ _ _ (c2 & [_ _ _ Hi Hq _] & ->)].
    eapply moved_trans; [|apply moved_bind; [apply release_moved|intros; by apply moved_same]].
    assert (moved c c2) as Hc by by apply moved_same.
    destruct (er_success res), (rt_isolation c2) as [b|] eqn:Hb, (tk_ctx tk); try done.
    eapply moved_trans; [exact Hc|]. split; [apply opt_star_refl|]. rewrite Hb.
    apply star_one, ies_end.
Qed.
End Moves.

Section Invariant.
Context {E : Type} `{!PolicyEvaluator E, !IntentRouter E, !ToolGateway E, !StatePersistence E}.
Context (clock : nat → Z) (uuid : nat → string).
Implicit Types (c : Core E) (p : Pool (E := E)) (e : execution) (es : list execution).
Local Notation pool_inv := (pool_inv (E := E) uuid).
Local Notation well_begun := (well_begun (E := E) uuid).

(** What the other operations leave alone. *)
Lemma aside_frame c c' : aside clock c c' →
  rt_isolation c' = rt_isolation c ∧ rt_quota c' = rt_quota c ∧ rt_uuids c' = rt_uuids c
  ∧ (rt_state c ≠ RUNNING → rt_state c' ≠ RUNNING).
Proof.
  destruct 1.
  1-2: rewrite ?drain_core, ?stop_core; cbn [w_core]; destruct (rt_state c) eqn:Hs;
    split_and!; try done; cbn; congruence.
  - unfold set_tenant_context. m_unfold. by repeat (case_match; simplify_eq/=).
  - unfold host_agent. m_unfold. by split_and!.
  - unfold restore_from_checkpoint, call_ext. m_unfold.
    by repeat (case_match; simplify_eq/=).
  - done.
Qed.

Lemma well_begun_mono c c' e tk :
  (is_Some (rt_isolation c') ↔ is_Some (rt_isolation c)) → rt_uuids c ≤ rt_uuids c' →
  well_begun c e tk → well_begun c' e tk.
Proof.
  intros Hi Hu [(n & ? & ?) ? Hs]. split; [exists n; split; [lia|done]|done|].
  rewrite Hs. destruct (rt_isolation c'), (rt_isolation c); try done; exfalso.
  - by destruct (proj1 Hi).
  - by destruct (proj2 Hi).
Qed.

Lemma moved_inv c c' : moved c c' →
  from_option quota_inv True (rt_quota c) → from_option within_limits True (rt_isolation c) →
  from_option quota_inv True (rt_quota c') ∧ from_option within_limits True (rt_isolation c').
Proof.
  intros [Hq Hi] ??. split.
  - eapply opt_star_inv; [apply quota_step_inv|done..].
  - eapply opt_star_inv; [apply iso_exec_step_limits|done..].
Qed.

Lemma moved_some c c' : moved c c' → is_Some (rt_isolation c') ↔ is_Some (rt_isolation c).
Proof.
  intros [_ Hi]. destruct (rt_isolation c), (rt_isolation c'); cbn in Hi; try done;
    split; by intros [].
Qed.

(** One execution changes, the others stay. *)
Lemma pool_inv_middle c c' l1 e e' l2 :
  pool_inv (mkPool c (l1 ++ e :: l2)) → moved c c' → rt_uuids c' = rt_uuids c →
  (∀ tk, task_of e' = Some tk → well_begun c' e' tk) →
  ids [e'] = ids [e] ∨ ids [e'] = [] →
  (∀ t, held t [e'] = held t [e] ∧ active_of c' t = active_of c t
     ∨ held t [e'] = [] ∧ active_of c' t = active_of c t ∖ list_to_set (held t [e])) →
  (∀ t, slots_of c' t - charged t e' = slots_of c t - charged t e)%Z →
  pool_inv (mkPool c' (l1 ++ e' :: l2)).
Proof.
  intros [Ht Hn Ha Hs Hq Hl] Hm Hu Hwb Hid Hact Hch. cbn [po_core po_execs] in *.
  change (e :: l2) with ([e] ++ l2) in *. 
  assert (NoDup (ids (l1 ++ [e'] ++ l2))) as Hn'.
  { rewrite !ids_app in *. destruct Hid as [-> | ->]; [done|].
    apply NoDup_app in Hn as (H1 & H2 & (H3 & H4 & H5)%NoDup_app). cbn. apply NoDup_app.
    split_and!; [done| |done]. intros x Hx Hx'. apply (H2 x Hx). apply elem_of_app. by right. }
  destruct (moved_inv c c' Hm Hq Hl) as [Hq' Hl'].
  split; cbn [po_core po_execs]; [|done| | |done|done].
  - intros e0 tk He0 Htk. assert (e0 ∈ l1 ++ [e] ++ l2 ∨ e0 = e') as [He| ->] by set_solver.
    + eapply well_begun_mono; [by apply moved_some|lia|by apply Ht].
    + by apply Hwb.
  - intros t. change (e' :: l2) with ([e'] ++ l2).
    destruct (Hact t) as [[Hh Hc]|[Hh Hc]]; rewrite Hc, Ha, !held_app, Hh; [done|].
    pose proof (held_nodup t _ Hn) as Hd. rewrite !held_app in Hd.
    apply NoDup_app in Hd as (H1 & H2 & (H3 & H4 & H5)%NoDup_app).
    rewrite !list_to_set_app_L. cbn.
    apply set_eq. intros x. rewrite elem_of_difference, !elem_of_union, !elem_of_list_to_set.
    specialize (H2 x). specialize (H4 x). rewrite elem_of_app in H2. set_solver.
  - intros t. specialize (Hs t). specialize (Hch t).
    rewrite charges_app in *. cbn in *. unfold charges in *. lia.
Qed.

Context (uuid_inj : ∀ m n, uuid m = uuid n → m = n).

Lemma fresh_uuid p : pool_inv p → uuid (rt_uuids (po_core p)) ∉ ids (po_execs p).
Proof.
  intros Hp (tk & Heq & (e & He & Htk)%list_elem_of_omap)%list_elem_of_fmap.
  destruct (pi_tasks _ _ Hp e tk He Htk) as [(n & ? & Hn) _ _]. rewrite Hn in Heq.
  apply uuid_inj in Heq. lia.
Qed.

Lemma held_singleton t e :
  held t [e] = match task_of e with
               | Some tk => if decide (tk_acquired tk = true ∧ tenant_of tk = t) then [tk_id tk] else []
               | None => []
               end.
Proof.
  unfold held, tasks. cbn [omap list_omap]. destruct (task_of e); [|done].
  rewrite filter_cons, filter_nil. by case_decide.
Qed.

Lemma submit_inv i c execs o c' :
  begin_execution clock uuid i c = (o, c') → pool_inv (mkPool c execs) →
  pool_inv (mkPool c' (execs ++ [mkExec (slot_taken c) (status_of o)])).
Proof.
  intros Hb Hp. pose proof (fresh_uuid _ Hp) as Hfresh. pose proof (begin_moved _ _ _ _ _ _ Hb) as Hm.
  apply begin_post in Hb as [S1 S2 S3 S4 S5 S6 S7 S8].
  destruct Hp as [Ht Hn Ha Hs Hq Hl]. cbn [po_core po_execs] in *.
  destruct (moved_inv c c' Hm Hq Hl) as [Hq' Hl'].
  assert (∀ t, uuid (rt_uuids c) ∉ active_of c t) as Hf.
  { intros t. rewrite Ha, elem_of_list_to_set. intros ?%held_ids. done. }
  split; cbn [po_core po_execs]; [| | | |done|done].
  - intros e tk [He|He%list_elem_of_singleton]%elem_of_app Htk.
    + eapply well_begun_mono; [done|lia|by apply Ht].
    + subst e. destruct o as [[tk'|]|]; try done. injection Htk as <-.
      destruct (S6 _ eq_refl) as (H1 & H2 & _ & _ & H5 & H6). split; [|done|].
      * exists (rt_uuids c). split; [lia|done].
      * cbn [ex_slot]. rewrite H5, H2.
        destruct (rt_isolation c), (rt_isolation c'); try done; exfalso;
          [by destruct (proj2 S4)|by destruct (proj1 S4)].
  - rewrite ids_app. apply NoDup_app. split_and!; [done| |].
    + intros x Hx. destruct o as [[tk'|]|]; cbn; [|set_solver..].
      destruct (S6 _ eq_refl) as (H1 & _). intros ->%list_elem_of_singleton. by rewrite H1 in Hx.
    + destruct o as [[tk'|]|]; cbn; [apply NoDup_singleton|constructor..].
  - intros t. rewrite (S8 Hf), Ha, held_app, list_to_set_app_L.
    rewrite held_singleton. clear. destruct o as [[tk'|]|]; cbn [status_of task_of ex_status].
    2-3: apply symmetry, (right_id_L ∅ (∪)).
    case_decide; [|apply symmetry, (right_id_L ∅ (∪))].
    cbn. by rewrite (right_id_L ∅ (∪)), (comm_L (∪)).
  - intros t. rewrite S5, Hs, charges_app. f_equal. unfold charges, charged. cbn.
    case_decide; [|done]. destruct o as [[tk'|res]|]; cbn; try done. by rewrite (S7 _ eq_refl).
Qed.

Lemma resume_inv l1 slot tk l2 c o c' :
  resume clock tk c = (o, c') → pool_inv (mkPool c (l1 ++ mkExec slot (Running tk) :: l2)) →
  pool_inv (mkPool c' (l1 ++ mkExec slot (status_of o) :: l2)).
Proof.
  intros Hr Hp. pose proof (resume_moved _ _ _ _ _ Hr) as Hm.
  destruct (pi_tasks _ _ Hp (mkExec slot (Running tk)) tk) as [Hid Hten Hslot];
    [cbn; set_solver|done|]. cbn [po_core ex_slot] in *.
  destruct (resume_post clock tk c) as (r & c1 & Heq & Hpost). rewrite Hr in Heq.
  injection Heq as -> ->.
  eapply pool_inv_middle; [exact Hp|exact Hm|..]; destruct r as [tk'|res]; cbn [status_of].
  - by destruct Hpost as (pt & -> & _ & []).
  - by destruct Hpost.
  - destruct Hpost as (pt & -> & _ & [_ _ _ Hi _ Hu]). intros ? [= <-]. 
    destruct Hid as (n & ? & ?). split; cbn; [exists n; split; [lia|done]|done|by rewrite Hi].
  - done.
  - left. by destruct Hpost as (pt & -> & _ & _).
  - by right.
  - intros t. left. destruct Hpost as (pt & -> & _ & [_ _ _ Hi Hq Hu]). split; [by rewrite !held_singleton|].
    unfold active_of. by rewrite Hq.
  - intros t. destruct Hpost as [_ _ _ _ _ _ _ Hact].
    rewrite Hact, !held_singleton. cbn. right. split; [done|].
    destruct (tk_acquired tk) eqn:Hacq; cbn [andb].
    + rewrite (Hten eq_refl). destruct (decide (tenant_of tk = t)) as [->|].
      * rewrite !decide_True by done. set_solver.
      * rewrite !decide_False by naive_solver. set_solver.
    + rewrite !decide_False by naive_solver. set_solver.
  - intros t. destruct Hpost as (pt & -> & _ & [_ _ _ Hi Hq Hu]). unfold slots_of. by rewrite Hi.
  - intros t. pose proof (pi_slots _ _ Hp t) as Hs. cbn [po_core po_execs] in Hs.
    rewrite charges_app, charges_cons in Hs.
    pose proof (charges_nonneg t l1). pose proof (charges_nonneg t l2).
    unfold slots_of in *. destruct Hpost as [_ _ _ _ _ _ -> _].
    unfold charged in *. cbn [ex_slot ex_status gave_back] in *.
    destruct (rt_isolation c) as [b|]; [destruct (tk_ctx tk) as [k|]|]; subst slot; try done.
    destruct (er_success res); cbn [from_option] in *; [|done]. rewrite execution_count_end.
    case_decide as Hk; simplify_eq; repeat case_decide; simplify_eq; lia.
Qed.

Lemma pool_step_inv a p p' : pool_step clock uuid a p p' → pool_inv p → pool_inv p'.
Proof.
  destruct 1 as [i c execs o c' Hb|c l1 slot tk l2 o c' Hr|c l1 slot tk l2|c execs c' Ha].
  - by eapply submit_inv.
  - by eapply resume_inv.
  - intros Hp. eapply pool_inv_middle; [exact Hp|by apply moved_same|done| | | |done].
    + intros tk' [= <-]. destruct (pi_tasks _ _ Hp (mkExec slot (Running tk)) tk); [cbn; set_solver|done|].
      by split.
    + by left.
    + by left.
  - intros [Ht Hn Hac Hs Hq Hl]. destruct (aside_frame _ _ Ha) as (Hi & Hqq & Hu & _).
    split; cbn in *; try done.
    + intros e tk He Htk. eapply well_begun_mono; [by rewrite Hi|lia|by apply Ht].
    + intros t. rewrite <- Hac. unfold active_of. by rewrite Hqq.
    + intros t. rewrite <- Hs. unfold slots_of. by rewrite Hi.
    + by rewrite Hqq.
    + by rewrite Hi.
Qed.

Lemma scheduled_inv ls p p' : scheduled clock uuid ls p p' → pool_inv p → pool_inv p'.
Proof. induction 1; eauto using pool_step_inv. Qed.
End Invariant.
