(* ===== verification/ConcurrentProps.v ===== *)
(** * Theorems about interleaved executions

    One task run by itself is [execute_intent]; under every interleaving the
    quota and isolation accounting is exact, so the limits hold; a task ends
    after five of its own resumptions whatever runs in between, and a runtime
    that shuts down runs out of work; a cancelled task keeps its slots. *)
From S2P Require Import Prelude PyStr PyDict PyVal ExecState Tenant Isolation Quotas Observability.
From S2P Require Import Abi Runtime RuntimeSpec RuntimeProps Concurrent ConcurrentSpec.

(** ** Properties *)

Section Properties.
Context {E : Type} `{!PolicyEvaluator E, !IntentRouter E, !ToolGateway E, !StatePersistence E}.
Context (clock obs_clock : nat → Z) (uuid : nat → string).
Implicit Types (c : Core E) (p : Pool (E := E)) (es : list execution) (tk : task).

(** A state no execution holds anything in. *)
Definition unused c : Prop := ∀ t, active_of c t = ∅ ∧ slots_of c t = 0%Z.

Lemma pool_inv_unused c : unused c → pool_inv uuid (mkPool c []).
Proof.
  intros Hc. split; cbn [po_core po_execs]; [set_solver|constructor|..].
  - intros t. apply Hc.
  - intros t. apply Hc.
  - destruct (rt_quota c) as [q|] eqn:Hq; cbn; [|done]. intros t. destruct (Hc t) as [Ha _].
    unfold active_of in Ha. rewrite Hq in Ha. cbn in Ha. unfold concurrent_count. rewrite Ha, size_empty. lia.
  - destruct (rt_isolation c) as [b|] eqn:Hb; cbn; [|done]. intros t tm _. destruct (Hc t) as [_ Hs].
    unfold slots_of in Hs. rewrite Hb in Hs. cbn in Hs. rewrite Hs. lia.
Qed.

(** A call that nothing interleaves with is the call of the sequential
    model: beginning the task and resuming it at each await gives the outcome
    of [execute_intent] and leaves the governed state [execute_intent] leaves. *)
Theorem alone_is_execute ob i (w : World E) :
  let '(o, w') := execute_intent clock obs_clock uuid ob i w in
  run_alone clock uuid i (w_core w) = (lifted inr o, w_core w').
Proof.
  pose proof (execute_erases clock obs_clock uuid ob i w) as He. rewrite run_alone_spec.
  destruct (execute_intent _ _ _ _ i w) as [o w']. cbn in He. by rewrite He.
Qed.

(** C8: however starts, resumptions, cancellations and the other operations
    interleave, a tenant's quota holds exactly the executions that were begun
    and have not returned, each once, its isolation count is the slots taken
    less those a success gave back, and neither passes its limit. *)
Theorem interleaved_accounting c ls p t :
  (∀ m n, uuid m = uuid n → m = n) → unused c → scheduled clock uuid ls (mkPool c []) p →
  let es := po_execs p in
  active_of (po_core p) t = list_to_set (held t es) ∧ NoDup (held t es)
  ∧ slots_of (po_core p) t = charges t es
  ∧ (∀ q, rt_quota (po_core p) = Some q →
       Z.of_nat (length (held t es)) ≤ Z.max 0 (max_concurrent (get_config q t)))%Z
  ∧ (∀ b tm, rt_isolation (po_core p) = Some b → dict_get t (iso_tenants b) = Some tm →
       charges t es ≤ Z.max 0 (max_concurrent_executions (t_resource_limits tm)))%Z.
Proof.
  intros Hinj Hc Hs es. eapply scheduled_inv in Hs; [|done|by apply pool_inv_unused].
  destruct Hs as [_ Hn Ha Hsl Hq Hl]. pose proof (held_nodup t _ Hn) as Hnd. split_and!; [done..| |].
  - intros q Heq. rewrite Heq in Hq. specialize (Hq t). specialize (Ha t). unfold active_of in Ha.
    rewrite Heq in Ha. cbn in Ha, Hq. unfold concurrent_count in Hq.
    by rewrite Ha, size_list_to_set in Hq by done.
  - intros b tm Heq Ht. rewrite Heq in Hl. destruct (Hl t tm Ht) as [_ ?].
    rewrite <- Hsl. unfold slots_of. by rewrite Heq.
Qed.

(** The slots of tenant [t] that cancelled executions hold. *)
Definition cancelled_of (e : execution) : option task :=
  match ex_status e with Cancelled tk => Some tk | _ => None end.
Definition leaked (t : string) (es : list execution) : list string :=
  tk_id <$> filter (λ tk, tk_acquired tk = true ∧ tenant_of tk = t) (omap cancelled_of es).

Lemma elem_of_held t es e tk :
  e ∈ es → task_of e = Some tk → tk_acquired tk = true → tenant_of tk = t → tk_id tk ∈ held t es.
Proof.
  intros He Ht Ha Hten. apply list_elem_of_fmap. exists tk. split; [done|].
  apply list_elem_of_filter. split; [done|]. apply list_elem_of_omap. eauto.
Qed.

Lemma leaked_sublist t es : sublist (leaked t es) (held t es).
Proof.
  unfold leaked, held, tasks. apply fmap_sublist. induction es as [|e es IH]; [constructor|].
  cbn [omap list_omap]. unfold cancelled_of, task_of in *.
  destruct (ex_status e); [|done|].
  - rewrite filter_cons. case_decide; [by constructor|done].
  - rewrite !filter_cons. case_decide; [by constructor|done].
Qed.

Lemma cancelled_stays a p p' e tk :
  pool_step clock uuid a p p' → ex_status e = Cancelled tk → e ∈ po_execs p → e ∈ po_execs p'.
Proof.
  intros Hs He. destruct Hs as [i c execs o c' Hb|c l1 slot tk' l2 o c' Hr|c l1 slot tk' l2|c execs c' Ha];
    cbn [po_execs]; intros Hin; [set_solver| | |done];
    (assert (e ≠ mkExec slot (Running tk')) by (by intros ->)); clear -Hin H; set_solver.
Qed.

Lemma scheduled_cancelled ls p p' e tk :
  scheduled clock uuid ls p p' → ex_status e = Cancelled tk → e ∈ po_execs p → e ∈ po_execs p'.
Proof. intros Hs He. induction Hs; eauto using cancelled_stays. Qed.

(** A start the quota refuses begins no task. *)
Lemma refused_begins_nothing i c q k tk c' :
  rt_quota c = Some q → rt_tenant_context c = Some k → truthy (c_tenant_id k) = true →
  check_concurrent q (c_tenant_id k) = false →
  begin_execution clock uuid i c ≠ (Ok (inl tk), c').
Proof.
  intros Hq Hk Ht Hc. unfold begin_execution.
  set (c1 := (new_uuid uuid c).2).
  rewrite (bind_ok _ _ _ _ _ (eq_refl : new_uuid uuid c = (Ok (uuid (rt_uuids c)), c1))),
    (bind_ok _ _ _ _ _ (eq_refl : read rt_tenant_context c1 = (Ok (rt_tenant_context c), c1))),
    (bind_ok _ _ _ _ _ (eq_refl : read rt_isolation c1 = (Ok (rt_isolation c), c1))).
  rewrite Hk. assert (begin_admitted clock (uuid (rt_uuids c)) i (Some k) c1 ≠ (Ok (inl tk), c')) as Hb;
    [|by destruct (rt_isolation c)].
  unfold begin_admitted. destruct (isolation_admit (Some k) c1) as [[[]|e] c2] eqn:Hi;
    [rewrite (bind_ok _ _ _ _ _ Hi)|by rewrite (bind_raise _ _ _ _ _ Hi)].
  assert (rt_quota c2 = Some q) as Hq2.
  { revert Hi. unfold isolation_admit. m_unfold. intros Hi. repeat (case_match; simplify_eq/=; try done). }
  cbn [from_option]. unfold spec_quota_admit. unfold mbind, M_bind, read. rewrite Hq2, Ht, Hc. cbn. done.
Qed.

(** C10: the slot of a cancelled execution is never given back: in every later
    state its tenant's quota still holds it, and once as many executions of a
    tenant were cancelled as its quota allows, no execution of that tenant is
    ever begun again. *)
Theorem cancelled_slot_leaks c ls p ls' p' t :
  (∀ m n, uuid m = uuid n → m = n) → unused c →
  scheduled clock uuid ls (mkPool c []) p → scheduled clock uuid ls' p p' →
  let lost := leaked t (po_execs p) in
  (∀ x, x ∈ lost → x ∈ active_of (po_core p') t)
  ∧ (∀ q k i tk c', rt_quota (po_core p') = Some q →
       (max_concurrent (get_config q t) ≤ Z.of_nat (length lost))%Z →
       rt_tenant_context (po_core p') = Some k → c_tenant_id k = t → truthy t = true →
       begin_execution clock uuid i (po_core p') ≠ (Ok (inl tk), c')).
Proof.
  intros Hinj Hc Hs Hs' lost.
  assert (pool_inv uuid p') as Hp'.
  { eapply scheduled_inv; [done|exact Hs'|]. eapply scheduled_inv; [done|exact Hs|].
    by apply pool_inv_unused. }
  assert (pool_inv uuid p) as Hp by (eapply scheduled_inv; [done|exact Hs|by apply pool_inv_unused]).
  assert (∀ x, x ∈ lost → x ∈ active_of (po_core p') t) as Hlost.
  { intros x (tk & -> & [[Hacq Hten] (e & He & Htk)%list_elem_of_omap]%list_elem_of_filter)%list_elem_of_fmap.
    unfold cancelled_of in Htk. destruct (ex_status e) as [| |tk'] eqn:Hst; try done. injection Htk as ->.
    rewrite (pi_active _ _ Hp'), elem_of_list_to_set.
    apply (elem_of_held t _ e tk); [|by unfold task_of; rewrite Hst|done..].
    by eapply scheduled_cancelled. }
  split; [exact Hlost|]. intros q k i tk c' Hq Hmax Hk <- Ht.
  apply (refused_begins_nothing i _ q k tk c' Hq Hk Ht). unfold check_concurrent. apply Z.ltb_ge.
  etransitivity; [exact Hmax|]. unfold concurrent_count. apply inj_le.
  assert (NoDup lost) as Hnd.
  { eapply sublist_NoDup; [apply (held_nodup (c_tenant_id k)), (pi_nodup _ _ Hp)|apply leaked_sublist]. }
  rewrite <- (size_list_to_set (C := gset string) lost Hnd). apply subseteq_size. intros x.
  rewrite elem_of_list_to_set. intros Hx%Hlost. unfold active_of in Hx. by rewrite Hq in Hx.
Qed.

(** *** How long a pool can go on *)

Local Open Scope nat_scope.

Definition rank_of (e : execution) : nat :=
  match ex_status e with Running tk => point_rank (tk_point tk) | _ => 0 end.
Definition work (es : list execution) : nat := sum_list_with rank_of es.
Definition is_resume (a : label) : bool := match a with Resume _ => true | _ => false end.
Definition resumes (ls : list label) : nat := length (filter (λ a, is_resume a = true) ls).

Lemma rank_pos tk : 0 < point_rank (tk_point tk).
Proof. destruct (tk_point tk); cbn; lia. Qed.

Lemma work_app es es' : work (es ++ es') = work es + work es'.
Proof. apply sum_list_with_app. Qed.
Lemma work_cons e es : work (e :: es) = rank_of e + work es.
Proof. done. Qed.
Lemma rank_running slot tk : rank_of (mkExec slot (Running tk)) = point_rank (tk_point tk).
Proof. done. Qed.

Lemma resume_rank tk c o c' slot :
  resume clock tk c = (o, c') → rank_of (mkExec slot (status_of o)) < point_rank (tk_point tk).
Proof.
  intros Hr. destruct (resume_post clock tk c) as (r & c1 & Heq & Hp). rewrite Hr in Heq.
  injection Heq as -> ->. destruct r as [tk'|res]; cbn; [|apply rank_pos].
  by destruct Hp as (p & -> & ? & _).
Qed.

Lemma resume_state tk c o c' : resume clock tk c = (o, c') → rt_state c' = rt_state c.
Proof.
  intros Hr. destruct (resume_post clock tk c) as (r & c1 & Heq & Hp). rewrite Hr in Heq.
  injection Heq as -> ->. destruct r; [by destruct Hp as (p & _ & _ & [])|by destruct Hp].
Qed.

Lemma drained_step a p p' :
  pool_step clock uuid a p p' → rt_state (po_core p) ≠ RUNNING →
  rt_state (po_core p') ≠ RUNNING
  ∧ (if is_resume a then 1 else 0) + work (po_execs p') ≤ work (po_execs p).
Proof.
  intros Hs Hd. destruct Hs as [i c execs o c' Hb|c l1 slot tk l2 o c' Hr|c l1 slot tk l2|c execs c' Ha];
    cbn [po_core po_execs is_resume] in *.
  - apply begin_post in Hb as [S1 S2 S3 S4 S5 S6 S7 S8]. split; [congruence|].
    rewrite work_app. destruct o as [[tk|]|]; [|cbn; lia..].
    by destruct (S6 _ eq_refl) as (_ & _ & _ & ? & _).
  - split; [by rewrite (resume_state _ _ _ _ Hr)|]. apply resume_rank with (slot := slot) in Hr.
    rewrite !work_app, !work_cons, rank_running. lia.
  - split; [done|]. rewrite !work_app, !work_cons. cbn. lia.
  - split; [by apply (aside_frame _ _ _ Ha)|done].
Qed.

(** Any pool can be run to its end, by resuming what is left. *)
Lemma pool_finishes n p :
  work (po_execs p) ≤ n →
  ∃ ls p', scheduled clock uuid ls p p' ∧ length ls ≤ n ∧ work (po_execs p') = 0.
Proof.
  revert p. induction n as [|n IH]; intros [c es] Hn; cbn [po_execs] in *.
  - exists [], (mkPool c es). split_and!; [constructor|done|cbn [po_execs]; lia].
  - destruct (decide (work es = 0)) as [?|Hw];
      [exists [], (mkPool c es); split_and!; [constructor|cbn [length]; lia|done]|].
    assert (∃ l1 slot tk l2, es = l1 ++ mkExec slot (Running tk) :: l2) as (l1 & slot & tk & l2 & ->).
    { clear -Hw. induction es as [|[slot s] es IH]; [done|].
      destruct s as [tk| |]; [exists [], slot, tk, es; done|..];
        (destruct IH as (l1 & slot' & tk' & l2 & ->); [done|]).
      - eexists (_ :: l1), _, _, _. done.
      - eexists (_ :: l1), _, _, _. done. }
    destruct (resume clock tk c) as [o c'] eqn:Hr.
    destruct (IH (mkPool c' (l1 ++ mkExec slot (status_of o) :: l2))) as (ls & p' & Hs & Hl & Hp').
    { apply resume_rank with (slot := slot) in Hr. cbn [po_execs].
      rewrite !work_app, !work_cons, rank_running in *. lia. }
    exists (Resume (tk_id tk) :: ls), p'. split_and!; [econstructor; [by constructor|done]|cbn; lia|done].
Qed.

(** C11: once the runtime drains or stops, only what was begun before goes on: it
    never runs again, each resumption uses up one of at most five awaits of each
    begun task, so at most [work] more can follow, whatever is submitted; and
    that many are enough to finish every task. *)
Theorem drained_pool_finishes p :
  rt_state (po_core p) ≠ RUNNING →
  (∀ ls p', scheduled clock uuid ls p p' →
     rt_state (po_core p') ≠ RUNNING ∧ resumes ls + work (po_execs p') ≤ work (po_execs p))
  ∧ ∃ ls p', scheduled clock uuid ls p p' ∧ length ls ≤ work (po_execs p)
     ∧ ∀ e, e ∈ po_execs p' → ∀ tk, ex_status e ≠ Running tk.
Proof.
  intros Hd. split.
  - intros ls p' Hs. induction Hs as [p|a ls p q r Ha Hs IH]; [done|].
    destruct (drained_step a p q Ha Hd) as [Hq Hw]. destruct (IH Hq) as [Hr Hw']. split; [done|].
    unfold resumes in *. rewrite filter_cons. destruct (is_resume a);
      [rewrite decide_True by done; cbn [length]|rewrite decide_False by done]; lia.
  - destruct (pool_finishes (work (po_execs p)) p) as (ls & p' & Hs & Hl & Hw); [done|].
    exists ls, p'. split_and!; [done..|]. intros e (l1 & l2 & Heq)%list_elem_of_split tk He.
    rewrite Heq, work_app, work_cons in Hw. unfold rank_of in Hw. rewrite He in Hw.
    pose proof (rank_pos tk). lia.
Qed.

(** *** One task among others *)

(** The turns of a task, each in whatever state the others left. *)
Fixpoint own_turns (cs : list (Core E)) (tk : task) : task + ExecutionResult :=
  match cs with
  | [] => inl tk
  | c :: cs =>
      match (resume clock tk c).1 with
      | Ok (inl tk) => own_turns cs tk
      | Ok (inr res) => inr res
      | Raise _ => inl tk
      end
  end.

(** A turn that does not end the task. *)
Lemma turn_on tk c :
  ∃ r c', resume clock tk c = (Ok r, c')
    ∧ match r with
      | inr _ => True
      | inl tk' =>
          match tk_point tk with
          | AtPolicy => tk' = at_point AtCapability tk
              ∧ ∃ reason, (evaluate_intent (tk_intent tk) (rt_ext c)).1 = Ok (true, reason)
          | AtCapability => tk' = at_point AtRoute tk
              ∧ ∃ reason, (check_capability (in_action (tk_intent tk)) (in_agent_id (tk_intent tk))
                             (rt_ext c)).1 = Ok (true, reason)
          | AtRoute => ∃ path, tk' = at_point (AtAccess path) tk
              ∧ (route_intent (tk_intent tk) (rt_ext c)).1 = Ok path
          | AtAccess _ => ∃ r now, tk' = at_point (AtSave r now) tk
          | AtSave _ _ => False
          end
      end.
Proof.
  destruct (resume_post clock tk c) as (r & c' & Hr & _). exists r, c'. split; [done|].
  destruct r as [tk'|]; [|done]. revert Hr. unfold resume.
  destruct (chain_step_post clock (tk_id tk) (tk_intent tk) (tk_ctx tk) (tk_point tk) c)
    as (r & c1 & Hc & _). rewrite (bind_ok _ _ _ _ _ Hc).
  destruct r as [p|res]; [|destruct (release_post (tk_acquired tk) (tenant_of tk) (tk_id tk) c1)
    as (c2 & Hrel & _); by rewrite (bind_ok _ _ _ _ _ Hrel)].
  intros [= <- <-]. revert Hc.
  destruct (tk_point tk) as [| |n|path|rr now]; unfold chain_step, awaited, call_ext; m_unfold.
  - destruct (evaluate_intent _ _) as [[[[] reason]|e] e1]; cbn; intros [= <- <-]; eauto.
  - destruct (check_capability _ _ _) as [[[[] reason]|e] e1]; cbn; intros [= <- <-]; eauto.
  - destruct (route_intent _ _) as [[path|e] e1]; cbn; intros [= <- <-]; eauto.
  - destruct (access_tool _ _ _) as [[r|e] e1]; cbn; [destruct (tl_success r)|]; intros [= <- <-]; eauto.
  - destruct (save _ _ _) as [[cid|e] e1]; cbn; [destruct (rt_isolation c), (tk_ctx tk)|]; intros [=].
Qed.

(** Past the gateway a task does not come back to it. *)
Lemma past_access cs tk tk' path :
  (∃ r now, tk_point tk = AtSave r now) → own_turns cs tk = inl tk' → tk_point tk' ≠ AtAccess path.
Proof.
  intros (r & now & Hp). destruct cs as [|c cs]; cbn [own_turns]; [intros [= <-]; congruence|].
  destruct (turn_on tk c) as (r' & c' & -> & Hr). rewrite Hp in Hr. by destruct r'.
Qed.

(** C9: a task needs nobody else: whatever the others do to the governed state
    between its turns, it ends within five turns of its own, with a terminal
    result for its own execution; and when it stands before the tool gateway, it
    has had exactly three turns, in which the policy allowed the intent, then
    the capability check allowed the action, then the router gave the path. *)
Theorem task_turns cs tk :
  (point_rank (tk_point tk) ≤ length cs →
     ∃ res, own_turns cs tk = inr res ∧ er_execution_id res = tk_id tk
       ∧ is_terminal (er_state res) = true ∧ (er_success res = true ↔ er_state res = COMPLETED))
  ∧ (tk_point tk = AtPolicy → ∀ tk' path, own_turns cs tk = inl tk' → tk_point tk' = AtAccess path →
       ∃ c1 c2 c3 reason reason', cs = [c1; c2; c3]
         ∧ (evaluate_intent (tk_intent tk) (rt_ext c1)).1 = Ok (true, reason)
         ∧ (check_capability (in_action (tk_intent tk)) (in_agent_id (tk_intent tk)) (rt_ext c2)).1
           = Ok (true, reason')
         ∧ (route_intent (tk_intent tk) (rt_ext c3)).1 = Ok path).
Proof.
  split.
  - revert tk. induction cs as [|c cs IH]; intros tk Hn; cbn [own_turns length] in *;
      [pose proof (rank_pos tk); lia|].
    destruct (resume_post clock tk c) as (r & c' & -> & Hr). cbn [fst]. destruct r as [tk'|res].
    + destruct Hr as (p & -> & Hlt & _).
      destruct (IH (at_point p tk)) as (res & H); [cbn; lia|]. by exists res.
    + exists res. by destruct Hr.
  - intros Hp tk' path. destruct cs as [|c1 cs]; cbn [own_turns]; [intros [= <-]; congruence|].
    destruct (turn_on tk c1) as (r & c1' & -> & Hr). rewrite Hp in Hr. cbn [fst] in *.
    destruct r; [|done]. destruct Hr as (-> & reason & H1).
    destruct cs as [|c2 cs]; cbn [own_turns]; [by intros [= <-]|].
    destruct (turn_on (at_point AtCapability tk) c2) as (r & c2' & -> & Hr). cbn in *.
    destruct r; [|done]. destruct Hr as (-> & reason' & H2).
    destruct cs as [|c3 cs]; cbn [own_turns]; [by intros [= <-]|].
    destruct (turn_on (at_point AtRoute (at_point AtCapability tk)) c3) as (r & c3' & -> & Hr). cbn in *.
    destruct r; [|done]. destruct Hr as (path' & -> & H3).
    destruct cs as [|c4 cs]; cbn [own_turns].
    + intros [= <-] [= <-]. by exists c1, c2, c3, reason, reason'.
    + destruct (turn_on (at_point (AtAccess path') (at_point AtRoute (at_point AtCapability tk))) c4)
        as (r & c4' & -> & Hr). cbn in *. destruct r; [|done]. destruct Hr as (r & now & ->).
      intros Hown Hat. exfalso. eapply past_access; [|exact Hown|exact Hat]. by exists r, now.
Qed.

(** *** Executing a schedule *)

Lemma find_running_spec x es l1 slot tk l2 :
  find_running x es = Some (l1, slot, tk, l2) →
  tk_id tk = x ∧ es = l1 ++ mkExec slot (Running tk) :: l2.
Proof.
  revert l1. induction es as [|[s st] es IH]; intros l1; cbn; [done|].
  destruct st as [tk'| |]; [case_bool_decide; [by intros [= <- <- <- <-]|]|..];
    (destruct (find_running x es) as [[[[m1 sl] t] m2]|]; cbn; [|done]);
    intros [= <- <- <- <-]; by destruct (IH m1 eq_refl) as [? ->].
Qed.

Lemma drive_step a p p' : drive clock uuid a p = Some p' → pool_step clock uuid a p p'.
Proof.
  destruct p as [c es], a as [i|x|x|]; cbn.
  - destruct (begin_execution clock uuid i c) as [o c'] eqn:Hb. intros [= <-]. by constructor.
  - destruct (find_running x es) as [[[[l1 slot] tk] l2]|] eqn:Hf; cbn; [|done].
    apply find_running_spec in Hf as [<- ->].
    destruct (resume clock tk c) as [o c'] eqn:Hr. intros [= <-]. by constructor.
  - destruct (find_running x es) as [[[[l1 slot] tk] l2]|] eqn:Hf; cbn; [|done].
    apply find_running_spec in Hf as [<- ->]. intros [= <-]. constructor.
  - done.
Qed.

Lemma drive_all_scheduled ls p p' : drive_all clock uuid ls p = Some p' → scheduled clock uuid ls p p'.
Proof.
  revert p. induction ls as [|a ls IH]; intros p; cbn; [intros [= ->]; constructor|].
  destruct (drive clock uuid a p) as [q|] eqn:Hd; cbn; [|done].
  intros Hq. econstructor; [by apply drive_step|by apply IH].
Qed.
End Properties.

(** ** A concrete pool

    One tenant whose quota allows two executions at a time. *)

Definition demo_core (state : RuntimeState) : Core unit :=
  mkCore state [] (Some demo_context) (Some iso_demo)
    (Some (configure "t1" (mkQuotaConfig 2 60 10)
             (QuotaManager_new (TokenBucketRateLimiter_new 10 1)))) tt 0 0.
Definition demo_drive : list label → Pool → option (Pool (E := unit)) :=
  @drive_all unit (demo_policy true) demo_router demo_gateway demo_store demo_clock demo_uuid.
Definition demo_pool (ls : list label) (p : Pool (E := unit)) : Pool := default p (demo_drive ls p).
Definition demo_start : Pool (E := unit) := mkPool (demo_core RUNNING) [].

(** Two tasks take turns; the second is cancelled before the first returns. *)
Definition demo_turns : list label :=
  [Submit demo_intent; Submit demo_intent; Resume "exec-0"; Resume "exec-1"; Resume "exec-0";
   Cancel "exec-1"; Resume "exec-0"; Resume "exec-0"; Resume "exec-0"].

Lemma demo_unused state : unused (demo_core state).
Proof. intros t. split; reflexivity. Qed.

Lemma demo_scheduled ls p : is_Some (demo_drive ls p) →
  @scheduled unit (demo_policy true) demo_router demo_gateway demo_store demo_clock demo_uuid
    ls p (demo_pool ls p).
Proof.
  intros [p' Hp]. apply drive_all_scheduled. unfold demo_pool. by rewrite Hp.
Qed.

Definition demo_mid : Pool := demo_pool demo_turns demo_start.

Example demo_mid_statuses :
  (λ e, match ex_status e with
        | Returned (Ok r) => (er_execution_id r, er_success r)
        | Returned (Raise _) => ("raised", false)
        | Running tk => (tk_id tk, true)
        | Cancelled tk => (tk_id tk, false)
        end) <$> po_execs demo_mid = [("exec-0", true); ("exec-1", false)].
Proof. vm_compute. reflexivity. Qed.

Lemma interleaved_accounting_witness :
  held "t1" (po_execs demo_mid) = ["exec-1"]
  ∧ active_of (po_core demo_mid) "t1" = list_to_set (held "t1" (po_execs demo_mid)).
Proof.
  split; [vm_compute; reflexivity|].
  refine (proj1 (@interleaved_accounting unit (demo_policy true) demo_router demo_gateway demo_store
    demo_clock demo_uuid (demo_core RUNNING) demo_turns demo_mid "t1" demo_uuid_inj
    (demo_unused RUNNING) (demo_scheduled demo_turns demo_start _))).
  vm_compute. by eexists.
Defined.

(** The tenant's second slot goes the same way; its quota is used up for good. *)
Definition demo_cancels : list label :=
  demo_turns ++ [Submit demo_intent; Resume "exec-2"; Cancel "exec-2"].
Definition demo_locked : Pool := demo_pool demo_cancels demo_start.

Lemma cancelled_slot_leaks_witness :
  leaked "t1" (po_execs demo_locked) = ["exec-1"; "exec-2"]
  ∧ ∀ tk c', @begin_execution unit demo_clock demo_uuid demo_intent (po_core demo_locked)
             ≠ (Ok (inl tk), c').
Proof.
  split; [vm_compute; reflexivity|]. intros tk c'.
  refine (proj2 (@cancelled_slot_leaks unit (demo_policy true) demo_router demo_gateway demo_store
    demo_clock demo_uuid (demo_core RUNNING) demo_cancels demo_locked [] demo_locked "t1"
    demo_uuid_inj (demo_unused RUNNING) (demo_scheduled demo_cancels demo_start _) (sch_nil _ _ _))
    _ _ _ tk c' _ _ _ _ _).
  - vm_compute. by eexists.
  - vm_compute. reflexivity.
  - vm_compute. discriminate.
  - vm_compute. reflexivity.
  - vm_compute. reflexivity.
  - vm_compute. reflexivity.
Defined.

(** A runtime stopped with two tasks in flight. *)
Definition demo_flight : Pool :=
  demo_pool [Submit demo_intent; Submit demo_intent; Resume "exec-0"] demo_start.
Definition demo_stopping : Pool := mkPool (put_state STOPPED (po_core demo_flight)) (po_execs demo_flight).

Lemma drained_pool_finishes_witness :
  work (po_execs demo_stopping) = 9%nat
  ∧ ∃ ls p', @scheduled unit (demo_policy true) demo_router demo_gateway demo_store demo_clock demo_uuid
      ls demo_stopping p' ∧ (length ls ≤ 9)%nat
      ∧ ∀ e, e ∈ po_execs p' → ∀ tk, ex_status e ≠ Running tk.
Proof.
  split; [vm_compute; reflexivity|].
  refine (proj2 (@drained_pool_finishes unit (demo_policy true) demo_router demo_gateway demo_store
    demo_clock demo_uuid demo_stopping _)).
  vm_compute. discriminate.
Defined.

Definition demo_task : task := mkTask "exec-0" demo_intent (Some demo_context) true AtPolicy.
Lemma task_turns_witness :
  ∃ res, @own_turns unit (demo_policy true) demo_router demo_gateway demo_store demo_clock
      (replicate 5 (demo_core STOPPED)) demo_task = inr res
    ∧ er_execution_id res = "exec-0".
Proof.
  destruct (proj1 (@task_turns unit (demo_policy true) demo_router demo_gateway demo_store demo_clock
    (replicate 5 (demo_core STOPPED)) demo_task) (le_n 5)) as (res & Hr & Hid & _).
  exact (ex_intro _ res (conj Hr Hid)).
Defined.
