(* ===== verification/ToolRegistry.v ===== *)
(** * Tool registry ([kernel/resources/tool_registry.py])

    Registered tools, lookup and capability validation, and [match_pattern],
    whose regular expression is the escaped pattern with every [.*] turned into
    a dot followed by anything. *)
From S2P Require Import Prelude PyStr PyDict PyVal Tenant.

Record ToolDefinition := mkTool {
  td_tool_id : string;
  td_mcp_server : string;
  td_description : string;
  td_input_schema : dict pyval;
  td_output_schema : dict pyval;
  td_required_capabilities : gset string;
  td_tags : gset string;
  td_metadata : dict pyval
}.

Definition ToolDefinition_validate (t : ToolDefinition) : list string :=
  check (truthy (td_tool_id t)) "tool_id is required"
  ++ check (truthy (td_mcp_server t)) "mcp_server is required".

Definition ToolDefinition_is_valid (t : ToolDefinition) : bool :=
  (length (ToolDefinition_validate t) =? 0)%nat.

Definition ToolDefinition_to_dict (t : ToolDefinition) : dict pyval :=
  [ ("tool_id", VStr (td_tool_id t));
    ("mcp_server", VStr (td_mcp_server t));
    ("description", VStr (td_description t));
    ("input_schema", VDict (td_input_schema t));
    ("output_schema", VDict (td_output_schema t));
    ("required_capabilities", VList (map VStr (sorted_set (td_required_capabilities t))));
    ("tags", VList (map VStr (sorted_set (td_tags t))));
    ("metadata", VDict (td_metadata t)) ].

Definition list_repr (l : list string) : string :=
  "[" +:+ str_join ", " (map str_repr l) +:+ "]".

Definition ToolNotFoundError (tool_id : string) : exn :=
  mkExn "ToolNotFoundError" ("Tool not found: " +:+ tool_id).
Definition ToolAlreadyRegisteredError (tool_id : string) : exn :=
  mkExn "ToolAlreadyRegisteredError" ("Tool already registered: " +:+ tool_id).
Definition ToolCapabilityMismatchError (tool_id : string) (required provided : gset string)
    : exn :=
  mkExn "ToolCapabilityMismatchError"
    ("Tool '" +:+ tool_id +:+ "' requires capabilities " +:+ list_repr (sorted_set required)
     +:+ ", agent has " +:+ list_repr (sorted_set provided)).

Definition ToolRegistry : Type := dict ToolDefinition.

Definition ToolRegistry_new : ToolRegistry := [].

Definition tool_register (tool : ToolDefinition) : M ToolRegistry unit := λ r,
  if negb (ToolDefinition_is_valid tool) then
    (Raise (mkExn "ValueError"
       ("Invalid tool definition: " +:+ list_repr (ToolDefinition_validate tool))), r)
  else if dict_mem (td_tool_id tool) r then
    (Raise (ToolAlreadyRegisteredError (td_tool_id tool)), r)
  else (Ok tt, dict_set (td_tool_id tool) tool r).

Definition tool_unregister (tool_id : string) : M ToolRegistry unit := λ r,
  if negb (dict_mem tool_id r) then (Raise (ToolNotFoundError tool_id), r)
  else (Ok tt, dict_del tool_id r).

Definition tool_get (r : ToolRegistry) (tool_id : string) : option ToolDefinition :=
  dict_get tool_id r.

Definition is_registered (r : ToolRegistry) (tool_id : string) : bool := dict_mem tool_id r.

(** ** Patterns *)

(** A token of the regular expression: an escaped character, or [.*]. *)
Inductive re_token := TLit (c : Ascii.ascii) | TAnyStar.

Definition newline : Ascii.ascii := Ascii.ascii_of_nat 10.
Definition dot : Ascii.ascii := Ascii.ascii_of_nat 46.
Definition star_char : Ascii.ascii := Ascii.ascii_of_nat 42.

(** [re.escape(pattern)] with every escaped dot-star turned into a literal dot
    and [.*]. *)
Fixpoint pattern_tokens (p : string) : list re_token :=
  match p with
  | ε => []
  | String c p' =>
      match p' with
      | String d p'' =>
          if decide (c = dot ∧ d = star_char) then TLit dot :: TAnyStar :: pattern_tokens p''
          else TLit c :: pattern_tokens p'
      | ε => [TLit c]
      end
  end.

(** [re.match] of [^tokens$]: a dot does not match a newline, and [$] also
    matches before a final newline. *)
Fixpoint re_match (ts : list re_token) (s : string) : bool :=
  match ts with
  | [] => bool_decide (s = ε ∨ s = String newline ε)
  | TLit c :: ts' =>
      match s with
      | String d s' => bool_decide (c = d) && re_match ts' s'
      | ε => false
      end
  | TAnyStar :: ts' =>
      (fix go (s : string) : bool :=
         re_match ts' s ||
         match s with
         | String d s' => bool_decide (d ≠ newline) && go s'
         | ε => false
         end) s
  end.

Definition match_pattern (r : ToolRegistry) (pattern : string) : list ToolDefinition :=
  filter (λ t, re_match (pattern_tokens pattern) (td_tool_id t) = true) (dict_values r).

Definition list_tools (r : ToolRegistry) : list ToolDefinition := dict_values r.

(** ** Access validation *)

Definition validate_access (r : ToolRegistry) (tool_id : string)
    (agent_capabilities : option (gset string)) : outcome ToolDefinition :=
  match dict_get tool_id r with
  | None => Raise (ToolNotFoundError tool_id)
  | Some tool =>
      match agent_capabilities with
      | Some caps =>
          if decide (td_required_capabilities tool = ∅) then Ok tool
          else if decide (td_required_capabilities tool ⊆ caps) then Ok tool
          else Raise (ToolCapabilityMismatchError tool_id (td_required_capabilities tool) caps)
      | None => Ok tool
      end
  end.

Definition tool_count (r : ToolRegistry) : nat := length r.

Definition ToolRegistry_to_dict (r : ToolRegistry) : dict pyval :=
  [ ("tool_count", VInt (Z.of_nat (tool_count r)));
    ("tools", VDict (map (λ '(tid, t), (tid, VDict (ToolDefinition_to_dict t))) r)) ].

(** ** Invariant *)

Inductive tool_step : ToolRegistry → ToolRegistry → Prop :=
| ts_register t r o r' : tool_register t r = (o, r') → tool_step r r'
| ts_unregister i r o r' : tool_unregister i r = (o, r') → tool_step r r'.

(** Tools are stored once, under their own identifier, and are valid. *)
Definition tool_inv (r : ToolRegistry) : Prop :=
  dict_wf r ∧ ∀ i t, dict_get i r = Some t → td_tool_id t = i ∧ ToolDefinition_is_valid t = true.

Lemma tool_step_inv r r' : tool_inv r → tool_step r r' → tool_inv r'.
Proof.
  intros [Hwf Hids] Hs. destruct Hs as [t r o r' H|i r o r' H]; revert H.
  - unfold tool_register. destruct (ToolDefinition_is_valid t) eqn:Hv; simpl; [|by intros [= <- <-]].
    case_match; intros [= <- <-]; [done|]. split; [by apply dict_wf_set|].
    intros i t'. rewrite dict_get_set. case_decide; [by intros [= <-]|apply Hids].
  - unfold tool_unregister. case_match; intros [= <- <-]; [done|].
    split; [by apply dict_wf_del|]. intros j t'. rewrite dict_get_del.
    case_decide; [done|apply Hids].
Qed.

Lemma tool_inv_star r : star tool_step ToolRegistry_new r → tool_inv r.
Proof.
  apply star_invariant; [intros; by eapply tool_step_inv|]. split; [apply dict_wf_nil|done].
Qed.

(** ** Lemmas on patterns *)

(** [s] ends where [$] matches. *)
Definition at_end (s : string) : Prop := s = ε ∨ s = String newline ε.

Fixpoint no_newline (s : string) : bool :=
  match s with ε => true | String c s' => bool_decide (c ≠ newline) && no_newline s' end.

Fixpoint star_free (s : string) : bool :=
  match s with ε => true | String c s' => bool_decide (c ≠ star_char) && star_free s' end.

Lemma re_match_star ts s :
  re_match (TAnyStar :: ts) s = true ↔
  ∃ a b, s = a +:+ b ∧ no_newline a = true ∧ re_match ts b = true.
Proof.
  induction s as [|c s IH].
  - simpl. rewrite orb_false_r. split.
    + intros H. by exists ε, ε.
    + intros (a & b & Hab & _ & Hb). by destruct a; simpl in *; subst.
  - change (re_match (TAnyStar :: ts) (String c s))
      with (re_match ts (String c s) || (bool_decide (c ≠ newline) && re_match (TAnyStar :: ts) s)).
    rewrite orb_true_iff, andb_true_iff, IH, bool_decide_eq_true. split.
    + intros [H|(Hc & a & b & -> & Ha & Hb)]; [by exists ε, (String c s)|].
      exists (String c a), b. cbn [no_newline String.append].
      rewrite bool_decide_eq_true_2 by done. by rewrite Ha.
    + intros (a & b & Hab & Ha & Hb). destruct a as [|d a]; simpl in *; [left; by subst|].
      injection Hab as -> ->. apply andb_true_iff in Ha as [Hd%bool_decide_eq_true Ha].
      right. split; [done|]. by exists a, b.
Qed.

Lemma pattern_tokens_app p q :
  star_free p = true → (∀ d q', q = String d q' → d ≠ star_char) →
  pattern_tokens (p +:+ q) = map TLit (String.list_ascii_of_string p) ++ pattern_tokens q.
Proof.
  intros Hp Hq. induction p as [|c p IH]; [done|].
  simpl in Hp. apply andb_true_iff in Hp as [_ Hp].
  specialize (IH Hp). change (String c p +:+ q) with (String c (p +:+ q)).
  cbn [String.list_ascii_of_string map app]. rewrite <- IH.
  destruct p as [|d p]; simpl.
  - destruct q as [|d q]; [done|]. rewrite decide_False; [done|].
    intros [_ ->]. by eapply Hq.
  - simpl in Hp. apply andb_true_iff in Hp as [Hd%bool_decide_eq_true _].
    rewrite decide_False; [done|]. by intros [_ ?].
Qed.

Lemma re_match_lits p ts s :
  re_match (map TLit (String.list_ascii_of_string p) ++ ts) s = true ↔
  ∃ rest, s = p +:+ rest ∧ re_match ts rest = true.
Proof.
  revert s. induction p as [|c p IH]; intros s; simpl; [naive_solver|].
  destruct s as [|d s]; [split; [done|by intros (? & ? & _)]|].
  rewrite andb_true_iff, bool_decide_eq_true, IH. split.
  - intros (-> & rest & -> & H). eauto.
  - intros (rest & [= -> ->] & H). eauto.
Qed.

(** ** Properties *)

(** What a pattern matches: one without a star matches exactly the
    identifier it spells, and [p.*] exactly the identifiers that continue
    [p] with a dot, at any depth; [$] also lets a final newline through. *)
Theorem pattern_meaning (p s : string) :
  star_free p = true →
  (re_match (pattern_tokens p) s = true ↔ s = p ∨ s = p +:+ String newline ε)
  ∧ (re_match (pattern_tokens (p +:+ ".*")) s = true ↔
     ∃ a b, s = p +:+ "." +:+ a +:+ b ∧ no_newline a = true ∧ at_end b).
Proof.
  intros Hp. split.
  - rewrite <- (str_app_nil_r p) at 1. rewrite pattern_tokens_app by done.
    rewrite re_match_lits. simpl. split.
    + intros (rest & -> & [->| ->]%bool_decide_eq_true); rewrite ?str_app_nil_r; auto.
    + intros [->| ->]; [exists ε|by eexists]. by rewrite str_app_nil_r.
  - rewrite pattern_tokens_app; [|done|by intros d q' [= <- <-]].
    rewrite re_match_lits.
    change (pattern_tokens ".*") with (TLit dot :: [TAnyStar]). split.
    + intros (rest & -> & Hr). destruct rest as [|d rest]; [done|].
      cbn [re_match] in Hr. apply andb_true_iff in Hr as [<-%bool_decide_eq_true Hr].
      apply (re_match_star []) in Hr as (a & b & -> & Ha & Hb%bool_decide_eq_true).
      by exists a, b.
    + intros (a & b & -> & Ha & Hb). eexists. split; [reflexivity|].
      change ("." +:+ a +:+ b) with (String dot (a +:+ b)). cbn [re_match].
      rewrite bool_decide_eq_true_2 by done. apply (re_match_star []).
      exists a, b. split_and!; [done|done|]. by apply bool_decide_eq_true.
Qed.

Lemma pattern_meaning_witness :
  re_match (pattern_tokens "mcp.database.*") "mcp.database.query.rows" = true
  ∧ (re_match (pattern_tokens "mcp.database") "mcp.database" = true ↔
     "mcp.database" = "mcp.database" ∨ "mcp.database" = "mcp.database" +:+ String newline ε).
Proof.
  split; [vm_compute; reflexivity|].
  apply (pattern_meaning "mcp.database" "mcp.database"). vm_compute; reflexivity.
Defined.

(** Registered tools can be found: in every registry that operations build,
    a tool is stored once and under its own identifier, access validation
    accepts it exactly when the agent has its required capabilities, and an
    unknown identifier is refused. *)
Theorem validate_access_exact (r : ToolRegistry) (i : string) (caps : gset string) :
  star tool_step ToolRegistry_new r →
  (∀ t, validate_access r i (Some caps) = Ok t ↔
     t ∈ list_tools r ∧ td_tool_id t = i ∧ td_required_capabilities t ⊆ caps)
  ∧ (is_registered r i = false →
     validate_access r i (Some caps) = Raise (ToolNotFoundError i)).
Proof.
  intros [Hwf Hids]%tool_inv_star. split.
  - intros t. unfold validate_access, list_tools, dict_values.
    assert (t ∈ r.*2 ∧ td_tool_id t = i ↔ dict_get i r = Some t) as Hiff.
    { rewrite list_elem_of_fmap. split.
      - intros [([k t'] & -> & Hin) <-]. simpl in *. apply dict_elem_get in Hin; [|done].
        by destruct (Hids _ _ Hin) as [-> _].
      - intros Hi. split; [exists (i, t); split; [done|by apply dict_get_elem]|].
        by apply Hids in Hi as [-> _]. }
    rewrite (assoc (∧)), Hiff. destruct (dict_get i r) as [t'|]; [|naive_solver].
    repeat case_decide; naive_solver set_solver.
  - intros Hn%dict_mem_false. unfold validate_access. by rewrite Hn.
Qed.

Lemma validate_access_exact_witness :
  let t := mkTool "db.query" "db" ε [] [] {["db.read"]} ∅ [] in
  let r := snd (tool_register t ToolRegistry_new) in
  validate_access r "db.query" (Some {["db.read"]}) = Ok t
  ∧ (is_registered r "db.drop" = false →
     validate_access r "db.drop" (Some {["db.read"]}) = Raise (ToolNotFoundError "db.drop")).
Proof.
  split; [vm_compute; reflexivity|].
  apply (validate_access_exact _ "db.drop" {["db.read"]}).
  eapply star_one, (ts_register (mkTool "db.query" "db" ε [] [] {["db.read"]} ∅ []) _ (Ok tt)).
  vm_compute; reflexivity.
Defined.
