(* ===== verification/Gateway.v ===== *)
(** * MCP gateway ([kernel/gateway.py])

    The concrete [ToolGateway] of the runtime: registry lookup, client
    resolution, the call, and one audit record per access. An MCP client is an
    object with a [call_tool] method over an external state [E]; the gateway's
    state holds the registry, the clients, the audit log and the event log it
    may have been given. *)
From S2P Require Import Prelude PyStr PyDict PyVal ExecState Events Observability Abi ToolRegistry.
From Stdlib Require Import QArith.

Record MCPClient (E : Type) := mkClient {
  call_tool : string → dict pyval → M E (dict pyval)
}.
Arguments mkClient {_} _.
Arguments call_tool {_} _ _ _.

Record GatewayAuditEntry := mkAudit {
  ga_timestamp : Z;
  ga_tool_id : string;
  ga_mcp_server : string;
  ga_agent_id : string;
  ga_success : bool;
  ga_error : option string;
  ga_duration_ms : Q
}.

Definition GatewayAuditEntry_to_dict (e : GatewayAuditEntry) : dict pyval :=
  [ ("timestamp", VStr (isoformat (ga_timestamp e)));
    ("tool_id", VStr (ga_tool_id e));
    ("mcp_server", VStr (ga_mcp_server e));
    ("agent_id", VStr (ga_agent_id e));
    ("success", VBool (ga_success e));
    ("error", VOptStr (ga_error e));
    ("duration_ms", VFloat (ga_duration_ms e)) ].

Record MCPToolGateway (E : Type) := mkGateway {
  gw_registry : ToolRegistry;
  gw_clients : dict (MCPClient E);
  gw_audit_log : list GatewayAuditEntry;
  gw_event_log : option EventLog;
  gw_logger : option RuntimeLogger;
  gw_metrics : option MetricsRegistry;
  gw_sink : list LogRecord;
  gw_ticks : nat;
  gw_ext : E
}.
Arguments mkGateway {_} _ _ _ _ _ _ _ _ _.
Arguments gw_registry {_} _.
Arguments gw_clients {_} _.
Arguments gw_audit_log {_} _.
Arguments gw_event_log {_} _.
Arguments gw_logger {_} _.
Arguments gw_metrics {_} _.
Arguments gw_sink {_} _.
Arguments gw_ticks {_} _.
Arguments gw_ext {_} _.

Section Gateway.
Context {E : Type}.
Variable clock : nat → Z.
Implicit Types g : MCPToolGateway E.

Definition gw_set_event_log (l : EventLog) g : MCPToolGateway E :=
  mkGateway (gw_registry g) (gw_clients g) (gw_audit_log g) (Some l) (gw_logger g)
    (gw_metrics g) (gw_sink g) (gw_ticks g) (gw_ext g).

Definition register_client (server_id : string) (c : MCPClient E) g : MCPToolGateway E :=
  mkGateway (gw_registry g) (dict_set server_id c (gw_clients g)) (gw_audit_log g)
    (gw_event_log g) (gw_logger g) (gw_metrics g) (gw_sink g) (gw_ticks g) (gw_ext g).

Definition gw_now : M (MCPToolGateway E) Z := λ g,
  (Ok (clock (gw_ticks g)),
   mkGateway (gw_registry g) (gw_clients g) (gw_audit_log g) (gw_event_log g) (gw_logger g)
     (gw_metrics g) (gw_sink g) (S (gw_ticks g)) (gw_ext g)).

Definition gw_put_ext (e : E) g : MCPToolGateway E :=
  mkGateway (gw_registry g) (gw_clients g) (gw_audit_log g) (gw_event_log g) (gw_logger g)
    (gw_metrics g) (gw_sink g) (gw_ticks g) e.

(** [if self._logger: self._logger.<level>(message, **extra)] *)
Definition gw_log (level : log_level) (message : string) (extra : dict pyval)
    : M (MCPToolGateway E) unit :=
  modify (λ g, match gw_logger g with
               | Some l => mkGateway (gw_registry g) (gw_clients g) (gw_audit_log g)
                             (gw_event_log g) (gw_logger g) (gw_metrics g)
                             (log_to l level message extra (gw_sink g)) (gw_ticks g) (gw_ext g)
               | None => g
               end).

(** [if self._metrics: ...] *)
Definition gw_metric (f : MetricsRegistry → MetricsRegistry) : M (MCPToolGateway E) unit :=
  modify (λ g, mkGateway (gw_registry g) (gw_clients g) (gw_audit_log g) (gw_event_log g)
                 (gw_logger g) (f <$> gw_metrics g) (gw_sink g) (gw_ticks g) (gw_ext g)).

Definition elapsed_ms (start now : Z) : Q := ((now - start) # 1000)%Q.

Definition _record_audit (tool_id mcp_server agent_id : string) (success : bool) (start : Z)
    (error : option string) : M (MCPToolGateway E) unit :=
  now ← gw_now;
  let entry := mkAudit start tool_id mcp_server agent_id success error
                 (py_round2 (elapsed_ms start now)) in
  modify (λ g, mkGateway (gw_registry g) (gw_clients g) (gw_audit_log g ++ [entry])
                 (gw_event_log g) (gw_logger g) (gw_metrics g) (gw_sink g) (gw_ticks g)
                 (gw_ext g)) ;;
  event_log ← read gw_event_log;
  match event_log with
  | Some l =>
      now' ← gw_now;
      modify (gw_set_event_log
        (emit now' GATEWAY_ACCESSED (ExecutionState_value EXECUTING)
           [ ("tool", VStr tool_id); ("mcp_server", VStr mcp_server);
             ("agent_id", VStr agent_id); ("success", VBool success);
             ("duration_ms", VFloat (ga_duration_ms entry)) ] error l))
  | None => mret tt
  end.

Definition gw_access_tool (path : ExecutionPath) (intent : Intent)
    : M (MCPToolGateway E) ToolResult :=
  let tool := ep_tool path in
  let agent := in_agent_id intent in
  start ← gw_now;
  registry ← read gw_registry;
  match tool_get registry tool with
  | None =>
      let error_msg := "Tool not registered: " +:+ tool in
      _record_audit tool ε agent false start (Some error_msg) ;;
      gw_log LWarning "Tool not registered" [("tool", VStr tool); ("agent_id", VStr agent)] ;;
      gw_metric (increment "gateway.tool.registry_miss" 1) ;;
      raise (GatewayAccessError tool error_msg)
  | Some tool_def =>
      let server := td_mcp_server tool_def in
      clients ← read gw_clients;
      match dict_get server clients with
      | None =>
          let error_msg := "No MCP client for server: " +:+ server in
          _record_audit tool server agent false start (Some error_msg) ;;
          gw_log LWarning "No MCP client for server"
            [("tool", VStr tool); ("mcp_server", VStr server)] ;;
          gw_metric (increment "gateway.tool.client_miss" 1) ;;
          raise (GatewayAccessError tool error_msg)
      | Some client =>
          r ← attempt (zoom gw_ext gw_put_ext (call_tool client tool (ep_parameters path)));
          match r with
          | Raise e =>
              let error_msg := "MCP call failed: " +:+ exn_str e in
              _record_audit tool server agent false start (Some error_msg) ;;
              gw_log LError "MCP call failed"
                [("tool", VStr tool); ("mcp_server", VStr server); ("error", VStr (exn_str e))] ;;
              gw_metric (increment "gateway.tool.mcp_failure" 1) ;;
              raise (GatewayAccessError tool error_msg)
          | Ok result =>
              _record_audit tool server agent true start None ;;
              now ← gw_now;
              gw_log LInfo "Tool access successful"
                [("tool", VStr tool); ("mcp_server", VStr server); ("tool_id", VStr tool)] ;;
              gw_metric (λ m, metrics_record "gateway.tool.duration_ms"
                                (py_round2 (elapsed_ms start now))
                                (increment "gateway.tool.success" 1 m)) ;;
              mret (mkToolResult true result None)
          end
      end
  end.

Definition get_audit_log g : list (dict pyval) :=
  map GatewayAuditEntry_to_dict (gw_audit_log g).

(** The gateway is a [ToolGateway] of the runtime. *)
#[export] Instance mcp_tool_gateway : ToolGateway (MCPToolGateway E) := {
  access_tool := gw_access_tool
}.

(** ** Specification: what an access comes to *)

(** The outcome of an access, the server it is recorded under and what it does to
    the external state: only a registered tool whose server has a client is
    called. *)
Definition access_spec (path : ExecutionPath) g
    : outcome ToolResult * string * E :=
  let tool := ep_tool path in
  match tool_get (gw_registry g) tool with
  | None => (Raise (GatewayAccessError tool ("Tool not registered: " +:+ tool)), ε, gw_ext g)
  | Some def =>
      let server := td_mcp_server def in
      match dict_get server (gw_clients g) with
      | None =>
          (Raise (GatewayAccessError tool ("No MCP client for server: " +:+ server)),
           server, gw_ext g)
      | Some client =>
          match call_tool client tool (ep_parameters path) (gw_ext g) with
          | (Raise e, ext) =>
              (Raise (GatewayAccessError tool ("MCP call failed: " +:+ exn_str e)), server, ext)
          | (Ok d, ext) => (Ok (mkToolResult true d None), server, ext)
          end
      end
  end.

(** The one entry an access adds. *)
Definition entry_for (path : ExecutionPath) (intent : Intent) (server : string) (ok : bool)
    (a : GatewayAuditEntry) : Prop :=
  ga_tool_id a = ep_tool path ∧ ga_mcp_server a = server ∧ ga_agent_id a = in_agent_id intent
  ∧ ga_success a = ok ∧ (ga_error a = None ↔ ok = true).

(** What [_record_audit] does. *)
Lemma record_audit_spec tool server agent ok start err g :
  ∃ g' a, _record_audit tool server agent ok start err g = (Ok tt, g')
    ∧ gw_audit_log g' = gw_audit_log g ++ [a]
    ∧ ga_tool_id a = tool ∧ ga_mcp_server a = server ∧ ga_agent_id a = agent
    ∧ ga_success a = ok ∧ ga_error a = err
    ∧ gw_registry g' = gw_registry g ∧ gw_clients g' = gw_clients g ∧ gw_ext g' = gw_ext g
    ∧ (log_count <$> gw_event_log g') = (λ l, S (log_count l)) <$> gw_event_log g.
Proof.
  unfold _record_audit, gw_now. m_unfold. simpl.
  destruct (gw_event_log g) as [l|]; simpl; eexists _, _; split_and!; try done.
  simpl. unfold log_count, emit; simpl. rewrite length_app; simpl. do 2 f_equal. lia.
Qed.

(** The rest of a branch of the access, after its audit entry. *)
#[local] Ltac after_record :=
  cbv beta iota;
  match goal with |- context [_record_audit ?t ?s ?a ?ok ?st ?e ?g1] =>
    let g' := fresh in let a' := fresh in let H := fresh in
    destruct (record_audit_spec t s a ok st e g1) as (g' & a' & -> & H); destruct_and!;
    unfold gw_log, gw_metric, gw_now; m_unfold; cbn beta iota;
    destruct (gw_logger g') eqn:?; eexists _, a'; simpl in *;
    split_and!; try done; try congruence; try (split; congruence)
  end.

Lemma gw_access_tool_spec path intent g o server ext :
  access_spec path g = (o, server, ext) →
  ∃ g' a, gw_access_tool path intent g = (o, g')
    ∧ gw_audit_log g' = gw_audit_log g ++ [a]
    ∧ entry_for path intent server (is_ok o) a
    ∧ gw_ext g' = ext ∧ gw_registry g' = gw_registry g ∧ gw_clients g' = gw_clients g.
Proof.
  unfold access_spec, gw_access_tool, entry_for. m_unfold. cbn [gw_now gw_registry gw_clients].
  destruct (tool_get (gw_registry g) (ep_tool path)) as [def|];
    [|intros [= <- <- <-]; by after_record].
  cbn [gw_clients].
  destruct (dict_get (td_mcp_server def) (gw_clients g)) as [c|];
    [|intros [= <- <- <-]; by after_record].
  cbn [gw_ext].
  destruct (call_tool c (ep_tool path) (ep_parameters path) (gw_ext g)) as [[d|e] ext'];
    intros [= <- <- <-]; by after_record.
Qed.

(** C22: an access through the gateway does exactly what its specification says:
    the client of a registered tool's server is called once, any other access
    and any failure of the client is a gateway error, and every access adds
    exactly one audit entry that tells its tool, server, agent and success.
    The agent's capabilities play no part in it. *)
Theorem gateway_access_exact (path : ExecutionPath) (intent : Intent) g :
  let '(o, server, ext) := access_spec path g in
  ∃ g' a, access_tool path intent g = (o, g')
    ∧ gw_audit_log g' = gw_audit_log g ++ [a]
    ∧ entry_for path intent server (is_ok o) a
    ∧ gw_ext g' = ext ∧ gw_registry g' = gw_registry g ∧ gw_clients g' = gw_clients g.
Proof.
  destruct (access_spec path g) as [[o server] ext] eqn:Hs. by apply gw_access_tool_spec.
Qed.
End Gateway.
