(* ===== verification/Loop.v ===== *)
(** * The orchestration loop ([kernel/lifecycle.py])

    [LoopController]: one intent or a sequence of intents through the runtime,
    under a budget, with an event log per execution. The runtime is the one of
    [Runtime], held by reference; the logger and the metrics registry write where
    the runtime's do. *)
From S2P Require Import Prelude PyStr PyDict PyVal ExecState Budget Tenant Events Observability Abi Runtime.
From S2P Require Import RuntimeSpec RuntimeProps.
From Stdlib Require Import QArith.

Inductive LoopTermination :=
| LT_COMPLETED | LT_POLICY_DENIED | LT_CAPABILITY_MISSING | LT_CAPABILITY_DENIED
| LT_GATEWAY_FAILED | LT_TOOL_FAILED | LT_CHECKPOINT_FAILED | LT_ORCHESTRATION_FAILED
| LT_BUDGET_EXHAUSTED | LT_TIMEOUT | LT_EXCEPTION.

#[export] Instance LoopTermination_eq_dec : EqDecision LoopTermination.
Proof. solve_decision. Defined.

Definition LoopTermination_value (t : LoopTermination) : string :=
  match t with
  | LT_COMPLETED => "COMPLETED" | LT_POLICY_DENIED => "POLICY_DENIED"
  | LT_CAPABILITY_MISSING => "CAPABILITY_MISSING" | LT_CAPABILITY_DENIED => "CAPABILITY_DENIED"
  | LT_GATEWAY_FAILED => "GATEWAY_FAILED" | LT_TOOL_FAILED => "TOOL_FAILED"
  | LT_CHECKPOINT_FAILED => "CHECKPOINT_FAILED"
  | LT_ORCHESTRATION_FAILED => "ORCHESTRATION_FAILED"
  | LT_BUDGET_EXHAUSTED => "BUDGET_EXHAUSTED" | LT_TIMEOUT => "TIMEOUT"
  | LT_EXCEPTION => "EXCEPTION"
  end.

Record LoopResult := mkLoopResult {
  lr_success : bool;
  lr_execution_id : string;
  lr_steps_executed : Z;
  lr_tokens_consumed : Z;
  lr_checkpoints : list string;
  lr_final_state : ExecutionState;
  lr_termination_reason : LoopTermination;
  lr_error : option string;
  lr_history : list ExecutionResult
}.

Definition LoopBudgetExhaustedError (steps tokens : Z) : exn :=
  mkExn "LoopBudgetExhaustedError"
    ("Loop budget exhausted: steps=" +:+ str_of_Z steps +:+ ", tokens=" +:+ str_of_Z tokens).

Definition LoopTimeoutError (elapsed : Q) (timeout : Z) : exn :=
  mkExn "LoopTimeoutError"
    ("Loop timeout: " +:+ format_1f elapsed +:+ "s > " +:+ str_of_Z timeout +:+ "s").

(** [_classify_failure(error)] *)
Definition _classify_failure (error : string) : LoopTermination :=
  let e := str_lower error in
  if str_contains "policy" e then LT_POLICY_DENIED
  else if bool_decide (e = "denied" ∨ e = "rejected") then LT_POLICY_DENIED
  else if str_contains "capability" e then
    if str_contains "not" e || str_contains "denied" e then LT_CAPABILITY_DENIED
    else LT_CAPABILITY_MISSING
  else if str_contains "gateway" e then LT_GATEWAY_FAILED
  else if str_contains "orchestration" e then LT_ORCHESTRATION_FAILED
  else if str_contains "checkpoint" e then LT_CHECKPOINT_FAILED
  else if str_contains "tool" e then LT_TOOL_FAILED
  else LT_EXCEPTION.

Record LoopController (E : Type) := mkLoop {
  lc_runtime : World E;
  lc_budget : ExecutionBudget;
  lc_history : list ExecutionResult;
  lc_state : RuntimeState
}.
Arguments mkLoop {_} _ _ _ _.
Arguments lc_runtime {_} _.
Arguments lc_budget {_} _.
Arguments lc_history {_} _.
Arguments lc_state {_} _.

(** A loop in the middle of [run_intent], with its local event log. *)
Record LoopFrame (E : Type) := mkLoopFrame { lf_loop : LoopController E; lf_log : EventLog }.
Arguments mkLoopFrame {_} _ _.
Arguments lf_loop {_} _.
Arguments lf_log {_} _.

Section Loop.
Context {E : Type} `{!PolicyEvaluator E, !IntentRouter E, !ToolGateway E, !StatePersistence E}.
Variable clock obs_clock : nat → Z.
Variable uuid : nat → string.
Variable ob : Observers.
(** The loop's own logger and metrics. *)
Variable lob : Observers.

(** ** Access to the parts of the state *)

Definition on_runtime {A} : M (World E) A → M (LoopController E) A :=
  zoom lc_runtime (λ w l, mkLoop w (lc_budget l) (lc_history l) (lc_state l)).
Definition on_budget {A} : M ExecutionBudget A → M (LoopController E) A :=
  zoom lc_budget (λ b l, mkLoop (lc_runtime l) b (lc_history l) (lc_state l)).
Definition on_loop {A} : M (LoopController E) A → M (LoopFrame E) A :=
  zoom lf_loop (λ l f, mkLoopFrame l (lf_log f)).

Definition loop_now : M (LoopController E) Z := on_runtime (on_core (now_core clock)).
Definition l_obs (m : M Obs unit) : M (LoopController E) unit := on_runtime (on_obs m).
Definition l_log l level message extra : M (LoopFrame E) unit :=
  on_loop (l_obs (log l level message extra)).
Definition l_count metric : M (LoopFrame E) unit := on_loop (l_obs (count lob metric)).

Definition l_emit (t : EventType) (state : string) (metadata : dict pyval)
    (error : option string) : M (LoopFrame E) unit :=
  now ← on_loop (on_runtime (on_obs (now_obs obs_clock)));
  modify (λ f, mkLoopFrame (lf_loop f) (emit now t state metadata error (lf_log f))).

(** ** Construction, tenant context, shutdown *)

Definition LoopController_new (w : World E) (budget : ExecutionBudget)
    (tenant_context : option TenantContext) : outcome (LoopController E) * World E :=
  (match tenant_context with
   | Some c => on_core (set_tenant_context c)
   | None => mret tt
   end ;;
   runtime ← read (λ w, w);
   mret (mkLoop runtime budget [] RUNNING)) w.

Definition loop_set_tenant_context (c : TenantContext) : M (LoopController E) unit :=
  on_runtime (on_core (set_tenant_context c)).

Definition shutdown (timeout_seconds : Q) : M (LoopController E) unit :=
  s ← read lc_state;
  if bool_decide (s ≠ RUNNING) then mret tt
  else
    modify (λ l, mkLoop (lc_runtime l) (lc_budget l) (lc_history l) STOPPED) ;;
    l_obs (log (ob_logger lob) LInfo "Loop shutting down"
             [("timeout_seconds", VFloat timeout_seconds)]).

(** ** Running an intent *)

(** [_check_budget]; every property it looks at reads the clock. *)
Definition _check_budget : M (LoopFrame E) unit :=
  b ← read (λ f, lc_budget (lf_loop f));
  now ← on_loop loop_now;
  if is_exhausted now b then
    raise (LoopBudgetExhaustedError (current_steps b) (tokens_consumed b))
  else
    now1 ← on_loop loop_now;
    if is_timeout now1 b then
      now2 ← on_loop loop_now;
      raise (LoopTimeoutError
               (match started_at b with
                | Some t0 => (now2 - t0) # 1000000
                | None => 0
                end)%Q (timeout_seconds b))
    else
      now3 ← on_loop loop_now;
      l_emit BUDGET_CHECKED (ExecutionState_value CREATED) (budget_to_dict now3 b) None.

Section Run.
Variable execution_id : string.
Variable intent : Intent.
Variable loop_logger : option RuntimeLogger.

(** The body of the [try]. *)
Definition loop_body : M (LoopFrame E) LoopResult :=
  _check_budget ;;
  result ← on_loop (on_runtime (execute_intent clock obs_clock uuid ob intent));
  on_loop (modify (λ l, mkLoop (lc_runtime l) (lc_budget l) (lc_history l ++ [result])
                          (lc_state l))) ;;
  steps ← read (λ f, current_steps (lc_budget (lf_loop f)));
  (if er_success result then
     l_emit STEP_COMPLETED (ExecutionState_value (er_state result))
       [ ("execution_id", VStr (er_execution_id result));
         ("checkpoint_id", VOptStr (er_checkpoint_id result)) ] None ;;
     l_emit LOOP_TERMINATED (ExecutionState_value COMPLETED)
       [("termination_reason", VStr (LoopTermination_value LT_COMPLETED))] None ;;
     l_log loop_logger LInfo "Loop completed" [("steps", VInt steps)] ;;
     l_count "runtime.loop.completed"
   else
     let termination := _classify_failure (opt_or (er_error result) ε) in
     l_emit LOOP_FAILED (ExecutionState_value (er_state result))
       [("termination_reason", VStr (LoopTermination_value termination))] (er_error result) ;;
     l_log loop_logger LWarning "Loop failed"
       [ ("reason", VOptStr (er_error result));
         ("termination", VStr (LoopTermination_value termination)) ] ;;
     l_count "runtime.loop.failed") ;;
  now ← on_loop loop_now;
  on_loop (on_budget (consume_step now 0)) ;;
  b ← read (λ f, lc_budget (lf_loop f));
  mret (mkLoopResult (er_success result) execution_id (current_steps b) (tokens_consumed b)
          (if truthy_opt (er_checkpoint_id result)
           then option_list (er_checkpoint_id result) else [])
          (er_state result)
          (if er_success result then LT_COMPLETED
           else _classify_failure (opt_or (er_error result) ε))
          (er_error result) [result]).

(** The result of an [except] clause. *)
Definition loop_halted (reason : LoopTermination) (error : string)
    : M (LoopFrame E) LoopResult :=
  b ← read (λ f, lc_budget (lf_loop f));
  mret (mkLoopResult false execution_id (current_steps b) (tokens_consumed b) [] HALTED
          reason (Some error) []).

(** The three [except] clauses. *)
Definition loop_except (e : exn) : M (LoopFrame E) LoopResult :=
  if decide (exn_class e = "LoopBudgetExhaustedError") then
    l_emit BUDGET_EXHAUSTED (ExecutionState_value HALTED) [] (Some (exn_str e)) ;;
    steps ← read (λ f, current_steps (lc_budget (lf_loop f)));
    l_log loop_logger LWarning "Budget exhausted" [("steps", VInt steps)] ;;
    l_count "runtime.loop.budget_exhausted" ;;
    loop_halted LT_BUDGET_EXHAUSTED (exn_str e)
  else if decide (exn_class e = "LoopTimeoutError") then
    l_emit TIMEOUT_OCCURRED (ExecutionState_value HALTED) [] (Some (exn_str e)) ;;
    l_log loop_logger LWarning "Loop timeout" [("error", VStr (exn_str e))] ;;
    l_count "runtime.loop.timeout" ;;
    loop_halted LT_TIMEOUT (exn_str e)
  else
    l_emit LOOP_HALTED (ExecutionState_value HALTED) [] (Some (exn_str e)) ;;
    l_log loop_logger LError "Loop halted unexpectedly" [("error", VStr (exn_str e))] ;;
    l_count "runtime.loop.exception" ;;
    loop_halted LT_EXCEPTION (exn_str e).

(** What follows the shutdown check. *)
Definition run_started : M (LoopFrame E) LoopResult :=
  now ← on_loop loop_now;
  on_loop (on_budget (modify (budget_start now))) ;;
  l_log loop_logger LInfo "Loop started"
    [("agent_id", VStr (in_agent_id intent)); ("action", VStr (in_action intent))] ;;
  l_count "runtime.loop.started" ;;
  l_emit LOOP_STARTED (ExecutionState_value CREATED)
    [("agent_id", VStr (in_agent_id intent)); ("action", VStr (in_action intent))] None ;;
  r ← attempt loop_body;
  match r with
  | Ok result => mret result
  | Raise e => loop_except e
  end.
End Run.

Definition run_intent (intent : Intent) (execution_id : option string)
    : M (LoopController E) LoopResult :=
  x ← (if truthy_opt execution_id then mret (default ε execution_id)
       else on_runtime (on_core (new_uuid uuid)));
  s ← read lc_state;
  b ← read lc_budget;
  if bool_decide (s ≠ RUNNING) then
    mret (mkLoopResult false x (current_steps b) (tokens_consumed b) [] HALTED LT_EXCEPTION
            (Some "Loop is shutting down") [])
  else λ l,
    let loop_logger := (λ g, with_correlation g [("execution_id", VStr x)]) <$> ob_logger lob in
    let '(o, f) := run_started x intent loop_logger (mkLoopFrame l (EventLog_new x)) in
    (o, lf_loop f).

Fixpoint run_multi_step (intents : list Intent) : M (LoopController E) (list LoopResult) :=
  match intents with
  | [] => mret []
  | intent :: intents' =>
      b ← read lc_budget;
      now ← loop_now;
      if is_exhausted now b then mret []
      else
        result ← run_intent intent None;
        if negb (lr_success result) then mret [result]
        else
          results ← run_multi_step intents';
          mret (result :: results)
  end.

Definition loop_history (l : LoopController E) : list ExecutionResult := lc_history l.
Definition total_steps (l : LoopController E) : Z := current_steps (lc_budget l).
Definition total_tokens (l : LoopController E) : Z := tokens_consumed (lc_budget l).

(** [get_event_log(execution_id)] makes a new log. *)
Definition get_event_log (execution_id : string) : EventLog := EventLog_new execution_id.
End Loop.

(** ** What a run does to the loop *)

Section Effects.
Context {E : Type} `{!PolicyEvaluator E, !IntentRouter E, !ToolGateway E, !StatePersistence E}.
Variable clock obs_clock : nat → Z.
Variable uuid : nat → string.
Variable ob lob : Observers.
Implicit Types (l : LoopController E) (f : LoopFrame E).

(** What the loop itself keeps. *)
Definition own l : ExecutionBudget * list ExecutionResult * RuntimeState :=
  (lc_budget l, lc_history l, lc_state l).

(** Code that returns and changes nothing the loop keeps. *)
Definition quiet {A} (m : M (LoopFrame E) A) : Prop :=
  ∀ f, ∃ a f', m f = (Ok a, f') ∧ own (lf_loop f') = own (lf_loop f)
               ∧ rt_ext (w_core (lc_runtime (lf_loop f')))
                 = rt_ext (w_core (lc_runtime (lf_loop f))).

Lemma quiet_bind {A B} (m : M (LoopFrame E) A) (k : A → M (LoopFrame E) B) :
  quiet m → (∀ a, quiet (k a)) → quiet (mbind k m).
Proof.
  intros Hm Hk f. destruct (Hm f) as (a & f1 & Hf & Ho & He).
  destruct (Hk a f1) as (b & f2 & Hf2 & Ho2 & He2).
  exists b, f2. unfold mbind, M_bind. rewrite Hf. split_and!; [done|congruence..].
Qed.

Lemma quiet_emit t s md err : quiet (l_emit obs_clock t s md err).
Proof. intros [[[c o] b h s'] lg]. eexists _, _; split_and!; reflexivity. Qed.

Lemma quiet_log lg level msg extra : quiet (l_log lg level msg extra).
Proof.
  intros [[[c o] b h s] l]. unfold l_log, l_obs, on_loop, on_runtime, on_obs, zoom.
  simpl. destruct lg; eexists _, _; split_and!; reflexivity.
Qed.

Lemma quiet_count metric : quiet (l_count lob metric).
Proof.
  intros [[[c o] b h s] l]. unfold l_count, l_obs, on_loop, on_runtime, on_obs, count, when, zoom.
  simpl. destruct (ob_metrics lob); eexists _, _; split_and!; reflexivity.
Qed.

Lemma quiet_now : quiet (on_loop (loop_now clock)).
Proof. intros [[[c o] b h s] l]. eexists _, _; split_and!; reflexivity. Qed.

Lemma quiet_read {A} (g : LoopFrame E → A) : quiet (read g).
Proof. intros f. eexists _, _; split_and!; reflexivity. Qed.

Lemma quiet_ret {A} (a : A) : quiet (mret a).
Proof. intros f. eexists _, _; split_and!; reflexivity. Qed.
End Effects.

#[export] Hint Resolve quiet_emit quiet_log quiet_count quiet_now quiet_read quiet_ret : kite.

(** Take one quiet statement off the front of a run. *)
Ltac quiet_step f' Ho He :=
  match goal with
  | |- context [mbind ?k ?m ?f] =>
      let H := fresh in
      assert (quiet m) as H by auto with kite;
      let a := fresh "a" in
      destruct (H f) as (a & f' & ? & Ho & He); clear H
  end.

Section Runs.
Context {E : Type} `{!PolicyEvaluator E, !IntentRouter E, !ToolGateway E, !StatePersistence E}.
Variable clock obs_clock : nat → Z.
Variable uuid : nat → string.
Variable ob lob : Observers.
Implicit Types (l : LoopController E) (f : LoopFrame E).

(** The result of a run that ended in an [except] clause. *)
Definition halt_result (x : string) (reason : LoopTermination) (err : string) l : LoopResult :=
  mkLoopResult false x (current_steps (lc_budget l)) (tokens_consumed (lc_budget l)) [] HALTED
    reason (Some err) [].

Definition halts (x : string) (reason : LoopTermination) (err : string)
    (m : M (LoopFrame E) LoopResult) : Prop :=
  ∀ f, ∃ f', m f = (Ok (halt_result x reason err (lf_loop f)), f')
    ∧ own (lf_loop f') = own (lf_loop f)
    ∧ rt_ext (w_core (lc_runtime (lf_loop f'))) = rt_ext (w_core (lc_runtime (lf_loop f))).

Lemma halts_bind {A} x reason err (m : M (LoopFrame E) A) k :
  quiet m → (∀ a, halts x reason err (k a)) → halts x reason err (mbind k m).
Proof.
  intros Hm Hk f. destruct (Hm f) as (a & f1 & Hf & Ho & He).
  destruct (Hk a f1) as (f2 & Hf2 & Ho2 & He2). exists f2.
  unfold mbind, M_bind. rewrite Hf, Hf2. split_and!; [|congruence..].
  injection Ho as Hb _ _. unfold halt_result. by rewrite Hb.
Qed.

Lemma halts_halted x reason err : halts x reason err (loop_halted x reason err).
Proof. intros f. eexists. split_and!; reflexivity. Qed.

Definition except_reason (e : exn) : LoopTermination :=
  if decide (exn_class e = "LoopBudgetExhaustedError") then LT_BUDGET_EXHAUSTED
  else if decide (exn_class e = "LoopTimeoutError") then LT_TIMEOUT
  else LT_EXCEPTION.

(** The [except] clauses answer, and leave the loop as it was. *)
Lemma loop_except_halts x lg e :
  halts x (except_reason e) (exn_str e) (loop_except obs_clock lob x lg e).
Proof.
  unfold loop_except, except_reason. repeat case_decide;
    repeat first [apply halts_halted|apply halts_bind; [auto with kite|intros]].
Qed.

Definition ticks_of f : nat := rt_ticks (w_core (lc_runtime (lf_loop f))).

Lemma loop_now_run f : ∃ f',
  on_loop (loop_now clock) f = (Ok (clock (ticks_of f)), f')
  ∧ own (lf_loop f') = own (lf_loop f) ∧ ticks_of f' = S (ticks_of f)
  ∧ rt_ext (w_core (lc_runtime (lf_loop f'))) = rt_ext (w_core (lc_runtime (lf_loop f))).
Proof. destruct f as [[[c o] b h s] lg]. eexists. split_and!; reflexivity. Qed.

(** The budget check changes nothing; it raises exactly when a reading finds the
    budget exhausted. *)
Lemma check_budget_spec f :
  let b := lc_budget (lf_loop f) in
  ∃ o f', _check_budget clock obs_clock f = (o, f')
    ∧ own (lf_loop f') = own (lf_loop f)
    ∧ rt_ext (w_core (lc_runtime (lf_loop f'))) = rt_ext (w_core (lc_runtime (lf_loop f)))
    ∧ if is_exhausted (clock (ticks_of f)) b then
        o = Raise (LoopBudgetExhaustedError (current_steps b) (tokens_consumed b))
      else (is_timeout (clock (S (ticks_of f))) b = true
            ∧ ∃ q, o = Raise (LoopTimeoutError q (timeout_seconds b)))
           ∨ o = Ok tt.
Proof.
  cbv zeta. unfold _check_budget, mbind, M_bind, read. set (b := lc_budget (lf_loop f)).
  destruct (loop_now_run f) as (f1 & -> & Ho1 & Ht1 & He1).
  destruct (is_exhausted (clock (ticks_of f)) b) eqn:Hx.
  { eexists _, f1. split_and!; done. }
  destruct (loop_now_run f1) as (f2 & -> & Ho2 & Ht2 & He2). rewrite Ht1.
  destruct (is_timeout (clock (S (ticks_of f))) b) eqn:Ht.
  - destruct (loop_now_run f2) as (f3 & -> & Ho3 & _ & He3).
    eexists _, f3. split_and!; [reflexivity|congruence..|]. left. split; [done|]. by eexists.
  - destruct (loop_now_run f2) as (f3 & -> & Ho3 & _ & He3).
    destruct (quiet_emit obs_clock BUDGET_CHECKED (ExecutionState_value CREATED)
      (budget_to_dict (clock (ticks_of f2)) b) None f3) as ([] & f4 & -> & Ho4 & He4).
    eexists _, f4. split_and!; [reflexivity|congruence..|]. by right.
Qed.

(** The result a run reports after the runtime answered [er]. *)
Definition run_result (x : string) (er : ExecutionResult) (b : ExecutionBudget) : LoopResult :=
  mkLoopResult (er_success er) x (current_steps b) (tokens_consumed b)
    (if truthy_opt (er_checkpoint_id er) then option_list (er_checkpoint_id er) else [])
    (er_state er)
    (if er_success er then LT_COMPLETED else _classify_failure (opt_or (er_error er) ε))
    (er_error er) [er].

(** What the [try] body comes to: an exception that left the loop alone, or a
    recorded execution followed by the consumption of one step. *)
Inductive body_post (x : string) l : outcome LoopResult → LoopController E → Prop :=
| body_raise e l' :
    own l' = own l → body_post x l (Raise e) l'
| body_done er now c b' l' :
    consume_step now 0 (lc_budget l) = (c, b') →
    own l' = (b', lc_history l ++ [er], lc_state l) →
    body_post x l (match c with Ok _ => Ok (run_result x er b') | Raise e => Raise e end) l'.

Lemma report_quiet lg (er : ExecutionResult) steps :
  quiet (E := E)
    (if er_success er then
       l_emit obs_clock STEP_COMPLETED (ExecutionState_value (er_state er))
         [ ("execution_id", VStr (er_execution_id er));
           ("checkpoint_id", VOptStr (er_checkpoint_id er)) ] None ;;
       l_emit obs_clock LOOP_TERMINATED (ExecutionState_value COMPLETED)
         [("termination_reason", VStr (LoopTermination_value LT_COMPLETED))] None ;;
       l_log lg LInfo "Loop completed" [("steps", VInt steps)] ;;
       l_count lob "runtime.loop.completed"
     else
       let termination := _classify_failure (opt_or (er_error er) ε) in
       l_emit obs_clock LOOP_FAILED (ExecutionState_value (er_state er))
         [("termination_reason", VStr (LoopTermination_value termination))] (er_error er) ;;
       l_log lg LWarning "Loop failed"
         [ ("reason", VOptStr (er_error er));
           ("termination", VStr (LoopTermination_value termination)) ] ;;
       l_count lob "runtime.loop.failed").
Proof. destruct (er_success er); repeat (apply quiet_bind; [auto with kite|intros]); auto with kite. Qed.

Lemma on_runtime_own {A} (m : M (World E) A) f :
  own (lf_loop (snd (on_loop (on_runtime m) f))) = own (lf_loop f).
Proof. unfold on_loop, on_runtime, zoom. by destruct (m _). Qed.

Lemma loop_body_post x i lg f :
  let m := loop_body clock obs_clock uuid ob lob x i lg f in
  body_post x (lf_loop f) (fst m) (lf_loop (snd m)).
Proof.
  cbv zeta. unfold loop_body.
  destruct (check_budget_spec f) as (o & f1 & Hc & Ho1 & _ & _).
  destruct o as [[]|e]; [|rewrite (bind_raise _ _ _ _ _ Hc); by apply body_raise].
  rewrite (bind_ok _ _ _ _ _ Hc).
  pose proof (on_runtime_own (execute_intent clock obs_clock uuid ob i) f1) as Ho2.
  destruct (on_loop (on_runtime (execute_intent clock obs_clock uuid ob i)) f1)
    as [[er|e] f2] eqn:Hx; cbn [snd] in Ho2;
    [|rewrite (bind_raise _ _ _ _ _ Hx); apply body_raise; cbn [snd]; congruence].
  rewrite (bind_ok _ _ _ _ _ Hx).
  set (f3 := mkLoopFrame (mkLoop (lc_runtime (lf_loop f2)) (lc_budget (lf_loop f2))
    (lc_history (lf_loop f2) ++ [er]) (lc_state (lf_loop f2))) (lf_log f2)).
  rewrite (bind_ok _ _ f2 tt f3) by done.
  erewrite bind_ok by reflexivity.
  destruct (report_quiet lg er (current_steps (lc_budget (lf_loop f3))) f3)
    as (? & f4 & Hr & Ho4 & _).
  erewrite bind_ok by exact Hr.
  destruct (loop_now_run f4) as (f5 & Hn & Ho5 & _).
  rewrite (bind_ok _ _ _ _ _ Hn).
  assert (own (lf_loop f5) = (lc_budget (lf_loop f), lc_history (lf_loop f) ++ [er],
    lc_state (lf_loop f))) as Ho.
  { rewrite Ho5, Ho4. unfold own in *. simpl. congruence. }
  injection Ho as Hb Hh Hs.
  destruct (consume_step (clock (ticks_of f4)) 0 (lc_budget (lf_loop f))) as [c b'] eqn:Hcs.
  set (f6 := mkLoopFrame (mkLoop (lc_runtime (lf_loop f5)) b' (lc_history (lf_loop f5))
    (lc_state (lf_loop f5))) (lf_log f5)).
  assert (on_loop (on_budget (consume_step (clock (ticks_of f4)) 0)) f5 = (c, f6)) as Hcons.
  { unfold on_loop, on_budget, zoom. by rewrite Hb, Hcs. }
  assert (own (lf_loop f6) = (b', lc_history (lf_loop f) ++ [er], lc_state (lf_loop f))) as Ho6
    by (unfold own; simpl; congruence).
  pose proof (body_done x (lf_loop f) er _ c b' (lf_loop f6) Hcs Ho6) as Hd.
  destruct c as [[]|e]; [|by rewrite (bind_raise _ _ _ _ _ Hcons)].
  by rewrite (bind_ok _ _ _ _ _ Hcons).
Qed.

(** What a run comes to, from loop [l] to loop [l'], with result [r]. *)
Inductive intent_post (x : string) l : LoopResult → LoopController E → Prop :=
| ip_halted l' :
    lc_state l ≠ RUNNING → own l' = own l →
    rt_ext (w_core (lc_runtime l')) = rt_ext (w_core (lc_runtime l)) →
    intent_post x l (halt_result x LT_EXCEPTION "Loop is shutting down" l') l'
| ip_raise now0 e l' :
    lc_state l = RUNNING →
    own l' = (budget_start now0 (lc_budget l), lc_history l, lc_state l) →
    intent_post x l (halt_result x (except_reason e) (exn_str e) l') l'
| ip_done now0 now er c b' l' :
    lc_state l = RUNNING →
    consume_step now 0 (budget_start now0 (lc_budget l)) = (c, b') →
    own l' = (b', lc_history l ++ [er], lc_state l) →
    intent_post x l (match c with
                     | Ok _ => run_result x er b'
                     | Raise e => halt_result x (except_reason e) (exn_str e) l'
                     end) l'.

(** The preamble of [run_started]: the budget is started, the rest is observed. *)
Lemma run_started_eq x i lg f : ∃ now0 f1,
  run_started clock obs_clock uuid ob lob x i lg f
  = (r ← attempt (loop_body clock obs_clock uuid ob lob x i lg);
     match r with Ok result => mret result | Raise e => loop_except obs_clock lob x lg e end) f1
  ∧ own (lf_loop f1)
    = (budget_start now0 (lc_budget (lf_loop f)), lc_history (lf_loop f), lc_state (lf_loop f))
  ∧ rt_ext (w_core (lc_runtime (lf_loop f1))) = rt_ext (w_core (lc_runtime (lf_loop f))).
Proof.
  unfold run_started. destruct (loop_now_run f) as (f1 & Hn & Ho1 & _ & He1).
  set (now0 := clock (ticks_of f)) in *. rewrite (bind_ok _ _ _ _ _ Hn).
  set (f2 := mkLoopFrame (mkLoop (lc_runtime (lf_loop f1))
    (budget_start now0 (lc_budget (lf_loop f1))) (lc_history (lf_loop f1))
    (lc_state (lf_loop f1))) (lf_log f1)).
  rewrite (bind_ok _ _ f1 tt f2) by done.
  destruct (quiet_log lg LInfo "Loop started"
    [("agent_id", VStr (in_agent_id i)); ("action", VStr (in_action i))] f2)
    as ([] & f3 & H3 & Ho3 & He3). rewrite (bind_ok _ _ _ _ _ H3).
  destruct (quiet_count lob "runtime.loop.started" f3) as ([] & f4 & H4 & Ho4 & He4).
  rewrite (bind_ok _ _ _ _ _ H4).
  destruct (quiet_emit obs_clock LOOP_STARTED (ExecutionState_value CREATED)
    [("agent_id", VStr (in_agent_id i)); ("action", VStr (in_action i))] None f4)
    as ([] & f5 & H5 & Ho5 & He5). rewrite (bind_ok _ _ _ _ _ H5).
  exists now0, f5. split; [done|]. injection Ho1 as Hb Hh Hs.
  rewrite Ho5, Ho4, Ho3, He5, He4, He3. unfold own; simpl.
  split_and!; congruence.
Qed.

Lemma run_started_post x i lg f :
  lc_state (lf_loop f) = RUNNING →
  ∃ r f', run_started clock obs_clock uuid ob lob x i lg f = (Ok r, f')
    ∧ intent_post x (lf_loop f) r (lf_loop f').
Proof.
  intros Hrun. destruct (run_started_eq x i lg f) as (now0 & f1 & -> & Ho1 & _).
  pose proof (loop_body_post x i lg f1) as Hb. cbv zeta in Hb.
  destruct (loop_body clock obs_clock uuid ob lob x i lg f1) as [o f2] eqn:Hbody.
  cbn [fst snd] in Hb.
  assert (attempt (loop_body clock obs_clock uuid ob lob x i lg) f1 = (Ok o, f2)) as Ha
    by (unfold attempt; by rewrite Hbody).
  rewrite (bind_ok _ _ _ _ _ Ha). injection Ho1 as Hb1 Hh1 Hs1.
  destruct o as [r|e].
  - exists r, f2. split; [done|].
    inversion Hb as [|er now c b' l' Hc Ho Hr Hl]; subst. destruct c as [[]|]; [|done].
    injection Hr as <-.
    refine (ip_done x (lf_loop f) now0 now er (Ok tt) b' _ Hrun _ _); congruence.
  - destruct (loop_except_halts x lg e f2) as (f3 & -> & Ho3 & _).
    eexists _, f3. split; [done|]. injection Ho3 as Hb3 Hh3 Hs3.
    assert (halt_result x (except_reason e) (exn_str e) (lf_loop f2)
            = halt_result x (except_reason e) (exn_str e) (lf_loop f3)) as ->
      by (unfold halt_result; by rewrite Hb3).
    inversion Hb as [e' l' Ho|er now c b' l' Hc Ho Hr Hl]; subst.
    + apply (ip_raise x _ now0); [done|]. unfold own in *. congruence.
    + destruct c as [|e']; [done|]. injection Hr as ->.
      refine (ip_done x (lf_loop f) now0 now er (Raise e) b' _ Hrun _ _);
        unfold own in *; congruence.
Qed.

Lemma run_intent_id (x0 : option string) l : ∃ x l1,
  (if truthy_opt x0 then mret (default ε x0) else on_runtime (on_core (new_uuid uuid))) l
  = (Ok x, l1)
  ∧ own l1 = own l ∧ rt_ext (w_core (lc_runtime l1)) = rt_ext (w_core (lc_runtime l)).
Proof.
  destruct x0 as [x0|]; simpl; [destruct (truthy x0)|];
    destruct l as [[c o] b h s]; eexists _, _; split_and!; done.
Qed.

Lemma run_intent_post i x0 l :
  ∃ r l' x, run_intent clock obs_clock uuid ob lob i x0 l = (Ok r, l')
    ∧ intent_post x l r l'.
Proof.
  unfold run_intent.
  destruct (run_intent_id x0 l) as (x & l1 & Hx & Ho & He).
  rewrite (bind_ok _ _ _ _ _ Hx). cbv beta.
  rewrite (bind_ok _ _ l1 (lc_state l1) l1) by done.
  rewrite (bind_ok _ _ l1 (lc_budget l1) l1) by done. injection Ho as Hb Hh Hs.
  destruct (bool_decide_reflect (lc_state l1 ≠ RUNNING)) as [Hn|Hn].
  - eexists _, l1, x. split; [reflexivity|].
    apply (ip_halted x l l1); [congruence|unfold own; congruence|done].
  - destruct (decide (lc_state l1 = RUNNING)) as [Hr|]; [|done].
    match goal with |- context [run_started _ _ _ _ _ x i ?lg ?f] =>
      destruct (run_started_post x i lg f Hr) as (r & f' & -> & Hp) end.
    eexists r, (lf_loop f'), x. split; [done|]. cbn [lf_loop] in Hp.
    destruct Hp as [| |]; [congruence|eapply ip_raise|eapply ip_done]; try congruence;
      try done; rewrite <- ?Hb, <- ?Hh, <- ?Hs; done.
Qed.

Lemma classify_not_completed e : _classify_failure e ≠ LT_COMPLETED.
Proof. unfold _classify_failure. by repeat case_match. Qed.

Lemma except_not_completed e : except_reason e ≠ LT_COMPLETED.
Proof. unfold except_reason. by repeat case_match. Qed.

Lemma budget_start_limits now b :
  max_steps (budget_start now b) = max_steps b
  ∧ current_steps (budget_start now b) = current_steps b
  ∧ timeout_seconds (budget_start now b) = timeout_seconds b.
Proof. unfold budget_start. by case_match. Qed.

(** One step: a success adds one execution and one step, within the limit; a
    failure adds at most one of each. *)
Record step_post l (r : LoopResult) l' : Prop := {
  st_state : lc_state l' = lc_state l;
  st_max : max_steps (lc_budget l') = max_steps (lc_budget l);
  st_steps : lr_steps_executed r = current_steps (lc_budget l');
  st_reason : lr_success r = true ↔ lr_termination_reason r = LT_COMPLETED;
  st_bound : (current_steps (lc_budget l) ≤ current_steps (lc_budget l')
              ≤ Z.max (current_steps (lc_budget l)) (max_steps (lc_budget l)))%Z;
  st_success : lr_success r = true → ∃ er,
    lr_history r = [er] ∧ er_success er = true ∧ lr_final_state r = er_state er
    ∧ lc_history l' = lc_history l ++ [er]
    ∧ current_steps (lc_budget l') = (current_steps (lc_budget l) + 1)%Z;
  st_failure : lr_success r = false →
    (∃ ers, lc_history l' = lc_history l ++ ers ∧ (length ers ≤ 1)%nat)
    ∧ (current_steps (lc_budget l') ≤ current_steps (lc_budget l) + 1)%Z
}.

Lemma intent_step_post x l r l' : intent_post x l r l' → step_post l r l'.
Proof.
  intros Hp. destruct Hp as [l' Hs Ho _|now0 e l' Hs Ho|now0 now er c b' l' Hs Hc Ho];
    unfold own in Ho; injection Ho as Hb Hh Hst.
  - rewrite <- Hst in Hs. split; simpl; rewrite ?Hb; try done; try lia.
    intros _. split; [|lia]. exists []. rewrite app_nil_r. split; [congruence|simpl; lia].
  - destruct (budget_start_limits now0 (lc_budget l)) as (H1 & H2 & _).
    split; simpl; rewrite ?Hb, ?H1, ?H2; try done; try lia.
    + split; [done|]. intros Hr. by destruct (except_not_completed _ Hr).
    + intros _. split; [|lia]. exists []. rewrite app_nil_r. split; [congruence|simpl; lia].
  - destruct (budget_start_limits now0 (lc_budget l)) as (H1 & H2 & _).
    destruct c as [[]|e].
    + apply consume_step_ok in Hc as [Hx ->]. apply is_exhausted_false in Hx as (Hx & _).
      split; simpl; rewrite ?Hb; simpl; rewrite ?H1, ?H2 in *; try done; try lia.
      * destruct (er_success er); split; try done. intros Hr. by destruct (classify_not_completed _ Hr).
      * intros Hsu. exists er. by split_and!.
      * intros _. split; [|lia]. exists [er]. split; [congruence|simpl; lia].
    + apply consume_step_raise in Hc as [_ ->].
      split; simpl; rewrite ?Hb, ?H1, ?H2; try done; try lia.
      * split; [done|]. intros Hr. by destruct (except_not_completed _ Hr).
      * intros _. split; [|lia]. exists [er]. split; [congruence|simpl; lia].
Qed.

(** *** Running out of time *)

Lemma started_timeout now0 t0 b :
  started_at b = Some t0 → budget_start now0 b = b.
Proof. unfold budget_start. by intros ->. Qed.

Lemma run_started_exhausted x i lg f t0 :
  started_at (lc_budget (lf_loop f)) = Some t0 →
  (∀ n, is_exhausted (clock n) (lc_budget (lf_loop f)) = true) →
  ∃ r f', run_started clock obs_clock uuid ob lob x i lg f = (Ok r, f')
    ∧ lr_termination_reason r = LT_BUDGET_EXHAUSTED
    ∧ own (lf_loop f') = own (lf_loop f)
    ∧ rt_ext (w_core (lc_runtime (lf_loop f'))) = rt_ext (w_core (lc_runtime (lf_loop f))).
Proof.
  intros Ht Hx. destruct (run_started_eq x i lg f) as (now0 & f1 & -> & Ho1 & He1).
  rewrite (started_timeout _ _ _ Ht) in Ho1. injection Ho1 as Hb1 Hh1 Hs1.
  destruct (check_budget_spec f1) as (o & f2 & Hc & Ho2 & He2 & Hcase).
  rewrite Hb1, Hx in Hcase. subst o.
  assert (attempt (loop_body clock obs_clock uuid ob lob x i lg) f1
    = (Ok (Raise (LoopBudgetExhaustedError (current_steps (lc_budget (lf_loop f)))
                    (tokens_consumed (lc_budget (lf_loop f))))), f2)) as Ha.
  { unfold attempt, loop_body. by rewrite (bind_raise _ _ _ _ _ Hc). }
  rewrite (bind_ok _ _ _ _ _ Ha).
  match goal with |- context [loop_except _ _ _ _ ?e _] =>
    destruct (loop_except_halts x lg e f2) as (f3 & -> & Ho3 & He3) end.
  eexists _, f3. split_and!; [done|done| |congruence].
  rewrite Ho3, Ho2. unfold own. congruence.
Qed.

(** ** Properties *)

(** C23: [run_intent] always answers. Its result is a success exactly when its
    reason is [COMPLETED]; a success adds the runtime's successful result to the
    history and uses one step of the budget, a failure adds at most one result
    and one step, and the step count never passes the budget's limit. *)
Theorem run_intent_total (i : Intent) (x0 : option string) l :
  ∃ r l', run_intent clock obs_clock uuid ob lob i x0 l = (Ok r, l') ∧ step_post l r l'.
Proof.
  destruct (run_intent_post i x0 l) as (r & l' & x & Hr & Hp).
  exists r, l'. split; [done|]. by eapply intent_step_post.
Qed.

(** The last time the loop and its runtime read. *)
Definition last_reading l : Z := clock (pred (rt_ticks (w_core (lc_runtime l)))).

(** C24: [run_multi_step] always answers and stops at the first failure: every
    result but the last is a success, the successes are no more than the steps
    the budget had left, and it stops early only after a failure or when the
    budget it leaves is exhausted at its last reading of the clock. *)
Theorem run_multi_step_stops (intents : list Intent) l :
  ∃ rs l', run_multi_step clock obs_clock uuid ob lob intents l = (Ok rs, l')
    ∧ (length rs ≤ length intents)%nat
    ∧ (∀ j r, rs !! j = Some r → (S j < length rs)%nat → lr_success r = true)
    ∧ (Z.of_nat (length (filter (λ r, lr_success r = true) rs))
       ≤ Z.max 0 (max_steps (lc_budget l) - current_steps (lc_budget l)))%Z
    ∧ (length rs = length intents ∨ (∃ r, last rs = Some r ∧ lr_success r = false)
       ∨ is_exhausted (last_reading l') (lc_budget l') = true).
Proof.
  revert l. induction intents as [|i intents IH]; intros l; cbn [run_multi_step].
  { exists [], l. split_and!; simpl; [done|done|done|lia|by left]. }
  rewrite (bind_ok _ _ l (lc_budget l) l) by done.
  assert (∃ l1, loop_now clock l = (Ok (clock (rt_ticks (w_core (lc_runtime l)))), l1)
    ∧ own l1 = own l ∧ last_reading l1 = clock (rt_ticks (w_core (lc_runtime l))))
    as (l1 & Hn & Ho & Hread).
  { destruct l as [[c o] b h s]. eexists. split_and!; reflexivity. }
  rewrite (bind_ok _ _ _ _ _ Hn). injection Ho as Hb Hh Hs.
  destruct (is_exhausted _ (lc_budget l)) eqn:Hx.
  { exists [], l1. split_and!; simpl; [done|lia|done|lia|]. right. right.
    by rewrite Hread, Hb. }
  destruct (run_intent_post i None l1) as (r & l2 & x & Hr & Hp).
  rewrite (bind_ok _ _ _ _ _ Hr). apply intent_step_post in Hp as [].
  apply is_exhausted_false in Hx as (Hx & _).
  destruct (lr_success r) eqn:Hsu; cbn [negb].
  2:{ exists [r], l2. rewrite filter_cons_False by congruence. split_and!; simpl; [done|lia| |lia|].
      - intros [|j] ? ?; simpl in *; [lia|done].
      - right. left. by exists r. }
  destruct (st_success0 eq_refl) as (er & _ & _ & _ & _ & Hsteps).
  destruct (IH l2) as (rs & l3 & Hrs & Hlen & Hall & Hcnt & Hend).
  rewrite (bind_ok _ _ _ _ _ Hrs). exists (r :: rs), l3.
  rewrite filter_cons_True by done. split_and!; simpl; [done|lia| | |].
  - intros [|j] r' Hj Hlt; simpl in *; [by simplify_eq|]. eapply Hall; [done|lia].
  - rewrite <- Hb in *. lia.
  - destruct Hend as [?|[(r' & Hl & ?)|?]]; [left; lia| |by right; right].
    right. left. exists r'. split; [|done]. by rewrite last_cons, Hl.
Qed.

(** A run whose time is up is reported as an exhausted budget, never as a
    timeout: when every reading is past the limit the runtime is not called and
    the reason is [BUDGET_EXHAUSTED], however many steps and tokens are left. *)
Theorem timeout_reported_as_exhaustion (i : Intent) (x0 : option string) l (t0 : Z) :
  lc_state l = RUNNING → started_at (lc_budget l) = Some t0 →
  (∀ n, (clock n - t0 > timeout_seconds (lc_budget l) * usec_per_sec)%Z) →
  ∃ r l', run_intent clock obs_clock uuid ob lob i x0 l = (Ok r, l')
    ∧ lr_termination_reason r = LT_BUDGET_EXHAUSTED
    ∧ lc_history l' = lc_history l
    ∧ rt_ext (w_core (lc_runtime l')) = rt_ext (w_core (lc_runtime l)).
Proof.
  intros Hrun Ht Hlate.
  assert (∀ n, is_exhausted (clock n) (lc_budget l) = true) as Hx.
  { intros n. unfold is_exhausted, is_timeout. rewrite Ht.
    apply orb_true_intro. right. apply Z.gtb_lt. specialize (Hlate n). lia. }
  unfold run_intent.
  destruct (run_intent_id x0 l) as (x & l1 & Hid & Ho & He).
  rewrite (bind_ok _ _ _ _ _ Hid). cbv beta. injection Ho as Hb Hh Hs.
  rewrite (bind_ok _ _ l1 (lc_state l1) l1) by done.
  rewrite (bind_ok _ _ l1 (lc_budget l1) l1) by done.
  rewrite bool_decide_eq_false_2 by (rewrite Hs; tauto).
  match goal with |- context [run_started _ _ _ _ _ x i ?lg ?f] =>
    destruct (run_started_exhausted x i lg f t0) as (r & f' & -> & Hr & Hof & Hef) end;
    [by rewrite <- Ht, <- Hb|intros n; simpl; by rewrite Hb|].
  exists r, (lf_loop f'). injection Hof as _ Hhf _. simpl in *.
  split_and!; [done|done|congruence|congruence].
Qed.
End Runs.

(** A loop over the concrete runtime of [RuntimeProps]; started at 0 with a limit of
    one second, read at two seconds and later. *)
Definition demo_late (n : nat) : Z := (2000000 + Z.of_nat n)%Z.
Definition demo_loop : LoopController unit :=
  mkLoop (demo_world RUNNING) (budget_start 0 (ExecutionBudget_new 5 100 1)) [] RUNNING.

Lemma timeout_reported_as_exhaustion_witness :
  steps_remaining (lc_budget demo_loop) = 5%Z
  ∧ ∃ r l', @run_intent unit (demo_policy true) demo_router demo_gateway demo_store
      demo_late demo_clock demo_uuid demo_observers demo_observers demo_intent None demo_loop
      = (Ok r, l')
    ∧ lr_termination_reason r = LT_BUDGET_EXHAUSTED
    ∧ lc_history l' = lc_history demo_loop
    ∧ rt_ext (w_core (lc_runtime l')) = rt_ext (w_core (lc_runtime demo_loop)).
Proof.
  split; [vm_compute; reflexivity|].
  apply (@timeout_reported_as_exhaustion unit (demo_policy true) demo_router demo_gateway
           demo_store demo_late demo_clock demo_uuid demo_observers demo_observers demo_intent
           None demo_loop 0); [reflexivity|reflexivity|].
  intros n. unfold demo_late, usec_per_sec; simpl. lia.
Defined.

(** With time left, the demo loop completes both intents. *)
Example demo_loop_completes :
  (rs ← fst (@run_multi_step unit (demo_policy true) demo_router demo_gateway demo_store
               demo_clock demo_clock demo_uuid demo_observers demo_observers
               [demo_intent; demo_intent] demo_loop);
   Ok (map lr_success rs)) = Ok [true; true].
Proof. vm_compute. reflexivity. Qed.
