(* ===== verification/Capabilities.v ===== *)
(** * Capabilities ([core/policies/capability.py], [capability_registry.py],
    [capability_catalog.py])

    Capability entities, the runtime registry and the built-in catalog. Version
    parsing is the third-party [packaging] library: [version_same a b] is
    whether the two version strings denote the same version, [None] when one of
    them is not a version. *)
From S2P Require Import Prelude PyStr PyDict PyVal Tenant ToolRegistry.

Inductive CapabilityCategory :=
| CC_MODEL | CC_TOOL | CC_CODE | CC_MEDIA | CC_ENTERPRISE | CC_SECURITY | CC_SYSTEM
| CC_DEVICE | CC_FILESYSTEM | CC_NETWORK.

#[export] Instance CapabilityCategory_eq_dec : EqDecision CapabilityCategory.
Proof. solve_decision. Defined.

Definition CapabilityCategory_value (c : CapabilityCategory) : string :=
  match c with
  | CC_MODEL => "model" | CC_TOOL => "tool" | CC_CODE => "code" | CC_MEDIA => "media"
  | CC_ENTERPRISE => "enterprise" | CC_SECURITY => "security" | CC_SYSTEM => "system"
  | CC_DEVICE => "device" | CC_FILESYSTEM => "filesystem" | CC_NETWORK => "network"
  end.

Record Capability := mkCapability {
  cap_id : string;
  cap_name : string;
  cap_category : CapabilityCategory;
  cap_risk_level : string;
  cap_version : string;
  cap_description : string;
  cap_requirements : dict pyval;
  cap_tags : list string;
  cap_metadata : dict pyval
}.

#[export] Instance Capability_eq_dec : EqDecision Capability.
Proof. solve_decision. Defined.

Definition Capability_validate (c : Capability) : list string :=
  check (truthy (cap_id c)) "capability id required"
  ++ check (truthy (cap_name c)) "capability name required".

Definition Capability_str (c : Capability) : string := cap_id c.

(** ** Registry *)

Definition CapabilityRegistry : Type := dict Capability.

Definition cap_register (c : Capability) : M CapabilityRegistry unit := λ r,
  match Capability_validate c with
  | [] => (Ok tt, dict_set (cap_id c) c r)
  | errors =>
      (Raise (mkExn "ValueError"
         ("Invalid capability " +:+ cap_id c +:+ ": " +:+ list_repr errors)), r)
  end.

(** [CapabilityRegistry(capabilities)]: the first invalid one raises. *)
Fixpoint cap_register_all (cs : list Capability) : M CapabilityRegistry unit :=
  match cs with
  | [] => mret tt
  | c :: cs' => cap_register c ;; cap_register_all cs'
  end.

Definition CapabilityRegistry_new (cs : list Capability) : outcome CapabilityRegistry :=
  match cap_register_all cs [] with
  | (Ok _, r) => Ok r
  | (Raise e, _) => Raise e
  end.

Definition cap_get (r : CapabilityRegistry) (i : string) : option Capability := dict_get i r.
Definition cap_contains (r : CapabilityRegistry) (i : string) : bool := dict_mem i r.
Definition cap_list (r : CapabilityRegistry) : list Capability := dict_values r.
Definition cap_remove (i : string) (r : CapabilityRegistry) : CapabilityRegistry := dict_del i r.
Definition cap_count (r : CapabilityRegistry) : nat := length r.

(** The filters of both [query] methods. *)
Definition cap_matches (category : option CapabilityCategory) (risk_level : option string)
    (c : Capability) : bool :=
  match category with Some k => bool_decide (cap_category c = k) | None => true end
  && match risk_level with Some k => bool_decide (cap_risk_level c = k) | None => true end.

Definition cap_query (r : CapabilityRegistry) (category : option CapabilityCategory)
    (risk_level : option string) : list Capability :=
  filter (λ c, cap_matches category risk_level c = true) (dict_values r).

Section Versions.
Variable version_same : string → string → option bool.

Definition get_compatible (r : CapabilityRegistry) (i : string)
    (version_constraint : option string) : list Capability :=
  match cap_get r i with
  | None => []
  | Some base =>
      match version_constraint with
      | None => [base]
      | Some v =>
          filter (λ c, cap_id c = i ∧ version_same (cap_version c) v = Some true)
            (dict_values r)
      end
  end.
End Versions.

(** ** Catalog *)

Definition catalog_entry (i name : string) (k : CapabilityCategory) (risk description : string)
    : Capability :=
  mkCapability i name k risk "1.0" description [] [] [].

Definition CHAT_GENERATE : Capability :=
  catalog_entry "chat.generate" "Chat Generation" CC_MODEL "low"
    "Generate chat completions".
Definition CHAT_STREAM : Capability :=
  catalog_entry "chat.stream" "Chat Streaming" CC_MODEL "low"
    "Stream chat completions".
Definition EMBEDDING_GENERATE : Capability :=
  catalog_entry "embedding.generate" "Embedding Generation" CC_MODEL "low"
    "Generate text embeddings".
Definition IMAGE_GENERATE : Capability :=
  catalog_entry "image.generate" "Image Generation" CC_MEDIA "medium"
    "Generate images from prompts".
Definition IMAGE_EDIT : Capability :=
  catalog_entry "image.edit" "Image Editing" CC_MEDIA "medium"
    "Edit existing images".
Definition VISION_DETECT : Capability :=
  catalog_entry "vision.detect" "Object Detection" CC_MEDIA "medium"
    "Detect objects in images".
Definition VISION_CAPTION : Capability :=
  catalog_entry "vision.caption" "Image Captioning" CC_MEDIA "low"
    "Generate image captions".
Definition SPEECH_TTS : Capability :=
  catalog_entry "speech.tts" "Text-to-Speech" CC_MEDIA "low"
    "Text-to-speech synthesis".
Definition SPEECH_STT : Capability :=
  catalog_entry "speech.stt" "Speech-to-Text" CC_MEDIA "low"
    "Speech-to-text transcription".
Definition CODE_GENERATE : Capability :=
  catalog_entry "code.generate" "Code Generation" CC_CODE "medium"
    "Generate source code".
Definition CODE_REVIEW : Capability :=
  catalog_entry "code.review" "Code Review" CC_CODE "medium"
    "Review source code for issues".
Definition AGENT_RUN : Capability :=
  catalog_entry "agent.run" "Agent Execution" CC_MODEL "medium"
    "Run autonomous agent loops".
Definition TOOL_EXECUTE : Capability :=
  catalog_entry "tool.execute" "Tool Execution" CC_TOOL "medium"
    "Execute external tools and APIs".
Definition FILESYSTEM_READ : Capability :=
  catalog_entry "filesystem.read" "Filesystem Read" CC_FILESYSTEM "low"
    "Read files from filesystem".
Definition FILESYSTEM_WRITE : Capability :=
  catalog_entry "filesystem.write" "Filesystem Write" CC_FILESYSTEM "high"
    "Write files to filesystem".
Definition NETWORK_EGRESS : Capability :=
  catalog_entry "network.egress" "Network Egress" CC_NETWORK "critical"
    "Make outbound network requests".

Definition catalog_all : list Capability :=
  [ CHAT_GENERATE; CHAT_STREAM; EMBEDDING_GENERATE; IMAGE_GENERATE;
    IMAGE_EDIT; VISION_DETECT; VISION_CAPTION; SPEECH_TTS;
    SPEECH_STT; CODE_GENERATE; CODE_REVIEW; AGENT_RUN;
    TOOL_EXECUTE; FILESYSTEM_READ; FILESYSTEM_WRITE; NETWORK_EGRESS ].

Definition catalog_by_id (i : string) : option Capability :=
  head (filter (λ c, cap_id c = i) catalog_all).

Section CatalogVersions.
Variable version_same : string → string → option bool.

(** An unparsable version falls back to comparing the strings. *)
Definition resolve_version (i : string) (version_constraint : option string)
    : option Capability :=
  match catalog_by_id i with
  | None => None
  | Some c =>
      match version_constraint with
      | None => Some c
      | Some v =>
          match version_same v (cap_version c) with
          | Some true => Some c
          | Some false => None
          | None => if decide (cap_version c = v) then Some c else None
          end
      end
  end.

Definition catalog_compatible (i : string) (version_constraint : option string)
    : list Capability :=
  match catalog_by_id i with
  | None => []
  | Some c =>
      match version_constraint with
      | None => [c]
      | Some _ => option_list (resolve_version i version_constraint)
      end
  end.
End CatalogVersions.

Definition catalog_query (category : option CapabilityCategory) (risk_level : option string)
    : list Capability :=
  filter (λ c, cap_matches category risk_level c = true) catalog_all.

(** ** Lemmas *)

Definition cap_inv (r : CapabilityRegistry) : Prop :=
  dict_wf r ∧ ∀ i c, dict_get i r = Some c → cap_id c = i ∧ Capability_validate c = [].

Lemma cap_register_inv c r o r' : cap_inv r → cap_register c r = (o, r') → cap_inv r'.
Proof.
  intros [Hwf Hi]. unfold cap_register.
  destruct (Capability_validate c) eqn:Hv; intros [= <- <-]; [|done].
  split; [by apply dict_wf_set|]. intros i c'. rewrite dict_get_set.
  case_decide; [intros [= <-]; by subst|apply Hi].
Qed.

Lemma cap_remove_inv i r : cap_inv r → cap_inv (cap_remove i r).
Proof.
  intros [Hwf Hi]. split; [by apply dict_wf_del|]. intros j c.
  unfold cap_remove. rewrite dict_get_del. case_decide; [done|apply Hi].
Qed.

Inductive cap_step : CapabilityRegistry → CapabilityRegistry → Prop :=
| cs_register c r o r' : cap_register c r = (o, r') → cap_step r r'
| cs_remove i r : cap_step r (cap_remove i r).

Lemma cap_star_inv r : star cap_step [] r → cap_inv r.
Proof.
  apply star_invariant.
  - intros x y Hx Hs. destruct Hs; eauto using cap_register_inv, cap_remove_inv.
  - split; [apply dict_wf_nil|done].
Qed.

Lemma cap_elem r i c : cap_inv r → c ∈ dict_values r ∧ cap_id c = i ↔ dict_get i r = Some c.
Proof.
  intros [Hwf Hi]. unfold dict_values. rewrite list_elem_of_fmap. split.
  - intros [([k c'] & -> & Hin) <-]. apply dict_elem_get in Hin; [|done].
    simpl in *. by destruct (Hi _ _ Hin) as [-> _].
  - intros Hg. split; [exists (i, c); split; [done|by apply dict_get_elem]|].
    by apply Hi in Hg as [-> _].
Qed.

(** Filtering the values by identifier is looking the identifier up. *)
Lemma filter_by_id (P : Capability → Prop) `{!∀ c, Decision (P c)} (r : CapabilityRegistry) i :
  dict_wf r → (∀ k c, (k, c) ∈ r → cap_id c = k) →
  filter (λ c, cap_id c = i ∧ P c) (dict_values r)
  = match dict_get i r with
    | Some c => if decide (P c) then [c] else []
    | None => []
    end.
Proof.
  unfold dict_wf, dict_keys, dict_values. induction r as [|[k c] r IH]; csimpl; [done|].
  rewrite NoDup_cons. intros [Hk Hwf] Hids.
  assert (cap_id c = k) as Hck by (apply Hids; left).
  assert (∀ k c, (k, c) ∈ r → cap_id c = k) as Hids' by (intros; apply Hids; by right).
  specialize (IH Hwf Hids'). rewrite filter_cons.
  destruct (decide (i = k)) as [->|Hne].
  - assert (filter (λ c, cap_id c = k ∧ P c) r.*2 = []) as Hnil.
    { rewrite IH. destruct (dict_get k r) as [c'|] eqn:Hg; [|done].
      destruct Hk. apply dict_elem_keys. by eexists. }
    rewrite Hnil. destruct (decide (P c)).
    + by rewrite decide_True.
    + rewrite decide_False; [done|]. by intros [_ ?].
  - rewrite decide_False; [done|]. intros [? _]. congruence.
Qed.

(** Registering valid capabilities with new and distinct identifiers appends them. *)
Lemma register_all_fresh cs (r : CapabilityRegistry) :
  Forall (λ c, Capability_validate c = []) cs →
  NoDup (map cap_id cs) → (∀ c, c ∈ cs → dict_get (cap_id c) r = None) →
  cap_register_all cs r = (Ok tt, r ++ map (λ c, (cap_id c, c)) cs).
Proof.
  intros Hv. revert r. induction Hv as [|c cs Hc Hv IH]; intros r; csimpl.
  { by rewrite app_nil_r. }
  rewrite NoDup_cons. intros [Hn Hnd] Hf.
  rewrite (bind_ok _ _ r tt (dict_set (cap_id c) c r)) by (unfold cap_register; by rewrite Hc).
  rewrite dict_set_fresh by (apply Hf; left). rewrite IH.
  - by rewrite <- app_assoc.
  - done.
  - intros c' Hc'. rewrite dict_get_app, Hf by (by right). simpl.
    rewrite decide_False; [done|]. intros He. apply Hn. rewrite <- He.
    apply list_elem_of_In, in_map, list_elem_of_In. done.
Qed.

Lemma dict_get_by_id (cs : list Capability) i :
  dict_get i (map (λ c, (cap_id c, c)) cs) = head (filter (λ c, cap_id c = i) cs).
Proof.
  induction cs as [|c cs IH]; simpl; [done|]. rewrite filter_cons.
  destruct (decide (cap_id c = i)) as [->|]; [by rewrite decide_True|].
  by rewrite decide_False.
Qed.

(** ** Properties *)

(** The version filter agrees with lookup: in every registry that operations
    build, [get_compatible] without a constraint answers the registered
    capability, and with one answers it exactly when its version is the same,
    so never more than one. *)
Theorem get_compatible_exact (version_same : string → string → option bool)
    (r : CapabilityRegistry) (i v : string) :
  star cap_step [] r →
  get_compatible version_same r i None = option_list (cap_get r i)
  ∧ get_compatible version_same r i (Some v)
    = match cap_get r i with
      | Some c => if decide (version_same (cap_version c) v = Some true) then [c] else []
      | None => []
      end.
Proof.
  intros [Hwf Hids]%cap_star_inv. unfold get_compatible, cap_get. split.
  - by destruct (dict_get i r).
  - rewrite filter_by_id; [by destruct (dict_get i r)|done|].
    intros k c Hc%dict_elem_get; [|done]. by apply Hids in Hc as [-> _].
Qed.

Lemma get_compatible_exact_witness :
  let same a b := Some (String.eqb a b) in
  let r := snd (cap_register CHAT_STREAM []) in
  get_compatible same r "chat.stream" None = [CHAT_STREAM]
  ∧ get_compatible same r "chat.stream" (Some "2.0")
    = match cap_get r "chat.stream" with
      | Some c => if decide (same (cap_version c) "2.0" = Some true) then [c] else []
      | None => []
      end.
Proof.
  cbv zeta. split; [vm_compute; reflexivity|].
  apply (get_compatible_exact (λ a b, Some (String.eqb a b)) _ "chat.stream" "2.0").
  eapply star_one, (cs_register CHAT_STREAM [] (Ok tt)). vm_compute; reflexivity.
Defined.

(** The catalog can be registered whole: every entry is valid and
    identifiers do not clash, so the registry built from it finds for every
    identifier what the catalog itself finds. *)
Theorem catalog_registers :
  ∃ r, CapabilityRegistry_new catalog_all = Ok r
    ∧ ∀ i, cap_get r i = catalog_by_id i.
Proof.
  exists (map (λ c, (cap_id c, c)) catalog_all). split.
  - unfold CapabilityRegistry_new. rewrite register_all_fresh; [done| | |done].
    + by repeat constructor.
    + apply (bool_decide_unpack _). vm_compute. exact I.
  - intros i. apply dict_get_by_id.
Qed.
