(* ===== verification/PolicyEngine.v ===== *)
(** * Policy engine ([control_plane/policy/engine.py], [cache.py], [resolver.py],
    [core/policies/policy.py]) and its adapter to the runtime
    ([control_plane/adapters/to_kernel/policy.py])

    Rules matched by target and ordered by priority, with a cache of decisions.
    A decision dictionary is a record of its three keys. [sha16] stands for the
    first sixteen hexadecimal digits of SHA-256, [fnmatch] for the standard
    library's glob matching, [fresh] for the twelve hexadecimal digits of a new
    policy identifier; [clock n] is the engine's [n]-th reading of the time. *)
From S2P Require Import Prelude PyStr PyDict PyVal Tenant Capabilities Abi.

Inductive PolicyEffect := PE_ALLOW | PE_DENY | PE_REQUIRE_APPROVAL.
Inductive PolicyStatus := PS_ACTIVE | PS_INACTIVE | PS_DEPRECATED.

#[export] Instance PolicyEffect_eq_dec : EqDecision PolicyEffect.
Proof. solve_decision. Defined.
#[export] Instance PolicyStatus_eq_dec : EqDecision PolicyStatus.
Proof. solve_decision. Defined.

Definition PolicyEffect_value (e : PolicyEffect) : string :=
  match e with
  | PE_ALLOW => "ALLOW" | PE_DENY => "DENY" | PE_REQUIRE_APPROVAL => "REQUIRE_APPROVAL"
  end.

(** [PolicyEffect(effect)] *)
Definition PolicyEffect_of (s : string) : outcome PolicyEffect :=
  if decide (s = "ALLOW") then Ok PE_ALLOW
  else if decide (s = "DENY") then Ok PE_DENY
  else if decide (s = "REQUIRE_APPROVAL") then Ok PE_REQUIRE_APPROVAL
  else Raise (mkExn "ValueError" (str_repr s +:+ " is not a valid PolicyEffect")).

Definition PolicyStatus_value (s : PolicyStatus) : string :=
  match s with
  | PS_ACTIVE => "ACTIVE" | PS_INACTIVE => "INACTIVE" | PS_DEPRECATED => "DEPRECATED"
  end.

Record PolicyRule := mkRule {
  pr_policy_id : string;
  pr_tenant_id : string;
  pr_name : string;
  pr_target : string;
  pr_effect : PolicyEffect;
  pr_condition : option string;
  pr_priority : Z;
  pr_status : PolicyStatus;
  pr_created_at : option Z;
  pr_updated_at : option Z;
  pr_required_capabilities : list string
}.

Definition PolicyRule_validate (r : PolicyRule) : list string :=
  check (truthy (pr_policy_id r)) "policy_id is required"
  ++ check (truthy (pr_target r)) "target is required (e.g. 'mcp.database.*')"
  ++ check (truthy (pr_name r)) "name is required".

Definition PolicyRule_is_valid (r : PolicyRule) : bool :=
  (length (PolicyRule_validate r) =? 0)%nat.

Record PolicyEvaluation := mkEvaluation {
  pv_request_id : string;
  pv_decision : PolicyEffect;
  pv_matched_rule : option string;
  pv_reason : string;
  pv_audit_log_ref : option string
}.

Definition is_allowed (e : PolicyEvaluation) : bool := bool_decide (pv_decision e = PE_ALLOW).
Definition is_denied (e : PolicyEvaluation) : bool := bool_decide (pv_decision e = PE_DENY).
Definition requires_approval (e : PolicyEvaluation) : bool :=
  bool_decide (pv_decision e = PE_REQUIRE_APPROVAL).

(** The decision dictionary; a missing key is [None]. *)
Record PolicyDecision := mkDecision {
  pd_decision : option string;
  pd_matched_rule : option string;
  pd_reason : option string
}.

#[export] Instance PolicyDecision_eq_dec : EqDecision PolicyDecision.
Proof. solve_decision. Defined.

(** ** Target matching *)

Definition _target_matches (target resource : string) : bool :=
  if decide (target = "*") then true
  else if str_endswith ".*" target then
    let prefix := str_take (str_len target - 2) target in
    bool_decide (resource = prefix) || str_startswith (prefix +:+ ".") resource
  else bool_decide (target = resource).

(** ** Cache *)

Definition PolicyCache : Type := dict (PolicyDecision * Z).

Definition cache_ttl : Z := (300 * usec_per_sec)%Z.

Definition cache_get (now : Z) (key : string) (c : PolicyCache)
    : option PolicyDecision * PolicyCache :=
  match dict_get key c with
  | None => (None, c)
  | Some (value, expires) =>
      if (now >=? expires)%Z then (None, dict_del key c) else (Some value, c)
  end.

(** [min(items, key=expiry)]: the first of the entries that expire soonest. *)
Fixpoint oldest (c : PolicyCache) : option (string * Z) :=
  match c with
  | [] => None
  | (k, (_, t)) :: c' =>
      match oldest c' with
      | Some (k', t') => if (t <=? t')%Z then Some (k, t) else Some (k', t')
      | None => Some (k, t)
      end
  end.

Definition cache_set (now : Z) (key : string) (value : PolicyDecision) (c : PolicyCache)
    : PolicyCache :=
  let c1 := if (10000 <=? Z.of_nat (length c))%Z then
              match oldest c with Some (k, _) => dict_del k c | None => c end
            else c in
  dict_set key (value, (now + cache_ttl)%Z) c1.

Definition cache_invalidate (fnmatch : string → string → bool) (pattern : option string)
    (c : PolicyCache) : PolicyCache :=
  match pattern with
  | None => []
  | Some p => filter (λ kv, fnmatch kv.1 p = false) c
  end.

(** ** Engine *)

Record PolicyEngine := mkEngine {
  pe_policies : dict PolicyRule;
  pe_capability_registry : option CapabilityRegistry;
  pe_cache : PolicyCache;
  pe_ticks : nat
}.

Definition PolicyEngine_new (registry : option CapabilityRegistry) : PolicyEngine :=
  mkEngine [] registry [] 0.

Definition sort_by_priority : list PolicyRule → list PolicyRule :=
  py_sorted (λ a b, (pr_priority a <=? pr_priority b)%Z).

(** An active rule whose target matches. *)
Definition applies (resource : string) (r : PolicyRule) : Prop :=
  pr_status r = PS_ACTIVE ∧ _target_matches (pr_target r) resource = true.

#[export] Instance applies_dec resource r : Decision (applies resource r).
Proof. unfold applies. apply _. Defined.

Definition default_decision : PolicyDecision :=
  mkDecision (Some "ALLOW") None (Some "No matching policy rule found").

Definition rule_decision (best : PolicyRule) : PolicyDecision :=
  mkDecision (Some (PolicyEffect_value (pr_effect best))) (Some (pr_policy_id best))
    (Some ("Matched rule: " +:+ pr_name best)).

Definition deny (reason : string) : PolicyDecision := mkDecision (Some "DENY") None (Some reason).

(** From [matching_rules] to the result. *)
Definition best_decision (matching_rules : list PolicyRule) : PolicyDecision :=
  match matching_rules with
  | [] => default_decision
  | _ => match sort_by_priority matching_rules with
         | best :: _ => rule_decision best
         | [] => default_decision
         end
  end.

Section Engine.
Variable clock : nat → Z.
Variable sha16 : string → string.

Definition _make_cache_key (agent_id action resource : string)
    (required_capabilities : option (gset string)) : string :=
  let caps := match required_capabilities with
              | Some s => if decide (s = ∅) then ε else sha16 (str_join "," (sorted_set s))
              | None => ε
              end in
  str_join "|" [agent_id; action; resource; caps].

Definition pe_now : M PolicyEngine Z := λ e,
  (Ok (clock (pe_ticks e)),
   mkEngine (pe_policies e) (pe_capability_registry e) (pe_cache e) (S (pe_ticks e))).

Definition put_cache (c : PolicyCache) (e : PolicyEngine) : PolicyEngine :=
  mkEngine (pe_policies e) (pe_capability_registry e) c (pe_ticks e).

(** [self._cache.get(key)] *)
Definition lookup_decision (key : string) : M PolicyEngine (option PolicyDecision) :=
  now ← pe_now;
  c ← read pe_cache;
  let '(cached, c') := cache_get now key c in
  modify (put_cache c') ;;
  mret cached.

(** [self._cache.set(key, result)] *)
Definition store_decision (key : string) (result : PolicyDecision) : M PolicyEngine unit :=
  now ← pe_now;
  modify (λ e, put_cache (cache_set now key result (pe_cache e)) e).

Definition evaluate (agent_id action resource : string) : M PolicyEngine PolicyDecision :=
  let key := _make_cache_key agent_id action resource None in
  cached ← lookup_decision key;
  match cached with
  | Some result => mret result
  | None =>
      policies ← read pe_policies;
      let result := best_decision (filter (applies resource) (dict_values policies)) in
      store_decision key result ;;
      mret result
  end.

(** The loop of [evaluate_with_capabilities] over the policies: a rule that
    applies but lacks a capability ends it with a denial. *)
Fixpoint collect_rules (registry : option CapabilityRegistry) (resource : string)
    (rules : list PolicyRule) (matching : list PolicyRule)
    : PolicyDecision + list PolicyRule :=
  match rules with
  | [] => inr matching
  | r :: rules' =>
      if decide (applies resource r) then
        match pr_required_capabilities r with
        | [] => collect_rules registry resource rules' (matching ++ [r])
        | caps =>
            match registry with
            | None => inl (deny "Capability registry not available for capability validation")
            | Some reg =>
                match filter (λ c, cap_contains reg c = false) caps with
                | c :: _ => inl (deny ("Capability not registered: " +:+ c))
                | [] => collect_rules registry resource rules' (matching ++ [r])
                end
            end
        end
      else collect_rules registry resource rules' matching
  end.

(** [required_capabilities] is a frozenset: [caps] lists it in the order its
    iteration has. *)
Definition evaluate_with_capabilities (resource : string) (caps : list string)
    : M PolicyEngine PolicyDecision :=
  registry ← read pe_capability_registry;
  match from_option (λ reg, filter (λ c, cap_contains reg c = false) caps) [] registry with
  | c :: _ => mret (deny ("Capability not registered: " +:+ c))
  | [] =>
      let key := _make_cache_key ε ε resource (Some (list_to_set caps)) in
      cached ← lookup_decision key;
      match cached with
      | Some result => mret result
      | None =>
          policies ← read pe_policies;
          match collect_rules registry resource (dict_values policies) [] with
          | inl result => mret result
          | inr matching =>
              let result := best_decision matching in
              store_decision key result ;;
              mret result
          end
      end
  end.

(** [fresh] is the identifier [_generate_policy_id] draws. *)
Definition create_policy (fresh name target effect : string) (condition : option string)
    : M PolicyEngine string :=
  let policy_id := "pol-" +:+ fresh in
  effect ← of_outcome (PolicyEffect_of effect);
  let rule := mkRule policy_id "default" name target effect condition 100 PS_ACTIVE None None [] in
  modify (λ e, mkEngine (dict_set policy_id rule (pe_policies e)) (pe_capability_registry e)
                 [] (pe_ticks e)) ;;
  mret policy_id.

Definition list_policies (e : PolicyEngine) : list (dict pyval) :=
  map (λ r, [ ("policy_id", VStr (pr_policy_id r));
              ("name", VStr (pr_name r));
              ("target", VStr (pr_target r));
              ("effect", VStr (PolicyEffect_value (pr_effect r)));
              ("priority", VInt (pr_priority r));
              ("status", VStr (PolicyStatus_value (pr_status r))) ])
    (dict_values (pe_policies e)).

(** ** Adapter to the runtime's contract *)

(** The reading of a decision that both adapter methods make. *)
Definition parse_decision (default_reason : string) (result : PolicyDecision)
    : bool * option string :=
  match pd_decision result with
  | None => (false, Some "Malformed policy result: missing decision")
  | Some decision =>
      if decide (decision = "ALLOW") then (true, None)
      else
        let reason := default default_reason (pd_reason result) in
        (false, Some (if truthy_opt (pd_matched_rule result)
                      then "[" +:+ default ε (pd_matched_rule result) +:+ "] " +:+ reason
                      else reason))
  end.

Definition adapter_evaluate_intent (intent : Intent) : M PolicyEngine (bool * option string) :=
  result ← evaluate (in_agent_id intent) (in_action intent) (in_action intent);
  mret (parse_decision "Policy denied the intent" result).

Definition adapter_check_capability (action agent_id : string)
    : M PolicyEngine (bool * option string) :=
  result ← evaluate agent_id action action;
  mret (parse_decision "Policy denied the capability" result).

#[export] Instance policy_engine_adapter : PolicyEvaluator PolicyEngine := {
  evaluate_intent := adapter_evaluate_intent;
  check_capability := adapter_check_capability
}.
End Engine.

(** ** Resolver *)

Record CapabilityValidationResult := mkValidation {
  vr_valid : bool;
  vr_missing : list string
}.

Definition validate_required (registry : CapabilityRegistry) (required : list string)
    : CapabilityValidationResult :=
  let missing := filter (λ c, cap_contains registry c = false) required in
  mkValidation (length missing =? 0)%nat missing.

Definition resolve (registry : CapabilityRegistry) (ids : list string) : list Capability :=
  omap (λ i, cap_get registry i) ids.

Definition resolver_is_registered (registry : CapabilityRegistry) (i : string) : bool :=
  cap_contains registry i.

(** ** What a decision should be *)

(** The rule with the least priority among those that apply, the first one on a
    tie; [ALLOW] when none applies. Stated on the rules in insertion order. *)
Inductive decides (rules : list PolicyRule) (resource : string) : PolicyDecision → Prop :=
| dec_default :
    Forall (λ r, ¬ applies resource r) rules →
    decides rules resource default_decision
| dec_rule before best after :
    rules = before ++ best :: after →
    applies resource best →
    Forall (λ r, applies resource r → (pr_priority best < pr_priority r)%Z) before →
    Forall (λ r, applies resource r → (pr_priority best ≤ pr_priority r)%Z) after →
    decides rules resource (rule_decision best).

(** An element of a filtered list splits the list itself. *)
Lemma filter_split {A} (P : A → Prop) `{!∀ x, Decision (P x)} (l : list A) f1 x f2 :
  filter P l = f1 ++ x :: f2 →
  ∃ l1 l2, l = l1 ++ x :: l2 ∧ filter P l1 = f1 ∧ filter P l2 = f2.
Proof.
  revert f1. induction l as [|y l IH]; intros f1; [by destruct f1|].
  rewrite filter_cons. case_decide as Hy.
  - destruct f1 as [|z f1]; simpl.
    + intros [= -> <-]. by exists [], l.
    + intros [= -> Hf]. destruct (IH _ Hf) as (l1 & l2 & -> & <- & <-).
      exists (z :: l1), l2. by rewrite filter_cons_True.
  - intros Hf. destruct (IH _ Hf) as (l1 & l2 & -> & <- & <-).
    exists (y :: l1), l2. by rewrite filter_cons_False.
Qed.

Lemma Forall_filter_imp {A} (P Q : A → Prop) `{!∀ x, Decision (P x)} l :
  Forall Q (filter P l) → Forall (λ x, P x → Q x) l.
Proof.
  rewrite !Forall_forall. intros Hq x Hx HP. apply Hq. by apply list_elem_of_filter.
Qed.

Lemma best_decision_decides rules resource :
  decides rules resource (best_decision (filter (applies resource) rules)).
Proof.
  unfold best_decision. destruct (filter (applies resource) rules) as [|r0 rs] eqn:Hf.
  - constructor. apply Forall_forall. intros r Hr Ha.
    assert (r ∈ filter (applies resource) rules) as Hin by (by apply list_elem_of_filter).
    rewrite Hf in Hin. by apply not_elem_of_nil in Hin.
  - destruct (sort_by_priority (r0 :: rs)) as [|best l'] eqn:Hs.
    { pose proof (py_sorted_perm (λ a b, (pr_priority a <=? pr_priority b)%Z) (r0 :: rs)) as Hp.
      fold sort_by_priority in Hp. rewrite Hs in Hp. by apply Permutation_nil_cons in Hp. }
    apply py_sorted_head in Hs as (f1 & f2 & Hl & H1 & H2).
    2:{ intros x y. rewrite !Z.leb_le. lia. }
    2:{ intros x y z. rewrite !Z.leb_le. lia. }
    rewrite Hl in Hf. pose proof (filter_split _ _ _ _ _ Hf) as (l1 & l2 & -> & Hf1 & Hf2).
    apply (dec_rule _ _ l1 best l2); [done| | |].
    + assert (best ∈ filter (applies resource) (l1 ++ best :: l2)) as Hin
        by (rewrite Hf; set_solver).
      by apply list_elem_of_filter in Hin as [? _].
    + apply (@Forall_filter_imp _ (applies resource) _ _ l1). rewrite Hf1. eapply Forall_impl; [exact H1|].
      intros r Hr. apply Z.leb_gt in Hr. lia.
    + apply (@Forall_filter_imp _ (applies resource) _ _ l2). rewrite Hf2. eapply Forall_impl; [exact H2|].
      intros r Hr. by apply Z.leb_le in Hr.
Qed.

(** The best rule is unique, so a decision is a function of the rules. *)
Lemma decides_fun rules resource d :
  decides rules resource d → d = best_decision (filter (applies resource) rules).
Proof.
  intros Hd. pose proof (best_decision_decides rules resource) as Hd'.
  generalize dependent (best_decision (filter (applies resource) rules)). intros d' Hd'.
  destruct Hd as [Hn|b best a Hl Ha H1 H2], Hd' as [Hn'|b' best' a' Hl' Ha' H1' H2'];
    [done|exfalso..|].
  - subst rules. apply Forall_app in Hn as [_ Hn]. by apply Forall_cons in Hn as [? _].
  - subst rules. apply Forall_app in Hn' as [_ Hn]. by apply Forall_cons in Hn as [? _].
  - f_equal. subst rules.
    destruct (app_eq_inv _ _ _ _ Hl') as [(k & Hb & Hk)|(k & Hb & Hk)];
      destruct k as [|r k]; simplify_eq/=; try done.
    + exfalso. apply Forall_app in H1 as [_ H1]. apply Forall_cons in H1 as [H1 _].
      apply Forall_app in H2' as [_ H2']. apply Forall_cons in H2' as [H2' _].
      specialize (H1 Ha'). specialize (H2' Ha). lia.
    + exfalso. apply Forall_app in H1' as [_ H1']. apply Forall_cons in H1' as [H1' _].
      apply Forall_app in H2 as [_ H2]. apply Forall_cons in H2 as [H2 _].
      specialize (H1' Ha). specialize (H2 Ha'). lia.
Qed.

(** ** Cache keys *)

Definition bar : Ascii.ascii := Ascii.ascii_of_nat 124.

Fixpoint bar_free (s : string) : bool :=
  match s with ε => true | String c s' => bool_decide (c ≠ bar) && bar_free s' end.

Lemma bar_split a a' s s' :
  bar_free a = true → bar_free a' = true →
  a +:+ String bar s = a' +:+ String bar s' → a = a' ∧ s = s'.
Proof.
  revert a'. induction a as [|c a IH]; intros [|c' a']; simpl; intros Ha Ha' Heq; b2p;
    simplify_eq; try done.
  by destruct (IH a' ltac:(done) ltac:(done) ltac:(done)) as [-> ->].
Qed.

Lemma key_inj a b c d a' b' c' d' :
  bar_free a = true → bar_free b = true → bar_free c = true →
  bar_free a' = true → bar_free b' = true → bar_free c' = true →
  str_join "|" [a; b; c; d] = str_join "|" [a'; b'; c'; d'] →
  a = a' ∧ b = b' ∧ c = c' ∧ d = d'.
Proof.
  intros Ha Hb Hc Ha' Hb' Hc'. change (str_join "|" [a; b; c; d])
    with (a +:+ String bar (b +:+ String bar (c +:+ String bar d))).
  change (str_join "|" [a'; b'; c'; d'])
    with (a' +:+ String bar (b' +:+ String bar (c' +:+ String bar d'))).
  intros [-> [-> [-> ->]%bar_split]%bar_split]%bar_split; done.
Qed.

Section Coherence.
Variable clock : nat → Z.
Variable sha16 : string → string.

(** Every cached decision is the one its resource would be given now. *)
Definition coherent (e : PolicyEngine) : Prop := ∀ key v t,
  dict_get key (pe_cache e) = Some (v, t) →
  ∃ a act res cp, bar_free a = true ∧ bar_free act = true ∧ bar_free res = true
    ∧ key = str_join "|" [a; act; res; cp] ∧ decides (dict_values (pe_policies e)) res v.

Definition same_rules (e e' : PolicyEngine) : Prop :=
  pe_policies e' = pe_policies e ∧ pe_capability_registry e' = pe_capability_registry e.

Lemma lookup_decision_spec key e : ∃ cached e',
  lookup_decision clock key e = (Ok cached, e') ∧ same_rules e e'
  ∧ (coherent e → coherent e')
  ∧ ∀ v, cached = Some v → ∃ t, dict_get key (pe_cache e) = Some (v, t).
Proof.
  unfold lookup_decision, pe_now, cache_get. m_unfold. cbn [pe_cache].
  destruct (dict_get key (pe_cache e)) as [[v t]|] eqn:Hk.
  - destruct (clock (pe_ticks e) >=? t)%Z; eexists _, _; (split_and!; [reflexivity|done|..]).
    + intros Hc k v' t'. simpl. rewrite dict_get_del. case_decide; [done|apply Hc].
    + done.
    + done.
    + intros ? [= <-]. eauto.
  - eexists _, _. split_and!; [reflexivity|done|done|done].
Qed.

Lemma dict_del_get_some {V} k k' (d : dict V) v :
  dict_get k (dict_del k' d) = Some v → dict_get k d = Some v.
Proof. rewrite dict_get_del. by case_decide. Qed.

Lemma store_decision_spec a act res cp v e :
  bar_free a = true → bar_free act = true → bar_free res = true →
  decides (dict_values (pe_policies e)) res v → coherent e →
  ∃ e', store_decision clock (str_join "|" [a; act; res; cp]) v e = (Ok tt, e')
    ∧ same_rules e e' ∧ coherent e'.
Proof.
  intros Ha Hact Hres Hd Hc. unfold store_decision, pe_now. m_unfold.
  eexists. split_and!; [reflexivity|done|]. intros k v' t'. simpl. unfold cache_set.
  rewrite dict_get_set. case_decide as Hk.
  - intros [= <- <-]. exists a, act, res, cp. by subst.
  - intros Hg. apply (Hc k v' t'). revert Hg.
    destruct (_ <=? _)%Z; [|done]. destruct (oldest _) as [[k' ?]|]; [|done].
    apply dict_del_get_some.
Qed.

Lemma evaluate_spec a act res e :
  bar_free a = true → bar_free act = true → bar_free res = true → coherent e →
  ∃ d e', evaluate clock sha16 a act res e = (Ok d, e') ∧ same_rules e e' ∧ coherent e'
    ∧ decides (dict_values (pe_policies e)) res d.
Proof.
  intros Ha Hact Hres Hc. unfold evaluate.
  set (key := _make_cache_key sha16 a act res None).
  assert (key = str_join "|" [a; act; res; ε]) as Hkey by done.
  destruct (lookup_decision_spec key e) as (cached & e1 & Hl & [Hp1 Hr1] & Hc1 & Hv).
  rewrite (bind_ok _ _ _ _ _ Hl). destruct cached as [v|].
  - exists v, e1. split_and!; [done|done|auto|].
    destruct (Hv v eq_refl) as (t & Ht).
    destruct (Hc _ _ _ Ht) as (a' & act' & res' & cp' & Ha' & Hact' & Hres' & Hk & Hd).
    rewrite Hkey in Hk. by apply key_inj in Hk as (_ & _ & -> & _).
  - rewrite (bind_ok _ _ e1 (pe_policies e1) e1) by done.
    pose proof (best_decision_decides (dict_values (pe_policies e1)) res) as Hd.
    destruct (store_decision_spec a act res ε _ e1 Ha Hact Hres Hd (Hc1 Hc))
      as (e2 & Hs & [Hp2 Hr2] & Hc2).
    rewrite Hkey, (bind_ok _ _ _ _ _ Hs). eexists _, e2.
    split_and!; [reflexivity|split; congruence|done|]. by rewrite <- Hp1.
Qed.

Lemma collect_rules_all registry res rules acc m :
  collect_rules registry res rules acc = inr m → m = acc ++ filter (applies res) rules.
Proof.
  revert acc. induction rules as [|r rules IH]; intros acc; simpl.
  - intros [= <-]. by rewrite app_nil_r.
  - rewrite filter_cons. case_decide; [|apply IH].
    repeat (case_match; try done); intros ->%IH; by rewrite <- app_assoc.
Qed.

Lemma evaluate_caps_coherent res caps e o e' :
  bar_free res = true → coherent e →
  evaluate_with_capabilities clock sha16 res caps e = (o, e') →
  coherent e' ∧ same_rules e e'.
Proof.
  intros Hres Hc. unfold evaluate_with_capabilities.
  rewrite (bind_ok _ _ e (pe_capability_registry e) e) by done.
  destruct (from_option _ _ _) as [|c cs]; [|by intros [= <- <-]].
  set (key := _make_cache_key _ _ _ _ _).
  assert (∃ cp, key = str_join "|" [ε; ε; res; cp]) as (cp & Hkey)
    by (eexists; reflexivity).
  destruct (lookup_decision_spec key e) as (cached & e1 & Hl & [Hp1 Hr1] & Hc1 & _).
  rewrite (bind_ok _ _ _ _ _ Hl). destruct cached as [v|].
  { intros [= <- <-]. split; [auto|done]. }
  rewrite (bind_ok _ _ e1 (pe_policies e1) e1) by done.
  destruct (collect_rules _ _ _ _) as [d|m] eqn:Hm.
  { intros [= <- <-]. split; [auto|done]. }
  apply collect_rules_all in Hm. simpl in Hm. subst m.
  pose proof (best_decision_decides (dict_values (pe_policies e1)) res) as Hd.
  destruct (store_decision_spec ε ε res cp _ e1 eq_refl eq_refl Hres Hd (Hc1 Hc))
    as (e2 & Hs & [Hp2 Hr2] & Hc2).
  rewrite Hkey, (bind_ok _ _ _ _ _ Hs). intros [= <- <-].
  split; [done|split; congruence].
Qed.

Definition put_registry (r : option CapabilityRegistry) (e : PolicyEngine) : PolicyEngine :=
  mkEngine (pe_policies e) r (pe_cache e) (pe_ticks e).

(** The operations on an engine, with arguments that hold no bar, and changes of
    the capability registry it shares. *)
Inductive policy_step : PolicyEngine → PolicyEngine → Prop :=
| ps_evaluate a act res e o e' :
    bar_free a = true → bar_free act = true → bar_free res = true →
    evaluate clock sha16 a act res e = (o, e') → policy_step e e'
| ps_evaluate_caps res caps e o e' :
    bar_free res = true →
    evaluate_with_capabilities clock sha16 res caps e = (o, e') → policy_step e e'
| ps_create fresh name target effect cond e o e' :
    create_policy fresh name target effect cond e = (o, e') → policy_step e e'
| ps_registry r e : policy_step e (put_registry r e).

Lemma policy_step_coherent e e' : coherent e → policy_step e e' → coherent e'.
Proof.
  intros Hc Hs. destruct Hs as [a act res e o e' Ha Hact Hres H|res caps e o e' Hres H
    |fresh name target effect cond e o e' H|r e].
  - destruct (evaluate_spec a act res e Ha Hact Hres Hc) as (d & e2 & He & _ & Hc2 & _).
    rewrite He in H. by simplify_eq.
  - by eapply evaluate_caps_coherent in H as [? _].
  - revert H. unfold create_policy. m_unfold.
    destruct (PolicyEffect_of effect); intros [= <- <-]; [|done]. by intros k v t.
  - done.
Qed.

Lemma coherent_star registry e : star policy_step (PolicyEngine_new registry) e → coherent e.
Proof.
  apply star_invariant; [intros x y; apply policy_step_coherent|]. by intros k v t.
Qed.
End Coherence.

(** ** Properties *)

(** C21: the cache never shows: after any operations with bar-free arguments, the
    decision for a resource is that of the active rule of least priority whose
    target matches it, the first created on a tie, and [ALLOW] when there is
    none; and it is the only decision the rules support. *)
Theorem policy_decision_exact (clock : nat → Z) (sha16 : string → string)
    (registry : option CapabilityRegistry) (e : PolicyEngine) (a act res : string) :
  star (policy_step clock sha16) (PolicyEngine_new registry) e →
  bar_free a = true → bar_free act = true → bar_free res = true →
  ∃ d e', evaluate clock sha16 a act res e = (Ok d, e')
    ∧ decides (dict_values (pe_policies e)) res d
    ∧ ∀ d', decides (dict_values (pe_policies e)) res d' → d' = d.
Proof.
  intros He Ha Hact Hres. apply coherent_star in He.
  destruct (evaluate_spec clock sha16 a act res e Ha Hact Hres He) as (d & e' & Hd & _ & _ & Hdec).
  exists d, e'. split_and!; [done|done|]. intros d' Hd'.
  by rewrite (decides_fun _ _ _ Hdec), (decides_fun _ _ _ Hd').
Qed.

Definition demo_engine : PolicyEngine :=
  snd (create_policy "b" "no writes" "mcp.db.*" "DENY" None
         (snd (create_policy "a" "reads" "mcp.db.read" "ALLOW" None (PolicyEngine_new None)))).

Lemma policy_decision_exact_witness :
  fst (evaluate (λ _, 0%Z) (λ s, s) "a1" "call" "mcp.db.write" demo_engine)
  = Ok (mkDecision (Some "DENY") (Some "pol-b") (Some "Matched rule: no writes"))
  ∧ ∃ d e', evaluate (λ _, 0%Z) (λ s, s) "a1" "call" "mcp.db.read" demo_engine = (Ok d, e')
    ∧ decides (dict_values (pe_policies demo_engine)) "mcp.db.read" d
    ∧ ∀ d', decides (dict_values (pe_policies demo_engine)) "mcp.db.read" d' → d' = d.
Proof.
  split; [vm_compute; reflexivity|].
  apply (policy_decision_exact (λ _, 0%Z) (λ s, s) None); [|reflexivity..].
  eapply star_step, star_one.
  - eapply (ps_create _ _ "a" "reads" "mcp.db.read" "ALLOW" None). apply surjective_pairing.
  - eapply (ps_create _ _ "b" "no writes" "mcp.db.*" "DENY" None). apply surjective_pairing.
Defined.

(** A bar in an argument makes two questions share a key: the decision for
    resource ["y"], which no rule targets, answers for resource ["x|y"], which
    a rule denies. *)
Example cache_key_collision :
  let deny := create_policy "a" "no" "x|y" "DENY" None (PolicyEngine_new None) in
  let first := evaluate (λ _, 0%Z) (λ s, s) "a1" "act|x" "y" (snd deny) in
  fst (evaluate (λ _, 0%Z) (λ s, s) "a1" "act" "x|y" (snd first)) = Ok default_decision
  ∧ _target_matches "x|y" "x|y" = true.
Proof. vm_compute. done. Qed.
