(* ===== verification/Lifecycle.v ===== *)
(** * Execution lifecycle of the control plane

    [control_plane/orchestrator/state_machine.py],
    [control_plane/orchestrator/coordinator.py] and
    [control_plane/lifecycle/manager.py]: the state machine of an agent
    execution with its audit trail, the step coordinator and the lifecycle
    manager. A state machine is a mutable object kept in the manager's
    dictionary; the manager works on it in place. The agent registry the
    manager asks is an abstract class without an implementation in the
    repository: a class over an arbitrary state here. The timestamp of a
    transition is read from a clock stream when the record is made. *)
From S2P Require Import Prelude PyStr PyDict PyVal.

(** ** States, records, legal transitions *)

Inductive ExecutionStatus :=
| ST_PENDING | ST_RUNNING | ST_PAUSED | ST_RESUMING | ST_COMPLETED | ST_FAILED.

#[export] Instance ExecutionStatus_eq_dec : EqDecision ExecutionStatus.
Proof. solve_decision. Defined.

Definition ExecutionStatus_value (s : ExecutionStatus) : string :=
  match s with
  | ST_PENDING => "PENDING"
  | ST_RUNNING => "RUNNING"
  | ST_PAUSED => "PAUSED"
  | ST_RESUMING => "RESUMING"
  | ST_COMPLETED => "COMPLETED"
  | ST_FAILED => "FAILED"
  end.

Record StateTransition := mkTransition {
  tr_from_state : ExecutionStatus;
  tr_to_state : ExecutionStatus;
  tr_reason : string;
  tr_actor : string;
  tr_timestamp : Z;
  tr_metadata : dict pyval
}.

Definition LEGAL_TRANSITIONS (s : ExecutionStatus) : list ExecutionStatus :=
  match s with
  | ST_PENDING => [ST_RUNNING; ST_FAILED]
  | ST_RUNNING => [ST_PAUSED; ST_COMPLETED; ST_FAILED]
  | ST_PAUSED => [ST_RESUMING; ST_FAILED]
  | ST_RESUMING => [ST_RUNNING; ST_FAILED]
  | ST_COMPLETED => []
  | ST_FAILED => []
  end.

Definition InvalidTransitionError (from_state to_state : ExecutionStatus) : exn :=
  mkExn "InvalidTransitionError"
    ("Invalid transition: " +:+ ExecutionStatus_value from_state +:+ " → "
     +:+ ExecutionStatus_value to_state).

Record ExecutionStateMachine := mkMachine {
  sm_current_state : ExecutionStatus;
  sm_history : list StateTransition
}.

Definition ExecutionStateMachine_new (initial_state : ExecutionStatus) : ExecutionStateMachine :=
  mkMachine initial_state [].

Definition can_transition (sm : ExecutionStateMachine) (target : ExecutionStatus) : bool :=
  bool_decide (target ∈ LEGAL_TRANSITIONS (sm_current_state sm)).

Definition transition (now : Z) (target : ExecutionStatus) (reason actor : string)
    (metadata : option (dict pyval)) : M ExecutionStateMachine StateTransition :=
  sm ← read (λ sm, sm);
  if negb (can_transition sm target) then
    raise (InvalidTransitionError (sm_current_state sm) target)
  else
    let record := mkTransition (sm_current_state sm) target reason actor now
                    (default [] metadata) in
    modify (λ sm, mkMachine target (sm_history sm ++ [record])) ;;
    mret record.

(** ** The step coordinator *)

Inductive StepAction :=
| SA_EXECUTE | SA_PAUSE_FOR_APPROVAL | SA_CHECKPOINT | SA_COMPLETE | SA_FAIL.

#[export] Instance StepAction_eq_dec : EqDecision StepAction.
Proof. solve_decision. Defined.

Record StepPlan := mkPlan {
  pl_action : StepAction;
  pl_execution_id : string;
  pl_step_number : Z;
  pl_reason : string;
  pl_metadata : option (dict pyval)
}.

(** The coordinator's only state is [max_steps], 100 by default. *)
Definition StepCoordinator_default : Z := 100.

Definition plan_step (max_steps : Z) (execution_id : string) (step_number : Z) (goal : string)
    (budget_remaining : Q) (allowed_tools : list string) : StepPlan :=
  if (step_number >=? max_steps)%Z then
    mkPlan SA_COMPLETE execution_id step_number "max_steps_reached" None
  else if (Qnum budget_remaining <=? 0)%Z then
    mkPlan SA_PAUSE_FOR_APPROVAL execution_id step_number "budget_exceeded" None
  else if bool_decide (allowed_tools = []) then
    mkPlan SA_COMPLETE execution_id step_number "no_tools_available" None
  else mkPlan SA_EXECUTE execution_id step_number "ready_to_execute" None.

Definition validate_step_prerequisites (current_state : string) (step_number max_steps : Z)
    : bool * string :=
  if negb (bool_decide (current_state ∈ ["RUNNING"; "RESUMING"])) then
    (false, "Cannot execute step in state: " +:+ current_state)
  else if (step_number >=? max_steps)%Z then (false, "Step limit exceeded")
  else (true, "prerequisites_met").

(** ** The lifecycle manager *)

Class AgentRegistry (E : Type) := {
  registry_get_instance : string → M E (option (dict pyval))
}.

Definition AgentInstanceNotFoundError (instance_id : string) : exn :=
  mkExn "AgentInstanceNotFoundError" ("Agent instance not found: " +:+ instance_id).

Record LifecycleManager (E : Type) := mkLifecycle {
  lm_registry : E;
  lm_state_machines : dict ExecutionStateMachine;
  lm_ticks : nat
}.
Arguments mkLifecycle {E}.
Arguments lm_registry {E}.
Arguments lm_state_machines {E}.
Arguments lm_ticks {E}.

Section Manager.
Context {E : Type} `{!AgentRegistry E}.
Variable clock : nat → Z.
Implicit Types lm : LifecycleManager E.

Definition LifecycleManager_new (e : E) : LifecycleManager E := mkLifecycle e [] 0.

Definition on_registry {A} (m : M E A) : M (LifecycleManager E) A :=
  zoom lm_registry (λ e lm, mkLifecycle e (lm_state_machines lm) (lm_ticks lm)) m.

Definition lm_now : M (LifecycleManager E) Z := λ lm,
  (Ok (clock (lm_ticks lm)), mkLifecycle (lm_registry lm) (lm_state_machines lm) (S (lm_ticks lm))).

Definition put_machine (x : string) (sm : ExecutionStateMachine) lm : LifecycleManager E :=
  mkLifecycle (lm_registry lm) (dict_set x sm (lm_state_machines lm)) (lm_ticks lm).

(** The machine of an execution, made on first use. *)
Definition _get_state_machine (execution_id : string)
    : M (LifecycleManager E) ExecutionStateMachine := λ lm,
  match dict_get execution_id (lm_state_machines lm) with
  | Some sm => (Ok sm, lm)
  | None =>
      let sm := ExecutionStateMachine_new ST_PENDING in
      (Ok sm, put_machine execution_id sm lm)
  end.

(** Mutating the machine object the dictionary holds. *)
Definition on_machine {A} (execution_id : string) (m : M ExecutionStateMachine A)
    : M (LifecycleManager E) A :=
  sm ← _get_state_machine execution_id;
  (λ lm, let '(o, sm') := m sm in (o, put_machine execution_id sm' lm))
    : M (LifecycleManager E) A.

(** [if sm.can_transition(target): sm.transition(target, reason, actor, metadata)] *)
Definition move_if_legal (execution_id : string) (target : ExecutionStatus)
    (reason actor : string) (metadata : option (dict pyval)) : M (LifecycleManager E) unit :=
  sm ← _get_state_machine execution_id;
  when (can_transition sm target)
    (now ← lm_now;
     on_machine execution_id (transition now target reason actor metadata) ;;
     mret tt).

Definition lm_start_execution (instance_id goal : string) : M (LifecycleManager E) string :=
  instance ← on_registry (registry_get_instance instance_id);
  match instance with
  | None => raise (AgentInstanceNotFoundError instance_id)
  | Some _ =>
      let execution_id := "exec-" +:+ instance_id in
      move_if_legal execution_id ST_RUNNING "user_started" "lifecycle_manager"
        (Some [("instance_id", VStr instance_id); ("goal", VStr goal)]) ;;
      mret execution_id
  end.

Definition stop_execution (execution_id : string) : M (LifecycleManager E) unit :=
  sm ← _get_state_machine execution_id;
  if bool_decide (sm_current_state sm ∈ [ST_COMPLETED; ST_FAILED]) then mret tt
  else move_if_legal execution_id ST_FAILED "user_stopped" "lifecycle_manager" None.

Definition pause_execution (execution_id : string) : M (LifecycleManager E) unit :=
  move_if_legal execution_id ST_PAUSED "user_paused" "lifecycle_manager" None.

Definition resume_execution (execution_id : string) : M (LifecycleManager E) unit :=
  move_if_legal execution_id ST_RESUMING "user_resumed" "lifecycle_manager" None ;;
  move_if_legal execution_id ST_RUNNING "step_execution_started" "orchestrator" None.

Definition get_execution_status (execution_id : string) : M (LifecycleManager E) string :=
  sm ← _get_state_machine execution_id;
  mret (ExecutionStatus_value (sm_current_state sm)).

Definition transition_dict (t : StateTransition) : dict pyval :=
  [ ("from_state", VStr (ExecutionStatus_value (tr_from_state t)));
    ("to_state", VStr (ExecutionStatus_value (tr_to_state t)));
    ("reason", VStr (tr_reason t));
    ("actor", VStr (tr_actor t));
    ("timestamp", VStr (isoformat (tr_timestamp t))) ].

Definition get_transition_history (execution_id : string)
    : M (LifecycleManager E) (list (dict pyval)) :=
  sm ← _get_state_machine execution_id;
  mret (transition_dict <$> sm_history sm).

End Manager.

(** ** Paths of the state machine

    An audit trail is a path: each record starts where the one before ended
    and is a legal transition. *)
Inductive path : ExecutionStatus → list StateTransition → ExecutionStatus → Prop :=
| path_nil a : path a [] a
| path_cons a r rs b :
    tr_from_state r = a → tr_to_state r ∈ LEGAL_TRANSITIONS a →
    path (tr_to_state r) rs b → path a (r :: rs) b.

Lemma path_app a rs b rs' c : path a rs b → path b rs' c → path a (rs ++ rs') c.
Proof. induction 1; simpl; eauto using path. Qed.

Lemma path_terminal a rs b :
  LEGAL_TRANSITIONS a = [] → path a rs b → rs = [] ∧ b = a.
Proof. intros Ha. destruct 1 as [|a r rs b ? Hin]; [done|]. rewrite Ha in Hin. set_solver. Qed.

(** A machine grows into another when the trail is extended by a path. *)
Definition grows (sm sm' : ExecutionStateMachine) : Prop := ∃ tail,
  sm_history sm' = sm_history sm ++ tail
  ∧ path (sm_current_state sm) tail (sm_current_state sm').

#[export] Instance grows_preorder : PreOrder grows.
Proof.
  split.
  - intros sm. exists []. rewrite app_nil_r. auto using path.
  - intros s1 s2 s3 (t1 & H1 & P1) (t2 & H2 & P2). exists (t1 ++ t2).
    rewrite H2, H1, app_assoc. eauto using path_app.
Qed.

Lemma grows_terminal sm sm' :
  LEGAL_TRANSITIONS (sm_current_state sm) = [] → grows sm sm' → sm' = sm.
Proof.
  intros Ht (tail & Hh & [-> Hc]%path_terminal); [|done].
  rewrite app_nil_r in Hh. destruct sm, sm'; simpl in *. congruence.
Qed.

(** What [if can_transition: transition] makes of a machine. *)
Definition moved (now : Z) (target : ExecutionStatus) (reason actor : string)
    (metadata : option (dict pyval)) (sm : ExecutionStateMachine) : ExecutionStateMachine :=
  if can_transition sm target then
    mkMachine target (sm_history sm ++
      [mkTransition (sm_current_state sm) target reason actor now (default [] metadata)])
  else sm.

Lemma moved_grows now target reason actor metadata sm :
  grows sm (moved now target reason actor metadata sm).
Proof.
  unfold moved, can_transition. case_bool_decide as H; [|reflexivity].
  eexists. split; [reflexivity|]. econstructor; [done..|]. constructor.
Qed.

Lemma moved_status now target reason actor metadata sm :
  sm_current_state (moved now target reason actor metadata sm)
  = if can_transition sm target then target else sm_current_state sm.
Proof. unfold moved. by case_match. Qed.

Lemma can_transition_moved now target reason actor metadata sm target' :
  can_transition (moved now target reason actor metadata sm) target'
  = bool_decide (target' ∈ LEGAL_TRANSITIONS
                   (if can_transition sm target then target else sm_current_state sm)).
Proof. unfold can_transition at 1. by rewrite moved_status. Qed.

Lemma transition_moved now target reason actor metadata sm :
  transition now target reason actor metadata sm
  = (if can_transition sm target
     then Ok (mkTransition (sm_current_state sm) target reason actor now (default [] metadata))
     else Raise (InvalidTransitionError (sm_current_state sm) target),
     moved now target reason actor metadata sm).
Proof. unfold transition, moved. m_unfold. by destruct (can_transition sm target). Qed.

(** ** What an operation does to the manager *)

Section Effects.
Context {E : Type} `{!AgentRegistry E}.
Variable clock : nat → Z.
Implicit Types lm : LifecycleManager E.

Definition machine (x : string) lm : ExecutionStateMachine :=
  default (ExecutionStateMachine_new ST_PENDING) (dict_get x (lm_state_machines lm)).

(** Only the machine of one execution changes, by a given function. *)
Definition touches (x : string) (f : ExecutionStateMachine → ExecutionStateMachine) lm lm' : Prop :=
  lm_registry lm' = lm_registry lm
  ∧ ∀ y, dict_get y (lm_state_machines lm')
         = if decide (y = x) then Some (f (machine x lm))
           else dict_get y (lm_state_machines lm).

Lemma touches_trans x f g lm1 lm2 lm3 :
  touches x f lm1 lm2 → touches x g lm2 lm3 → touches x (λ sm, g (f sm)) lm1 lm3.
Proof.
  intros [R1 H1] [R2 H2]. split; [congruence|]. intros y. rewrite H2.
  case_decide; subst.
  - unfold machine at 1. rewrite H1. by rewrite decide_True.
  - rewrite H1. by rewrite decide_False.
Qed.

Lemma touches_machine x f lm lm' y :
  touches x f lm lm' → machine y lm' = if decide (y = x) then f (machine x lm) else machine y lm.
Proof. intros [_ H]. unfold machine at 1. rewrite H. by case_decide. Qed.

Lemma get_state_machine_ok x lm : ∃ lm',
  _get_state_machine x lm = (Ok (machine x lm), lm') ∧ touches x id lm lm'
  ∧ lm_ticks lm' = lm_ticks lm.
Proof.
  unfold _get_state_machine, touches, machine.
  destruct (dict_get x _) as [sm|] eqn:Hx; eexists; (split; [reflexivity|]);
    (split; [split; [done|]|done]); simpl; intros y.
  - case_decide; by subst.
  - rewrite dict_get_set. by case_decide.
Qed.

Lemma on_machine_ok {A} x (m : M ExecutionStateMachine A) lm : ∃ lm',
  on_machine x m lm = ((m (machine x lm)).1, lm')
  ∧ touches x (λ sm, (m sm).2) lm lm' ∧ lm_ticks lm' = lm_ticks lm.
Proof.
  destruct (get_state_machine_ok x lm) as (lm1 & Hg & [HR HT] & Ht).
  unfold on_machine. rewrite (bind_ok _ _ _ _ _ Hg).
  destruct (m (machine x lm)) as [o sm'] eqn:Hm. eexists. split; [reflexivity|].
  split; [|done]. split; [done|]. intros y. simpl. rewrite dict_get_set.
  case_decide; [by rewrite Hm|]. rewrite HT. by case_decide.
Qed.

Lemma move_if_legal_ok x target reason actor metadata lm : ∃ lm',
  move_if_legal clock x target reason actor metadata lm = (Ok tt, lm')
  ∧ touches x (moved (clock (lm_ticks lm)) target reason actor metadata) lm lm'.
Proof.
  destruct (get_state_machine_ok x lm) as (lm1 & Hg & HT & Ht).
  unfold move_if_legal. rewrite (bind_ok _ _ _ _ _ Hg).
  pose proof (touches_machine _ _ _ _ x HT) as Hm. rewrite decide_True in Hm by done.
  unfold when. destruct (can_transition _ _) eqn:Hc.
  - set (lm2 := mkLifecycle (lm_registry lm1) (lm_state_machines lm1) (S (lm_ticks lm1))).
    assert (lm_now clock lm1 = (Ok (clock (lm_ticks lm)), lm2)) as Hn
      by (unfold lm_now, lm2; by rewrite Ht).
    rewrite (bind_ok _ _ _ _ _ Hn).
    assert (touches x id lm lm2) as HT2 by exact HT.
    assert (machine x lm2 = machine x lm) as Hm2 by exact Hm.
    destruct (on_machine_ok x
      (transition (clock (lm_ticks lm)) target reason actor metadata) lm2)
      as (lm3 & H3 & HT3 & _).
    rewrite Hm2, transition_moved, Hc in H3.
    rewrite (bind_ok _ _ _ _ _ H3). eexists. split; [reflexivity|].
    pose proof (touches_trans _ _ _ _ _ _ HT2 HT3) as [HR HT4].
    split; [done|]. intros y. rewrite HT4. case_decide; [|done].
    by rewrite transition_moved.
  - eexists. split; [reflexivity|]. destruct HT as [HR HT]. split; [done|]. intros y.
    rewrite HT. case_decide; [|done]. unfold moved. by rewrite Hc.
Qed.

(** ** The operations *)

Definition stopped (now : Z) (sm : ExecutionStateMachine) : ExecutionStateMachine :=
  moved now ST_FAILED "user_stopped" "lifecycle_manager" None sm.

Lemma stop_ok x lm : ∃ lm',
  stop_execution clock x lm = (Ok tt, lm') ∧ touches x (stopped (clock (lm_ticks lm))) lm lm'.
Proof.
  destruct (get_state_machine_ok x lm) as (lm1 & Hg & HT & Ht).
  unfold stop_execution. rewrite (bind_ok _ _ _ _ _ Hg).
  case_bool_decide as Hs.
  - eexists. split; [reflexivity|]. destruct HT as [HR HT]. split; [done|].
    intros y. rewrite HT. case_decide; [|done]. unfold stopped, moved, can_transition.
    rewrite bool_decide_eq_false_2; [done|].
    intros Hin. destruct (sm_current_state (machine x lm)); set_solver.
  - destruct (move_if_legal_ok x ST_FAILED "user_stopped" "lifecycle_manager" None lm1)
      as (lm2 & Hm & HT2).
    rewrite Hm, Ht in *. eexists. split; [reflexivity|]. exact (touches_trans _ _ _ _ _ _ HT HT2).
Qed.

Lemma pause_ok x lm : ∃ lm',
  pause_execution clock x lm = (Ok tt, lm')
  ∧ touches x (moved (clock (lm_ticks lm)) ST_PAUSED "user_paused" "lifecycle_manager" None) lm lm'.
Proof. apply move_if_legal_ok. Qed.

Lemma resume_ok x lm : ∃ t lm',
  resume_execution clock x lm = (Ok tt, lm')
  ∧ touches x (λ sm,
      moved t ST_RUNNING "step_execution_started" "orchestrator" None
        (moved (clock (lm_ticks lm)) ST_RESUMING "user_resumed" "lifecycle_manager" None sm)) lm lm'.
Proof.
  destruct (move_if_legal_ok x ST_RESUMING "user_resumed" "lifecycle_manager" None lm)
    as (lm1 & H1 & T1).
  destruct (move_if_legal_ok x ST_RUNNING "step_execution_started" "orchestrator" None lm1)
    as (lm2 & H2 & T2).
  eexists _, lm2. unfold resume_execution. rewrite (bind_ok _ _ _ _ _ H1).
  split; [exact H2|]. exact (touches_trans _ _ _ _ _ _ T1 T2).
Qed.

Lemma start_ok i goal lm : ∃ o e,
  registry_get_instance i (lm_registry lm) = (o, e) ∧
  match o with
  | Ok (Some _) => ∃ md lm',
      lm_start_execution clock i goal lm = (Ok ("exec-" +:+ i), lm')
      ∧ touches ("exec-" +:+ i)
          (moved (clock (lm_ticks lm)) ST_RUNNING "user_started" "lifecycle_manager" md)
          (mkLifecycle e (lm_state_machines lm) (lm_ticks lm)) lm'
  | Ok None => lm_start_execution clock i goal lm
      = (Raise (AgentInstanceNotFoundError i), mkLifecycle e (lm_state_machines lm) (lm_ticks lm))
  | Raise x => lm_start_execution clock i goal lm
      = (Raise x, mkLifecycle e (lm_state_machines lm) (lm_ticks lm))
  end.
Proof.
  destruct (registry_get_instance i (lm_registry lm)) as [o e] eqn:Hr. exists o, e.
  split; [done|].
  assert (on_registry (registry_get_instance i) lm
          = (o, mkLifecycle e (lm_state_machines lm) (lm_ticks lm))) as Ho
    by (unfold on_registry, zoom; by rewrite Hr).
  unfold lm_start_execution. destruct o as [[inst|]|x].
  - rewrite (bind_ok _ _ _ _ _ Ho). set (lm1 := mkLifecycle e _ _).
    edestruct (move_if_legal_ok ("exec-" +:+ i) ST_RUNNING "user_started"
      "lifecycle_manager" (Some [("instance_id", VStr i); ("goal", VStr goal)]) lm1)
      as (lm2 & Hm & HT).
    exists (Some [("instance_id", VStr i); ("goal", VStr goal)]), lm2.
    rewrite (bind_ok _ _ _ _ _ Hm). split; [reflexivity|exact HT].
  - rewrite (bind_ok _ _ _ _ _ Ho). reflexivity.
  - by rewrite (bind_raise _ _ _ _ _ Ho).
Qed.

(** One call of the manager. *)
Inductive lm_step lm : LifecycleManager E → Prop :=
| step_start i goal : lm_step lm (lm_start_execution clock i goal lm).2
| step_stop x : lm_step lm (stop_execution clock x lm).2
| step_pause x : lm_step lm (pause_execution clock x lm).2
| step_resume x : lm_step lm (resume_execution clock x lm).2
| step_status x : lm_step lm (get_execution_status x lm).2
| step_history x : lm_step lm (get_transition_history x lm).2.

(** Every machine of the first manager is in the second, grown; a machine the
    second one has in addition grew from PENDING. *)
Definition evolves lm lm' : Prop := ∀ x,
  (is_Some (dict_get x (lm_state_machines lm)) → is_Some (dict_get x (lm_state_machines lm')))
  ∧ grows (machine x lm) (machine x lm').

#[export] Instance evolves_preorder : PreOrder evolves.
Proof.
  split.
  - intros lm x. by split.
  - intros lm1 lm2 lm3 H1 H2 x. destruct (H1 x) as [A1 B1], (H2 x) as [A2 B2].
    split; [auto|by etransitivity].
Qed.

Lemma touches_evolves x f lm lm' :
  (∀ sm, grows sm (f sm)) → touches x f lm lm' → evolves lm lm'.
Proof.
  intros Hf HT y. split.
  - destruct HT as [_ HT]. rewrite HT. case_decide; [by eexists|done].
  - rewrite (touches_machine _ _ _ _ y HT). case_decide; subst; [apply Hf|reflexivity].
Qed.

Lemma lm_step_evolves lm lm' : lm_step lm lm' → evolves lm lm'.
Proof.
  assert (∀ lm1 lm2 e, evolves (mkLifecycle e (lm_state_machines lm1) (lm_ticks lm1)) lm2 →
          evolves lm1 lm2) as Hreg by done.
  destruct 1.
  - destruct (start_ok i goal lm) as ([[inst|]|x] & e & _ & Hs);
      [destruct Hs as (md & lm' & -> & HT)|rewrite Hs; exact (reflexivity (R := evolves) lm)..].
    eapply (Hreg _ _ e), touches_evolves; [|exact HT]. intros; apply moved_grows.
  - destruct (stop_ok x lm) as (lm' & -> & HT).
    eapply touches_evolves; [|exact HT]. intros; apply moved_grows.
  - destruct (pause_ok x lm) as (lm' & -> & HT).
    eapply touches_evolves; [|exact HT]. intros; apply moved_grows.
  - destruct (resume_ok x lm) as (t & lm' & -> & HT).
    eapply touches_evolves; [|exact HT]. intros sm.
    etransitivity; apply moved_grows.
  - unfold get_execution_status.
    destruct (get_state_machine_ok x lm) as (lm' & Hg & HT & _).
    rewrite (bind_ok _ _ _ _ _ Hg). eapply touches_evolves; [|exact HT]. by intros.
  - unfold get_transition_history.
    destruct (get_state_machine_ok x lm) as (lm' & Hg & HT & _).
    rewrite (bind_ok _ _ _ _ _ Hg). eapply touches_evolves; [|exact HT]. by intros.
Qed.

(** C25: whatever calls the manager receives (starts, stops, pauses, resumes and
    queries, of any executions in any order), the audit trail of every
    execution is a chain of legal transitions from PENDING to its present
    status; later calls only append to it, again legally, and an execution
    that is COMPLETED or FAILED keeps its machine for ever. *)
Theorem lifecycle_audit e lm lm' x :
  star lm_step (LifecycleManager_new e) lm → star lm_step lm lm' →
  path ST_PENDING (sm_history (machine x lm)) (sm_current_state (machine x lm))
  ∧ (∃ tail, sm_history (machine x lm') = sm_history (machine x lm) ++ tail
       ∧ path (sm_current_state (machine x lm)) tail (sm_current_state (machine x lm')))
  ∧ (sm_current_state (machine x lm) ∈ [ST_COMPLETED; ST_FAILED] →
       machine x lm' = machine x lm).
Proof.
  intros H0 H1.
  destruct (star_preorder lm_step evolves _ _ lm_step_evolves H0 x) as [_ (t0 & Hh & Hp)].
  destruct (star_preorder lm_step evolves _ _ lm_step_evolves H1 x) as [_ Hg].
  simpl in Hh. subst t0. split_and!; [exact Hp|exact Hg|].
  intros Hin. apply grows_terminal; [|done].
  destruct (sm_current_state (machine x lm)); set_solver.
Qed.

(** C26: the status each call leaves an execution in, for every status it can
    find: [stop] fails whatever is not COMPLETED, [pause] pauses a running
    execution only, [resume] sets a paused or resuming one running and also starts
    one that is still PENDING, among them every execution the manager never heard
    of; none of them raises, and no other execution is affected. *)
Theorem lifecycle_operations_exact lm x :
  let before := sm_current_state (machine x lm) in
  let outcome_is (m : M (LifecycleManager E) unit) (after : ExecutionStatus) :=
    (m lm).1 = Ok tt
    ∧ sm_current_state (machine x (m lm).2) = after
    ∧ (∀ y, y ≠ x → machine y (m lm).2 = machine y lm) in
  outcome_is (stop_execution clock x)
    (match before with ST_COMPLETED => ST_COMPLETED | _ => ST_FAILED end)
  ∧ outcome_is (pause_execution clock x)
      (match before with ST_RUNNING => ST_PAUSED | s => s end)
  ∧ outcome_is (resume_execution clock x)
      (match before with
       | ST_PENDING | ST_PAUSED | ST_RESUMING => ST_RUNNING
       | s => s
       end).
Proof.
  intros before outcome_is.
  assert (∀ m f lm', m lm = (Ok tt, lm') → touches x f lm lm' →
            outcome_is m (sm_current_state (f (machine x lm)))) as Hout.
  { intros m f lm' Hm HT. unfold outcome_is. rewrite Hm. simpl. split_and!; [done| |].
    - rewrite (touches_machine _ _ _ _ x HT). by rewrite decide_True.
    - intros y Hy. rewrite (touches_machine _ _ _ _ y HT). by rewrite decide_False. }
  destruct (stop_ok x lm) as (l1 & H1 & T1), (pause_ok x lm) as (l2 & H2 & T2),
    (resume_ok x lm) as (t & l3 & H3 & T3).
  pose proof (Hout _ _ _ H1 T1) as O1. pose proof (Hout _ _ _ H2 T2) as O2.
  pose proof (Hout _ _ _ H3 T3) as O3. clear -O1 O2 O3.
  unfold stopped in O1. cbv beta in O3. rewrite !moved_status in O1, O2. rewrite !moved_status in O3.
  rewrite can_transition_moved in O3. unfold can_transition in *.
  unfold before. destruct (sm_current_state (machine x lm)); auto.
Qed.
End Effects.

(** A registry that knows one instance. *)
#[export] Instance demo_agents : AgentRegistry (list string) := {
  registry_get_instance i := λ known,
    (Ok (if decide (i ∈ known) then Some [("id", VStr i)] else None), known)
}.

Definition demo_manager : LifecycleManager (list string) :=
  (lm_start_execution (λ n, Z.of_nat n) "a" "g" (LifecycleManager_new ["a"])).2.

Lemma lifecycle_audit_witness :
  star (lm_step (λ n, Z.of_nat n)) (LifecycleManager_new ["a"]) demo_manager
  ∧ path ST_PENDING (sm_history (machine "exec-a" demo_manager)) ST_RUNNING.
Proof.
  assert (star (lm_step (λ n, Z.of_nat n)) (LifecycleManager_new ["a"]) demo_manager) as H
    by (apply star_one, step_start).
  split; [exact H|].
  exact (proj1 (lifecycle_audit (λ n, Z.of_nat n) ["a"] demo_manager demo_manager "exec-a"
                  H star_refl)).
Defined.

(** An execution nobody started, resumed. *)
Example demo_resume_unknown :
  (get_transition_history "exec-zzz"
     (resume_execution (λ n, Z.of_nat n) "exec-zzz" (LifecycleManager_new ["a"])).2).1
  = Ok [[ ("from_state", VStr "PENDING"); ("to_state", VStr "RUNNING");
          ("reason", VStr "step_execution_started"); ("actor", VStr "orchestrator");
          ("timestamp", VStr "1970-01-01T00:00:00+00:00") ]].
Proof. vm_compute. reflexivity. Qed.
