(* ===== verification/Storage.v ===== *)
(** * Repositories of checkpoints and memories

    [core/domain/checkpoint.py], [core/domain/memory.py] and the in-memory
    repositories of [infrastructure/storage]. The repositories copy what they
    are given and what they return, so the values here are the snapshots. An
    index entry is a [set] of identifiers; the order in which Python iterates a
    set is unspecified and appears as the argument [iter], of which only that
    it lists the elements once each is ever assumed. A [datetime] is naive or
    aware, and comparing the two kinds is a [TypeError]. *)
From S2P Require Import Prelude PyStr PyDict PyVal.

Implicit Types x i : string.

(** ** Datetimes *)

Inductive datetime := Naive (t : Z) | Aware (t : Z).

#[export] Instance datetime_eq_dec : EqDecision datetime.
Proof. solve_decision. Defined.

(** [datetime.min], naive, in microseconds since the epoch. *)
Definition datetime_min : datetime := Naive (-62135596800000000).

Definition datetime_TypeError : exn :=
  mkExn "TypeError" "can't compare offset-naive and offset-aware datetimes".

(** [a < b] *)
Definition datetime_lt (a b : datetime) : outcome bool :=
  match a, b with
  | Naive s, Naive t | Aware s, Aware t => Ok (s <? t)%Z
  | _, _ => Raise datetime_TypeError
  end.

Definition is_aware (a : datetime) : bool := match a with Aware _ => true | Naive _ => false end.
Definition datetime_micros (a : datetime) : Z := match a with Aware t | Naive t => t end.

(** ** Checkpoints *)

Inductive CheckpointTrigger :=
| CT_STEP_COMPLETE | CT_BEFORE_TOOL_CALL | CT_AFTER_TOOL_CALL | CT_ERROR_RECOVERY
| CT_PAUSE_REQUEST | CT_BEFORE_IRREVERSIBLE.

#[export] Instance CheckpointTrigger_eq_dec : EqDecision CheckpointTrigger.
Proof. solve_decision. Defined.

Definition CheckpointTrigger_value (t : CheckpointTrigger) : string :=
  match t with
  | CT_STEP_COMPLETE => "STEP_COMPLETE"
  | CT_BEFORE_TOOL_CALL => "BEFORE_TOOL_CALL"
  | CT_AFTER_TOOL_CALL => "AFTER_TOOL_CALL"
  | CT_ERROR_RECOVERY => "ERROR_RECOVERY"
  | CT_PAUSE_REQUEST => "PAUSE_REQUEST"
  | CT_BEFORE_IRREVERSIBLE => "BEFORE_IRREVERSIBLE"
  end.

Record Checkpoint := mkCheckpoint {
  ck_checkpoint_id : string;
  ck_execution_id : string;
  ck_version : Z;
  ck_trigger_reason : CheckpointTrigger;
  ck_checkpoint_hash : string;
  ck_schema_version : string;
  ck_parent_checkpoint_id : option string;
  ck_agent_state_ref : option string;
  ck_memory_refs : list string;
  ck_tool_history : list (dict pyval);
  ck_created_at : option datetime
}.

Definition Checkpoint_validate (c : Checkpoint) : list string :=
  (if truthy (ck_checkpoint_id c) then [] else ["checkpoint_id is required"])
  ++ (if truthy (ck_execution_id c) then [] else ["execution_id is required"])
  ++ (if truthy (ck_checkpoint_hash c) then [] else ["checkpoint_hash is required"])
  ++ (if (ck_version c <? 0)%Z then ["version must be >= 0"] else []).

Definition Checkpoint_is_valid (c : Checkpoint) : bool :=
  bool_decide (length (Checkpoint_validate c) = 0%nat).

(** [(cp.version, cp.checkpoint_id)], compared as a tuple. *)
Definition ck_leb (a b : Checkpoint) : bool :=
  (ck_version a <? ck_version b)%Z
  || ((ck_version a =? ck_version b)%Z && str_leb (ck_checkpoint_id a) (ck_checkpoint_id b)).

(** [max(..., key=lambda cp: cp.version)]: the first of the greatest. *)
Definition max_version (l : list Checkpoint) : option Checkpoint :=
  match l with
  | [] => None
  | c :: l' => Some (foldl (λ best c, if (ck_version best <? ck_version c)%Z then c else best) c l')
  end.

Record CheckpointRepository := mkCkRepo {
  cr_store : dict Checkpoint;
  cr_execution_index : dict (gset string)
}.

Definition CheckpointRepository_new : CheckpointRepository := mkCkRepo [] [].

(** [index.setdefault(key, set()).add(item)] *)
Definition index_add (key item : string) (index : dict (gset string)) : dict (gset string) :=
  dict_set key ({[item]} ∪ dict_get_or ∅ key index) index.

Definition KeyError (key : string) : exn := mkExn "KeyError" (str_repr key).

(** [[store[i] for i in ids]] *)
Fixpoint fetch {V} (store : dict V) (ids : list string) : outcome (list V) :=
  match ids with
  | [] => Ok []
  | i :: ids' =>
      match dict_get i store with
      | None => Raise (KeyError i)
      | Some v => vs ← fetch store ids'; mret (v :: vs)
      end
  end.

Definition ck_save (c : Checkpoint) : M CheckpointRepository Checkpoint :=
  modify (λ r : CheckpointRepository, mkCkRepo (dict_set (ck_checkpoint_id c) c (cr_store r))
                 (index_add (ck_execution_id c) (ck_checkpoint_id c) (cr_execution_index r))) ;;
  mret c.

Definition ck_get (r : CheckpointRepository) (checkpoint_id : string) : option Checkpoint :=
  dict_get checkpoint_id (cr_store r).

Section Iter.
Variable iter : gset string → list string.

Definition list_by_execution (r : CheckpointRepository) (execution_id : string)
    : outcome (list Checkpoint) :=
  checkpoints ← fetch (cr_store r) (iter (dict_get_or ∅ execution_id (cr_execution_index r)));
  mret (py_sorted ck_leb checkpoints).

Definition get_latest (r : CheckpointRepository) (execution_id : string)
    : outcome (option Checkpoint) :=
  let ids := dict_get_or ∅ execution_id (cr_execution_index r) in
  if bool_decide (ids = ∅) then mret None
  else
    checkpoints ← fetch (cr_store r) (iter ids);
    mret (max_version checkpoints).
End Iter.

(** ** Memories *)

Inductive MemoryType := MT_FACT | MT_PREFERENCE | MT_SUMMARY | MT_EXPERIENCE | MT_DOCUMENT.

#[export] Instance MemoryType_eq_dec : EqDecision MemoryType.
Proof. solve_decision. Defined.

Record MemoryItem := mkMemory {
  mi_item_id : string;
  mi_tenant_id : string;
  mi_agent_instance_id : string;
  mi_type : MemoryType;
  mi_content : string;
  mi_confidence : Q;
  mi_source : string;
  mi_created_at : option datetime;
  mi_expires_at : option datetime
}.

Definition MemoryItem_validate (m : MemoryItem) : list string :=
  (if truthy (mi_item_id m) then [] else ["item_id is required"])
  ++ (if truthy (mi_content m) then [] else ["content is required"])
  ++ (if Qle_bool 0 (mi_confidence m) && Qle_bool (mi_confidence m) 1 then []
      else ["confidence must be between 0.0 and 1.0"]).

Definition MemoryItem_is_valid (m : MemoryItem) : bool :=
  bool_decide (length (MemoryItem_validate m) = 0%nat).

(** [is_expired] at the reading [now] of the clock; [now] is aware. *)
Definition is_expired (now : Z) (m : MemoryItem) : outcome bool :=
  match mi_expires_at m with
  | Some t => datetime_lt t (Aware now)
  | None => Ok false
  end.

Record MemoryRepository := mkMemRepo {
  mr_store : dict MemoryItem;
  mr_agent_index : dict (gset string);
  mr_ticks : nat
}.

Definition MemoryRepository_new : MemoryRepository := mkMemRepo [] [] 0.

Definition mem_key (m : MemoryItem) : datetime := default datetime_min (mi_created_at m).

(** [(m.created_at or datetime.min, m.item_id)] for keys of one kind. *)
Definition mem_leb (a b : MemoryItem) : bool :=
  (datetime_micros (mem_key a) <? datetime_micros (mem_key b))%Z
  || ((datetime_micros (mem_key a) =? datetime_micros (mem_key b))%Z
      && str_leb (mi_item_id a) (mi_item_id b)).

(** [_sorted]: a comparison sort has to compare a naive with an aware key as
    soon as both kinds are there. *)
Definition mem_sorted (items : list MemoryItem) : outcome (list MemoryItem) :=
  if existsb (λ m, is_aware (mem_key m)) items
     && existsb (λ m, negb (is_aware (mem_key m))) items
  then Raise datetime_TypeError
  else Ok (py_sorted mem_leb items).

Section MemoryOps.
Variable clock : nat → Z.
Variable iter : gset string → list string.

Definition mem_now : M MemoryRepository Z := λ r,
  (Ok (clock (mr_ticks r)), mkMemRepo (mr_store r) (mr_agent_index r) (S (mr_ticks r))).

(** The clock is read only when there is an expiry to compare it with. *)
Definition mem_is_expired (m : MemoryItem) : M MemoryRepository bool :=
  match mi_expires_at m with
  | None => mret false
  | Some _ => now ← mem_now; of_outcome (is_expired now m)
  end.

Definition mem_save (m : MemoryItem) : M MemoryRepository MemoryItem :=
  modify (λ r : MemoryRepository, mkMemRepo (dict_set (mi_item_id m) m (mr_store r))
                 (index_add (mi_agent_instance_id m) (mi_item_id m) (mr_agent_index r))
                 (mr_ticks r)) ;;
  mret m.

Definition mem_get (memory_id : string) : M MemoryRepository (option MemoryItem) :=
  item ← read (λ r : MemoryRepository, dict_get memory_id (mr_store r));
  match item with
  | None => mret None
  | Some m =>
      expired ← mem_is_expired m;
      mret (if (expired : bool) then None else Some m)
  end.

(** [[m for m in items if not m.is_expired and keep(m)]]; in [search] the other
    tests come after the expiry test. *)
Fixpoint live (keep : MemoryItem → bool) (items : list MemoryItem)
    : M MemoryRepository (list MemoryItem) :=
  match items with
  | [] => mret []
  | m :: items' =>
      expired ← mem_is_expired m;
      rest ← live keep items';
      mret (if (expired : bool) then rest else if keep m then m :: rest else rest)
  end.

Definition search_match (query : string) (agent_instance_id : option string)
    (memory_type : option MemoryType) (min_confidence : Q) (m : MemoryItem) : bool :=
  match agent_instance_id with
  | Some a => bool_decide (mi_agent_instance_id m = a)
  | None => true
  end
  && match memory_type with Some t => bool_decide (mi_type m = t) | None => true end
  && Qle_bool min_confidence (mi_confidence m)
  && str_contains (str_lower query) (str_lower (mi_content m)).

Definition search (query : string) (agent_instance_id : option string)
    (memory_type : option MemoryType) (min_confidence : Q)
    : M MemoryRepository (list MemoryItem) :=
  values ← read (λ r : MemoryRepository, dict_values (mr_store r));
  results ← live (search_match query agent_instance_id memory_type min_confidence) values;
  of_outcome (mem_sorted results).

Definition list_by_agent (agent_instance_id : string) : M MemoryRepository (list MemoryItem) :=
  r ← read (λ r : MemoryRepository, r);
  items ← of_outcome (fetch (mr_store r) (iter (dict_get_or ∅ agent_instance_id (mr_agent_index r))));
  filtered ← live (λ _, true) items;
  of_outcome (mem_sorted filtered).

(** [get(agent, set())] of a missing key is a set of its own: nothing is added
    to the index. *)
Definition mem_delete (memory_id : string) : M MemoryRepository unit :=
  modify (λ r : MemoryRepository,
    match dict_get memory_id (mr_store r) with
    | None => r
    | Some item =>
        mkMemRepo (dict_del memory_id (mr_store r))
          (match dict_get (mi_agent_instance_id item) (mr_agent_index r) with
           | Some ids => dict_set (mi_agent_instance_id item) (ids ∖ {[memory_id]}) (mr_agent_index r)
           | None => mr_agent_index r
           end)
          (mr_ticks r)
    end).
End MemoryOps.

Lemma NoDup_sublist {A} (l k : list A) : l `sublist_of` k → NoDup k → NoDup l.
Proof.
  induction 1 as [|x l k Hs IH|x l k Hs IH]; [done|..]; rewrite ?NoDup_cons.
  - intros [Hx Hk]. split; [|auto]. contradict Hx. by eapply elem_of_sublist.
  - intros [_ Hk]. auto.
Qed.

(** ** The index of a repository

    What both repositories rely on: the index lists exactly the identifiers of
    the stored values of each owner. *)
Section Index.
Context {V : Type} (id_of owner_of : V → string).
Implicit Types (store : dict V) (index : dict (gset string)) (v : V).

Definition indexed store index : Prop :=
  (∀ i v, dict_get i store = Some v → id_of v = i)
  ∧ (∀ x i, i ∈ dict_get_or ∅ x index ↔ ∃ v, dict_get i store = Some v ∧ owner_of v = x).

(** A value may replace the stored one of its identifier when the owner stays. *)
Definition keeps_owner store v : Prop :=
  ∀ old, dict_get (id_of v) store = Some old → owner_of old = owner_of v.

Lemma indexed_nil : indexed [] [].
Proof. split; [done|]. intros x i. unfold dict_get_or; simpl. set_solver. Qed.

Lemma indexed_save store index v :
  keeps_owner store v → indexed store index →
  indexed (dict_set (id_of v) v store) (index_add (owner_of v) (id_of v) index).
Proof.
  intros Hk [Hid Hix]. split.
  - intros i w. rewrite dict_get_set. case_decide; [naive_solver|apply Hid].
  - intros x i. unfold index_add, dict_get_or at 1. rewrite dict_get_set, dict_get_set.
    destruct (decide (x = owner_of v)) as [->|Hx]; simpl.
    + rewrite elem_of_union, elem_of_singleton, Hix.
      destruct (decide (i = id_of v)) as [->|Hi]; [|naive_solver].
      split; [by eexists|by left].
    + change (i ∈ dict_get_or ∅ x index ↔ ∃ w,
        (if decide (i = id_of v) then Some v else dict_get i store) = Some w ∧ owner_of w = x).
      rewrite Hix. case_decide; subst; [|done].
      split; [|naive_solver]. intros (w & Hw & <-). destruct Hx. by apply Hk.
Qed.

Lemma indexed_delete store index v :
  dict_get (id_of v) store = Some v → indexed store index →
  ∃ ids, dict_get (owner_of v) index = Some ids
    ∧ indexed (dict_del (id_of v) store) (dict_set (owner_of v) (ids ∖ {[id_of v]}) index).
Proof.
  intros Hv [Hid Hix].
  assert (id_of v ∈ dict_get_or ∅ (owner_of v) index) as Hin by (apply Hix; eauto).
  unfold dict_get_or in Hin. destruct (dict_get (owner_of v) index) as [ids|] eqn:Hids;
    simpl in Hin; [|set_solver].
  exists ids. split; [done|]. split.
  - intros i w. rewrite dict_get_del. case_decide; [done|apply Hid].
  - intros x i. unfold dict_get_or. rewrite dict_get_set, dict_get_del.
    pose proof (Hix x i) as Hxi. unfold dict_get_or in Hxi.
    destruct (decide (x = owner_of v)) as [->|Hx]; simpl.
    + rewrite Hids in Hxi. simpl in Hxi. rewrite elem_of_difference, elem_of_singleton, Hxi.
      case_decide; naive_solver.
    + rewrite Hxi. case_decide; [|done]. subst. split; [|naive_solver].
      intros (w & Hw & <-). congruence.
Qed.

Lemma fetch_ok store ids :
  (∀ i, i ∈ ids → is_Some (dict_get i store)) →
  fetch store ids = Ok (omap (λ i, dict_get i store) ids).
Proof.
  induction ids as [|i ids IH]; intros H; [done|].
  destruct (H i) as [v Hv]; [by left|]. csimpl. rewrite Hv.
  rewrite IH; [done|]. intros j Hj. apply H. by right.
Qed.

(** Fetching the identifiers of an owner: its values, each once. *)
Lemma fetch_indexed (iter : gset string → list string) store index x :
  (∀ X, iter X ≡ₚ elements X) → indexed store index →
  ∃ l, fetch store (iter (dict_get_or ∅ x index)) = Ok l
    ∧ NoDup (id_of <$> l)
    ∧ ∀ v, v ∈ l ↔ dict_get (id_of v) store = Some v ∧ owner_of v = x.
Proof.
  intros Hiter [Hid Hix]. set (ids := iter (dict_get_or ∅ x index)).
  assert (∀ i, i ∈ ids ↔ ∃ v, dict_get i store = Some v ∧ owner_of v = x) as Hids.
  { intros i. unfold ids. by rewrite Hiter, elem_of_elements, Hix. }
  assert (NoDup ids) as Hnd by (unfold ids; rewrite Hiter; apply NoDup_elements).
  exists (omap (λ i, dict_get i store) ids). split.
  { apply fetch_ok. intros i (v & -> & _)%Hids. by eexists. }
  assert (id_of <$> omap (λ i, dict_get i store) ids = ids) as Hmap.
  { clear Hnd. assert (∀ i, i ∈ ids → is_Some (dict_get i store)) as Hs
      by (intros i (v & -> & _)%Hids; by eexists).
    clearbody ids. clear Hids. induction ids as [|i ids IH]; [done|].
    destruct (Hs i) as [v Hv]; [by left|]. csimpl. rewrite Hv. csimpl.
    rewrite (Hid _ _ Hv). f_equal. apply IH. intros j Hj. apply Hs. by right. }
  split; [by rewrite Hmap|].
  intros v. rewrite list_elem_of_omap. split.
  - intros (i & Hi & Hv). rewrite (Hid _ _ Hv). split; [done|].
    apply Hids in Hi as (w & Hw & Hx). congruence.
  - intros [Hv Hx]. exists (id_of v). split; [|done]. apply Hids. eauto.
Qed.
End Index.

(** ** Checkpoints: what the queries answer *)

Lemma ck_leb_total a b : ck_leb a b = true ∨ ck_leb b a = true.
Proof.
  unfold ck_leb. destruct (str_leb_total (ck_checkpoint_id a) (ck_checkpoint_id b)) as [H|H];
    rewrite H; rewrite !orb_true_iff, !andb_true_iff, !Z.ltb_lt, !Z.eqb_eq; lia.
Qed.

Definition better (best c : Checkpoint) : Checkpoint :=
  if (ck_version best <? ck_version c)%Z then c else best.

Lemma max_version_fold c l :
  let best := foldl better c l in
  best ∈ c :: l ∧ ∀ c', c' ∈ c :: l → (ck_version c' ≤ ck_version best)%Z.
Proof.
  revert c. induction l as [|d l IH]; intros c; simpl.
  - split; [by left|]. intros c' Hc'%list_elem_of_singleton. by subst.
  - destruct (IH (better c d)) as [Hin Hmax]. split.
    + assert (better c d = c ∨ better c d = d) as Hcd
        by (unfold better; case_match; auto).
      rewrite !elem_of_cons in *. destruct Hin as [->|?], Hcd; auto.
    + assert (ck_version c ≤ ck_version (better c d) ∧ ck_version d ≤ ck_version (better c d))%Z
        as [Hc Hd] by (unfold better; case_match eqn:Hlt; b2p; lia).
      specialize (Hmax (better c d) ltac:(by left)) as Hb. intros c'.
      rewrite !elem_of_cons. intros [->|[->|Hc']]; [lia..|]. apply Hmax. by right.
Qed.

Lemma max_version_spec l :
  match max_version l with
  | None => l = []
  | Some c => c ∈ l ∧ ∀ c', c' ∈ l → (ck_version c' ≤ ck_version c)%Z
  end.
Proof. destruct l as [|c l]; [done|]. exact (max_version_fold c l). Qed.

(** Saves in which an identifier stays with its execution. *)
Inductive ck_step (r : CheckpointRepository) : CheckpointRepository → Prop :=
| ck_step_save c :
    keeps_owner ck_checkpoint_id ck_execution_id (cr_store r) c → ck_step r (ck_save c r).2.

Lemma ck_reachable_indexed r :
  star ck_step CheckpointRepository_new r →
  indexed ck_checkpoint_id ck_execution_id (cr_store r) (cr_execution_index r).
Proof.
  intros Hr. refine (star_invariant ck_step (λ r,
    indexed ck_checkpoint_id ck_execution_id (cr_store r) (cr_execution_index r)) _ _ _ _ Hr).
  - intros r1 r2 H1 [c Hc]. by apply indexed_save.
  - apply indexed_nil.
Qed.

(** After any saves in which no identifier moves to another execution,
    [list_by_execution] raises nothing and gives exactly the stored
    checkpoints of the execution, each once, by ascending version;
    [get_latest] gives one of them, of the highest version and not of the
    latest save, and [None] exactly when there are none, whatever order the
    index set is iterated in. *)
Theorem checkpoint_repository_exact iter r x :
  (∀ X, iter X ≡ₚ elements X) →
  star ck_step CheckpointRepository_new r →
  ∃ l best,
    list_by_execution iter r x = Ok l
    ∧ get_latest iter r x = Ok best
    ∧ Sorted (λ a b, ck_leb a b = true) l
    ∧ NoDup (ck_checkpoint_id <$> l)
    ∧ (∀ c, c ∈ l ↔ ck_get r (ck_checkpoint_id c) = Some c ∧ ck_execution_id c = x)
    ∧ match best with
      | None => l = []
      | Some c => c ∈ l ∧ ∀ c', c' ∈ l → (ck_version c' ≤ ck_version c)%Z
      end.
Proof.
  intros Hiter Hr%ck_reachable_indexed.
  destruct (fetch_indexed _ _ iter _ _ x Hiter Hr) as (l & Hl & Hnd & Hin).
  assert (∀ c, c ∈ py_sorted ck_leb l ↔ c ∈ l) as Hp by (intros c; by rewrite py_sorted_perm).
  exists (py_sorted ck_leb l),
    (if bool_decide (dict_get_or ∅ x (cr_execution_index r) = ∅) then None else max_version l).
  split_and!.
  - unfold list_by_execution. by rewrite Hl.
  - unfold get_latest. case_bool_decide; [done|]. by rewrite Hl.
  - apply py_sorted_sorted, ck_leb_total.
  - by rewrite py_sorted_perm.
  - intros c. by rewrite Hp, Hin.
  - pose proof (max_version_spec l) as Hmax. case_bool_decide as He.
    + rewrite He in Hl. assert (iter ∅ = []) as Hi
        by (apply Permutation_nil; by rewrite Hiter, elements_empty).
      rewrite Hi in Hl. by injection Hl as <-.
    + case_match.
      * destruct Hmax as [H1 H2]. split; [by apply Hp|]. intros c' Hc'%Hp. auto.
      * by subst.
Qed.

Definition demo_checkpoint (i x : string) (v : Z) : Checkpoint :=
  mkCheckpoint i x v CT_STEP_COMPLETE "h" "1.0" None None [] [] None.
Definition demo_ck_repo (c1 c2 : Checkpoint) : CheckpointRepository :=
  (ck_save c2 (ck_save c1 CheckpointRepository_new).2).2.

Lemma checkpoint_repository_exact_witness :
  let r := demo_ck_repo (demo_checkpoint "cp-2" "e" 2) (demo_checkpoint "cp-1" "e" 1) in
  get_latest elements r "e" = Ok (Some (demo_checkpoint "cp-2" "e" 2))
  ∧ ∃ l best, list_by_execution elements r "e" = Ok l ∧ get_latest elements r "e" = Ok best.
Proof.
  set (r := demo_ck_repo _ _). split; [vm_compute; reflexivity|].
  assert (star ck_step CheckpointRepository_new r) as Hr.
  { eapply star_step; [|apply star_one].
    - apply (ck_step_save _ (demo_checkpoint "cp-2" "e" 2)). intros old. by vm_compute.
    - apply (ck_step_save _ (demo_checkpoint "cp-1" "e" 1)). intros old. by vm_compute. }
  destruct (checkpoint_repository_exact elements r "e" (λ X, Permutation_refl _) Hr)
    as (l & best & Hl & Hb & _).
  exists l, best. split; [exact Hl|exact Hb].
Defined.

(** Saving an identifier again for another execution leaves it in the first
    one's index: listing the first execution answers with the second's
    checkpoint. *)
Example demo_checkpoint_moved :
  list_by_execution elements
    (demo_ck_repo (demo_checkpoint "cp-1" "e1" 1) (demo_checkpoint "cp-1" "e2" 7)) "e1"
  = Ok [demo_checkpoint "cp-1" "e2" 7].
Proof. vm_compute. reflexivity. Qed.

(** ** Memories: what the queries answer *)

Lemma mem_leb_total a b : mem_leb a b = true ∨ mem_leb b a = true.
Proof.
  unfold mem_leb. destruct (str_leb_total (mi_item_id a) (mi_item_id b)) as [H|H];
    rewrite H; rewrite !orb_true_iff, !andb_true_iff, !Z.ltb_lt, !Z.eqb_eq; lia.
Qed.

(** Dates as [datetime.now(UTC)] makes them. *)
Definition well_dated (m : MemoryItem) : Prop :=
  (∃ t, mi_created_at m = Some (Aware t))
  ∧ match mi_expires_at m with Some d => is_aware d = true | None => True end.

Definition expired_at (t : Z) (m : MemoryItem) : Prop :=
  match mi_expires_at m with Some d => (datetime_micros d < t)%Z | None => False end.

Lemma mem_sorted_ok l : Forall well_dated l → mem_sorted l = Ok (py_sorted mem_leb l).
Proof.
  intros Hl. unfold mem_sorted. destruct (existsb (λ m, negb _) l) eqn:He.
  - apply existsb_exists in He as (m & Hm%list_elem_of_In & Hn).
    destruct (proj1 (Forall_forall _ _) Hl m Hm) as [[t Ht] _].
    unfold mem_key in Hn. by rewrite Ht in Hn.
  - by rewrite andb_false_r.
Qed.

Section Queries.
Variable clock : nat → Z.
Variable iter : gset string → list string.
Implicit Types r : MemoryRepository.

Definition same_data r r' : Prop :=
  mr_store r' = mr_store r ∧ mr_agent_index r' = mr_agent_index r
  ∧ (mr_ticks r ≤ mr_ticks r')%nat.

#[export] Instance same_data_preorder : PreOrder same_data.
Proof.
  split; [intros r; by unfold same_data|].
  intros r1 r2 r3 (A1 & B1 & C1) (A2 & B2 & C2).
  split_and!; [congruence..|lia].
Qed.

Lemma mem_is_expired_frame m r : same_data r (mem_is_expired clock m r).2.
Proof. unfold mem_is_expired, mem_now. destruct (mi_expires_at m); m_unfold; by split_and!; simpl; try lia. Qed.

Lemma live_frame keep l r : same_data r (live clock keep l r).2.
Proof.
  revert r. induction l as [|m l IH]; intros r; simpl; [reflexivity|].
  pose proof (mem_is_expired_frame m r) as Hm. unfold mbind, M_bind.
  destruct (mem_is_expired clock m r) as [[b|e] r1]; [|done].
  specialize (IH r1). destruct (live clock keep l r1) as [[l'|e] r2]; simpl in *; by etransitivity.
Qed.

Lemma mem_is_expired_ok m r :
  well_dated m →
  ∃ b r', mem_is_expired clock m r = (Ok b, r')
    ∧ same_data r r'
    ∧ (b = true ↔ ∃ d, mi_expires_at m = Some d ∧ (datetime_micros d < clock (mr_ticks r))%Z).
Proof.
  intros [_ Hd]. unfold mem_is_expired. destruct (mi_expires_at m) as [[t|t]|] eqn:He; [done| |].
  - eexists _, _. split_and!; [|..].
    + m_unfold. unfold mem_now, is_expired. rewrite He. reflexivity.
    + split_and!; simpl; [done..|lia].
    + simpl. rewrite Z.ltb_lt. naive_solver.
  - eexists _, _. split_and!; [reflexivity|reflexivity|naive_solver].
Qed.

Context (clock_mono : ∀ m n : nat, (m ≤ n)%nat → (clock m ≤ clock n)%Z).

(** The kept items: none had expired when the filter began, and every item
    that has still not expired when it ends is there. *)
Lemma live_ok keep l r :
  Forall well_dated l →
  ∃ l' r', live clock keep l r = (Ok l', r') ∧ same_data r r'
    ∧ l' `sublist_of` l
    ∧ (∀ m, m ∈ l' → keep m = true ∧ ¬ expired_at (clock (mr_ticks r)) m)
    ∧ (∀ m, m ∈ l → keep m = true → ¬ expired_at (clock (mr_ticks r')) m → m ∈ l').
Proof using clock_mono.
  intros Hl. revert r. induction Hl as [|m l Hm Hl IH]; intros r; simpl.
  { exists [], r. split_and!; try done; try reflexivity; set_solver. }
  destruct (mem_is_expired_ok m r Hm) as (b & r1 & Hb & HD1 & Hexp).
  destruct (IH r1) as (l' & r2 & Hr & HD2 & Hsub & Hin & Hall).
  rewrite (bind_ok _ _ _ _ _ Hb), (bind_ok _ _ _ _ _ Hr).
  eexists _, r2. split; [reflexivity|]. split; [by etransitivity|].
  assert (∀ m', ¬ expired_at (clock (mr_ticks r1)) m' → ¬ expired_at (clock (mr_ticks r)) m') as Hback.
  { intros m'. unfold expired_at. case_match; [|done].
    destruct HD1 as (_ & _ & HT). specialize (clock_mono _ _ HT). lia. }
  assert (∀ m', m' ∈ l' → keep m' = true ∧ ¬ expired_at (clock (mr_ticks r)) m') as Hin'.
  { intros m' Hm'. destruct (Hin m' Hm'). split; [done|]. by apply Hback. }
  destruct b; simpl.
  - split_and!; [by apply sublist_cons|exact Hin'|].
    intros m' [->|Hm']%elem_of_cons Hk Hne; [|by apply Hall].
    destruct Hne. destruct (proj1 Hexp eq_refl) as (d & Hd & Hlt). unfold expired_at. rewrite Hd.
    assert (mr_ticks r ≤ mr_ticks r2)%nat as HT by (destruct HD1 as (_&_&?), HD2 as (_&_&?); lia).
    specialize (clock_mono _ _ HT). lia.
  - assert (¬ expired_at (clock (mr_ticks r)) m) as Hm0.
    { unfold expired_at. destruct (mi_expires_at m) as [d|] eqn:Hd; [|tauto]. intros Hlt.
      assert (false = true); [|done]. apply Hexp. by exists d. }
    destruct (keep m) eqn:Hk; split_and!.
    + by apply sublist_skip.
    + intros m' [->|?]%elem_of_cons; [done|auto].
    + intros m' [->|?]%elem_of_cons ??; [by left|right; auto].
    + by apply sublist_cons.
    + done.
    + intros m' [->|?]%elem_of_cons ??; [congruence|auto].
Qed.

(** Calls of the repository in which no identifier moves to another agent. *)
Inductive mem_step r : MemoryRepository → Prop :=
| mem_step_save m :
    keeps_owner mi_item_id mi_agent_instance_id (mr_store r) m → mem_step r (mem_save m r).2
| mem_step_delete i : mem_step r (mem_delete i r).2
| mem_step_get i : mem_step r (mem_get clock i r).2
| mem_step_search q a t c : mem_step r (search clock q a t c r).2
| mem_step_list a : mem_step r (list_by_agent clock iter a r).2.

Definition mem_inv r : Prop :=
  indexed mi_item_id mi_agent_instance_id (mr_store r) (mr_agent_index r)
  ∧ dict_wf (mr_store r).

Lemma same_data_inv r r' : same_data r r' → mem_inv r → mem_inv r'.
Proof. intros (Hs & Hi & _). unfold mem_inv. by rewrite Hs, Hi. Qed.

Lemma queries_frame r :
  (∀ i, same_data r (mem_get clock i r).2)
  ∧ (∀ q a t c, same_data r (search clock q a t c r).2)
  ∧ (∀ a, same_data r (list_by_agent clock iter a r).2).
Proof.
  split_and!.
  - intros i. unfold mem_get, mbind, M_bind, read. case_match; [|reflexivity].
    pose proof (mem_is_expired_frame m r) as Hm.
    by destruct (mem_is_expired clock m r) as [[b|e] r1].
  - intros q a t c. unfold search, mbind, M_bind, read, of_outcome.
    pose proof (live_frame (search_match q a t c) (dict_values (mr_store r)) r) as Hl.
    by destruct (live clock _ _ r) as [[b|e] r1].
  - intros a. unfold list_by_agent, mbind, M_bind, read, of_outcome.
    destruct (fetch _ _) as [items|e]; [|reflexivity].
    pose proof (live_frame (λ _, true) items r) as Hl.
    by destruct (live clock _ _ r) as [[b|e] r1].
Qed.

Lemma mem_step_inv r r' : mem_inv r → mem_step r r' → mem_inv r'.
Proof.
  intros HI Hs. destruct (queries_frame r) as (Hg & Hq & Hl).
  destruct Hs as [m Hk|i|i|q a t c|a]; [..|by eapply same_data_inv; [apply Hg|]
    |by eapply same_data_inv; [apply Hq|]|by eapply same_data_inv; [apply Hl|]].
  - destruct HI. split; [by apply indexed_save|by apply dict_wf_set].
  - destruct HI as [HI Hwf]. unfold mem_delete, modify; simpl.
    destruct (dict_get i (mr_store r)) as [m|] eqn:Hm; [|done].
    pose proof (proj1 HI _ _ Hm) as Hid. rewrite <- Hid in Hm |- *.
    destruct (indexed_delete _ _ _ _ _ Hm HI) as (ids & -> & HI').
    split; [exact HI'|by apply dict_wf_del].
Qed.

(** An answer to a query over the stored items that satisfy [P]: sorted by
    creation time, without repetitions, nothing that had expired when the call
    began, everything that has not expired when it ends. *)
Definition answers (P : MemoryItem → Prop) r (l : list MemoryItem) r' : Prop :=
  same_data r r'
  ∧ Sorted (λ a b, mem_leb a b = true) l
  ∧ NoDup (mi_item_id <$> l)
  ∧ (∀ m, m ∈ l → dict_get (mi_item_id m) (mr_store r) = Some m ∧ P m
                   ∧ ¬ expired_at (clock (mr_ticks r)) m)
  ∧ (∀ m, dict_get (mi_item_id m) (mr_store r) = Some m → P m →
          ¬ expired_at (clock (mr_ticks r')) m → m ∈ l).

(** Both queries filter a list of stored items and sort what is left. *)
Lemma filter_sort_answers keep items r (P : MemoryItem → Prop) :
  Forall well_dated items → NoDup (mi_item_id <$> items) →
  (∀ m, m ∈ items ∧ keep m = true ↔ dict_get (mi_item_id m) (mr_store r) = Some m ∧ P m) →
  ∃ l r', (results ← live clock keep items; of_outcome (mem_sorted results)) r = (Ok l, r')
    ∧ answers P r l r'.
Proof using clock_mono.
  intros Hd Hnd HP. destruct (live_ok keep items r Hd) as (l & r' & Hl & HD & Hsub & Hin & Hall).
  exists (py_sorted mem_leb l), r'. rewrite (bind_ok _ _ _ _ _ Hl). unfold of_outcome.
  assert (Forall well_dated l) as Hdl.
  { apply Forall_forall. intros m Hm. eapply Forall_forall; [exact Hd|].
    by eapply elem_of_sublist. }
  rewrite mem_sorted_ok by done. split; [done|].
  assert (∀ m, m ∈ py_sorted mem_leb l ↔ m ∈ l) as Hp by (intros m; by rewrite py_sorted_perm).
  split_and!; [done|apply py_sorted_sorted, mem_leb_total| | |].
  - rewrite py_sorted_perm. apply (NoDup_sublist _ (mi_item_id <$> items)); [by apply fmap_sublist|done].
  - intros m Hm%Hp. destruct (Hin m Hm) as [Hk Hne].
    assert (m ∈ items) as Hi by (by eapply elem_of_sublist).
    destruct (proj1 (HP m) (conj Hi Hk)). done.
  - intros m Hst HPm Hne. apply Hp. destruct (proj2 (HP m) (conj Hst HPm)). by apply Hall.
Qed.

Lemma mem_reachable_inv r : star mem_step MemoryRepository_new r → mem_inv r.
Proof.
  intros Hr. refine (star_invariant mem_step mem_inv _ _ mem_step_inv _ Hr).
  split; [apply indexed_nil|apply dict_wf_nil].
Qed.

(** The values of the store, by their identifiers. *)
Lemma values_spec r : mem_inv r →
  NoDup (mi_item_id <$> dict_values (mr_store r))
  ∧ ∀ m, m ∈ dict_values (mr_store r) ↔ dict_get (mi_item_id m) (mr_store r) = Some m.
Proof.
  intros [[Hid _] Hwf]. split.
  - assert (mi_item_id <$> dict_values (mr_store r) = dict_keys (mr_store r)) as ->; [|exact Hwf].
    unfold dict_values, dict_keys. rewrite <- list_fmap_compose.
    apply list_fmap_ext. intros k [i m] Hk. simpl. apply Hid, dict_elem_get; [exact Hwf|].
    by eapply list_elem_of_lookup_2.
  - intros m. unfold dict_values. rewrite list_elem_of_fmap. split.
    + intros ([i m'] & -> & Him). simpl. apply dict_elem_get in Him as Hg; [|exact Hwf].
      by rewrite (Hid _ _ Hg).
    + intros Hg%dict_get_elem. by exists (mi_item_id m, m).
Qed.

Lemma list_answers r a :
  (∀ X, iter X ≡ₚ elements X) → mem_inv r →
  (∀ i m, dict_get i (mr_store r) = Some m → well_dated m) →
  ∃ l r', list_by_agent clock iter a r = (Ok l, r')
    ∧ answers (λ m, mi_agent_instance_id m = a) r l r'.
Proof using clock_mono.
  intros Hiter Hr Hd.
  destruct (fetch_indexed _ _ iter _ _ a Hiter (proj1 Hr)) as (l & Hl & Hndl & Hin).
  unfold list_by_agent. rewrite (bind_ok (read _) _ r r r) by done.
  rewrite (bind_ok _ _ r l r) by (unfold of_outcome; by rewrite Hl).
  apply filter_sort_answers; [|done|].
  - apply Forall_forall. intros m [Hm _]%Hin. eauto.
  - intros m. rewrite Hin. tauto.
Qed.

Lemma search_answers r q a t c :
  mem_inv r → (∀ i m, dict_get i (mr_store r) = Some m → well_dated m) →
  ∃ l r', search clock q a t c r = (Ok l, r')
    ∧ answers (λ m, search_match q a t c m = true) r l r'.
Proof using clock_mono.
  intros Hr Hd. destruct (values_spec r Hr) as [Hnd Hval]. unfold search.
  rewrite (bind_ok (read _) _ r (dict_values (mr_store r)) r) by done.
  apply filter_sort_answers; [|done|].
  - apply Forall_forall. intros m Hm%Hval. eauto.
  - intros m. by rewrite Hval.
Qed.

(** After any saves that move no identifier to another agent, and any
    deletions and queries, with dates as [datetime.now(UTC)] makes them,
    [list_by_agent] and [search] raise nothing and answer with exactly the
    stored items of the agent, or that match the search, that have not
    expired: each once, by creation time, none that had expired when the call
    began and all that have not when it ends. *)
Theorem memory_queries_exact r :
  (∀ X, iter X ≡ₚ elements X) →
  star mem_step MemoryRepository_new r →
  (∀ i m, dict_get i (mr_store r) = Some m → well_dated m) →
  (∀ a, ∃ l r', list_by_agent clock iter a r = (Ok l, r')
     ∧ answers (λ m, mi_agent_instance_id m = a) r l r')
  ∧ (∀ q a t c, ∃ l r', search clock q a t c r = (Ok l, r')
     ∧ answers (λ m, search_match q a t c m = true) r l r').
Proof using clock_mono.
  intros Hiter Hr%mem_reachable_inv Hd.
  split; intros; [by apply list_answers|by apply search_answers].
Qed.
End Queries.

Definition demo_memory (i a : string) (t : Z) (e : option datetime) : MemoryItem :=
  mkMemory i "t" a MT_FACT "Content" 1 ε (Some (Aware t)) e.
Definition demo_mem_clock (n : nat) : Z := Z.of_nat n.
Definition demo_mem_repo : MemoryRepository :=
  (mem_save (demo_memory "m2" "a" 1 (Some (Aware 9)))
    (mem_save (demo_memory "m1" "a" 2 None) MemoryRepository_new).2).2.

Lemma memory_queries_exact_witness :
  star (mem_step demo_mem_clock elements) MemoryRepository_new demo_mem_repo
  ∧ (∃ l r', list_by_agent demo_mem_clock elements "a" demo_mem_repo = (Ok l, r'))
  ∧ (list_by_agent demo_mem_clock elements "a" demo_mem_repo).1
    = Ok [demo_memory "m2" "a" 1 (Some (Aware 9)); demo_memory "m1" "a" 2 None].
Proof.
  assert (star (mem_step demo_mem_clock elements) MemoryRepository_new demo_mem_repo) as Hr.
  { eapply star_step; [|apply star_one].
    - apply (mem_step_save _ _ _ (demo_memory "m1" "a" 2 None)). intros old. by vm_compute.
    - apply (mem_step_save _ _ _ (demo_memory "m2" "a" 1 (Some (Aware 9)))).
      intros old. by vm_compute. }
  split; [exact Hr|]. split; [|vm_compute; reflexivity].
  assert (∀ i m, dict_get i (mr_store demo_mem_repo) = Some m → well_dated m) as Hd.
  { assert (mr_store demo_mem_repo
            = [("m1", demo_memory "m1" "a" 2 None); ("m2", demo_memory "m2" "a" 1 (Some (Aware 9)))])
      as -> by reflexivity.
    intros i m. cbn [dict_get]. repeat case_decide; intros [=<-];
      (split; [eexists; reflexivity|exact I || reflexivity]). }
  assert (∀ m n : nat, (m ≤ n)%nat → (demo_mem_clock m ≤ demo_mem_clock n)%Z) as Hm
    by (unfold demo_mem_clock; intros; lia).
  destruct (memory_queries_exact demo_mem_clock elements Hm demo_mem_repo
              (λ X, Permutation_refl _) Hr Hd) as [Hl _].
  destruct (Hl "a") as (l & r' & H & _). exists l, r'. exact H.
Defined.

(** A deletion forgets the identifier in the index of its present agent only: an
    item that was saved for another agent before makes that agent's listing
    raise. *)
Example demo_memory_moved :
  (list_by_agent demo_mem_clock elements "a"
     (mem_delete "m" (mem_save (demo_memory "m" "b" 1 None)
        (mem_save (demo_memory "m" "a" 1 None) MemoryRepository_new).2).2).2).1
  = Raise (KeyError "m").
Proof. vm_compute. reflexivity. Qed.

(** One item without a creation date next to one with an aware date. *)
Example demo_memory_undated :
  (search demo_mem_clock "content" None None 0
     (mem_save (mkMemory "u" "t" "a" MT_FACT "Content" 1 ε None None) demo_mem_repo).2).1
  = Raise datetime_TypeError.
Proof. vm_compute. reflexivity. Qed.
