(* ===== verification/Governance.v ===== *)
(** * The router adapter, and the runtime on the control plane

    [control_plane/adapters/to_kernel/router.py] and the stack a deployment
    puts together: the runtime with the policy engine's adapter and the tool
    registry's router in front of any gateway and any persistence. What the
    policy and the registry decide about an intent is related here to what
    [execute_intent] does with it. *)
From S2P Require Import Prelude PyStr PyDict PyVal ExecState Tenant Isolation Quotas Observability.
From S2P Require Import Abi Runtime RuntimeSpec RuntimeProps ToolRegistry Capabilities PolicyEngine.

(** ** The router *)

Definition path_to (t : ToolDefinition) (intent : Intent) : ExecutionPath :=
  mkPath (td_tool_id t) (td_mcp_server t) (in_parameters intent).

Definition router_route (intent : Intent) (r : ToolRegistry) : outcome ExecutionPath :=
  match tool_get r (in_action intent) with
  | Some exact => Ok (path_to exact intent)
  | None =>
      match match_pattern r (in_action intent) with
      | [] => Raise (OrchestrationError ("No tool found for action '" +:+ in_action intent +:+ "'"))
      | [tool] => Ok (path_to tool intent)
      | matches => Raise (OrchestrationError
          ("Ambiguous action '" +:+ in_action intent +:+ "' matches multiple tools: "
           +:+ list_repr (td_tool_id <$> matches)))
      end
  end.

#[export] Instance simple_intent_router : IntentRouter ToolRegistry := {
  route_intent i := λ r, (router_route i r, r)
}.

(** ** The stack *)

Record Stack (E : Type) := mkStack {
  st_policy : PolicyEngine;
  st_tools : ToolRegistry;
  st_rest : E
}.
Arguments mkStack {E}.
Arguments st_policy {E}.
Arguments st_tools {E}.
Arguments st_rest {E}.

Section Stack.
Context {E : Type} `{!ToolGateway E, !StatePersistence E}.
Variable pclock : nat → Z.
Variable sha16 : string → string.

Definition on_policy {A} (m : M PolicyEngine A) : M (Stack E) A :=
  zoom st_policy (λ e s, mkStack e (st_tools s) (st_rest s)) m.
Definition on_tools {A} (m : M ToolRegistry A) : M (Stack E) A :=
  zoom st_tools (λ r s, mkStack (st_policy s) r (st_rest s)) m.
Definition on_rest {A} (m : M E A) : M (Stack E) A :=
  zoom st_rest (λ e s, mkStack (st_policy s) (st_tools s) e) m.

#[export] Instance stack_policy : PolicyEvaluator (Stack E) := {
  evaluate_intent i := on_policy (adapter_evaluate_intent pclock sha16 i);
  check_capability a g := on_policy (adapter_check_capability pclock sha16 a g)
}.
#[export] Instance stack_router : IntentRouter (Stack E) := {
  route_intent i := on_tools (route_intent i)
}.
#[export] Instance stack_gateway : ToolGateway (Stack E) := {
  access_tool p i := on_rest (access_tool p i)
}.
#[export] Instance stack_persistence : StatePersistence (Stack E) := {
  save x st := on_rest (save x st);
  restore c := on_rest (restore c)
}.

(** ** Routing *)

(** The router takes the tool the action names when there is one,
    otherwise the only tool the action, read as a pattern, matches; it raises
    an [OrchestrationError] exactly when no tool is named and none or several
    match. *)
Theorem router_exact (i : Intent) (r : ToolRegistry) :
  match router_route i r with
  | Ok p => ∃ t, p = path_to t i
      ∧ (tool_get r (in_action i) = Some t
         ∨ tool_get r (in_action i) = None ∧ match_pattern r (in_action i) = [t])
  | Raise e => tool_get r (in_action i) = None
      ∧ exn_class e = "OrchestrationError"
      ∧ length (match_pattern r (in_action i)) ≠ 1%nat
  end.
Proof.
  unfold router_route. destruct (tool_get r (in_action i)) as [t|]; [eauto|].
  destruct (match_pattern r (in_action i)) as [|t [|t' l]]; [done| |done].
  exists t. auto.
Qed.
End Stack.

(** ** One execution, seen from the collaborators *)

Section Ext.
Context {E : Type} `{!PolicyEvaluator E, !IntentRouter E, !ToolGateway E,
  !StatePersistence E}.
Variable clock : nat → Z.
Variable uuid : nat → string.

Lemma ask_step {A} x p s (m : M E A) (k : A → M (Core E) ExecutionResult) c :
  ask x p s m k c
  = match m (rt_ext c) with
    | (Ok a, e) => k a (put_ext e c)
    | (Raise err, e) => refuse x (p +:+ exn_str err) s (put_ext e c)
    end.
Proof.
  unfold ask, call_ext. m_unfold. destruct (m (rt_ext c)) as [[a|err] e]; reflexivity.
Qed.

(** Either the collaborators are not reached and nothing succeeds, or the chain
    runs on the collaborators' state and its result is the answer. *)
Lemma spec_execute_ext i c :
  let '(o, c') := spec_execute clock uuid i c in
  (rt_ext c' = rt_ext c ∧ succeeded o = false)
  ∨ ∃ c1 r c2, rt_ext c1 = rt_ext c
      ∧ spec_chain clock (uuid (rt_uuids c)) i (rt_tenant_context c) c1 = (Ok r, c2)
      ∧ o = Ok r ∧ rt_ext c' = rt_ext c2.
Proof.
  destruct (decide (rt_state c = RUNNING)) as [Hrun|Hrun].
  2:{ pose proof (spec_execute_post clock uuid i c) as Hpost.
      destruct (spec_execute clock uuid i c) as [o c'].
      destruct (ep_halted _ _ _ _ Hpost Hrun). by left. }
  destruct (spec_execute_eq clock uuid i c) as [(_ & _ & ->)| ->]; [by left|].
  unfold spec_admitted. set (x := uuid (rt_uuids c)). m_unfold.
  destruct (isolation_admit_entered uuid c _ eq_refl)
    as [(c1 & -> & [] & _)|(b & k & e & -> & _)]; [|by left].
  set (tenant := from_option _ _ _).
  destruct (spec_quota_admit clock x tenant c1) as [[[res|acq]|e] c2] eqn:Hg;
    apply spec_quota_admit_post in Hg;
    pose proof (gp_ext _ _ _ _ _ Hg) as Hext; pose proof (gp_state _ _ _ _ _ Hg) as Hst;
    [left; split; [congruence|by apply (gp_result _ _ _ _ _ Hg)]|
    |left; split; [congruence|done]].
  assert (rt_state c2 = RUNNING) as Hs by congruence. rewrite Hs. cbn [spec_started].
  pose proof (spec_chain_ok clock x i (rt_tenant_context c) c2) as Hok.
  destruct (spec_chain clock x i (rt_tenant_context c) c2) as [[r|e] c3] eqn:Hc; [|done].
  destruct (release_post acq tenant x c3) as (c4 & -> & _ & _ & _ & _ & He & _).
  right. exists c2, r, c3. split_and!; [congruence|done|done|done].
Qed.

End Ext.

(** ** The stack's answers *)

Section Answers.
Context {E : Type} `{!ToolGateway E, !StatePersistence E}.
Variable pclock : nat → Z.
Variable sha16 : string → string.
Implicit Types s : Stack E.

#[local] Existing Instance stack_policy.

Lemma parse_allowed why d :
  (parse_decision why d).1 = true ↔ pd_decision d = Some "ALLOW".
Proof.
  unfold parse_decision. destruct (pd_decision d) as [x|]; [|done].
  case_decide; simpl; [by subst|]. split; [done|by intros [=]].
Qed.

(** The policy part of a stack: same rules, coherent cache, the rest as it was. *)
Definition policy_only s s' : Prop :=
  st_tools s' = st_tools s ∧ st_rest s' = st_rest s
  ∧ same_rules (st_policy s) (st_policy s') ∧ coherent (st_policy s').

Lemma stack_evaluate (agent action : string) (why : string) s :
  bar_free agent = true → bar_free action = true → coherent (st_policy s) →
  ∃ d s',
    on_policy (result ← evaluate pclock sha16 agent action action;
               mret (parse_decision why result)) s = (Ok (parse_decision why d), s')
    ∧ policy_only s s' ∧ decides (dict_values (pe_policies (st_policy s))) action d.
Proof.
  intros Hg Ha Hc.
  destruct (evaluate_spec pclock sha16 agent action action _ Hg Ha Ha Hc)
    as (d & e' & He & Hr & Hc' & Hd).
  exists d, (mkStack e' (st_tools s) (st_rest s)). unfold on_policy, zoom.
  rewrite (bind_ok _ _ _ _ _ He). split; [reflexivity|]. by split.
Qed.

(** What an execution of [i] may have done to the stack, [d] being the decision
    of the rules on the intent's action, [x] the execution's identifier and [ctx]
    the tenant context: a success returns what the tool answered and the
    identifier its state was saved under. *)
Definition governed_run (x : string) (i : Intent) (ctx : option TenantContext)
    (d : PolicyDecision) s (o : outcome ExecutionResult) s' : Prop :=
  st_tools s' = st_tools s ∧ same_rules (st_policy s) (st_policy s')
  ∧ coherent (st_policy s')
  ∧ ((st_rest s' = st_rest s ∧ succeeded o = false)
     ∨ pd_decision d = Some "ALLOW"
       ∧ ∃ p o1 e1, router_route i (st_tools s) = Ok p
           ∧ access_tool p i (st_rest s) = (o1, e1)
           ∧ ((st_rest s' = e1 ∧ succeeded o = false ∧ ∀ r, o1 = Ok r → tl_success r = false)
              ∨ ∃ r now o2, o1 = Ok r ∧ tl_success r = true
                  ∧ save x (checkpoint_state x i ctx r now) e1 = (o2, st_rest s')
                  ∧ match o2 with
                    | Ok cid => o = Ok (mkResult true x (Some cid) (tl_data r) None COMPLETED)
                    | Raise _ => succeeded o = false
                    end)).

Lemma ext_put e (c : Core (Stack E)) : rt_ext (put_ext e c) = e.
Proof. reflexivity. Qed.

Lemma decides_agree s s' res d d' :
  same_rules (st_policy s) (st_policy s') →
  decides (dict_values (pe_policies (st_policy s))) res d →
  decides (dict_values (pe_policies (st_policy s'))) res d' → d' = d.
Proof.
  intros [Hp _] Hd Hd'. rewrite Hp in Hd'.
  by rewrite (decides_fun _ _ _ Hd), (decides_fun _ _ _ Hd').
Qed.

Lemma policy_only_trans s1 s2 s3 :
  policy_only s1 s2 → policy_only s2 s3 → policy_only s1 s3.
Proof.
  intros (T1 & R1 & [P1 Q1] & C1) (T2 & R2 & [P2 Q2] & C2).
  split_and!; [congruence..|split; congruence|done].
Qed.

(** A run that stops at the policy. *)
Lemma governed_refused x i ctx d s o s' :
  policy_only s s' → succeeded o = false → governed_run x i ctx d s o s'.
Proof. intros (HT & HR & HS & HC) Ho. split_and!; [done..|]. by left. Qed.

Variable clock : nat → Z.

Let chain := @spec_chain (Stack E) (stack_policy pclock sha16) stack_router stack_gateway
               stack_persistence clock.

#[local] Arguments checkpoint_state : simpl never.

Lemma chain_governed x i ctx (c c' : Core (Stack E)) o :
  bar_free (in_agent_id i) = true → bar_free (in_action i) = true →
  coherent (st_policy (rt_ext c)) →
  chain x i ctx c = (o, c') →
  ∃ d, decides (dict_values (pe_policies (st_policy (rt_ext c)))) (in_action i) d
    ∧ governed_run x i ctx d (rt_ext c) o (rt_ext c').
Proof.
  intros Hg Ha Hc. unfold chain, spec_chain. rewrite ask_step.
  destruct (stack_evaluate (in_agent_id i) (in_action i) "Policy denied the intent" (rt_ext c) Hg Ha Hc)
    as (d & s1 & H1 & P1 & D1).
  cbn [evaluate_intent stack_policy]. unfold adapter_evaluate_intent. rewrite H1.
  intros Hrun. exists d. split; [done|]. revert Hrun.
  pose proof (parse_allowed "Policy denied the intent" d) as Hallow.
  destruct (parse_decision _ d) as [allowed reason]. simpl in Hallow.
  destruct allowed; cbn [negb]; [|intros [= <- <-]; by apply governed_refused].
  destruct P1 as (T1 & R1 & S1 & C1).
  rewrite ask_step, ext_put.
  destruct (stack_evaluate (in_agent_id i) (in_action i) "Policy denied the capability" s1 Hg Ha C1)
    as (d2 & s2 & H2 & P2 & D2).
  cbn [check_capability stack_policy]. unfold adapter_check_capability. rewrite H2.
  assert (d2 = d) as -> by (by eapply decides_agree).
  assert (policy_only (rt_ext c) s2) as P by (by eapply policy_only_trans).
  destruct (parse_decision _ d) as [allowed reason2].
  destruct allowed; cbn [negb]; [|intros [= <- <-]; by apply governed_refused].
  clear T1 R1 S1 C1 P2. destruct P as (T & R & S & C).
  rewrite ask_step, ext_put. cbn [route_intent stack_router simple_intent_router].
  unfold on_tools, zoom. rewrite T.
  destruct (router_route i (st_tools (rt_ext c))) as [p|err] eqn:Hp;
    [|intros [= <- <-]; apply governed_refused; [by split_and!|done]].
  rewrite ask_step, ext_put. cbn [access_tool stack_gateway]. unfold on_rest at 1, zoom.
  cbn [st_rest st_policy st_tools]. rewrite R.
  destruct (access_tool p i (st_rest (rt_ext c))) as [o1 e1] eqn:Hacc.
  assert (∀ s' o', st_tools s' = st_tools (rt_ext c) → st_policy s' = st_policy s2 →
    (st_rest s' = e1 ∧ succeeded o' = false ∧ (∀ r, o1 = Ok r → tl_success r = false)
     ∨ ∃ r now o2, o1 = Ok r ∧ tl_success r = true
         ∧ save x (checkpoint_state x i ctx r now) e1 = (o2, st_rest s')
         ∧ match o2 with
           | Ok cid => o' = Ok (mkResult true x (Some cid) (tl_data r) None COMPLETED)
           | Raise _ => succeeded o' = false
           end) → governed_run x i ctx d (rt_ext c) o' s') as Hend.
  { intros s' o' HT HP Hr. unfold governed_run. rewrite HP. split_and!; [done..|].
    right. split; [by apply Hallow|]. exists p, o1, e1. by split_and!. }
  clear H1 H2 Hallow. destruct o1 as [r|err]; [|intros [= <- <-]; apply Hend; naive_solver].
  destruct (tl_success r) eqn:Hr; cbn [negb]; [|intros [= <- <-]; apply Hend; naive_solver].
  unfold mbind at 1, M_bind, now_core. rewrite ask_step.
  cbn [save stack_persistence]. unfold on_rest, zoom. cbn.
  match goal with |- context [save x (checkpoint_state x i ctx r ?z) e1] => set (now := z) end.
  destruct (save x (checkpoint_state x i ctx r now) e1) as [o2 e2] eqn:Hs.
  assert (∀ s' o', st_tools s' = st_tools (rt_ext c) → st_policy s' = st_policy s2 →
    st_rest s' = e2 →
    match o2 with
    | Ok cid => o' = Ok (mkResult true x (Some cid) (tl_data r) None COMPLETED)
    | Raise _ => succeeded o' = false
    end → governed_run x i ctx d (rt_ext c) o' s') as Hdone.
  { intros s' o' HT HP HR Ho. apply Hend; [done..|]. right. exists r, now, o2.
    by rewrite Hs, HR. }
  destruct o2 as [cid|err]; [|intros [= <- <-]; by apply Hdone].
  m_unfold. intros Hrun. destruct (rt_isolation _), ctx; injection Hrun as <- <-; by apply Hdone.
Qed.
End Answers.

(** One execution on the stack, its identifier and tenant context being the
    runtime's. *)
Lemma stack_governed {E : Type} `{!ToolGateway E, !StatePersistence E}
    (pclock : nat → Z) (sha16 : string → string) (clock obs_clock : nat → Z)
    (uuid : nat → string) (ob : Observers) (i : Intent) (w : World (Stack E)) o w' :
  let before := rt_ext (w_core w) in
  coherent (st_policy before) →
  bar_free (in_agent_id i) = true → bar_free (in_action i) = true →
  @execute_intent (Stack E) (stack_policy pclock sha16) stack_router
    stack_gateway stack_persistence clock obs_clock uuid ob i w = (o, w') →
  ∃ d, decides (dict_values (pe_policies (st_policy before))) (in_action i) d
    ∧ governed_run (uuid (rt_uuids (w_core w))) i (rt_tenant_context (w_core w)) d before o
        (rt_ext (w_core w')).
Proof.
  intros before Hcoh Hg Ha Hrun.
  pose proof (@execute_erases (Stack E) (stack_policy pclock sha16) stack_router
    stack_gateway stack_persistence clock obs_clock uuid ob i w) as Her.
  pose proof (@spec_execute_ext (Stack E) (stack_policy pclock sha16) stack_router
    stack_gateway stack_persistence clock uuid i (w_core w)) as Hs.
  rewrite Her, Hrun in Hs. cbn [fst snd] in Hs.
  destruct Hs as [[He Ho]|(c1 & r & c2 & He1 & Hc & -> & He2)].
  - exists (best_decision (filter (applies (in_action i))
              (dict_values (pe_policies (st_policy before))))).
    split; [apply best_decision_decides|]. rewrite He.
    apply governed_refused; [by split_and!|done].
  - rewrite He2. unfold before in *. rewrite <- He1 in *.
    eapply (chain_governed pclock sha16 clock); [done..|exact Hc].
Qed.

(** C4: with the policy engine and the tool registry behind the runtime, and as
    long as no agent, action or resource the engine is asked about holds a '|',
    now or earlier (two questions could share a cache key): an execution whose
    action the rules do not allow leaves the tools' side of the stack untouched
    and does not succeed; when something runs, the rules say [ALLOW] for the
    action, what runs is one access to the tool the router chose for it, and a
    success returns the gateway's answer after having saved it, with the
    identifier it was saved under. The rules and the registry are never changed,
    and the decision cache keeps agreeing with the rules. *)
Theorem policy_governs_execution {E : Type} `{!ToolGateway E, !StatePersistence E}
    (pclock : nat → Z) (sha16 : string → string) (clock obs_clock : nat → Z)
    (uuid : nat → string) (ob : Observers) (registry : option CapabilityRegistry)
    (i : Intent) (w : World (Stack E)) :
  let before := rt_ext (w_core w) in
  star (policy_step pclock sha16) (PolicyEngine_new registry) (st_policy before) →
  bar_free (in_agent_id i) = true → bar_free (in_action i) = true →
  let '(o, w') := @execute_intent (Stack E) (stack_policy pclock sha16) stack_router
                    stack_gateway stack_persistence clock obs_clock uuid ob i w in
  ∃ d, decides (dict_values (pe_policies (st_policy before))) (in_action i) d
    ∧ governed_run (uuid (rt_uuids (w_core w))) i (rt_tenant_context (w_core w)) d before o
        (rt_ext (w_core w')).
Proof.
  intros before Hreach Hg Ha. apply coherent_star in Hreach.
  destruct (execute_intent _ _ _ _ i w) as [o w'] eqn:Hrun.
  by eapply stack_governed.
Qed.

(** ** A concrete stack *)

Definition demo_tool (t : string) : ToolDefinition := mkTool t "srv" ε [] [] ∅ ∅ [].

(** One tool, which the one rule denies. *)
Definition demo_stack : Stack unit :=
  mkStack (create_policy "a" "no deletes" "files.delete" "DENY" None (PolicyEngine_new None)).2
    [("files.delete", demo_tool "files.delete")] tt.

Definition demo_stack_world : World (Stack unit) :=
  mkWorld (mkCore RUNNING [] None None None demo_stack 0 0) (mkObsState [] MetricsRegistry_new 0).

Definition demo_stack_execute (action : string) : outcome ExecutionResult * World (Stack unit) :=
  @execute_intent (Stack unit) (stack_policy (λ _, 0%Z) (λ s, s)) stack_router
    (@stack_gateway unit demo_gateway) (@stack_persistence unit demo_store)
    demo_clock demo_clock demo_uuid demo_observers (mkIntent "agent" action [] 0) demo_stack_world.

Lemma policy_governs_execution_witness :
  succeeded (demo_stack_execute "files.delete").1 = false
  ∧ let '(o, w') := demo_stack_execute "files.delete" in
    ∃ d, decides (dict_values (pe_policies (st_policy demo_stack))) "files.delete" d
      ∧ @governed_run unit demo_gateway demo_store "exec-0"
          (mkIntent "agent" "files.delete" [] 0) None d demo_stack o (rt_ext (w_core w')).
Proof.
  split; [vm_compute; reflexivity|].
  apply (@policy_governs_execution unit demo_gateway demo_store (λ _, 0%Z) (λ s, s)
           demo_clock demo_clock demo_uuid demo_observers None
           (mkIntent "agent" "files.delete" [] 0) demo_stack_world); [|reflexivity..].
  apply star_one. eapply (ps_create _ _ "a" "no deletes" "files.delete" "DENY" None).
  apply surjective_pairing.
Defined.

(** The policy judges the action, the router may read it as a pattern: an
    intent for a pattern that no rule targets runs the tool that is denied by
    name. *)
Example pattern_action_runs_denied_tool :
  succeeded (demo_stack_execute "files.delete").1 = false
  ∧ succeeded (demo_stack_execute "files.*").1 = true
  ∧ router_route (mkIntent "agent" "files.*" [] 0) (st_tools demo_stack)
    = Ok (path_to (demo_tool "files.delete") (mkIntent "agent" "files.*" [] 0)).
Proof. vm_compute. done. Qed.
