(* ===== verification/Execution.v ===== *)
(** * Step execution

    [core/contracts/step_request.py] and [step_response.py], the package
    [kernel/execution] (context, builder, errors, in-memory runtime) and
    [control_plane/adapters/to_runtime/runtime.py], which plans a step, runs it
    and tells the execution's state machine about a failure. The runtime behind
    the adapter is an interface, [ExecutionRuntime]; [InMemoryRuntime] is an
    instance of it over any checkpoint repository. A context is a mutable
    object the runtime works on: it is part of the state a step runs in. The
    injected memory is only ever passed along, so a context records whether
    there is one. *)
From S2P Require Import Prelude PyStr PyDict PyVal Storage Lifecycle.

(** ** Contracts *)

Record StepRequest := mkStepRequest {
  sq_execution_id : string;
  sq_agent_id : string;
  sq_goal : string;
  sq_state : dict pyval;
  sq_allowed_tools : list string;
  sq_allowed_models : list string;
  sq_max_tokens : Z;
  sq_max_time_seconds : Z
}.

Inductive StepStatus :=
| SS_COMPLETED | SS_TOOL_REQUEST | SS_APPROVAL_REQUIRED | SS_CHECKPOINT_REQUIRED | SS_FAILED.

#[export] Instance StepStatus_eq_dec : EqDecision StepStatus.
Proof. solve_decision. Defined.

Record ToolRequest := mkToolRequest {
  tq_mcp_server : string;
  tq_tool_name : string;
  tq_arguments : dict pyval
}.

Record StepResponse := mkStepResponse {
  sp_status : StepStatus;
  sp_updated_state : dict pyval;
  sp_output : string;
  sp_tool_request : option ToolRequest;
  sp_error_message : string;
  sp_tokens_consumed : Z
}.

(** ** Context and builder *)

Record ExecutionContext := mkExecContext {
  cx_execution_id : string;
  cx_agent_id : string;
  cx_step_number : Z;
  cx_state : dict pyval;
  cx_budget_remaining : Z;
  cx_tokens_per_step : Z;
  cx_allowed_tools : list string;
  cx_metadata : dict pyval;
  cx_tokens_consumed : Z;
  cx_memory : bool;
  cx_checkpoint : bool
}.

(** The builder's fields are those of the context it builds. *)
Definition ContextBuilder : Type := ExecutionContext.

Definition ValueError (msg : string) : exn := mkExn "ValueError" msg.

Definition ContextBuilder_new (execution_id agent_id : string) : outcome ContextBuilder :=
  if negb (truthy execution_id) then Raise (ValueError "execution_id is required")
  else if negb (truthy agent_id) then Raise (ValueError "agent_id is required")
  else Ok (mkExecContext execution_id agent_id 0 [] 0 10 [] [] 0 false false).

Definition with_step_number (n : Z) (b : ContextBuilder) : ContextBuilder :=
  mkExecContext (cx_execution_id b) (cx_agent_id b) n (cx_state b) (cx_budget_remaining b)
    (cx_tokens_per_step b) (cx_allowed_tools b) (cx_metadata b) (cx_tokens_consumed b)
    (cx_memory b) (cx_checkpoint b).
Definition with_budget (budget : Z) (b : ContextBuilder) : ContextBuilder :=
  mkExecContext (cx_execution_id b) (cx_agent_id b) (cx_step_number b) (cx_state b) budget
    (cx_tokens_per_step b) (cx_allowed_tools b) (cx_metadata b) (cx_tokens_consumed b)
    (cx_memory b) (cx_checkpoint b).
Definition with_tokens_per_step (tokens : Z) (b : ContextBuilder) : ContextBuilder :=
  mkExecContext (cx_execution_id b) (cx_agent_id b) (cx_step_number b) (cx_state b)
    (cx_budget_remaining b) tokens (cx_allowed_tools b) (cx_metadata b) (cx_tokens_consumed b)
    (cx_memory b) (cx_checkpoint b).
Definition with_state (state : dict pyval) (b : ContextBuilder) : ContextBuilder :=
  mkExecContext (cx_execution_id b) (cx_agent_id b) (cx_step_number b) state
    (cx_budget_remaining b) (cx_tokens_per_step b) (cx_allowed_tools b) (cx_metadata b)
    (cx_tokens_consumed b) (cx_memory b) (cx_checkpoint b).
Definition with_allowed_tools (tools : list string) (b : ContextBuilder) : ContextBuilder :=
  mkExecContext (cx_execution_id b) (cx_agent_id b) (cx_step_number b) (cx_state b)
    (cx_budget_remaining b) (cx_tokens_per_step b) tools (cx_metadata b)
    (cx_tokens_consumed b) (cx_memory b) (cx_checkpoint b).
Definition with_metadata (metadata : dict pyval) (b : ContextBuilder) : ContextBuilder :=
  mkExecContext (cx_execution_id b) (cx_agent_id b) (cx_step_number b) (cx_state b)
    (cx_budget_remaining b) (cx_tokens_per_step b) (cx_allowed_tools b) metadata
    (cx_tokens_consumed b) (cx_memory b) (cx_checkpoint b).
Definition with_memory (memory : bool) (b : ContextBuilder) : ContextBuilder :=
  mkExecContext (cx_execution_id b) (cx_agent_id b) (cx_step_number b) (cx_state b)
    (cx_budget_remaining b) (cx_tokens_per_step b) (cx_allowed_tools b) (cx_metadata b)
    (cx_tokens_consumed b) memory (cx_checkpoint b).
Definition with_checkpoint (checkpoint : bool) (b : ContextBuilder) : ContextBuilder :=
  mkExecContext (cx_execution_id b) (cx_agent_id b) (cx_step_number b) (cx_state b)
    (cx_budget_remaining b) (cx_tokens_per_step b) (cx_allowed_tools b) (cx_metadata b)
    (cx_tokens_consumed b) (cx_memory b) checkpoint.
Definition build (b : ContextBuilder) : ExecutionContext := b.

(** ** Errors *)

Definition InvalidStepRequestError (errors : list string) : exn :=
  mkExn "InvalidStepRequestError" ("Invalid step request: " +:+ str_join "; " errors).
Definition BudgetExceededError (limit consumed : Z) : exn :=
  mkExn "BudgetExceededError"
    ("Budget exceeded: " +:+ str_of_Z consumed +:+ " > " +:+ str_of_Z limit).
Definition NodeExecutionError (reason : string) : exn :=
  mkExn "NodeExecutionError" ("Node execution failed: " +:+ reason).

(** ** The runtime interface *)

Class ExecutionRuntime (R : Type) := {
  execute_step : StepRequest → M (R * ExecutionContext) StepResponse
}.

(** ** The in-memory runtime *)

(** [checkpoint.save], the only method of the repository a step calls. *)
Class CheckpointSaver (E : Type) := { saver_save : Checkpoint → M E Checkpoint }.

#[export] Instance in_memory_saver : CheckpointSaver CheckpointRepository := {
  saver_save := ck_save
}.

Definition py_type_name (v : pyval) : string :=
  match v with
  | VNone => "NoneType"
  | VBool _ => "bool"
  | VInt _ => "int"
  | VFloat _ => "float"
  | VStr _ => "str"
  | VList _ => "list"
  | VDict _ => "dict"
  end.

(** [v.get(key, dflt)] *)
Definition py_get (v : pyval) (key : string) (dflt : pyval) : outcome pyval :=
  match v with
  | VDict d => Ok (dict_get_or dflt key d)
  | _ => Raise (mkExn "AttributeError"
           ("'" +:+ py_type_name v +:+ "' object has no attribute 'get'"))
  end.

Definition double_quote : string := String (Ascii.ascii_of_nat 34) ε.

(** [v + 1] *)
Definition py_succ (v : pyval) : outcome pyval :=
  match v with
  | VInt z => Ok (VInt (z + 1))
  | VBool b => Ok (VInt (Z.b2z b + 1))
  | VFloat q => Ok (VFloat (q + 1)%Q)
  | VStr _ | VList _ => Raise (mkExn "TypeError"
      ("can only concatenate " +:+ py_type_name v +:+ " (not " +:+ double_quote +:+ "int"
       +:+ double_quote +:+ ") to " +:+ py_type_name v))
  | VNone | VDict _ => Raise (mkExn "TypeError"
      ("unsupported operand type(s) for +: '" +:+ py_type_name v +:+ "' and 'int'"))
  end.

Record InMemoryRuntime (E : Type) := mkMemRuntime {
  ir_repo : E;
  ir_ticks : nat;
  ir_uuids : nat
}.
Arguments mkMemRuntime {E}.
Arguments ir_repo {E}.
Arguments ir_ticks {E}.
Arguments ir_uuids {E}.

Definition _validate_request (request : StepRequest) : list string :=
  (if truthy (sq_execution_id request) then [] else ["execution_id is required"])
  ++ (if truthy (sq_agent_id request) then [] else ["agent_id is required"])
  ++ (if truthy (sq_goal request) then [] else ["goal is required"]).

(** [context.tokens_consumed += tokens; context.budget_remaining -= tokens] *)
Definition charge (tokens : Z) (c : ExecutionContext) : ExecutionContext :=
  mkExecContext (cx_execution_id c) (cx_agent_id c) (cx_step_number c) (cx_state c)
    (cx_budget_remaining c - tokens) (cx_tokens_per_step c) (cx_allowed_tools c) (cx_metadata c)
    (cx_tokens_consumed c + tokens) (cx_memory c) (cx_checkpoint c).

(** The state a step returns: the request's with its runtime entry renewed. *)
Definition step_state (state : dict pyval) (step_number : Z) : outcome (dict pyval) :=
  steps_before ← py_get (dict_get_or (VDict []) "_runtime" state) "steps_executed" (VInt 0);
  steps ← py_succ steps_before;
  mret (dict_set "_runtime"
          (VDict [("steps_executed", steps);
                  ("last_node", VStr ("step-" +:+ str_of_Z step_number))]) state).

Section MemoryRuntime.
Context {E : Type} `{!CheckpointSaver E}.
Variable clock : nat → Z.
Variable uuid : nat → string.

Definition on_env {A} (m : M (InMemoryRuntime E) A)
    : M (InMemoryRuntime E * ExecutionContext) A :=
  zoom fst (λ r s, (r, snd s)) m.

Definition ir_new_uuid : M (InMemoryRuntime E) string := λ r,
  (Ok (uuid (ir_uuids r)), mkMemRuntime (ir_repo r) (ir_ticks r) (S (ir_uuids r))).
Definition ir_now : M (InMemoryRuntime E) Z := λ r,
  (Ok (clock (ir_ticks r)), mkMemRuntime (ir_repo r) (S (ir_ticks r)) (ir_uuids r)).
Definition ir_save (c : Checkpoint) : M (InMemoryRuntime E) Checkpoint :=
  zoom ir_repo (λ e r, mkMemRuntime e (ir_ticks r) (ir_uuids r)) (saver_save c).

Definition memory_execute_step (request : StepRequest)
    : M (InMemoryRuntime E * ExecutionContext) StepResponse :=
  match _validate_request request with
  | [] => mret tt
  | errors => raise (InvalidStepRequestError errors)
  end ;;
  context ← read snd;
  (if (cx_budget_remaining context <=? 0)%Z then raise (BudgetExceededError 0 0) else mret tt) ;;
  updated_state ← of_outcome (step_state (sq_state request) (cx_step_number context));
  let tokens := cx_tokens_per_step context in
  modify (λ s, (fst s, charge tokens (snd s))) ;;
  let response := mkStepResponse SS_COMPLETED updated_state
    ("Step " +:+ str_of_Z (cx_step_number context) +:+ " executed for goal: " +:+ sq_goal request)
    None ε tokens in
  if cx_checkpoint context then
    i ← on_env ir_new_uuid;
    now ← on_env ir_now;
    _ ← on_env (ir_save (mkCheckpoint i (cx_execution_id context) (cx_step_number context)
                  CT_STEP_COMPLETE "auto" "1.0" None None [] [] (Some (Aware now))));
    mret response
  else mret response.

#[export] Instance memory_runtime : ExecutionRuntime (InMemoryRuntime E) := {
  execute_step := memory_execute_step
}.
End MemoryRuntime.

(** ** The executor adapter *)

(** [int(x)] of a float: towards zero. *)
Definition py_int (q : Q) : Z := Z.quot (Qnum q) (Zpos (Qden q)).

Record RuntimeExecutorAdapter := mkExecutor {
  xa_max_steps : Z;
  xa_memory : bool;
  xa_checkpoint : bool
}.

Record StepFrame (R : Type) := mkStepFrame {
  sf_runtime : R;
  sf_machine : ExecutionStateMachine;
  sf_ticks : nat
}.
Arguments mkStepFrame {R}.
Arguments sf_runtime {R}.
Arguments sf_machine {R}.
Arguments sf_ticks {R}.

Section Adapter.
Context {R : Type} `{!ExecutionRuntime R}.
Variable clock : nat → Z.
Implicit Types f : StepFrame R.

(** [if sm.can_transition(FAILED): sm.transition(FAILED, reason, "runtime_adapter")] *)
Definition fail_machine (reason : string) : M (StepFrame R) unit := λ f,
  if can_transition (sf_machine f) ST_FAILED then
    let '(o, sm) := transition (clock (sf_ticks f)) ST_FAILED reason "runtime_adapter" None
                      (sf_machine f) in
    ((_ ← o; mret tt), mkStepFrame (sf_runtime f) sm (S (sf_ticks f)))
  else (Ok tt, f).

Definition build_context (a : RuntimeExecutorAdapter) (execution_id agent_id : string)
    (step_number : Z) (state : dict pyval) (budget_remaining : Q) (allowed_tools : list string)
    : outcome ExecutionContext :=
  b ← ContextBuilder_new execution_id agent_id;
  mret (build (with_checkpoint (xa_checkpoint a) (with_memory (xa_memory a)
    (with_allowed_tools allowed_tools (with_state state (with_step_number step_number
      (with_budget (py_int budget_remaining) b))))))).

(** [await self._runtime.execute_step(req, ctx)]; the context dies with the call. *)
Definition run_step (req : StepRequest) (ctx : ExecutionContext) : M (StepFrame R) StepResponse :=
  λ f, let '(o, (r, _)) := execute_step req (sf_runtime f, ctx) in
       (o, mkStepFrame r (sf_machine f) (sf_ticks f)).

Definition adapter_execute_step (a : RuntimeExecutorAdapter) (execution_id agent_id goal : string)
    (step_number : Z) (state : dict pyval) (budget_remaining : Q) (allowed_tools : list string)
    : M (StepFrame R) StepResponse :=
  ctx ← of_outcome (build_context a execution_id agent_id step_number state budget_remaining
                      allowed_tools);
  let req := mkStepRequest execution_id agent_id goal state allowed_tools [] 50000 3600 in
  r ← attempt (run_step req ctx);
  match r with
  | Raise exc =>
      fail_machine (exn_str exc) ;;
      mret (mkStepResponse SS_FAILED [] ε None (exn_str exc) 0)
  | Ok response =>
      (if decide (sp_status response = SS_FAILED) then
         fail_machine (str_or (sp_error_message response) "step_execution_failed")
       else mret tt) ;;
      mret response
  end.

Definition plan_and_execute (a : RuntimeExecutorAdapter) (execution_id agent_id goal : string)
    (step_number : Z) (state : dict pyval) (budget_remaining : Q) (allowed_tools : list string)
    : M (StepFrame R) (StepPlan * option StepResponse) :=
  let plan := plan_step (xa_max_steps a) execution_id step_number goal budget_remaining
                allowed_tools in
  if decide (pl_action plan ≠ SA_EXECUTE) then mret (plan, None)
  else
    response ← adapter_execute_step a execution_id agent_id goal (pl_step_number plan) state
                 budget_remaining allowed_tools;
    mret (plan, Some response).
End Adapter.

(** ** What a plan is *)

Lemma plan_step_execute max_steps x n goal b tools :
  pl_action (plan_step max_steps x n goal b tools) = SA_EXECUTE ↔
  (n < max_steps)%Z ∧ (0 < b)%Q ∧ tools ≠ [].
Proof.
  unfold plan_step, Qlt. rewrite Z.geb_leb. simpl.
  destruct (max_steps <=? n)%Z eqn:Hn; b2p; [split; [done|lia]|].
  destruct (Qnum b <=? 0)%Z eqn:Hb; b2p; [split; [done|lia]|].
  case_bool_decide; simpl; split; intros; try done; [naive_solver|].
  split_and!; [lia|lia|done].
Qed.

Lemma plan_step_number max_steps x n goal b tools :
  pl_step_number (plan_step max_steps x n goal b tools) = n
  ∧ pl_execution_id (plan_step max_steps x n goal b tools) = x.
Proof. unfold plan_step. by repeat case_match. Qed.

(** ** What a step does to the state machine *)

Section AdapterSpec.
Context {R : Type} `{!ExecutionRuntime R}.
Variable clock : nat → Z.
Implicit Types f : StepFrame R.

(** The machine after a failure: FAILED when that is legal, with one more record,
    otherwise as it was. *)
Definition failed_machine (reason : string) (t : Z) (sm : ExecutionStateMachine)
    : ExecutionStateMachine :=
  moved t ST_FAILED reason "runtime_adapter" None sm.

Lemma fail_machine_ok reason f : ∃ n,
  fail_machine clock reason f
  = (Ok tt, mkStepFrame (sf_runtime f)
              (failed_machine reason (clock (sf_ticks f)) (sf_machine f)) n).
Proof.
  unfold fail_machine, failed_machine. rewrite transition_moved. unfold moved.
  destruct (can_transition (sf_machine f) ST_FAILED); [by eexists|].
  exists (sf_ticks f). by destruct f.
Qed.

(** The answer and the failure reason a runtime's outcome turns into. *)
Definition answer_of (o : outcome StepResponse) : StepResponse * option string :=
  match o with
  | Raise exc => (mkStepResponse SS_FAILED [] ε None (exn_str exc) 0, Some (exn_str exc))
  | Ok response =>
      (response,
       if decide (sp_status response = SS_FAILED)
       then Some (str_or (sp_error_message response) "step_execution_failed") else None)
  end.

Definition after_step (reason : option string) (t : Z) (sm : ExecutionStateMachine)
    : ExecutionStateMachine :=
  match reason with Some why => failed_machine why t sm | None => sm end.

Lemma adapter_step_ok a x agent goal n st b tools f ctx :
  build_context a x agent n st b tools = Ok ctx →
  let req := mkStepRequest x agent goal st tools [] 50000 3600 in
  let '(o, (r, _)) := execute_step req (sf_runtime f, ctx) in
  ∃ f', adapter_execute_step clock a x agent goal n st b tools f = (Ok (answer_of o).1, f')
    ∧ sf_runtime f' = r
    ∧ sf_machine f' = after_step (answer_of o).2 (clock (sf_ticks f)) (sf_machine f).
Proof.
  intros Hctx req. unfold adapter_execute_step. rewrite Hctx.
  rewrite (bind_ok (of_outcome _) _ f ctx f) by done. fold req.
  destruct (execute_step req (sf_runtime f, ctx)) as [o [r c]] eqn:Hstep.
  assert (attempt (run_step req ctx) f = (Ok o, mkStepFrame r (sf_machine f) (sf_ticks f))) as Hr
    by (unfold attempt, run_step; by rewrite Hstep).
  rewrite (bind_ok _ _ _ _ _ Hr). set (f1 := mkStepFrame r _ _).
  destruct o as [response|exc]; simpl.
  - case_decide as Hs.
    + destruct (fail_machine_ok (str_or (sp_error_message response) "step_execution_failed") f1)
        as (k & Hf).
      rewrite (bind_ok _ _ _ _ _ Hf). eexists. by split_and!.
    + eexists. by split_and!.
  - destruct (fail_machine_ok (exn_str exc) f1) as (k & Hf).
    rewrite (bind_ok _ _ _ _ _ Hf). eexists. by split_and!.
Qed.

(** C27: for any runtime behind the adapter: the runtime is asked exactly when the
    step number is below the limit, the budget positive and a tool allowed,
    and otherwise neither it nor the state machine is touched. A planned step
    with both identifiers always gets a response, an exception of the runtime
    as a FAILED one; the state machine goes to FAILED, where that is legal,
    exactly when the response is FAILED, and is otherwise left as it was. *)
Theorem plan_and_execute_exact a x agent goal n st b tools f :
  let plan := plan_step (xa_max_steps a) x n goal b tools in
  let '(o, f') := plan_and_execute clock a x agent goal n st b tools f in
  (pl_action plan = SA_EXECUTE ↔ (n < xa_max_steps a)%Z ∧ (0 < b)%Q ∧ tools ≠ [])
  ∧ (pl_action plan ≠ SA_EXECUTE → o = Ok (plan, None) ∧ f' = f)
  ∧ (pl_action plan = SA_EXECUTE → x ≠ ε → agent ≠ ε →
       ∃ response, o = Ok (plan, Some response)
         ∧ (sp_status response ≠ SS_FAILED → sf_machine f' = sf_machine f)
         ∧ (sp_status response = SS_FAILED → ∃ why,
              sf_machine f' = failed_machine why (clock (sf_ticks f)) (sf_machine f))
         ∧ ∃ c, build_context a x agent n st b tools = Ok c ∧
             let run := execute_step (mkStepRequest x agent goal st tools [] 50000 3600)
                          (sf_runtime f, c) in
             sf_runtime f' = run.2.1
             ∧ match run.1 with
               | Ok r => response = r
               | Raise e => sp_status response = SS_FAILED ∧ sp_error_message response = exn_str e
               end).
Proof.
  intros plan. unfold plan_and_execute. fold plan.
  pose proof (plan_step_execute (xa_max_steps a) x n goal b tools) as Hplan.
  destruct (plan_step_number (xa_max_steps a) x n goal b tools) as [Hn _].
  fold plan in Hplan, Hn. rewrite Hn.
  destruct (decide (pl_action plan ≠ SA_EXECUTE)) as [Hp|Hp]; [by split_and!|].
  apply dec_stable in Hp.
  destruct (build_context a x agent n st b tools) as [ctx|e] eqn:Hctx.
  - pose proof (adapter_step_ok a x agent goal n st b tools f ctx Hctx) as Hstep. cbv zeta in Hstep.
    destruct (execute_step _ (sf_runtime f, ctx)) as [o [r c]] eqn:Hrun.
    destruct Hstep as (f' & Hf & Hr & Hm). rewrite (bind_ok _ _ _ _ _ Hf).
    split_and!; [done|done|]. intros _ _ _. exists (answer_of o).1. split; [done|].
    destruct o as [resp|exc]; simpl in *.
    + case_decide; simpl in *; split_and!; try done; [by eexists|..]; exists ctx; by rewrite Hrun.
    + split_and!; [done|by eexists|]. exists ctx. by rewrite Hrun.
  - unfold adapter_execute_step. rewrite Hctx. cbn. split_and!; [done|done|].
    intros _ Hx Hg. exfalso. revert Hctx. unfold build_context, ContextBuilder_new.
    rewrite (proj2 (truthy_true x) Hx), (proj2 (truthy_true agent) Hg). done.
Qed.
End AdapterSpec.

(** ** Steps of the in-memory runtime *)

Section MemorySpec.
Context {E : Type} `{!CheckpointSaver E}.
Variable clock : nat → Z.
Variable uuid : nat → string.
Implicit Types r : InMemoryRuntime E.
Implicit Types c : ExecutionContext.

Definition valid_request (q : StepRequest) : Prop :=
  sq_execution_id q ≠ ε ∧ sq_agent_id q ≠ ε ∧ sq_goal q ≠ ε.

Lemma valid_request_spec q : _validate_request q = [] ↔ valid_request q.
Proof.
  unfold _validate_request, valid_request.
  destruct (truthy (sq_execution_id q)) eqn:H1, (truthy (sq_agent_id q)) eqn:H2,
    (truthy (sq_goal q)) eqn:H3; simpl;
    rewrite ?truthy_true, ?truthy_false in *; split; intros; try done; tauto.
Qed.

(** A step without a checkpoint to save. *)
Lemma memory_step_ok q r c st :
  valid_request q → cx_checkpoint c = false → (0 < cx_budget_remaining c)%Z →
  step_state (sq_state q) (cx_step_number c) = Ok st →
  ∃ response, memory_execute_step clock uuid q (r, c)
              = (Ok response, (r, charge (cx_tokens_per_step c) c))
    ∧ sp_status response = SS_COMPLETED ∧ sp_updated_state response = st
    ∧ sp_tokens_consumed response = cx_tokens_per_step c.
Proof.
  intros Hq%valid_request_spec Hc Hb Hst. unfold memory_execute_step.
  rewrite Hq. m_unfold. cbn [fst snd].
  rewrite (proj2 (Z.leb_gt _ _) Hb), Hst. cbn [fst snd]. rewrite Hc. eexists. by split_and!.
Qed.

Lemma memory_step_broke q r c :
  valid_request q → (cx_budget_remaining c ≤ 0)%Z →
  memory_execute_step clock uuid q (r, c) = (Raise (BudgetExceededError 0 0), (r, c)).
Proof.
  intros Hq%valid_request_spec Hb. unfold memory_execute_step. rewrite Hq. m_unfold. cbn [fst snd].
  by rewrite (proj2 (Z.leb_le _ _) Hb).
Qed.

(** The runtime entry of a state, as a step leaves it. *)
Definition steps_done (st : dict pyval) (k : Z) : Prop :=
  py_get (dict_get_or (VDict []) "_runtime" st) "steps_executed" (VInt 0) = Ok (VInt k).

Lemma step_state_done st k n : steps_done st k →
  ∃ st', step_state st n = Ok st' ∧ steps_done st' (k + 1).
Proof.
  unfold steps_done, step_state. intros ->. eexists. split; [reflexivity|].
  unfold dict_get_or. by rewrite dict_get_set_eq.
Qed.

(** Steps in a row on one context, the state of each passed to the next. *)
Fixpoint run_steps (q : StepRequest) (k : nat) (st : dict pyval)
    : M (InMemoryRuntime E * ExecutionContext) (dict pyval) :=
  match k with
  | O => mret st
  | S k' =>
      response ← memory_execute_step clock uuid
        (mkStepRequest (sq_execution_id q) (sq_agent_id q) (sq_goal q) st (sq_allowed_tools q)
           (sq_allowed_models q) (sq_max_tokens q) (sq_max_time_seconds q));
      run_steps q k' (sp_updated_state response)
  end.

(** On one context of budget [b] and [t] tokens per step, [k] steps in a row
    succeed exactly when the budget is still positive before the last of them,
    that is [(k - 1) * t < b]; the state then counts them and the context has
    consumed [k * t] tokens, overshooting the budget by less than one step. A
    step that comes too late raises and charges nothing. *)
Theorem memory_steps_budget q k st r c j :
  valid_request q → cx_checkpoint c = false → (0 < cx_tokens_per_step c)%Z → steps_done st j →
  let b := cx_budget_remaining c in
  let t := cx_tokens_per_step c in
  let '(o, (r', c')) := run_steps q k st (r, c) in
  let fits := (k = O ∨ (Z.of_nat k - 1) * t < b)%Z in
  (fits → r' = r ∧ (∃ st', o = Ok st' ∧ steps_done st' (j + Z.of_nat k))
     ∧ cx_tokens_consumed c' = (cx_tokens_consumed c + Z.of_nat k * t)%Z
     ∧ cx_budget_remaining c' = (b - Z.of_nat k * t)%Z)
  ∧ (¬ fits → o = Raise (BudgetExceededError 0 0)
     ∧ (cx_budget_remaining c' ≤ 0)%Z
     ∧ (cx_budget_remaining c' + cx_tokens_consumed c' = b + cx_tokens_consumed c)%Z).
Proof.
  intros Hq. revert st c j. induction k as [|k IH]; intros st c j Hck Ht Hst; cbn [run_steps].
  { m_unfold. split; [|tauto]. intros _. split_and!; [done| |lia|lia].
    exists st. by rewrite Z.add_0_r. }
  set (q1 := mkStepRequest _ _ _ _ _ _ _ _). assert (valid_request q1) as Hq1 by exact Hq.
  destruct (decide (0 < cx_budget_remaining c)%Z) as [Hb|Hb].
  - destruct (step_state_done st j (cx_step_number c) Hst) as (st1 & Hs1 & Hd1).
    destruct (memory_step_ok q1 r c st1 Hq1 Hck Hb Hs1) as (resp & Hrun & _ & Hst1 & _).
    rewrite (bind_ok _ _ _ _ _ Hrun), Hst1.
    specialize (IH st1 (charge (cx_tokens_per_step c) c) (j + 1)%Z Hck Ht Hd1).
    destruct (run_steps q k st1 _) as [o [r' c']].
    cbn [cx_budget_remaining cx_tokens_per_step cx_tokens_consumed charge] in IH.
    destruct IH as [IH1 IH2]. split.
    + intros Hfits. destruct IH1 as (-> & (st' & -> & Hd') & -> & ->).
      { destruct k; [by left|right]. lia. }
      split_and!; [done| |lia|lia]. exists st'. split; [done|].
      by replace (j + Z.of_nat (S k))%Z with (j + 1 + Z.of_nat k)%Z by lia.
    + intros Hfits. destruct IH2 as (-> & Hle & Heq); [|split_and!; [done|lia|lia]].
      intros Hf. destruct Hfits. right. destruct k; [lia|]. destruct Hf; [done|lia].
  - assert (run_steps q (S k) st (r, c) = (Raise (BudgetExceededError 0 0), (r, c))) as Hrun.
    { cbn [run_steps]. apply bind_raise, memory_step_broke; [exact Hq1|lia]. }
    cbn [run_steps] in Hrun. fold q1 in Hrun. rewrite Hrun. split; [|intros _; split_and!; [done|lia|lia]].
    intros [?|Hf]; [done|]. exfalso. nia.
Qed.

(** ** The adapter in front of the in-memory runtime *)

(** A budget below one token is planned as a step to execute, but reaches the
    runtime rounded down to nothing: the step fails, and so does the whole
    execution. *)
Lemma fractional_budget_fails a x agent goal n st b tools
    (f : StepFrame (InMemoryRuntime E)) :
  x ≠ ε → agent ≠ ε → goal ≠ ε → tools ≠ [] →
  (n < xa_max_steps a)%Z → (0 < b)%Q → (b < 1)%Q →
  let '(o, f') := @plan_and_execute (InMemoryRuntime E) (memory_runtime clock uuid) clock
                    a x agent goal n st b tools f in
  (∃ plan response, o = Ok (plan, Some response) ∧ pl_action plan = SA_EXECUTE
     ∧ sp_status response = SS_FAILED
     ∧ sp_error_message response = "Budget exceeded: 0 > 0")
  ∧ sf_machine f' = failed_machine "Budget exceeded: 0 > 0" (clock (sf_ticks f)) (sf_machine f).
Proof.
  intros Hx Hg Hgoal Htools Hn Hb0 Hb1. unfold plan_and_execute.
  set (plan := plan_step _ _ _ _ _ _).
  assert (pl_action plan = SA_EXECUTE) as Hplan by (by apply plan_step_execute).
  destruct (plan_step_number (xa_max_steps a) x n goal b tools) as [Hnum _].
  fold plan in Hnum. rewrite Hnum, decide_False by (by intros []).
  assert (py_int b = 0)%Z as Hint.
  { unfold py_int. apply Z.quot_small. unfold Qlt in *. simpl in *. lia. }
  assert (∃ ctx, build_context a x agent n st b tools = Ok ctx ∧ cx_budget_remaining ctx = 0%Z)
    as (ctx & Hctx & Hbud).
  { unfold build_context, ContextBuilder_new.
    rewrite (proj2 (truthy_true x) Hx), (proj2 (truthy_true agent) Hg).
    eexists. split; [reflexivity|]. exact Hint. }
  pose proof (@adapter_step_ok _ (memory_runtime clock uuid) clock a x agent goal n st b tools f ctx
    Hctx) as Hstep. cbv zeta in Hstep. cbn [execute_step memory_runtime] in Hstep.
  rewrite memory_step_broke in Hstep; [|by split_and!|lia].
  destruct Hstep as (f' & Hf & _ & Hm). rewrite (bind_ok _ _ _ _ _ Hf).
  split; [|exact Hm]. eexists plan, _. by split_and!.
Qed.
End MemorySpec.

(** ** Concrete runs *)

Definition demo_step_frame : StepFrame (InMemoryRuntime CheckpointRepository) :=
  mkStepFrame (mkMemRuntime CheckpointRepository_new 0 0) (ExecutionStateMachine_new ST_RUNNING) 0.
Definition demo_step_request : StepRequest := mkStepRequest "e" "a" "g" [] ["t"] [] 50000 3600.
Definition demo_step_context : ExecutionContext :=
  mkExecContext "e" "a" 0 [] 25 10 ["t"] [] 0 false false.

Lemma memory_steps_budget_witness :
  (run_steps (E := CheckpointRepository) (λ n, Z.of_nat n) str_of_nat demo_step_request 4 []
     (sf_runtime demo_step_frame, demo_step_context)).1 = Raise (BudgetExceededError 0 0)
  ∧ ∃ st', (run_steps (E := CheckpointRepository) (λ n, Z.of_nat n) str_of_nat demo_step_request 3 []
              (sf_runtime demo_step_frame, demo_step_context)).1 = Ok st'.
Proof.
  split; [vm_compute; reflexivity|].
  pose proof (memory_steps_budget (E := CheckpointRepository) (λ n, Z.of_nat n) str_of_nat
    demo_step_request 3 [] (sf_runtime demo_step_frame) demo_step_context 0) as H.
  destruct (run_steps _ _ _ 3 _ _) as [o [r' c']].
  destruct H as [H _]; [by split_and!|reflexivity|reflexivity|reflexivity|].
  destruct H as (_ & (st' & -> & _) & _); [right; reflexivity|]. by exists st'.
Defined.

(** With a checkpoint repository: the step's checkpoint is stored under a fresh
    identifier. *)
Example demo_step_saves :
  let '(o, f') := @plan_and_execute _ (memory_runtime (λ n, Z.of_nat n) str_of_nat) (λ n, Z.of_nat n)
    (mkExecutor StepCoordinator_default false true) "e" "a" "g" 3 [] 5 ["t"] demo_step_frame in
  is_ok o = true
  ∧ (match get_latest elements (ir_repo (sf_runtime f')) "e" with
     | Ok (Some c) => ck_version c
     | _ => 0%Z
     end) = 3%Z.
Proof. vm_compute. done. Qed.
