(* ===== verification/Json.v ===== *)
(** * JSON text

    What the source uses of Python's [json]: [dumps] with [sort_keys=True] and
    its default ASCII output, and [loads]. A dynamic value is printed and read
    back; strings are UTF-8 bytes, so a character outside ASCII is decoded to be
    escaped and encoded again when it is read. The representation of a float is
    the argument [float_repr]; reading a decimal gives its exact value. The
    reader's recursion is bounded by fuel, twice the length of the text. *)
From S2P Require Import Prelude PyStr PyDict PyVal.
From Stdlib Require Import Ascii.

Definition chr (n : nat) : ascii := ascii_of_nat n.
Definition code (c : ascii) : Z := Z.of_N (N_of_ascii c).
Definition quote_char : ascii := chr 34.
Definition backslash : ascii := chr 92.

(** ** Characters *)

(** The code points of UTF-8 bytes. *)
Fixpoint codepoints (s : string) : list Z :=
  match s with
  | ε => []
  | String c s1 =>
      if (code c <? 192)%Z then code c :: codepoints s1
      else match s1 with
      | ε => [code c]
      | String c1 s2 =>
          if (code c <? 224)%Z then ((code c - 192) * 64 + (code c1 - 128))%Z :: codepoints s2
          else match s2 with
          | ε => [code c]
          | String c2 s3 =>
              if (code c <? 240)%Z then
                ((code c - 224) * 4096 + (code c1 - 128) * 64 + (code c2 - 128))%Z
                :: codepoints s3
              else match s3 with
              | ε => [code c]
              | String c3 s4 =>
                  ((code c - 240) * 262144 + (code c1 - 128) * 4096 + (code c2 - 128) * 64
                   + (code c3 - 128))%Z :: codepoints s4
              end
          end
      end
  end.

Definition byte (z : Z) : ascii := ascii_of_N (Z.to_N z).
Definition str1 (c : ascii) : string := String c ε.

Definition utf8 (cp : Z) : string :=
  if (cp <? 128)%Z then str1 (byte cp)
  else if (cp <? 2048)%Z then str1 (byte (192 + cp / 64)) +:+ str1 (byte (128 + cp mod 64))
  else if (cp <? 65536)%Z then
    str1 (byte (224 + cp / 4096)) +:+ str1 (byte (128 + cp / 64 mod 64))
    +:+ str1 (byte (128 + cp mod 64))
  else
    str1 (byte (240 + cp / 262144)) +:+ str1 (byte (128 + cp / 4096 mod 64))
    +:+ str1 (byte (128 + cp / 64 mod 64)) +:+ str1 (byte (128 + cp mod 64)).

Definition hex_of (z : Z) : ascii :=
  byte (if (z <? 10)%Z then 48 + z else 87 + z).

(** A backslash, [u] and four hexadecimal digits. *)
Definition u_escape (cp : Z) : string :=
  String backslash (String "u" (String (hex_of (cp / 4096)) (String (hex_of (cp / 256 mod 16))
    (String (hex_of (cp / 16 mod 16)) (String (hex_of (cp mod 16)) ε))))).

Definition escape (cp : Z) : string :=
  if (cp =? 34)%Z then String backslash (str1 quote_char)
  else if (cp =? 92)%Z then String backslash (str1 backslash)
  else if (cp =? 10)%Z then String backslash "n"
  else if (cp =? 13)%Z then String backslash "r"
  else if (cp =? 9)%Z then String backslash "t"
  else if (cp =? 12)%Z then String backslash "f"
  else if (cp =? 8)%Z then String backslash "b"
  else if (32 <=? cp)%Z && (cp <=? 126)%Z then str1 (byte cp)
  else if (cp <? 65536)%Z then u_escape cp
  else u_escape (55296 + (cp - 65536) / 1024) +:+ u_escape (56320 + (cp - 65536) mod 1024).

Definition json_string (s : string) : string :=
  String quote_char (foldr (λ cp t, escape cp +:+ t) (str1 quote_char) (codepoints s)).

(** ** Printing *)

Section Printer.
Variable float_repr : Q → string.

Fixpoint json_text (v : pyval) : string :=
  match v with
  | VNone => "null"
  | VBool b => if b then "true" else "false"
  | VInt z => str_of_Z z
  | VFloat q => float_repr q
  | VStr s => json_string s
  | VList l => "[" +:+ str_join ", " (map json_text l) +:+ "]"
  | VDict d =>
      "{" +:+ str_join ", " (map (λ kv, json_string (fst kv) +:+ ": " +:+ json_text (snd kv)) d)
      +:+ "}"
  end.
End Printer.

Definition item_leb (a b : string * pyval) : bool := str_leb (fst a) (fst b).

(** The value with the items of every dictionary in key order. *)
Fixpoint key_sorted (v : pyval) : pyval :=
  match v with
  | VList l => VList (map key_sorted l)
  | VDict d => VDict (py_sorted item_leb (map (λ kv, (fst kv, key_sorted (snd kv))) d))
  | _ => v
  end.

(** [json.dumps(v, sort_keys=True)] *)
Definition json_dumps (float_repr : Q → string) (v : pyval) : string :=
  json_text float_repr (key_sorted v).

(** ** Reading *)

Definition is_digit (c : ascii) : bool := (48 <=? code c)%Z && (code c <=? 57)%Z.
Definition is_ws (c : ascii) : bool :=
  bool_decide (code c ∈ [32; 9; 10; 13]%Z).

Fixpoint skip_ws (s : string) : string :=
  match s with
  | String c s' => if is_ws c then skip_ws s' else s
  | ε => ε
  end.

(** Digits appended to [acc], how many there were, and what follows. *)
Fixpoint read_digits (acc : Z) (n : nat) (s : string) : Z * nat * string :=
  match s with
  | String c s' =>
      if is_digit c then read_digits (acc * 10 + (code c - 48)) (S n) s' else (acc, n, s)
  | ε => (acc, n, ε)
  end.

Definition ten_to (n : nat) : positive := Pos.pow 10 (Pos.of_nat n).

(** [\.\d+], when it is there: the scaled value and the number of digits. *)
Definition read_fraction (int : Z) (s : string) : Z * nat * string :=
  match s with
  | String c s' =>
      if decide (c = "."%char) then
        let '(z, n, rest) := read_digits int 0 s' in
        if decide (n = O) then (int, O, s) else (z, n, rest)
      else (int, O, s)
  | ε => (int, O, s)
  end.

(** [[eE][-+]?\d+], when it is there. *)
Definition read_exponent (s : string) : option Z * string :=
  match s with
  | String c s1 =>
      if decide (c = "e"%char ∨ c = "E"%char) then
        let '(sign, s2) := match s1 with
          | String d s' => if decide (d = "-"%char) then (-1, s')%Z
                           else if decide (d = "+"%char) then (1, s')%Z else (1, s1)%Z
          | ε => (1, s1)%Z
          end in
        let '(z, n, rest) := read_digits 0 0 s2 in
        if decide (n = O) then (None, s) else (Some (sign * z)%Z, rest)
      else (None, s)
  | ε => (None, s)
  end.

Definition scaled (z : Z) (e : Z) : Q :=
  if (0 <=? e)%Z then (z * 10 ^ e) # 1 else z # Z.to_pos (10 ^ (- e)).

Definition read_number (s : string) : option (pyval * string) :=
  let '(neg, s1) := match s with
    | String c s' => if decide (c = "-"%char) then (true, s') else (false, s)
    | ε => (false, s)
    end in
  match s1 with
  | String c s2 =>
      if is_digit c then
        let '(int, rest) :=
          if decide (c = "0"%char) then (0%Z, s2)
          else let '(z, _, rest) := read_digits 0 0 s1 in (z, rest) in
        let sign (z : Z) := if (neg : bool) then (- z)%Z else z in
        let '(m, k, rest1) := read_fraction int rest in
        match read_exponent rest1 with
        | (None, _) =>
            if decide (k = O) then Some (VInt (sign int), rest)
            else Some (VFloat (scaled (sign m) (- Z.of_nat k)), rest1)
        | (Some e, rest2) => Some (VFloat (scaled (sign m) (e - Z.of_nat k)), rest2)
        end
      else None
  | ε => None
  end.

Definition hex_value (c : ascii) : option Z :=
  let z := code c in
  if (48 <=? z)%Z && (z <=? 57)%Z then Some (z - 48)%Z
  else if (97 <=? z)%Z && (z <=? 102)%Z then Some (z - 87)%Z
  else if (65 <=? z)%Z && (z <=? 70)%Z then Some (z - 55)%Z
  else None.

Definition hex4 (a b c d : ascii) : option Z :=
  match hex_value a, hex_value b, hex_value c, hex_value d with
  | Some a, Some b, Some c, Some d => Some (a * 4096 + b * 256 + c * 16 + d)%Z
  | _, _, _, _ => None
  end.

Definition simple_escape (c : ascii) : option Z :=
  if decide (c = quote_char) then Some 34%Z
  else if decide (c = backslash) then Some 92%Z
  else if decide (c = "/"%char) then Some 47%Z
  else if decide (c = "b"%char) then Some 8%Z
  else if decide (c = "f"%char) then Some 12%Z
  else if decide (c = "n"%char) then Some 10%Z
  else if decide (c = "r"%char) then Some 13%Z
  else if decide (c = "t"%char) then Some 9%Z
  else None.

Definition prepend (s : string) (r : option (string * string)) : option (string * string) :=
  match r with Some (t, rest) => Some (s +:+ t, rest) | None => None end.

Definition is_high (z : Z) : bool := (55296 <=? z)%Z && (z <=? 56319)%Z.
Definition is_low (z : Z) : bool := (56320 <=? z)%Z && (z <=? 57343)%Z.

(** The body of a string literal, after its opening quote. *)
Fixpoint read_string (s : string) : option (string * string) :=
  match s with
  | ε => None
  | String c s1 =>
      if decide (c = quote_char) then Some (ε, s1)
      else if decide (c = backslash) then
        match s1 with
        | ε => None
        | String e s2 =>
            if decide (e = "u"%char) then
              match s2 with
              | String h1 (String h2 (String h3 (String h4 s3))) =>
                  match hex4 h1 h2 h3 h4 with
                  | None => None
                  | Some u =>
                      if is_high u then
                        match s3 with
                        | String b (String u' (String k1 (String k2 (String k3 (String k4 s4))))) =>
                            if decide (b = backslash ∧ u' = "u"%char) then
                              match hex4 k1 k2 k3 k4 with
                              | None => None
                              | Some w =>
                                  if is_low w then
                                    prepend (utf8 (65536 + (u - 55296) * 1024 + (w - 56320)))
                                      (read_string s4)
                                  else prepend (utf8 u) (read_string s3)
                              end
                            else prepend (utf8 u) (read_string s3)
                        | _ => prepend (utf8 u) (read_string s3)
                        end
                      else prepend (utf8 u) (read_string s3)
                  end
              | _ => None
              end
            else match simple_escape e with
                 | Some z => prepend (utf8 z) (read_string s2)
                 | None => None
                 end
        end
      else if (code c <? 32)%Z then None
      else prepend (str1 c) (read_string s1)
  end.

(** [json.loads]'s value, items of an array and members of an object. *)
Fixpoint read_value (fuel : nat) (s : string) {struct fuel} : option (pyval * string) :=
  match fuel with
  | O => None
  | S n =>
      match s with
      | ε => None
      | String c s1 =>
          if decide (c = quote_char) then
            match read_string s1 with Some (t, rest) => Some (VStr t, rest) | None => None end
          else if decide (c = "["%char) then
            match skip_ws s1 with
            | String d s2 => if decide (d = "]"%char) then Some (VList [], s2)
                             else read_items n [] (String d s2)
            | ε => None
            end
          else if decide (c = "{"%char) then
            match skip_ws s1 with
            | String d s2 => if decide (d = "}"%char) then Some (VDict [], s2)
                             else read_members n [] (String d s2)
            | ε => None
            end
          else if str_startswith "null" s then Some (VNone, str_drop 4 s)
          else if str_startswith "true" s then Some (VBool true, str_drop 4 s)
          else if str_startswith "false" s then Some (VBool false, str_drop 5 s)
          else read_number s
      end
  end
with read_items (fuel : nat) (acc : list pyval) (s : string) {struct fuel}
    : option (pyval * string) :=
  match fuel with
  | O => None
  | S n =>
      match read_value n s with
      | None => None
      | Some (v, rest) =>
          match skip_ws rest with
          | String c s1 =>
              if decide (c = ","%char) then read_items n (acc ++ [v]) (skip_ws s1)
              else if decide (c = "]"%char) then Some (VList (acc ++ [v]), s1)
              else None
          | ε => None
          end
      end
  end
with read_members (fuel : nat) (acc : dict pyval) (s : string) {struct fuel}
    : option (pyval * string) :=
  match fuel with
  | O => None
  | S n =>
      match s with
      | ε => None
      | String q s1 =>
          if decide (q = quote_char) then
            match read_string s1 with
            | None => None
            | Some (k, rest) =>
                match skip_ws rest with
                | ε => None
                | String c s2 =>
                    if decide (c = ":"%char) then
                      match read_value n (skip_ws s2) with
                      | None => None
                      | Some (v, rest1) =>
                          match skip_ws rest1 with
                          | ε => None
                          | String d s3 =>
                              if decide (d = ","%char) then
                                read_members n (dict_set k v acc) (skip_ws s3)
                              else if decide (d = "}"%char) then
                                Some (VDict (dict_set k v acc), s3)
                              else None
                          end
                      end
                    else None
                end
            end
          else None
      end
  end.

(** [json.loads(s)], [None] for a [JSONDecodeError]. *)
Definition json_loads (s : string) : option pyval :=
  match read_value (2 * str_len s + 2) (skip_ws s) with
  | Some (v, rest) => if decide (skip_ws rest = ε) then Some v else None
  | None => None
  end.

(** ** Reading back what was printed *)

Fixpoint is_ascii (s : string) : bool :=
  match s with ε => true | String c s' => (code c <? 128)%Z && is_ascii s' end.

(** Values whose text determines them: no floats, ASCII strings, distinct keys. *)
Fixpoint json_exact (v : pyval) : bool :=
  match v with
  | VNone | VBool _ | VInt _ => true
  | VFloat _ => false
  | VStr s => is_ascii s
  | VList l => forallb json_exact l
  | VDict d => forallb (λ kv, is_ascii (fst kv) && json_exact (snd kv)) d
               && bool_decide (NoDup (dict_keys d))
  end.

Lemma escape_read c t :
  (code c <? 128)%Z = true →
  read_string (escape (code c) +:+ t) = prepend (str1 c) (read_string t).
Proof.
  destruct c as [[] [] [] [] [] [] [] []]; try (intros H; vm_compute in H; discriminate H);
    intros _; reflexivity.
Qed.

Lemma codepoints_ascii c s :
  (code c <? 128)%Z = true → codepoints (String c s) = code c :: codepoints s.
Proof.
  intros Hc. cbn [codepoints]. apply Z.ltb_lt in Hc. by rewrite (proj2 (Z.ltb_lt _ _)) by lia.
Qed.

Lemma foldr_app_str (l : list Z) t u :
  foldr (λ cp t, escape cp +:+ t) t l +:+ u = foldr (λ cp t, escape cp +:+ t) (t +:+ u) l.
Proof. induction l as [|x l IH]; simpl; [done|]. by rewrite str_app_assoc, IH. Qed.

Lemma read_string_json s rest :
  is_ascii s = true →
  read_string (foldr (λ cp t, escape cp +:+ t) (String quote_char rest) (codepoints s))
  = Some (s, rest).
Proof.
  induction s as [|c s IH]; [done|]. cbn [is_ascii]. intros [Hc Hs]%andb_true_iff.
  rewrite codepoints_ascii by done. cbn [foldr]. rewrite escape_read by done.
  by rewrite IH.
Qed.

Lemma json_string_read s rest :
  is_ascii s = true → ∃ body, json_string s +:+ rest = String quote_char body
    ∧ read_string body = Some (s, rest).
Proof.
  intros Hs. unfold json_string.
  exists (foldr (λ cp t, escape cp +:+ t) (String quote_char rest) (codepoints s)).
  split; [|by apply read_string_json]. cbn [String.append]. by rewrite foldr_app_str.
Qed.

(** *** Numbers *)

(** What may follow a number: nothing that continues it. *)
Definition ends_number (s : string) : bool :=
  match s with
  | ε => true
  | String c _ => negb (is_digit c) && bool_decide (c ∉ ["."; "e"; "E"]%char)
  end.

Lemma digit_char (x : N) : (x < 10)%N →
  is_digit (pretty_N_char x) = true ∧ (code (pretty_N_char x) - 48 = Z.of_N x)%Z.
Proof.
  intros Hx. assert (x ∈ [0;1;2;3;4;5;6;7;8;9])%N as Hin by (rewrite !elem_of_cons; lia).
  repeat (apply elem_of_cons in Hin as [->|Hin]; [by vm_compute|]). by apply not_elem_of_nil in Hin.
Qed.

Lemma of_N_div_mod (x : N) : Z.of_N x = (10 * Z.of_N (x `div` 10) + Z.of_N (x `mod` 10))%Z.
Proof. rewrite (N.div_mod x 10) at 1 by lia. by rewrite N2Z.inj_add, N2Z.inj_mul. Qed.

Lemma read_digits_pretty (x : N) (s : string) (n : nat) :
  (0 < x)%N → ∃ k, read_digits 0 n (pretty_N_go x s) = read_digits (Z.of_N x) k s.
Proof.
  revert s. induction (N.lt_wf_0 x) as [x _ IH]; intros s Hx.
  rewrite pretty_N_go_step by done.
  assert (x mod 10 < 10)%N as Hmod by (apply N.mod_lt; lia).
  destruct (digit_char _ Hmod) as [Hd Hv].
  destruct (N.eq_0_gt_0_cases (x `div` 10)) as [Hz|Hq]; swap 1 2.
  - destruct (IH (x `div` 10)%N ltac:(apply N.div_lt; lia) (String (pretty_N_char (x `mod` 10)) s) Hq)
      as (k & ->).
    exists (S k). cbn [read_digits]. rewrite Hd, Hv. f_equal.
    rewrite (of_N_div_mod x). lia.
  - rewrite Hz, pretty_N_go_0.
    exists (S n). cbn [read_digits]. rewrite Hd, Hv. f_equal.
    rewrite (of_N_div_mod x), Hz. lia.
Qed.

Lemma pretty_N_go_app x s t : pretty_N_go x s +:+ t = pretty_N_go x (s +:+ t).
Proof.
  revert s. induction (N.lt_wf_0 x) as [x _ IH]; intros s.
  destruct (decide (x = 0)%N) as [->|Hx]; [by rewrite !pretty_N_go_0|].
  rewrite !(pretty_N_go_step x) by lia. rewrite IH; [done|]. apply N.div_lt; lia.
Qed.

(** The first digit of a positive number is not a zero. *)
Lemma pretty_N_go_head (x : N) (s : string) : (0 < x)%N →
  ∃ c t, pretty_N_go x s = String c t ∧ is_digit c = true ∧ c ≠ "0"%char.
Proof.
  revert s. induction (N.lt_wf_0 x) as [x _ IH]; intros s Hx.
  rewrite pretty_N_go_step by done.
  assert (x mod 10 < 10)%N as Hmod by (apply N.mod_lt; lia).
  destruct (N.eq_0_gt_0_cases (x `div` 10)) as [Hz|Hq]; swap 1 2.
  - apply IH; [apply N.div_lt; lia|done].
  - rewrite Hz, pretty_N_go_0.
    eexists _, _. split; [reflexivity|]. split; [by apply digit_char|].
    pose proof (of_N_div_mod x) as Hdm.
    intros H0. destruct (digit_char _ Hmod) as [_ Hv]. rewrite H0 in Hv.
    change (code "0" - 48)%Z with 0%Z in Hv. lia.
Qed.

Lemma read_digits_end acc n s : ends_number s = true → read_digits acc n s = (acc, n, s).
Proof.
  destruct s as [|c s]; [done|]. cbn [ends_number read_digits].
  intros [Hd _]%andb_true_iff. apply negb_true_iff in Hd. by rewrite Hd.
Qed.

Lemma read_fraction_end z s : ends_number s = true → read_fraction z s = (z, O, s).
Proof.
  destruct s as [|c s]; [done|]. cbn [ends_number read_fraction].
  intros [_ Hc%bool_decide_eq_true]%andb_true_iff. rewrite decide_False; [done|].
  intros ->. apply Hc. by left.
Qed.

Lemma read_exponent_end s : ends_number s = true → read_exponent s = (None, s).
Proof.
  destruct s as [|c s]; [done|]. cbn [ends_number read_exponent].
  intros [_ Hc%bool_decide_eq_true]%andb_true_iff. rewrite decide_False; [done|].
  intros [-> | ->]; apply Hc; [right; left|right; right; left].
Qed.

Lemma read_number_N (x : N) rest :
  ends_number rest = true →
  ∀ s, s = pretty x +:+ rest →
  match s with
  | String c s2 =>
      is_digit c = true
      ∧ (if decide (c = "0"%char) then (0%Z, s2)
         else let '(z, _, r) := read_digits 0 0 s in (z, r)) = (Z.of_N x, rest)
  | ε => False
  end.
Proof.
  intros Hr s ->. unfold pretty, pretty_N. case_decide as Hx.
  - subst x. cbn. by split.
  - rewrite pretty_N_go_app.
    destruct (pretty_N_go_head x (ε +:+ rest) ltac:(lia)) as (c & t & Hc & Hd & Hne).
    destruct (read_digits_pretty x (ε +:+ rest) 0 ltac:(lia)) as (k & Hk).
    rewrite Hc in *. split; [done|]. rewrite decide_False by done. rewrite Hk.
    cbn [String.append]. by rewrite read_digits_end.
Qed.

Lemma read_number_Z z rest :
  ends_number rest = true → read_number (str_of_Z z +:+ rest) = Some (VInt z, rest).
Proof.
  intros Hr. unfold str_of_Z, pretty, pretty_Z. destruct z as [|p|p].
  - change ("0" +:+ rest) with (String "0" rest). unfold read_number.
    cbv beta iota. rewrite decide_False by done. change (is_digit "0") with true. cbv iota.
    rewrite decide_True by done. by rewrite read_fraction_end, read_exponent_end by done.
  - pose proof (read_number_N (Npos p) rest Hr _ eq_refl) as H.
    change (pretty p) with (pretty (Npos p)).
    unfold read_number. destruct (pretty (Npos p) +:+ rest) as [|c s2] eqn:Hs; [done|].
    destruct H as [Hd Hi].
    cbv beta iota.
    rewrite decide_False by (intros ->; by vm_compute in Hd). rewrite Hd, Hi.
    by rewrite read_fraction_end, read_exponent_end by done.
  - pose proof (read_number_N (Npos p) rest Hr _ eq_refl) as H.
    change (pretty p) with (pretty (Npos p)).
    rewrite str_app_assoc. cbn [String.append]. unfold read_number at 1.
    cbv beta iota. rewrite decide_True by done.
    destruct (pretty (Npos p) +:+ rest) as [|c s2] eqn:Hs; [done|].
    destruct H as [Hd Hi]. rewrite Hd, Hi.
    by rewrite read_fraction_end, read_exponent_end by done.
Qed.

(** The first character of a printed number. *)
Lemma str_of_Z_head z rest : ∃ c s, str_of_Z z +:+ rest = String c s
  ∧ (is_digit c = true ∨ c = "-"%char).
Proof.
  assert (∀ x : N, ∃ c s, pretty x = String c s ∧ is_digit c = true) as HN.
  { intros x. unfold pretty, pretty_N. case_decide; [by eexists _, _|].
    destruct (pretty_N_go_head x ε ltac:(lia)) as (c & t & -> & ? & _). by eexists _, _. }
  unfold str_of_Z, pretty, pretty_Z. destruct z as [|p|p].
  - eexists _, _. split; [reflexivity|]. by left.
  - change (pretty p) with (pretty (Npos p)).
    destruct (HN (Npos p)) as (c & s & -> & Hd). eexists _, _. split; [reflexivity|]. by left.
  - eexists _, _. split; [reflexivity|]. by right.
Qed.

Lemma read_value_number n z rest :
  ends_number rest = true →
  read_value (S n) (str_of_Z z +:+ rest) = Some (VInt z, rest).
Proof.
  intros Hr. rewrite <- read_number_Z by done.
  destruct (str_of_Z_head z rest) as (c & s & -> & Hc).
  assert (c ≠ quote_char ∧ c ≠ "["%char ∧ c ≠ "{"%char ∧ c ≠ "n"%char ∧ c ≠ "t"%char ∧ c ≠ "f"%char)
    as (H1 & H2 & H3 & H4 & H5 & H6).
  { split_and!; intros ->; destruct Hc as [Hc|Hc]; by vm_compute in Hc. }
  cbn [read_value]. rewrite !decide_False by done.
  cbn [str_startswith]. rewrite !bool_decide_eq_false_2 by congruence. done.
Qed.

(** *** Values *)

(** The recursion depth a value needs. *)
Fixpoint need (v : pyval) : nat :=
  match v with
  | VList l => S (foldr (λ x n, S (need x + n)) O l)
  | VDict d => S (foldr (λ kv n, S (need (snd kv) + n)) O d)
  | _ => 1
  end.

Lemma skip_ws_text c s : is_ws c = false → skip_ws (String c s) = String c s.
Proof. intros H. cbn [skip_ws]. by rewrite H. Qed.

Section RoundTrip.
Variable float_repr : Q → string.

(** The first character of a printed value is neither space nor a closing
    bracket. *)
Lemma json_text_head v rest :
  json_exact v = true → ∃ c s, json_text float_repr v +:+ rest = String c s
    ∧ is_ws c = false ∧ c ≠ "]"%char ∧ c ≠ "}"%char.
Proof.
  destruct v as [|b|z|q|s|l|d]; intros Hv; try done.
  - by eexists _, _.
  - destruct b; by eexists _, _.
  - cbn [json_text]. destruct (str_of_Z_head z rest) as (c & s & -> & Hc).
    eexists _, _. split; [reflexivity|].
    destruct Hc as [Hc| ->]; [|by vm_compute].
    destruct c as [[] [] [] [] [] [] [] []]; vm_compute in Hc; try discriminate; by vm_compute.
  - by eexists _, _.
  - by eexists _, _.
  - by eexists _, _.
Qed.

(** What reading a printed value gives, with enough fuel. *)
Definition reads (v : pyval) : Prop := ∀ n rest,
  (need v ≤ n)%nat → ends_number rest = true →
  read_value n (json_text float_repr v +:+ rest) = Some (v, rest).

Lemma read_items_ok x l : Forall reads (x :: l) → forallb json_exact (x :: l) = true →
  ∀ n acc rest, (foldr (λ x n, S (need x + n)) O (x :: l) ≤ n)%nat →
  read_items n acc (str_join ", " (map (json_text float_repr) (x :: l)) +:+ "]" +:+ rest)
  = Some (VList (acc ++ x :: l), rest).
Proof.
  revert x. induction l as [|y l IH]; intros x [Hx Hl]%Forall_cons Hex n acc rest Hn.
  - cbn [foldr] in Hn. destruct n as [|n]; [lia|]. cbn [read_items map str_join].
    rewrite Hx by (lia || done). cbn [String.append]. by rewrite skip_ws_text.
  - cbn [foldr] in Hn. destruct n as [|n]; [lia|]. cbn [read_items].
    change (str_join ", " (map (json_text float_repr) (x :: y :: l)))
      with (json_text float_repr x +:+ ", " +:+ str_join ", " (map (json_text float_repr) (y :: l))).
    rewrite !str_app_assoc, Hx by (lia || done). cbn [String.append].
    rewrite skip_ws_text by done. rewrite decide_True by done.
    cbn [forallb] in Hex. apply andb_true_iff in Hex as [_ Hex].
    set (text := str_join ", " _ +:+ _).
    assert (skip_ws (String " " text) = text) as ->.
    { destruct (json_text_head y (match l with [] => "]" +:+ rest
        | _ => ", " +:+ str_join ", " (map (json_text float_repr) l) +:+ "]" +:+ rest end))
        as (c & s & Hs & Hws & _); [by apply andb_true_iff in Hex as [? _]|].
      assert (text = String c s) as ->.
      { rewrite <- Hs. unfold text. destruct l; simpl; by rewrite ?str_app_assoc. }
      cbn [skip_ws]. by rewrite Hws. }
    unfold text. change (String "]" rest) with ("]" +:+ rest). rewrite IH; [|done|done|cbn [foldr]; lia].
    by rewrite <- app_assoc.
Qed.

Definition member (kv : string * pyval) : string :=
  json_string (fst kv) +:+ ": " +:+ json_text float_repr (snd kv).

Definition member_ok (kv : string * pyval) : Prop :=
  is_ascii (fst kv) = true ∧ json_exact (snd kv) = true ∧ reads (snd kv).

(** One member, up to what follows its value. *)
Lemma read_member_ok n acc kv rest : member_ok kv → (need (snd kv) ≤ n)%nat →
  ends_number rest = true →
  read_members (S n) acc (member kv +:+ rest)
  = match skip_ws rest with
    | ε => None
    | String d s3 =>
        if decide (d = ","%char) then
          read_members n (dict_set (fst kv) (snd kv) acc) (skip_ws s3)
        else if decide (d = "}"%char) then Some (VDict (dict_set (fst kv) (snd kv) acc), s3)
        else None
    end.
Proof.
  intros (Hk & Hex & Hr) Hn Hrest. unfold member. rewrite !str_app_assoc.
  destruct (json_string_read (fst kv) (": " +:+ json_text float_repr (snd kv) +:+ rest) Hk)
    as (body & -> & Hb).
  cbn [read_members]. rewrite decide_True by done. rewrite Hb. cbn [String.append].
  rewrite skip_ws_text by done. rewrite decide_True by done.
  assert (skip_ws (String " " (json_text float_repr (snd kv) +:+ rest))
          = json_text float_repr (snd kv) +:+ rest) as ->.
  { destruct (json_text_head (snd kv) rest Hex) as (c & s & -> & Hws & _).
    cbn [skip_ws]. by rewrite Hws. }
  by rewrite Hr.
Qed.

Lemma member_head kv rest : ∃ s, member kv +:+ rest = String quote_char s.
Proof. unfold member, json_string. by eexists. Qed.

Lemma dict_set_end (acc : dict pyval) kv d :
  NoDup (dict_keys (acc ++ kv :: d)) → dict_set (fst kv) (snd kv) acc = acc ++ [kv].
Proof.
  intros Hnd. destruct kv as [k v]. simpl. apply dict_set_fresh.
  unfold dict_keys in Hnd. rewrite fmap_app in Hnd. apply NoDup_app in Hnd as (_ & Hk & _).
  destruct (dict_get k acc) as [w|] eqn:Hg; [|done]. exfalso.
  apply (Hk k); [|by left]. apply dict_elem_keys. by exists w.
Qed.

Lemma read_members_ok kv d : Forall member_ok (kv :: d) →
  ∀ n acc rest, (foldr (λ kv n, S (need (snd kv) + n)) O (kv :: d) ≤ n)%nat →
  NoDup (dict_keys (acc ++ kv :: d)) →
  read_members n acc (str_join ", " (map member (kv :: d)) +:+ "}" +:+ rest)
  = Some (VDict (acc ++ kv :: d), rest).
Proof.
  revert kv. induction d as [|kv' d IH]; intros kv [Hx Hl]%Forall_cons n acc rest Hn Hnd;
    cbn [foldr] in Hn; (destruct n as [|n]; [lia|]).
  - cbn [map str_join]. rewrite read_member_ok by (done || lia).
    cbn [String.append]. rewrite skip_ws_text by done.
    rewrite decide_False by done. rewrite decide_True by done.
    by rewrite (dict_set_end _ _ _ Hnd).
  - change (str_join ", " (map member (kv :: kv' :: d)))
      with (member kv +:+ ", " +:+ str_join ", " (map member (kv' :: d))).
    rewrite !str_app_assoc, read_member_ok by (done || lia).
    cbn [String.append]. rewrite skip_ws_text by done. rewrite decide_True by done.
    rewrite (dict_set_end _ _ _ Hnd).
    set (text := str_join ", " _ +:+ _).
    assert (skip_ws (String " " text) = text) as ->.
    { assert (∃ s, text = String quote_char s) as (s & ->).
      { unfold text. destruct d; cbn [map str_join]; rewrite ?str_app_assoc; apply member_head. }
      reflexivity. }
    unfold text. change (String "}" rest) with ("}" +:+ rest).
    rewrite IH; [by rewrite <- app_assoc|done|cbn [foldr]; lia|by rewrite <- app_assoc].
Qed.

Lemma json_reads v : json_exact v = true → reads v.
Proof.
  induction v as [|b|z|q|s|l IH|d IH] using pyval_rect'; intros Hv n rest Hn Hr;
    try done; (destruct n as [|n]; [simpl in Hn; lia|]).
  - reflexivity.
  - by destruct b.
  - by apply read_value_number.
  - cbn [json_text]. destruct (json_string_read s rest Hv) as (body & -> & Hb).
    cbn [read_value]. rewrite decide_True by done. by rewrite Hb.
  - cbn [json_exact] in Hv. destruct l as [|x l]; [reflexivity|].
    assert (Forall reads (x :: l)) as Hl.
    { clear Hn. induction IH as [|y k Hy Hk IHk]; [done|].
      cbn [forallb] in Hv. apply andb_true_iff in Hv as [H1 H2]. constructor; auto. }
    cbn [need] in Hn. cbn [json_text]. rewrite !str_app_assoc.
    change ("[" +:+ ?t) with (String "[" t). cbn [read_value].
    rewrite decide_False by done. rewrite decide_True by done.
    pose proof (read_items_ok x l Hl Hv n [] rest ltac:(lia)) as Hi.
    destruct (json_text_head x (match l with [] => "]" +:+ rest
        | _ => ", " +:+ str_join ", " (map (json_text float_repr) l) +:+ "]" +:+ rest end))
        as (c & s & Hs & Hws & Hc & _); [by apply andb_true_iff in Hv as [? _]|].
    assert (str_join ", " (map (json_text float_repr) (x :: l)) +:+ "]" +:+ rest = String c s)
      as Ht by (rewrite <- Hs; destruct l; simpl; by rewrite ?str_app_assoc).
    rewrite Ht in *. rewrite skip_ws_text by done. rewrite decide_False by done. done.
  - cbn [json_exact] in Hv. apply andb_true_iff in Hv as [Hv Hnd%bool_decide_eq_true].
    destruct d as [|kv d]; [reflexivity|].
    assert (Forall member_ok (kv :: d)) as Hd.
    { clear Hn Hnd. induction IH as [|y k Hy Hk IHk]; [done|].
      cbn [forallb] in Hv. apply andb_true_iff in Hv as [[H1 H2]%andb_true_iff H3].
      constructor; [by split_and!; auto|auto]. }
    cbn [need] in Hn. cbn [json_text]. rewrite !str_app_assoc.
    change ("{" +:+ ?t) with (String "{" t). cbn [read_value].
    rewrite decide_False by done. rewrite decide_False by done. rewrite decide_True by done.
    pose proof (read_members_ok kv d Hd n [] rest ltac:(lia) Hnd) as Hm.
    change (map (λ kv, json_string kv.1 +:+ ": " +:+ json_text float_repr kv.2) (kv :: d))
      with (map member (kv :: d)).
    assert (∃ s, str_join ", " (map member (kv :: d)) +:+ "}" +:+ rest = String quote_char s)
      as (s & Ht) by (destruct d; cbn [map str_join]; rewrite ?str_app_assoc; apply member_head).
    rewrite Ht in *. rewrite skip_ws_text by done. rewrite decide_False by done. done.
Qed.
End RoundTrip.

(** *** Fuel and key order *)

Lemma join_length l :
  (foldr (λ s n, str_len s + 2 + n) 0 l ≤ str_len (str_join ", " l) + 2)%nat.
Proof.
  induction l as [|s l IH]; [cbn; lia|].
  destruct l as [|t l]; [cbn [foldr str_join]; lia|].
  change (str_join ", " (s :: t :: l)) with (s +:+ ", " +:+ str_join ", " (t :: l)).
  cbn [foldr] in *. rewrite !str_len_app. change (str_len ", ") with 2%nat. lia.
Qed.

Lemma need_text fr v : json_exact v = true → (need v ≤ 2 * str_len (json_text fr v))%nat.
Proof.
  induction v as [|b|z|q|s|l IH|d IH] using pyval_rect'; intros Hv; try done;
    try (destruct (json_text_head fr _ ε Hv) as (c & t & Ht & _);
         rewrite str_app_nil_r in Ht; rewrite Ht; cbn; lia).
  - cbn [json_text need]. rewrite !str_len_app.
    pose proof (join_length (map (json_text fr) l)) as Hj.
    assert (foldr (λ x n, S (need x + n)) 0 l
            ≤ 2 * foldr (λ s n, str_len s + 2 + n) 0 (map (json_text fr) l) - 3 * length l)%nat as H.
    { clear Hj. cbn [json_exact] in Hv. induction IH as [|x l Hx Hl IHl]; [cbn; lia|].
      cbn [forallb] in Hv. apply andb_true_iff in Hv as [H1 H2]. cbn [foldr map length].
      specialize (IHl H2). specialize (Hx H1).
      assert (3 * length l ≤ 2 * foldr (λ s n, str_len s + 2 + n) 0 (map (json_text fr) l))%nat
        by (clear; induction l; cbn [foldr map length]; lia). lia. }
    change (str_len "[") with 1%nat. change (str_len "]") with 1%nat.
    destruct l; [cbn in *; lia|]. cbn [length] in H. lia.
  - cbn [json_text need]. rewrite !str_len_app.
    set (text := λ kv : string * pyval, json_string kv.1 +:+ ": " +:+ json_text fr kv.2).
    pose proof (join_length (map text d)) as Hj.
    assert (foldr (λ kv n, S (need kv.2 + n)) 0 d
            ≤ 2 * foldr (λ s n, str_len s + 2 + n) 0 (map text d) - 3 * length d)%nat as H.
    { clear Hj. cbn [json_exact] in Hv. apply andb_true_iff in Hv as [Hv _].
      induction IH as [|x d Hx Hd IHd]; [cbn; lia|].
      cbn [forallb] in Hv. apply andb_true_iff in Hv as [[_ H1]%andb_true_iff H2].
      cbn [foldr map length]. specialize (IHd H2). specialize (Hx H1).
      assert (str_len (json_text fr x.2) ≤ str_len (text x))%nat
        by (unfold text; rewrite !str_len_app; lia).
      assert (3 * length d ≤ 2 * foldr (λ s n, str_len s + 2 + n) 0 (map text d))%nat
        by (clear; induction d; cbn [foldr map length]; lia). lia. }
    change (str_len "{") with 1%nat. change (str_len "}") with 1%nat.
    destruct d; [cbn in *; lia|]. cbn [length] in H. lia.
Qed.

Lemma sorted_items_perm d :
  py_sorted item_leb (map (λ kv, (fst kv, key_sorted (snd kv))) d)
  ≡ₚ map (λ kv, (fst kv, key_sorted (snd kv))) d.
Proof. apply py_sorted_perm. Qed.

Lemma map_keys (f : pyval → pyval) (d : dict pyval) :
  dict_keys (map (λ kv, (fst kv, f (snd kv))) d) = dict_keys d.
Proof. unfold dict_keys. induction d as [|kv d IH]; [done|]. csimpl. by rewrite IH. Qed.

Lemma key_sorted_exact v : json_exact v = true → json_exact (key_sorted v) = true.
Proof.
  induction v as [|b|z|q|s|l IH|d IH] using pyval_rect'; intros Hv; try done.
  - cbn [json_exact key_sorted] in *. induction IH as [|x l Hx Hl IHl]; [done|].
    cbn [forallb map] in *. apply andb_true_iff in Hv as [H1 H2]. by rewrite Hx, IHl.
  - cbn [json_exact key_sorted] in *. apply andb_true_iff in Hv as [Hv Hnd%bool_decide_eq_true].
    apply andb_true_iff. split.
    + apply forallb_forall. intros kv Hkv%list_elem_of_In. rewrite sorted_items_perm in Hkv.
      apply list_elem_of_fmap in Hkv as (kv' & -> & Hin). simpl.
      rewrite forallb_forall in Hv. rewrite Forall_forall in IH. specialize (IH _ Hin).
      apply list_elem_of_In, Hv in Hin. apply andb_true_iff in Hin as [H1 H2].
      apply andb_true_iff. auto.
    + apply bool_decide_eq_true. unfold dict_keys at 1. rewrite sorted_items_perm.
      change (NoDup (dict_keys (map (λ kv, (fst kv, key_sorted (snd kv))) d))). by rewrite map_keys.
Qed.

(** Sorting the keys changes no lookup. *)
Lemma key_sorted_get k d : dict_wf d →
  dict_get k (py_sorted item_leb (map (λ kv, (fst kv, key_sorted (snd kv))) d))
  = key_sorted <$> dict_get k d.
Proof.
  intros Hwf. assert (dict_get k (map (λ kv, (fst kv, key_sorted (snd kv))) d)
                      = key_sorted <$> dict_get k d) as <-.
  { clear Hwf. induction d as [|[k' v] d IH]; [done|]. csimpl. by case_decide. }
  assert (dict_wf (map (λ kv, (fst kv, key_sorted (snd kv))) d)) as Hwf'
    by (unfold dict_wf; by rewrite map_keys).
  set (d1 := map _ d) in *. clearbody d1. clear Hwf d.
  assert (dict_wf (py_sorted item_leb d1)) as Hwf2
    by (unfold dict_wf, dict_keys; by rewrite py_sorted_perm).
  destruct (dict_get k d1) as [v|] eqn:Hg.
  - apply dict_elem_get; [done|]. rewrite py_sorted_perm. by apply dict_get_elem.
  - destruct (dict_get k (py_sorted item_leb d1)) as [w|] eqn:Hw; [|done].
    apply dict_get_elem in Hw. rewrite py_sorted_perm in Hw.
    apply dict_elem_get in Hw; [congruence|done].
Qed.

Lemma json_round_trip fr v :
  json_exact v = true → json_loads (json_dumps fr v) = Some (key_sorted v).
Proof.
  intros Hv%key_sorted_exact. unfold json_loads, json_dumps.
  set (w := key_sorted v) in *. clearbody w.
  destruct (json_text_head fr w ε Hv) as (c & s & Ht & Hws & _). rewrite str_app_nil_r in Ht.
  assert (skip_ws (json_text fr w) = json_text fr w) as Hskip
    by (rewrite Ht; by apply skip_ws_text).
  rewrite Hskip. pose proof (need_text fr w Hv) as Hn.
  pose proof (json_reads fr w Hv (2 * str_len (json_text fr w) + 2)%nat ε ltac:(lia) eq_refl) as Hr.
  rewrite str_app_nil_r in Hr. by rewrite Hr.
Qed.

Example demo_json :
  json_dumps (λ _, "0.0") (VDict [("b", VList [VInt (-12); VNone]); ("a", VStr "x/y")])
  = String "{" (json_string "a" +:+ ": " +:+ json_string "x/y" +:+ ", " +:+ json_string "b"
                +:+ ": [-12, null]}")
  ∧ json_loads " [1.50, -2e3, true] " = Some (VList [VFloat (150 # 100); VFloat (-2000 # 1); VBool true])
  ∧ json_loads (utf8 233 +:+ json_string (utf8 128512)) = None
  ∧ json_loads (json_string (utf8 128512)) = Some (VStr (utf8 128512)).
Proof. vm_compute. done. Qed.
