(* ===== verification/Persistence.v ===== *)
(** * The checkpoint adapter ([control_plane/adapters/to_kernel/checkpoint.py])

    Saves an execution's state as JSON inside a checkpoint and reads it back,
    over any checkpoint repository. The fresh identifiers, the clock, the
    digest and the wording of a JSON error are arguments; the JSON text itself
    is that of [Json]. *)
From S2P Require Import Prelude PyStr PyDict PyVal ExecState Observability Abi ToolRegistry Storage Json.

Class CheckpointStore (E : Type) := {
  store_save : Checkpoint → M E Checkpoint;
  store_get : string → M E (option Checkpoint)
}.

#[export] Instance in_memory_store : CheckpointStore CheckpointRepository := {
  store_save := ck_save;
  store_get i := read (λ r, ck_get r i)
}.

Record CheckpointPersistenceAdapter (E : Type) := mkPersist {
  pa_repo : E;
  pa_version_counter : dict Z;
  pa_ticks : nat;
  pa_uuids : nat
}.
Arguments mkPersist {E}.
Arguments pa_repo {E}.
Arguments pa_version_counter {E}.
Arguments pa_ticks {E}.
Arguments pa_uuids {E}.

Definition CheckpointPersistenceAdapter_new {E} (repo : E) : CheckpointPersistenceAdapter E :=
  mkPersist repo [] 0 0.

Section Adapter.
Context {E : Type} `{!CheckpointStore E}.
Variable clock : nat → Z.
(** [uuid4().hex[:12]], [sha256(text).hexdigest()[:16]], [repr] of a float and
    the message of a [JSONDecodeError]. *)
Variable hex12 : nat → string.
Variable sha16 : string → string.
Variable float_repr : Q → string.
Variable json_error : string → string.
Implicit Types a : CheckpointPersistenceAdapter E.

Definition on_repo {A} (m : M E A) : M (CheckpointPersistenceAdapter E) A :=
  zoom pa_repo (λ e a, mkPersist e (pa_version_counter a) (pa_ticks a) (pa_uuids a)) m.

Definition pa_now : M (CheckpointPersistenceAdapter E) Z := λ a,
  (Ok (clock (pa_ticks a)),
   mkPersist (pa_repo a) (pa_version_counter a) (S (pa_ticks a)) (pa_uuids a)).

Definition checkpoint_id_of (n : nat) : string := "cp-" +:+ hex12 n.

Definition new_checkpoint_id : M (CheckpointPersistenceAdapter E) string := λ a,
  (Ok (checkpoint_id_of (pa_uuids a)),
   mkPersist (pa_repo a) (pa_version_counter a) (pa_ticks a) (S (pa_uuids a))).

Definition next_version (execution_id : string) : M (CheckpointPersistenceAdapter E) Z := λ a,
  let v := (dict_get_or 0%Z execution_id (pa_version_counter a) + 1)%Z in
  (Ok v, mkPersist (pa_repo a) (dict_set execution_id v (pa_version_counter a)) (pa_ticks a)
           (pa_uuids a)).

(** The body of the [try] of [save]. *)
Definition save_body (execution_id : string) (state : dict pyval)
    : M (CheckpointPersistenceAdapter E) string :=
  checkpoint_id ← new_checkpoint_id;
  current_version ← next_version execution_id;
  let state_json := json_dumps float_repr (VDict state) in
  now ← pa_now;
  let checkpoint := mkCheckpoint checkpoint_id execution_id current_version CT_STEP_COMPLETE
    (sha16 state_json) "1.0" None (Some state_json) [] [] (Some (Aware now)) in
  match Checkpoint_validate checkpoint with
  | [] => mret tt
  | errors => raise (CheckpointPersistenceError "save"
                       ("Invalid checkpoint: " +:+ list_repr errors))
  end ;;
  on_repo (store_save checkpoint) ;;
  mret checkpoint_id.

(** [except CheckpointPersistenceError: raise; except Exception as e: ...] *)
Definition as_persistence_error (operation : string) (e : exn) : exn :=
  if decide (exn_class e = "CheckpointPersistenceError") then e
  else CheckpointPersistenceError operation (exn_str e).

Definition adapter_save (execution_id : string) (state : dict pyval)
    : M (CheckpointPersistenceAdapter E) string :=
  r ← attempt (save_body execution_id state);
  match r with
  | Ok checkpoint_id => mret checkpoint_id
  | Raise e => raise (as_persistence_error "save" e)
  end.

Definition adapter_restore (checkpoint_id : string) : M (CheckpointPersistenceAdapter E) pyval :=
  r ← attempt (on_repo (store_get checkpoint_id));
  match r with
  | Raise e => raise (as_persistence_error "restore" e)
  | Ok None => raise (CheckpointPersistenceError "restore"
                        ("Checkpoint not found: " +:+ checkpoint_id))
  | Ok (Some checkpoint) =>
      match ck_agent_state_ref checkpoint with
      | None => raise (CheckpointPersistenceError "restore"
                         ("Checkpoint '" +:+ checkpoint_id +:+ "' contains no state"))
      | Some state_json =>
          match json_loads state_json with
          | Some v => mret v
          | None => raise (CheckpointPersistenceError "restore"
              ("Corrupted state in checkpoint '" +:+ checkpoint_id +:+ "': "
               +:+ json_error state_json))
          end
      end
  end.

(** The adapter is a [StatePersistence] of the runtime. *)
#[export] Instance checkpoint_persistence : StatePersistence (CheckpointPersistenceAdapter E) := {
  save := adapter_save;
  restore := adapter_restore
}.
End Adapter.

(** ** Saving and restoring over the in-memory repository *)

Section RoundTrip.
Variable clock : nat → Z.
Variable hex12 : nat → string.
Variable sha16 : string → string.
Variable float_repr : Q → string.
Variable json_error : string → string.
Context (hex_inj : ∀ m n, hex12 m = hex12 n → m = n).
Context (sha_nonempty : ∀ s, sha16 s ≠ ε).
Implicit Types a : CheckpointPersistenceAdapter CheckpointRepository.

Let pa_save x st := adapter_save clock hex12 sha16 float_repr (E := CheckpointRepository) x st.
Let pa_restore i := adapter_restore json_error (E := CheckpointRepository) i.

Inductive pa_step a : CheckpointPersistenceAdapter CheckpointRepository → Prop :=
| pa_step_save x st : pa_step a (pa_save x st a).2
| pa_step_restore i : pa_step a (pa_restore i a).2.

(** The checkpoint a save makes. *)
Definition saved x (st : dict pyval) a : Checkpoint :=
  let text := json_dumps float_repr (VDict st) in
  mkCheckpoint (checkpoint_id_of hex12 (pa_uuids a)) x
    (dict_get_or 0%Z x (pa_version_counter a) + 1)%Z CT_STEP_COMPLETE (sha16 text) "1.0" None
    (Some text) [] [] (Some (Aware (clock (pa_ticks a)))).

Definition versions_nonneg a : Prop := ∀ x, (0 ≤ dict_get_or 0%Z x (pa_version_counter a))%Z.

Definition counted x a : CheckpointPersistenceAdapter CheckpointRepository :=
  mkPersist (pa_repo a)
    (dict_set x (dict_get_or 0%Z x (pa_version_counter a) + 1)%Z (pa_version_counter a))
    (S (pa_ticks a)) (S (pa_uuids a)).

(** A save either stores the checkpoint, or, for an empty execution identifier,
    raises after having counted. *)
Lemma save_result x st a : versions_nonneg a →
  if truthy x then
    pa_save x st a = (Ok (checkpoint_id_of hex12 (pa_uuids a)),
                   let b := counted x a in
                   mkPersist (ck_save (saved x st a) (pa_repo a)).2 (pa_version_counter b)
                     (pa_ticks b) (pa_uuids b))
  else ∃ e, pa_save x st a = (Raise e, counted x a).
Proof using sha_nonempty.
  intros Hv. specialize (Hv x). unfold pa_save, adapter_save, save_body.
  set (text := json_dumps float_repr (VDict st)).
  pose proof (proj2 (truthy_true _) (sha_nonempty text)) as Hh.
  assert ((dict_get_or 0%Z x (pa_version_counter a) + 1 <? 0)%Z = false) as Hneg
    by (apply Z.ltb_ge; lia).
  m_unfold. unfold new_checkpoint_id, next_version, pa_now. cbn [pa_version_counter pa_ticks pa_uuids pa_repo].
  unfold Checkpoint_validate. cbn [ck_checkpoint_id ck_execution_id ck_checkpoint_hash ck_version].
  rewrite Hneg. fold text. rewrite Hh. unfold checkpoint_id_of.
  change (truthy ("cp-" +:+ hex12 (pa_uuids a))) with true.
  destruct (truthy x); cbn; [reflexivity|by eexists].
Qed.

Lemma restore_frame i a : (pa_restore i a).2 = a.
Proof.
  unfold pa_restore, adapter_restore. m_unfold. unfold on_repo, zoom, attempt. cbn.
  destruct a as [r v t u]. cbn. by repeat (case_match; simplify_eq/=).
Qed.

(** What every reachable adapter satisfies: identifiers come from the counter
    of fresh ones, versions are counted per execution. *)
Definition pa_inv a : Prop :=
  indexed ck_checkpoint_id ck_execution_id (cr_store (pa_repo a)) (cr_execution_index (pa_repo a))
  ∧ versions_nonneg a
  ∧ (∀ i c, ck_get (pa_repo a) i = Some c →
       (∃ n, (n < pa_uuids a)%nat ∧ i = checkpoint_id_of hex12 n)
       ∧ (ck_version c ≤ dict_get_or 0%Z (ck_execution_id c) (pa_version_counter a))%Z).

Lemma fresh_id a : pa_inv a → ck_get (pa_repo a) (checkpoint_id_of hex12 (pa_uuids a)) = None.
Proof using hex_inj.
  intros (_ & _ & H). destruct (ck_get _ _) as [c|] eqn:Hc; [|done].
  destruct (H _ _ Hc) as [(n & Hn & Heq) _].
  apply (str_app_inj_l "cp-") in Heq. apply hex_inj in Heq. lia.
Qed.

Lemma counted_get x y a :
  dict_get_or 0%Z y (pa_version_counter (counted x a))
  = (dict_get_or 0%Z y (pa_version_counter a) + if decide (y = x) then 1 else 0)%Z.
Proof.
  unfold counted, dict_get_or. cbn. rewrite dict_get_set. case_decide; [by subst|lia].
Qed.

Lemma counted_inv x a : pa_inv a → pa_inv (counted x a).
Proof.
  intros (Hi & Hv & Hc). split_and!; [exact Hi| |].
  - intros y. rewrite counted_get. specialize (Hv y). case_decide; lia.
  - intros i c Hg. destruct (Hc i c Hg) as [(n & Hn & ->) Hle]. split.
    + exists n. split; [cbn; lia|done].
    + rewrite counted_get. case_decide; lia.
Qed.

Lemma saved_inv x st a : pa_inv a →
  let b := counted x a in
  pa_inv (mkPersist (ck_save (saved x st a) (pa_repo a)).2 (pa_version_counter b)
            (pa_ticks b) (pa_uuids b)).
Proof using hex_inj.
  intros HI b. pose proof (fresh_id a HI) as Hf. pose proof (counted_inv x a HI) as (Hi & Hv & Hc).
  split_and!; [|exact Hv|].
  - apply (indexed_save _ _ _ _ (saved x st a)); [|exact Hi].
    intros old Hold. change (ck_get (pa_repo a) (checkpoint_id_of hex12 (pa_uuids a)) = Some old) in Hold.
    congruence.
  - intros i c Hg. unfold ck_get, ck_save, modify, mbind, M_bind in Hg. cbn in Hg.
    rewrite dict_get_set in Hg. case_decide as Hd.
    + injection Hg as <-. split.
      * exists (pa_uuids a). split; [cbn; lia|done].
      * change (ck_version (saved x st a)
                ≤ dict_get_or 0%Z x (pa_version_counter (counted x a)))%Z.
        rewrite counted_get, decide_True by done. cbn. lia.
    + apply (Hc i c Hg).
Qed.

Lemma save_inv x st a : pa_inv a → pa_inv (pa_save x st a).2.
Proof using hex_inj sha_nonempty.
  intros HI. pose proof (save_result x st a (proj1 (proj2 HI))) as Hs.
  destruct (truthy x); [rewrite Hs|destruct Hs as (e & ->)]; simpl;
    [by apply saved_inv|by apply counted_inv].
Qed.

(** A stored checkpoint stays as it is. *)
Definition keeps a b : Prop := pa_inv a → pa_inv b ∧
  ∀ i c, ck_get (pa_repo a) i = Some c → ck_get (pa_repo b) i = Some c.

#[local] Instance keeps_preorder : PreOrder keeps.
Proof.
  split; [by intros a HI|]. intros a b c H1 H2 HI.
  destruct (H1 HI) as [HI2 K1], (H2 HI2) as [HI3 K2]. split; auto.
Qed.

Lemma pa_step_keeps a b : pa_step a b → keeps a b.
Proof using hex_inj sha_nonempty.
  intros Hs HI. destruct Hs as [x st|i].
  - split; [by apply save_inv|]. intros i c Hg.
    pose proof (save_result x st a (proj1 (proj2 HI))) as Hs.
    destruct (truthy x); [rewrite Hs|destruct Hs as (e & ->)]; simpl; [|done].
    unfold ck_get, ck_save, modify, mbind, M_bind. cbn. rewrite dict_get_set.
    case_decide as Hd; [|done].
    assert (ck_get (pa_repo a) i = None) as Hn by (rewrite Hd; exact (fresh_id a HI)).
    congruence.
  - by rewrite restore_frame.
Qed.

Lemma pa_new_inv : pa_inv (CheckpointPersistenceAdapter_new CheckpointRepository_new).
Proof. split_and!; [apply indexed_nil|by intros x|by intros i c]. Qed.

(** What is saved can be restored from then on. *)
Lemma restore_saved x st a b :
  pa_inv a → truthy x = true → json_exact (VDict st) = true →
  star pa_step (pa_save x st a).2 b →
  pa_restore (checkpoint_id_of hex12 (pa_uuids a)) b = (Ok (key_sorted (VDict st)), b).
Proof using hex_inj sha_nonempty.
  intros HI Hx Hst Hb. pose proof (save_result x st a (proj1 (proj2 HI))) as Hs.
  rewrite Hx in Hs. pose proof (save_inv x st a HI) as HI1.
  destruct (star_preorder pa_step keeps _ _ pa_step_keeps Hb HI1) as [_ Hk].
  assert (ck_get (pa_repo b) (checkpoint_id_of hex12 (pa_uuids a)) = Some (saved x st a)) as Hg.
  { apply Hk. rewrite Hs. unfold ck_get, ck_save, modify, mbind, M_bind. cbn.
    by rewrite dict_get_set_eq. }
  set (cid := checkpoint_id_of _ _) in *.
  assert (attempt (on_repo (E := CheckpointRepository) (store_get cid)) b
    = (Ok (Ok (Some (saved x st a))), b)) as Hget.
  { unfold attempt, on_repo, zoom. cbn [store_get in_memory_store]. unfold read.
    rewrite Hg. by destruct b. }
  unfold pa_restore, adapter_restore. rewrite (bind_ok _ _ _ _ _ Hget).
  cbn [saved ck_agent_state_ref]. by rewrite json_round_trip.
Qed.

(** C28: a state without floats and with ASCII strings survives: whatever saves
    and restores came before and come after, [save] of a named execution
    returns an identifier from which [restore] gives the state back, with the
    items of its dictionaries in key order; the repository's latest checkpoint
    of the execution is the one just saved, with the next version number. *)
Theorem checkpoint_round_trip (iter : gset string → list string) (x : string) (st : dict pyval) a b :
  (∀ X, iter X ≡ₚ elements X) →
  star pa_step (CheckpointPersistenceAdapter_new CheckpointRepository_new) a →
  x ≠ ε → json_exact (VDict st) = true →
  star pa_step (pa_save x st a).2 b →
  ∃ cid, (pa_save x st a).1 = Ok cid
    ∧ pa_restore cid b = (Ok (key_sorted (VDict st)), b)
    ∧ get_latest iter (pa_repo (pa_save x st a).2) x
      = Ok (Some (saved x st a))
    ∧ ck_checkpoint_id (saved x st a) = cid.
Proof using hex_inj sha_nonempty.
  intros Hiter Ha Hx Hst Hb. apply truthy_true in Hx.
  destruct (star_preorder pa_step keeps _ _ pa_step_keeps Ha pa_new_inv) as [HI _].
  pose proof (restore_saved x st a b HI Hx Hst Hb) as Hrest. clear Hb.
  pose proof (save_result x st a (proj1 (proj2 HI))) as Hs. rewrite Hx in Hs.
  set (cid := checkpoint_id_of hex12 (pa_uuids a)) in *.
  pose proof (save_inv x st a HI) as HI1. rewrite Hs in *. cbn [fst snd] in *.
  set (a1 := mkPersist _ _ _ _) in *. exists cid.
  assert (ck_get (pa_repo a1) cid = Some (saved x st a)) as Hg.
  { unfold a1, ck_get, ck_save, modify, mbind, M_bind. cbn. by rewrite dict_get_set_eq. }
  split; [done|]. split; [done|]. split; [|done].
  destruct HI1 as (Hidx & Hv1 & Hc1).
  destruct (fetch_indexed _ _ iter _ _ x Hiter Hidx) as (l & Hl & Hnd & Hin).
  assert (saved x st a ∈ l) as Hsl by (apply Hin; split; [exact Hg|done]).
  unfold get_latest. case_bool_decide as He.
  { exfalso. rewrite He in Hl. assert (iter ∅ = []) as Hi0
      by (apply Permutation_nil; by rewrite Hiter, elements_empty).
    rewrite Hi0 in Hl. injection Hl as <-. by apply not_elem_of_nil in Hsl. }
  rewrite Hl. cbn. do 2 f_equal. pose proof (max_version_spec l) as Hmax.
  destruct (max_version l) as [c|]; [|subst l; by apply not_elem_of_nil in Hsl].
  destruct Hmax as [Hcl Hmax]. specialize (Hmax _ Hsl). apply Hin in Hcl as [Hgc Hxc].
  f_equal. destruct (decide (ck_checkpoint_id c = cid)) as [Heq|Hne].
  { rewrite Heq in Hgc. unfold ck_get in Hg. congruence. }
  exfalso. assert (ck_get (pa_repo a) (ck_checkpoint_id c) = Some c) as Hold.
  { revert Hgc. unfold a1, ck_get, ck_save, modify, mbind, M_bind. cbn.
    by rewrite dict_get_set_ne. }
  destruct HI as (_ & _ & HC). destruct (HC _ _ Hold) as [_ Hle]. rewrite Hxc in Hle.
  cbn in Hmax. lia.
Qed.
End RoundTrip.

(** ** Concrete runs *)

Definition demo_hex (n : nat) : string := str_of_nat n.
Definition demo_save (x : string) (v : Z)
    : M (CheckpointPersistenceAdapter CheckpointRepository) string :=
  adapter_save (E := CheckpointRepository) (λ n, Z.of_nat n) demo_hex (λ _, "h") (λ _, "0.0")
    x [("n", VInt v)].
Definition demo_adapter : CheckpointPersistenceAdapter CheckpointRepository :=
  CheckpointPersistenceAdapter_new CheckpointRepository_new.

Lemma checkpoint_round_trip_witness :
  (demo_save "e" 5 demo_adapter).1 = Ok "cp-0"
  ∧ ∃ cid, (demo_save "e" 5 demo_adapter).1 = Ok cid
    ∧ adapter_restore (E := CheckpointRepository) (λ s, s) cid (demo_save "e" 5 demo_adapter).2
      = (Ok (VDict [("n", VInt 5)]), (demo_save "e" 5 demo_adapter).2).
Proof.
  split; [vm_compute; reflexivity|].
  assert (∀ m n, demo_hex m = demo_hex n → m = n) as Hinj
    by (intros m n H; unfold demo_hex, str_of_nat in H; by apply (inj pretty) in H).
  destruct (checkpoint_round_trip (λ n, Z.of_nat n) demo_hex (λ _, "h") (λ _, "0.0") (λ s, s)
    Hinj (λ _, ltac:(discriminate)) elements "e" [("n", VInt 5)] demo_adapter
    (demo_save "e" 5 demo_adapter).2 (λ X, Permutation_refl _) star_refl
    ltac:(discriminate) eq_refl star_refl) as (cid & H1 & H2 & _).
  exists cid. split; [exact H1|exact H2].
Defined.

(** A new adapter over a repository that already holds checkpoints, as after a
    restart of the process: its versions start again at 1 and the latest
    checkpoint stays an old one. *)
Example demo_restart_keeps_old_latest :
  let a1 := (demo_save "e" 2 (demo_save "e" 1 demo_adapter).2).2 in
  let restarted := mkPersist (pa_repo a1) [] 0 (pa_uuids a1) in
  match get_latest elements (pa_repo (demo_save "e" 3 restarted).2) "e" with
  | Ok (Some c) => ck_checkpoint_id c = "cp-1" ∧ ck_version c = 2%Z
  | _ => False
  end.
Proof. vm_compute. done. Qed.
