(* ===== verification/DateTime.v ===== *)
(** * Reading dates back

    [datetime.fromisoformat] on the texts [datetime.isoformat] writes: a date, a
    time of day with an optional six-digit fraction, and the offset of UTC for
    an aware one. Python accepts other spellings of ISO 8601 as well; nothing
    here writes them, and the reader answers [None] on them. A datetime read
    back is the one that was written. *)
From S2P Require Import Prelude PyStr PyDict PyVal Storage Json.
From Stdlib Require Import Ascii.

(** [datetime.min] and [datetime.max], in microseconds since the epoch. *)
Definition min_micros : Z := -62135596800000000.
Definition max_micros : Z := 253402300799999999.
Definition in_calendar (t : Z) : Prop := (min_micros ≤ t ≤ max_micros)%Z.

(** [str(d)] as [isoformat] prints it. *)
Definition datetime_isoformat (a : datetime) : string :=
  match a with Naive t => isoformat_naive t | Aware t => isoformat t end.

(** Day number of a date, counted from 1970-01-01. *)
Definition days_of_civil (y m d : Z) : Z :=
  let y1 := (if m <=? 2 then y - 1 else y)%Z in
  let era := (y1 / 400)%Z in
  let yoe := (y1 mod 400)%Z in
  let mp := (if m <=? 2 then m + 9 else m - 3)%Z in
  let doy := ((153 * mp + 2) / 5 + d - 1)%Z in
  let doe := (yoe * 365 + yoe / 4 - yoe / 100 + doy)%Z in
  (era * 146097 + doe - 719468)%Z.

Lemma doe_bounds doe : (0 ≤ doe < 146097)%Z →
  let yoe := ((doe - doe / 1460 + doe / 36524 - doe / 146096) / 365)%Z in
  let doy := (doe - (365 * yoe + yoe / 4 - yoe / 100))%Z in
  (0 ≤ yoe < 400 ∧ 0 ≤ doy ≤ 365)%Z.
Proof.
  intros H yoe doy. unfold doy, yoe. clear doy yoe.
  Z.div_mod_to_equations. lia.
Qed.

Lemma civil_inverse n :
  let '(y, m, d) := civil_of_days n in
  days_of_civil y m d = n ∧ (1 ≤ m ≤ 12)%Z ∧ (1 ≤ d ≤ 31)%Z.
Proof.
  unfold civil_of_days.
  set (z := (n + 719468)%Z). set (doe := (z mod 146097)%Z). set (era := (z / 146097)%Z).
  assert (0 ≤ doe < 146097)%Z as Hdoe by (apply Z.mod_pos_bound; lia).
  assert (z = 146097 * era + doe)%Z as Hz by (apply Z.div_mod; lia).
  destruct (doe_bounds doe Hdoe) as [Hyoe Hdoy].
  set (yoe := ((doe - doe / 1460 + doe / 36524 - doe / 146096) / 365)%Z) in *.
  set (doy := (doe - (365 * yoe + yoe / 4 - yoe / 100))%Z) in *.
  set (mp := ((5 * doy + 2) / 153)%Z).
  assert (0 ≤ mp ≤ 11)%Z as Hmp by (unfold mp; Z.div_mod_to_equations; lia).
  assert (1 ≤ doy - (153 * mp + 2) / 5 + 1 ≤ 31)%Z as Hd
    by (unfold mp; clear Hmp; Z.div_mod_to_equations; lia).
  assert (∀ k, 0 ≤ k ≤ 1 → (yoe + era * 400 + k - k) / 400 = era
               ∧ (yoe + era * 400 + k - k) mod 400 = yoe)%Z as Hera.
  { intros k _. replace (yoe + era * 400 + k - k)%Z with (yoe + era * 400)%Z by lia.
    rewrite Z.div_add, Z.mod_add, Z.div_small, Z.mod_small by lia. lia. }
  unfold days_of_civil. destruct (mp <? 10)%Z eqn:Hm; b2p.
  - assert (mp + 3 <=? 2 = false)%Z as -> by (apply Z.leb_gt; lia).
    destruct (Hera 0 ltac:(lia))%Z as [E1 E2]. rewrite Z.sub_0_r in E1, E2.
    rewrite E1, E2. replace (mp + 3 - 3)%Z with mp by lia. unfold doy in *. lia.
  - assert (mp - 9 <=? 2 = true)%Z as -> by (apply Z.leb_le; lia).
    destruct (Hera 1 ltac:(lia))%Z as [E1 E2].
    rewrite E1, E2. replace (mp - 9 + 9)%Z with mp by lia. unfold doy in *. lia.
Qed.

(** Years of the days datetimes can have. *)
Lemma civil_year n : (-719162 ≤ n ≤ 2932896)%Z →
  (1 ≤ (civil_of_days n).1.1 ≤ 9999)%Z.
Proof.
  intros Hn. unfold civil_of_days. cbn [fst].
  set (z := (n + 719468)%Z). set (doe := (z mod 146097)%Z). set (era := (z / 146097)%Z).
  assert (0 ≤ doe < 146097)%Z as Hdoe by (apply Z.mod_pos_bound; lia).
  assert (z = 146097 * era + doe)%Z as Hz by (apply Z.div_mod; lia).
  destruct (doe_bounds doe Hdoe) as [Hyoe Hdoy].
  set (yoe := ((doe - doe / 1460 + doe / 36524 - doe / 146096) / 365)%Z) in *.
  set (doy := (doe - (365 * yoe + yoe / 4 - yoe / 100))%Z) in *.
  set (mp := ((5 * doy + 2) / 153)%Z).
  assert (0 ≤ mp ≤ 11)%Z as Hmp by (unfold mp; Z.div_mod_to_equations; lia).
  assert (doe = 365 * yoe + yoe / 4 - yoe / 100 + doy)%Z as Hsplit by (unfold doy; lia).
  assert (10 ≤ mp ↔ 306 ≤ doy)%Z as Hjan by (unfold mp; Z.div_mod_to_equations; lia).
  clearbody doy yoe. clearbody mp doe era.
  destruct (mp <? 10)%Z eqn:Hm; b2p.
  - assert (mp + 3 <=? 2 = false)%Z as -> by (apply Z.leb_gt; lia).
    Z.div_mod_to_equations. lia.
  - assert (mp - 9 <=? 2 = true)%Z as -> by (apply Z.leb_le; lia).
    Z.div_mod_to_equations. lia.
Qed.

(** ** Decimal fields *)

(** The value of [w] digits. *)
Fixpoint digits_value (acc : Z) (s : string) : option Z :=
  match s with
  | ε => Some acc
  | String c s' =>
      if is_digit c then digits_value (acc * 10 + (code c - 48)) s' else None
  end.

Definition take_field (w : nat) (s : string) : option (Z * string) :=
  if decide (str_len (str_take w s) = w) then
    match digits_value 0 (str_take w s) with
    | Some z => Some (z, str_drop w s)
    | None => None
    end
  else None.

Lemma digits_value_app acc s t :
  digits_value acc (s +:+ t) = digits_value acc s ≫= λ z, digits_value z t.
Proof.
  revert acc. induction s as [|c s IH]; intros acc; [done|].
  cbn [String.append digits_value]. by case_match.
Qed.

Lemma digits_value_zeros n : digits_value 0 (str_zeros n) = Some 0%Z.
Proof. induction n as [|n IH]; [done|]. exact IH. Qed.

Lemma digits_value_pretty (x : N) (s : string) :
  digits_value 0 (pretty_N_go x s) = digits_value (Z.of_N x) s.
Proof.
  revert s. induction (N.lt_wf_0 x) as [x _ IH]; intros s.
  destruct (decide (x = 0)%N) as [->|Hx]; [by rewrite pretty_N_go_0|].
  rewrite pretty_N_go_step, IH by (try apply N.div_lt; lia).
  destruct (digit_char (x `mod` 10)%N ltac:(apply N.mod_lt; lia)) as [Hd Hv].
  cbn [digits_value]. rewrite Hd, Hv. f_equal. rewrite (of_N_div_mod x). lia.
Qed.

Lemma pretty_go_length (k : nat) (x : N) (s : string) : (Z.of_N x < 10 ^ Z.of_nat k)%Z →
  (str_len (pretty_N_go x s) ≤ k + str_len s)%nat.
Proof.
  revert x s. induction k as [|k IH]; intros x s Hx.
  { replace x with 0%N by lia. by rewrite pretty_N_go_0. }
  destruct (decide (x = 0)%N) as [->|Hne]; [rewrite pretty_N_go_0; lia|].
  rewrite pretty_N_go_step by lia.
  eapply Nat.le_trans; [apply IH|unfold str_len; simpl; lia].
  rewrite N2Z.inj_div. apply Z.div_lt_upper_bound; [lia|].
  rewrite Nat2Z.inj_succ, Z.pow_succ_r in Hx by lia. lia.
Qed.

Lemma str_zeros_len n : str_len (str_zeros n) = n.
Proof. induction n as [|n IH]; [done|]. unfold str_len in *. simpl. by rewrite IH. Qed.

(** A padded number takes its width and reads back. *)
Lemma str_pad_spec w z : (0 < w)%nat → (0 ≤ z < 10 ^ Z.of_nat w)%Z →
  str_len (str_pad w z) = w ∧ digits_value 0 (str_pad w z) = Some z.
Proof.
  intros Hw Hz. unfold str_pad.
  assert (str_len (str_of_Z z) ≤ w ∧ digits_value 0 (str_of_Z z) = Some z)%nat as [Hl Hv].
  { unfold str_of_Z, pretty, pretty_Z. destruct z as [|p|p]; [|..|lia].
    - split; [unfold str_len; simpl; lia|done].
    - change (str_len (pretty_N_go (Npos p) ε) ≤ w ∧ digits_value 0 (pretty_N_go (Npos p) ε) = Some (Zpos p))%nat. split.
      + pose proof (pretty_go_length w (Npos p) ε ltac:(lia)). unfold str_len in *. simpl in *. lia.
      + by rewrite digits_value_pretty. }
  rewrite str_len_app, str_zeros_len, digits_value_app, digits_value_zeros. split; [lia|done].
Qed.

Lemma str_take_app s t : str_take (str_len s) (s +:+ t) = s.
Proof. unfold str_len. induction s as [|c s IH]; [by destruct t|]. simpl. by rewrite IH. Qed.

Lemma take_field_pad w z rest : (0 < w)%nat → (0 ≤ z < 10 ^ Z.of_nat w)%Z →
  take_field w (str_pad w z +:+ rest) = Some (z, rest).
Proof.
  intros Hw Hz. destruct (str_pad_spec w z Hw Hz) as [Hl Hv]. unfold take_field.
  pose proof (str_take_app (str_pad w z) rest) as Ht.
  pose proof (str_drop_app (str_pad w z) rest) as Hd.
  rewrite Hl in Ht, Hd. rewrite Ht, Hd, Hv, decide_True by done. done.
Qed.

(** ** Reading *)

(** The character [c], then the rest. *)
Definition take_char (c : ascii) (s : string) : option string :=
  match s with
  | String d s' => if decide (d = c) then Some s' else None
  | ε => None
  end.

Definition read_date (s : string) : option (Z * string) :=
  '(y, s) ← take_field 4 s; s ← take_char "-" s;
  '(m, s) ← take_field 2 s; s ← take_char "-" s;
  '(d, s) ← take_field 2 s;
  let n := days_of_civil y m d in
  if decide (1 ≤ y ∧ civil_of_days n = (y, m, d))%Z then Some (n, s) else None.

Definition read_clock (s : string) : option (Z * string) :=
  '(h, s) ← take_field 2 s; s ← take_char ":" s;
  '(mi, s) ← take_field 2 s; s ← take_char ":" s;
  '(sec, s) ← take_field 2 s;
  if decide (h < 24 ∧ mi < 60 ∧ sec < 60)%Z then Some (h * 3600 + mi * 60 + sec, s)%Z else None.

(** A point and six digits, when there is a point. *)
Definition read_micros (s : string) : option (Z * string) :=
  match take_char "." s with
  | Some s' => take_field 6 s'
  | None => Some (0%Z, s)
  end.

Definition fromisoformat (s : string) : option datetime :=
  '(n, s) ← read_date s; s ← take_char "T" s;
  '(sec, s) ← read_clock s;
  '(f, s) ← read_micros s;
  let t := (n * (86400 * usec_per_sec) + sec * usec_per_sec + f)%Z in
  if decide (s = ε) then Some (Naive t)
  else if decide (s = "+00:00") then Some (Aware t)
  else None.

Lemma take_char_eq c s : take_char c (String c ε +:+ s) = Some s.
Proof. simpl. by rewrite decide_True. Qed.

(** The reader on the printed fields. *)
Lemma read_date_printed n rest : (-719162 ≤ n ≤ 2932896)%Z →
  let '(y, m, d) := civil_of_days n in
  read_date (str_pad 4 y +:+ "-" +:+ str_pad 2 m +:+ "-" +:+ str_pad 2 d +:+ rest)
  = Some (n, rest).
Proof.
  intros Hn. pose proof (civil_year n Hn) as Hy. pose proof (civil_inverse n) as Hi.
  destruct (civil_of_days n) as [[y m] d] eqn:Hc. cbn [fst] in Hy. destruct Hi as (Hinv & Hm & Hd).
  unfold read_date. cbn [mbind option_bind].
  rewrite take_field_pad by lia. cbn [mbind option_bind].
  rewrite take_char_eq. cbn [mbind option_bind].
  rewrite take_field_pad by lia. cbn [mbind option_bind].
  rewrite take_char_eq. cbn [mbind option_bind].
  rewrite take_field_pad by lia. cbn [mbind option_bind].
  rewrite Hinv, Hc, decide_True by (split; [lia|done]). done.
Qed.

Lemma read_clock_printed s rest : (0 ≤ s < 86400)%Z →
  read_clock (str_pad 2 (s / 3600) +:+ ":" +:+ str_pad 2 (s / 60 mod 60) +:+ ":"
              +:+ str_pad 2 (s mod 60) +:+ rest) = Some (s, rest).
Proof.
  intros Hs. assert (0 ≤ s / 3600 < 24 ∧ 0 ≤ s / 60 mod 60 < 60 ∧ 0 ≤ s mod 60 < 60
    ∧ s / 3600 * 3600 + s / 60 mod 60 * 60 + s mod 60 = s)%Z as (H1 & H2 & H3 & H4)
    by (Z.div_mod_to_equations; lia).
  unfold read_clock. cbn [mbind option_bind].
  rewrite take_field_pad by lia. cbn [mbind option_bind].
  rewrite take_char_eq. cbn [mbind option_bind].
  rewrite take_field_pad by lia. cbn [mbind option_bind].
  rewrite take_char_eq. cbn [mbind option_bind].
  rewrite take_field_pad by lia. cbn [mbind option_bind].
  rewrite decide_True by lia. by rewrite H4.
Qed.

Lemma read_micros_printed f rest : (0 ≤ f < 1000000)%Z → take_char "." rest = None →
  read_micros ((if (f =? 0)%Z then ε else "." +:+ str_pad 6 f) +:+ rest) = Some (f, rest).
Proof.
  intros Hf Hr. unfold read_micros. destruct (f =? 0)%Z eqn:H0; b2p.
  - cbn [String.append]. by rewrite Hr, H0.
  - rewrite str_app_assoc, take_char_eq. rewrite take_field_pad by (simpl; lia). done.
Qed.

(** A datetime in the calendar is read back from its text. *)
Lemma fromisoformat_isoformat a :
  in_calendar (datetime_micros a) → fromisoformat (datetime_isoformat a) = Some a.
Proof.
  assert (∀ t suffix, in_calendar t → take_char "." suffix = None →
    fromisoformat (isoformat_naive t +:+ suffix)
    = if decide (suffix = ε) then Some (Naive t)
      else if decide (suffix = "+00:00") then Some (Aware t) else None) as H.
  { intros t suffix Ht Hs. unfold in_calendar, min_micros, max_micros in Ht.
    set (n := (t / (86400 * usec_per_sec))%Z).
    set (u := (t mod (86400 * usec_per_sec))%Z).
    assert (t = n * (86400 * usec_per_sec) + u ∧ 0 ≤ u < 86400 * usec_per_sec
            ∧ -719162 ≤ n ≤ 2932896)%Z as (Heq & Hu & Hn)
      by (unfold n, u, usec_per_sec; Z.div_mod_to_equations; lia).
    assert (0 ≤ u / usec_per_sec < 86400 ∧ 0 ≤ u mod usec_per_sec < 1000000
            ∧ u = u / usec_per_sec * usec_per_sec + u mod usec_per_sec)%Z as (Hsec & Hf & Hsplit)
      by (unfold usec_per_sec in *; Z.div_mod_to_equations; lia).
    unfold isoformat_naive. fold n u.
    pose proof (read_date_printed n) as Hdate.
    destruct (civil_of_days n) as [[y m] d]. rewrite !str_app_assoc.
    unfold fromisoformat. rewrite Hdate by done. cbn [mbind option_bind].
    rewrite take_char_eq. cbn [mbind option_bind].
    rewrite read_clock_printed by done. cbn [mbind option_bind].
    rewrite read_micros_printed by done. cbn [mbind option_bind].
    replace (_ + _ + _)%Z with t by lia. done. }
  destruct a as [t|t]; simpl; intros Ht.
  - specialize (H t ε Ht eq_refl). rewrite str_app_nil_r in H. by rewrite H.
  - unfold isoformat. by rewrite H.
Qed.

Example demo_fromisoformat :
  fromisoformat "2024-02-29T12:34:56.000123+00:00" = Some (Aware 1709210096000123)
  ∧ fromisoformat "2023-02-29T00:00:00" = None.
Proof. vm_compute. done. Qed.

(** ** Printed dates are ASCII *)

Lemma is_ascii_app s t : is_ascii (s +:+ t) = is_ascii s && is_ascii t.
Proof. induction s as [|c s IH]; [done|]. cbn [String.append is_ascii]. by rewrite IH, andb_assoc. Qed.

Lemma digits_ascii acc s z : digits_value acc s = Some z → is_ascii s = true.
Proof.
  revert acc. induction s as [|c s IH]; intros acc; [done|]. cbn [digits_value is_ascii].
  destruct (is_digit c) eqn:Hd; [|done]. intros H%IH. rewrite H, andb_true_r.
  unfold is_digit in Hd. b2p. apply Z.ltb_lt. lia.
Qed.

Lemma str_pad_ascii w z : (0 < w)%nat → (0 ≤ z < 10 ^ Z.of_nat w)%Z →
  is_ascii (str_pad w z) = true.
Proof. intros Hw Hz. destruct (str_pad_spec w z Hw Hz) as [_ H]. by eapply digits_ascii. Qed.

Lemma datetime_ascii a :
  in_calendar (datetime_micros a) → is_ascii (datetime_isoformat a) = true.
Proof.
  intros Ht. assert (is_ascii (isoformat_naive (datetime_micros a)) = true) as H.
  { set (t := datetime_micros a) in *. unfold in_calendar, min_micros, max_micros in Ht.
    unfold isoformat_naive. set (n := (t / (86400 * usec_per_sec))%Z).
    set (u := (t mod (86400 * usec_per_sec))%Z).
    assert (0 ≤ u < 86400 * usec_per_sec ∧ -719162 ≤ n ≤ 2932896)%Z as (Hu & Hn)
      by (unfold n, u, usec_per_sec; Z.div_mod_to_equations; lia).
    assert (0 ≤ u / usec_per_sec < 86400 ∧ 0 ≤ u mod usec_per_sec < 1000000)%Z as (Hsec & Hf)
      by (unfold usec_per_sec in *; Z.div_mod_to_equations; lia).
    set (s := (u / usec_per_sec)%Z) in *.
    assert (0 ≤ s / 3600 < 24 ∧ 0 ≤ s / 60 mod 60 < 60 ∧ 0 ≤ s mod 60 < 60)%Z as (H1 & H2 & H3)
      by (Z.div_mod_to_equations; lia).
    pose proof (civil_year n Hn) as Hy. pose proof (civil_inverse n) as Hi.
    destruct (civil_of_days n) as [[y m] d]. cbn [fst] in Hy. destruct Hi as (_ & Hm & Hd).
    rewrite !is_ascii_app, !str_pad_ascii by (simpl; lia).
    destruct (_ =? 0)%Z; [done|]. by rewrite is_ascii_app, str_pad_ascii by (simpl; lia). }
  destruct a; simpl in *; [done|]. unfold isoformat. by rewrite is_ascii_app, H.
Qed.
