(* ===== verification/FileStore.v ===== *)
(** * The file-system checkpoint repository
    ([infrastructure/storage/checkpoint/file_system.py])

    A file system is the set of its directories and the contents of its files,
    by absolute path; path names are resolved as the system does, [..] included.
    The files of a repository are read under the types the source declares for
    them: a JSON value of another type is the exception [IllTyped], where Python
    would carry it on until something fails. Errors of the device (no space, no
    permission) are not modelled; a process that dies in the middle of a save
    is, as a prefix of the save's writes and renames. *)
From S2P Require Import Prelude PyStr PyDict PyVal Storage Json DateTime Persistence.
From Stdlib Require Import Ascii.

(** ** The file system *)

Abbreviation path := (list string).

Record FS := mkFS { fs_dirs : gset path; fs_files : gmap path string }.

Definition FileNotFoundError : exn := mkExn "FileNotFoundError" "No such file or directory".
Definition IsADirectoryError : exn := mkExn "IsADirectoryError" "Is a directory".
Definition FileExistsError : exn := mkExn "FileExistsError" "File exists".

(** [Path(dir) / name]: empty and dot components disappear, an absolute name
    replaces the directory. *)
Definition path_parts (name : string) : path :=
  filter (λ c, c ≠ ε ∧ c ≠ ".") (str_split "/" name).
Definition path_join (dir : path) (name : string) : path :=
  if str_startswith "/" name then path_parts name else dir ++ path_parts name.

Definition enter (cur : path) (c : string) : path :=
  if decide (c = "..") then removelast cur else cur ++ [c].

(** Where a path leads: every directory on the way has to be there. *)
Fixpoint walk (fs : FS) (cur : path) (p : path) : option path :=
  match p with
  | [] => Some cur
  | c :: p' => if decide (cur ∈ fs_dirs fs) then walk fs (enter cur c) p' else None
  end.
Definition resolve (fs : FS) (p : path) : option path := walk fs [] p.

(** [p.exists()]; a name no file can have is that of no file. *)
Definition fs_exists (fs : FS) (p : path) : bool :=
  match resolve fs p with
  | Some q => bool_decide (q ∈ fs_dirs fs) || bool_decide (is_Some (fs_files fs !! q))
  | None => false
  end.

(** [open(p).read()] *)
Definition fs_read (fs : FS) (p : path) : outcome string :=
  match resolve fs p with
  | None => Raise FileNotFoundError
  | Some q =>
      if decide (q ∈ fs_dirs fs) then Raise IsADirectoryError
      else match fs_files fs !! q with Some s => Ok s | None => Raise FileNotFoundError end
  end.

(** What a save does to the disk, one entry of a directory at a time. *)
Inductive fs_op := OpWrite (p : path) (s : string) | OpReplace (src dst : path).

Definition run_op (op : fs_op) (fs : FS) : FS :=
  match op with
  | OpWrite p s => mkFS (fs_dirs fs) (<[p := s]> (fs_files fs))
  | OpReplace p q =>
      match fs_files fs !! p with
      | Some s => mkFS (fs_dirs fs) (<[q := s]> (delete p (fs_files fs)))
      | None => fs
      end
  end.

Definition has_nul (s : string) : bool := str_contains (String (ascii_of_nat 0) ε) s.

(** [with open(p, "w") as f: f.write(s)] *)
Definition fs_write (p : path) (s : string) : M FS unit := λ fs,
  if existsb has_nul p then (Raise (mkExn "ValueError" "embedded null byte"), fs) else
  match resolve fs p with
  | None => (Raise FileNotFoundError, fs)
  | Some q =>
      if decide (q ∈ fs_dirs fs) then (Raise IsADirectoryError, fs)
      else (Ok tt, run_op (OpWrite q s) fs)
  end.

(** [p.replace(q)] *)
Definition fs_replace (p q : path) : M FS unit := λ fs,
  match resolve fs p, resolve fs q with
  | Some p', Some q' =>
      match fs_files fs !! p' with
      | None => (Raise FileNotFoundError, fs)
      | Some _ =>
          if decide (q' ∈ fs_dirs fs) then (Raise IsADirectoryError, fs)
          else (Ok tt, run_op (OpReplace p' q') fs)
      end
  | _, _ => (Raise FileNotFoundError, fs)
  end.

(** All the directories on the way to [p], [p] included. *)
Definition prefixes (p : path) : list path := (λ n, take n p) <$> seq 0 (S (length p)).

(** [Path(p).mkdir(parents=True, exist_ok=True)] *)
Definition fs_mkdir (p : path) : M FS unit := λ fs,
  if existsb (λ q, bool_decide (q ∉ fs_dirs fs ∧ is_Some (fs_files fs !! q))) (prefixes p)
  then (Raise FileExistsError, fs)
  else (Ok tt, mkFS (list_to_set (prefixes p) ∪ fs_dirs fs) (fs_files fs)).

(** ** Checkpoints as JSON *)

Definition IllTyped : exn := mkExn "IllTyped" "a value of another type".
Definition ValueError (s : string) : exn := mkExn "ValueError" s.

Definition as_str (v : pyval) : outcome string :=
  match v with VStr s => Ok s | _ => Raise IllTyped end.
Definition as_int (v : pyval) : outcome Z :=
  match v with VInt z => Ok z | _ => Raise IllTyped end.
Definition as_opt_str (v : pyval) : outcome (option string) :=
  match v with VStr s => Ok (Some s) | VNone => Ok None | _ => Raise IllTyped end.
Definition as_list (v : pyval) : outcome (list pyval) :=
  match v with VList l => Ok l | _ => Raise IllTyped end.
Definition as_dict (v : pyval) : outcome (dict pyval) :=
  match v with VDict d => Ok d | _ => Raise IllTyped end.

(** [[f(v) for v in l]] *)
Fixpoint map_outcome {A B} (f : A → outcome B) (l : list A) : outcome (list B) :=
  match l with
  | [] => Ok []
  | x :: l' => y ← f x; ys ← map_outcome f l'; mret (y :: ys)
  end.

(** [CheckpointTrigger(s)] *)
Definition CheckpointTrigger_of (s : string) : outcome CheckpointTrigger :=
  match list_find (λ t, CheckpointTrigger_value t = s)
          [CT_STEP_COMPLETE; CT_BEFORE_TOOL_CALL; CT_AFTER_TOOL_CALL; CT_ERROR_RECOVERY;
           CT_PAUSE_REQUEST; CT_BEFORE_IRREVERSIBLE] with
  | Some (_, t) => Ok t
  | None => Raise (ValueError (str_repr s +:+ " is not a valid CheckpointTrigger"))
  end.

Definition _checkpoint_to_dict (cp : Checkpoint) : dict pyval :=
  [ ("checkpoint_id", VStr (ck_checkpoint_id cp));
    ("execution_id", VStr (ck_execution_id cp));
    ("version", VInt (ck_version cp));
    ("trigger_reason", VStr (CheckpointTrigger_value (ck_trigger_reason cp)));
    ("checkpoint_hash", VStr (ck_checkpoint_hash cp));
    ("schema_version", VStr (ck_schema_version cp));
    ("parent_checkpoint_id", VOptStr (ck_parent_checkpoint_id cp));
    ("agent_state_ref", VOptStr (ck_agent_state_ref cp));
    ("memory_refs", VList (map VStr (ck_memory_refs cp)));
    ("tool_history", VList (map VDict (ck_tool_history cp)));
    ("created_at", VOptStr (datetime_isoformat <$> ck_created_at cp)) ].

(** [data[key]] *)
Definition dict_item (key : string) (d : dict pyval) : outcome pyval :=
  match dict_get key d with Some v => Ok v | None => Raise (KeyError key) end.

Definition read_created_at (d : dict pyval) : outcome (option datetime) :=
  s ← as_opt_str (dict_get_or VNone "created_at" d);
  match s with
  | Some s =>
      if truthy s then
        match fromisoformat s with
        | Some a => mret (Some a)
        | None => Raise (ValueError ("Invalid isoformat string: " +:+ str_repr s))
        end
      else mret None
  | None => mret None
  end.

Definition _dict_to_checkpoint (d : dict pyval) : outcome Checkpoint :=
  created_at ← read_created_at d;
  checkpoint_id ← dict_item "checkpoint_id" d ≫= as_str;
  execution_id ← dict_item "execution_id" d ≫= as_str;
  version ← dict_item "version" d ≫= as_int;
  reason ← dict_item "trigger_reason" d ≫= as_str;
  trigger ← CheckpointTrigger_of reason;
  hash ← dict_item "checkpoint_hash" d ≫= as_str;
  schema ← as_str (dict_get_or (VStr "1.0") "schema_version" d);
  parent ← as_opt_str (dict_get_or VNone "parent_checkpoint_id" d);
  state ← as_opt_str (dict_get_or VNone "agent_state_ref" d);
  memory ← as_list (dict_get_or (VList []) "memory_refs" d) ≫= map_outcome as_str;
  tools ← as_list (dict_get_or (VList []) "tool_history" d) ≫= map_outcome as_dict;
  mret (mkCheckpoint checkpoint_id execution_id version trigger hash schema parent state
          memory tools created_at).

(** ** The repository *)

Section Repository.
Variable float_repr : Q → string.
(** [self._base] *)
Variable base : path.

Definition _checkpoints_dir : path := base ++ ["checkpoints"].
Definition _index_path : path := base ++ ["index.json"].
Definition _checkpoint_path (checkpoint_id : string) : path :=
  path_join _checkpoints_dir (checkpoint_id +:+ ".json").

(** [p.with_suffix(".tmp")] of a name that ends in [.json]; a name that is
    nothing else has no suffix to replace. *)
Definition tmp_name (name : string) : string :=
  let stem := str_take (str_len name - 5) name in
  (if truthy stem then stem else name) +:+ ".tmp".
Definition with_tmp (p : path) : path :=
  match last p with Some name => removelast p ++ [tmp_name name] | None => p end.

(** [__init__] *)
Definition FileSystemCheckpointRepository_new : M FS unit := fs_mkdir _checkpoints_dir.

(** The index: any dictionary; an entry is looked at when it is used. *)
Definition _load_index (fs : FS) : outcome (dict pyval) :=
  if negb (fs_exists fs _index_path) then Ok []
  else match fs_read fs _index_path with
       | Raise _ => Ok []
       | Ok text =>
           match json_loads text with
           | None => Ok []
           | Some v => as_dict v
           end
       end.

Definition _save_index (index : dict pyval) : M FS unit :=
  fs_write (with_tmp _index_path) (json_dumps float_repr (VDict index)) ;;
  fs_replace (with_tmp _index_path) _index_path.

Definition fs_index_add (exec_id checkpoint_id : string) (index : dict pyval)
    : outcome (dict pyval) :=
  ids ← as_list (dict_get_or (VList []) exec_id index);
  mret (dict_set exec_id
          (VList (if decide (VStr checkpoint_id ∈ ids) then ids else ids ++ [VStr checkpoint_id]))
          index).

Definition fsc_save (c : Checkpoint) : M FS Checkpoint :=
  let dest := _checkpoint_path (ck_checkpoint_id c) in
  fs_write (with_tmp dest) (json_dumps float_repr (VDict (_checkpoint_to_dict c))) ;;
  fs_replace (with_tmp dest) dest ;;
  loaded ← read _load_index;
  index ← of_outcome loaded;
  index ← of_outcome (fs_index_add (ck_execution_id c) (ck_checkpoint_id c) index);
  _save_index index ;;
  mret c.

(** [except (json.JSONDecodeError, OSError, KeyError): return None] *)
Definition fsc_get (fs : FS) (checkpoint_id : string) : outcome (option Checkpoint) :=
  let p := _checkpoint_path checkpoint_id in
  if negb (fs_exists fs p) then Ok None
  else match fs_read fs p with
       | Raise _ => Ok None
       | Ok text =>
           match json_loads text with
           | None => Ok None
           | Some v =>
               match as_dict v ≫= _dict_to_checkpoint with
               | Ok c => Ok (Some c)
               | Raise e => if decide (exn_class e = "KeyError") then Ok None else Raise e
               end
           end
       end.

(** The checkpoints of the listed identifiers that can be read. *)
Fixpoint get_all (fs : FS) (ids : list pyval) : outcome (list Checkpoint) :=
  match ids with
  | [] => Ok []
  | i :: ids' =>
      i ← as_str i;
      c ← fsc_get fs i;
      cs ← get_all fs ids';
      mret (match c with Some c => c :: cs | None => cs end)
  end.

Definition fsc_list_by_execution (fs : FS) (execution_id : string) : outcome (list Checkpoint) :=
  index ← _load_index fs;
  ids ← as_list (dict_get_or (VList []) execution_id index);
  checkpoints ← get_all fs ids;
  mret (py_sorted ck_leb checkpoints).

Definition fsc_get_latest (fs : FS) (execution_id : string) : outcome (option Checkpoint) :=
  checkpoints ← fsc_list_by_execution fs execution_id;
  mret (max_version checkpoints).

(** The repository behind the adapter. *)
#[export] Instance file_store : CheckpointStore FS := {
  store_save := fsc_save;
  store_get i := λ fs, (fsc_get fs i, fs)
}.
End Repository.

(** Two checkpoints, listed by version. A checkpoint whose identifier names the
    index file overwrites it: the other executions lose their listing. *)
Example demo_file_store :
  let fs0 := (FileSystemCheckpointRepository_new ["data"] (mkFS ∅ ∅)).2 in
  let c v i := mkCheckpoint i "e" v CT_STEP_COMPLETE "h" "1.0" None None [] [] (Some (Aware 5)) in
  let fs1 := (fsc_save (λ _, "0.0") ["data"] (c 2%Z "b") fs0).2 in
  let fs2 := (fsc_save (λ _, "0.0") ["data"] (c 1%Z "a") fs1).2 in
  fsc_list_by_execution ["data"] fs2 "e" = Ok [c 1%Z "a"; c 2%Z "b"]
  ∧ fsc_get ["data"] fs2 "a" = Ok (Some (c 1%Z "a"))
  ∧ fsc_list_by_execution ["data"]
      (fsc_save (λ _, "0.0") ["data"] (mkCheckpoint "../index" "f" 1 CT_STEP_COMPLETE "h" "1.0"
         None None [] [] None) fs2).2 "e" = Ok [].
Proof. vm_compute. done. Qed.
