(* ===== verification/FileStoreProps.v ===== *)
(** * Theorems about the file-system repository

    What its files mean ([holds]), that a save is four entries of a directory
    written one after the other, that the repository behaves as the in-memory
    one, and that a process that dies in the middle of a save leaves every
    answer as it was before the save or as it is after it. *)
From S2P Require Import Prelude PyStr PyDict PyVal Storage Json DateTime Persistence FileStore.
From Stdlib Require Import Ascii.

From stdpp Require Import sorting.

Implicit Types x i : string.

(** ** Sorting *)

Lemma py_sorted_map {A} (leb : A → A → bool) (f : A → A) l :
  (∀ a b, leb (f a) (f b) = leb a b) → py_sorted leb (map f l) = map f (py_sorted leb l).
Proof.
  intros Hf. assert (∀ a l, sort_insert leb (f a) (map f l) = map f (sort_insert leb a l)) as Hi.
  { intros a k. induction k as [|b k IH]; [done|]. cbn [map sort_insert]. rewrite Hf.
    case_match; [done|]. cbn [map]. by rewrite IH. }
  induction l as [|a l IH]; [done|]. change (py_sorted leb (map f (a :: l)))
    with (sort_insert leb (f a) (py_sorted leb (map f l))). by rewrite IH, Hi.
Qed.

(** Lists with the same elements are sorted the same way when the order tells
    their elements apart. *)
Lemma py_sorted_unique {A} (leb : A → A → bool) l k :
  (∀ a b, leb a b = true ∨ leb b a = true) →
  (∀ a b c, leb a b = true → leb b c = true → leb a c = true) →
  (∀ a b, a ∈ l → b ∈ l → leb a b = true → leb b a = true → a = b) →
  l ≡ₚ k → py_sorted leb l = py_sorted leb k.
Proof.
  intros Htot Htr Hanti Hp. set (R a b := leb a b = true).
  assert (Transitive R) by (intros a b c; apply Htr).
  apply (Sorted_unique_strong R).
  - intros a b Ha Hb. rewrite py_sorted_perm in Ha. rewrite py_sorted_perm, <- Hp in Hb.
    by apply Hanti.
  - by apply py_sorted_sorted.
  - by apply py_sorted_sorted.
  - by rewrite !py_sorted_perm.
Qed.

(** ** Values that survive *)

(** A name that is a name of a file, and a checkpoint JSON can carry. *)
Definition plain i : bool := negb (str_contains "/" i) && negb (has_nul i).
Definition storable (c : Checkpoint) : Prop :=
  plain (ck_checkpoint_id c) = true
  ∧ json_exact (VDict (_checkpoint_to_dict c)) = true
  ∧ match ck_created_at c with Some a => in_calendar (datetime_micros a) | None => True end.

Definition sort_keys (d : dict pyval) : dict pyval :=
  py_sorted item_leb (map (λ kv, (fst kv, key_sorted (snd kv))) d).

(** What is read back: equal as a Python value, the items of the recorded
    dictionaries being in key order. *)
Definition read_back (c : Checkpoint) : Checkpoint :=
  mkCheckpoint (ck_checkpoint_id c) (ck_execution_id c) (ck_version c) (ck_trigger_reason c)
    (ck_checkpoint_hash c) (ck_schema_version c) (ck_parent_checkpoint_id c)
    (ck_agent_state_ref c) (ck_memory_refs c) (map sort_keys (ck_tool_history c))
    (ck_created_at c).

Lemma map_outcome_str l : map_outcome as_str (map key_sorted (map VStr l)) = Ok l.
Proof. induction l as [|s l IH]; [done|]. cbn [map map_outcome]. by rewrite IH. Qed.

Lemma map_outcome_dict l : map_outcome as_dict (map key_sorted (map VDict l)) = Ok (map sort_keys l).
Proof. induction l as [|d l IH]; [done|]. cbn [map map_outcome key_sorted]. by rewrite IH. Qed.

Lemma CheckpointTrigger_round t : CheckpointTrigger_of (CheckpointTrigger_value t) = Ok t.
Proof. by destruct t. Qed.

Lemma as_opt_str_opt o : as_opt_str (key_sorted (VOptStr o)) = Ok o.
Proof. by destruct o. Qed.

Lemma isoformat_truthy a : truthy (datetime_isoformat a) = true.
Proof.
  apply truthy_true. intros H. assert (fromisoformat (datetime_isoformat a) = None) as Hn
    by (by rewrite H).
  destruct a as [t|t]; simpl in H; [|unfold isoformat in H];
    unfold isoformat_naive in H; destruct (civil_of_days _) as [[y m] d];
    apply (f_equal str_len) in H; rewrite !str_len_app in H; cbn in H; lia.
Qed.

Lemma checkpoint_read c : storable c →
  _dict_to_checkpoint (sort_keys (_checkpoint_to_dict c)) = Ok (read_back c).
Proof.
  intros (Hp & Hj & Ht).
  assert (∀ k, dict_get k (sort_keys (_checkpoint_to_dict c))
               = key_sorted <$> dict_get k (_checkpoint_to_dict c)) as Hget.
  { intros k. apply key_sorted_get. apply (bool_decide_unpack _). vm_compute. done. }
  unfold _dict_to_checkpoint, read_created_at, dict_item, dict_get_or. rewrite !Hget.
  set (d := _checkpoint_to_dict c).
  change (dict_get "created_at" d) with (Some (VOptStr (datetime_isoformat <$> ck_created_at c))).
  change (dict_get "checkpoint_id" d) with (Some (VStr (ck_checkpoint_id c))).
  change (dict_get "execution_id" d) with (Some (VStr (ck_execution_id c))).
  change (dict_get "version" d) with (Some (VInt (ck_version c))).
  change (dict_get "trigger_reason" d)
    with (Some (VStr (CheckpointTrigger_value (ck_trigger_reason c)))).
  change (dict_get "checkpoint_hash" d) with (Some (VStr (ck_checkpoint_hash c))).
  change (dict_get "schema_version" d) with (Some (VStr (ck_schema_version c))).
  change (dict_get "parent_checkpoint_id" d) with (Some (VOptStr (ck_parent_checkpoint_id c))).
  change (dict_get "agent_state_ref" d) with (Some (VOptStr (ck_agent_state_ref c))).
  change (dict_get "memory_refs" d) with (Some (VList (map VStr (ck_memory_refs c)))).
  change (dict_get "tool_history" d) with (Some (VList (map VDict (ck_tool_history c)))).
  unfold mbind, mret, outcome_bind, outcome_ret.
  cbn [fmap option_fmap option_map default from_option].
  unfold id. rewrite !as_opt_str_opt. cbn [key_sorted as_str as_int as_list].
  rewrite CheckpointTrigger_round, map_outcome_str, map_outcome_dict.
  unfold read_back. destruct (ck_created_at c) as [a|]; cbn [fmap option_fmap option_map]; [|done].
  by rewrite isoformat_truthy, fromisoformat_isoformat.
Qed.

(** ** Names *)

Lemma split_plain s : str_contains "/" s = false → str_split "/" s = [s].
Proof.
  induction s as [|c s IH]; [done|]. cbn [str_contains str_startswith str_split].
  rewrite andb_true_r. intros [Hc Hs]%orb_false_iff. rewrite IH by done.
  apply bool_decide_eq_false in Hc. by rewrite decide_False by congruence.
Qed.

Lemma contains_char_app c s t :
  str_contains (String c ε) (s +:+ t) = str_contains (String c ε) s || str_contains (String c ε) t.
Proof.
  induction s as [|d s IH]; [done|].
  cbn [String.append str_contains str_startswith]. by rewrite IH, orb_assoc.
Qed.

(** The last character tells the two kinds of names apart. *)
Fixpoint str_last (s : string) : option ascii :=
  match s with ε => None | String c ε => Some c | String _ s' => str_last s' end.

Lemma str_last_app s c t : str_last (s +:+ String c t) = str_last (String c t).
Proof. induction s as [|d s IH]; [done|]. destruct s; [done|exact IH]. Qed.

Lemma json_tmp_ne s t : s +:+ ".json" ≠ t +:+ ".tmp".
Proof. intros H. apply (f_equal str_last) in H. rewrite !str_last_app in H. done. Qed.

Lemma str_app_inj_r s t u : s +:+ u = t +:+ u → s = t.
Proof.
  intros H. assert (str_len s = str_len t) as Hl
    by (apply (f_equal str_len) in H; rewrite !str_len_app in H; lia).
  revert t H Hl. induction s as [|c s IH]; intros [|d t] H Hl; try done.
  cbn [String.append] in H. injection H as -> H. f_equal. apply IH; [done|].
  unfold str_len in *. simpl in Hl. lia.
Qed.

Section Files.
Variable float_repr : Q → string.
Variable base : path.
Context (base_normal : Forall (λ c, c ≠ ".." ∧ has_nul c = false) base).
Implicit Types (fs : FS) (c : Checkpoint).

Let dir := base ++ ["checkpoints"].
Definition ck_file i : path := base ++ ["checkpoints"; i +:+ ".json"].
Definition ck_tmp i : path := base ++ ["checkpoints"; tmp_name (i +:+ ".json")].
Definition index_file : path := base ++ ["index.json"].
Definition index_tmp : path := base ++ ["index.tmp"].

Lemma tmp_name_json i :
  tmp_name (i +:+ ".json") = (if truthy i then i else ".json") +:+ ".tmp".
Proof.
  unfold tmp_name. rewrite str_len_app. change (str_len ".json") with 5%nat.
  rewrite Nat.add_sub, str_take_app. by destruct (truthy i) eqn:H;
    [|apply truthy_false in H as ->].
Qed.

Lemma path_plain i : plain i = true → _checkpoint_path base i = ck_file i.
Proof.
  intros [H _]%andb_true_iff. apply negb_true_iff in H.
  unfold _checkpoint_path, path_join, path_parts, ck_file, _checkpoints_dir.
  assert (str_contains "/" (i +:+ ".json") = false) as Hs by by rewrite contains_char_app, H.
  assert (str_startswith "/" (i +:+ ".json") = false) as ->.
  { destruct (i +:+ ".json") as [|a s]; [done|]. cbn [str_contains] in Hs.
    by apply orb_false_iff in Hs as [-> _]. }
  rewrite split_plain by done. rewrite <- app_assoc. do 2 f_equal. simpl.
  rewrite filter_cons, decide_True; [done|].
  split; intros Heq; apply (f_equal str_len) in Heq; rewrite str_len_app in Heq;
    unfold str_len in Heq; simpl in Heq; lia.
Qed.

Lemma last_app_two (p : path) a b : removelast (p ++ [a; b]) = p ++ [a] ∧ last (p ++ [a; b]) = Some b.
Proof.
  change (p ++ [a; b]) with (p ++ [a] ++ [b]). rewrite app_assoc, removelast_last, last_snoc. done.
Qed.

Lemma with_tmp_ck i : with_tmp (ck_file i) = ck_tmp i.
Proof.
  unfold with_tmp, ck_file, ck_tmp.
  destruct (last_app_two base "checkpoints" (i +:+ ".json")) as [-> ->].
  by rewrite <- app_assoc.
Qed.

Lemma with_tmp_index : with_tmp (_index_path base) = index_tmp.
Proof.
  unfold with_tmp, _index_path, index_tmp. by rewrite removelast_last, last_snoc.
Qed.

(** The files are pairwise different. *)
Lemma ck_file_inj i j : ck_file i = ck_file j → i = j.
Proof. unfold ck_file. intros [=H]%app_inv_head. by apply str_app_inj_r in H. Qed.

Lemma ck_file_tmp i j : ck_file i ≠ ck_tmp j.
Proof.
  unfold ck_file, ck_tmp. rewrite tmp_name_json. intros [=H]%app_inv_head. by apply json_tmp_ne in H.
Qed.

Lemma ck_index i : ck_file i ≠ index_file ∧ ck_file i ≠ index_tmp ∧ ck_tmp i ≠ index_file
  ∧ ck_tmp i ≠ index_tmp.
Proof.
  unfold ck_file, ck_tmp, index_file, index_tmp.
  split_and!; intros H%app_inv_head; discriminate H.
Qed.

Lemma index_ne : index_file ≠ index_tmp.
Proof. unfold index_file, index_tmp. intros H%app_inv_head. discriminate H. Qed.

(** ** Paths of the repository lead where they say *)

(** The files of a repository, and where they are. *)
Inductive repo_file : path → Prop :=
| rf_ck i : plain i = true → repo_file (ck_file i)
| rf_ck_tmp i : plain i = true → repo_file (ck_tmp i)
| rf_index : repo_file index_file
| rf_index_tmp : repo_file index_tmp.

Record fs_ok fs : Prop := {
  ok_dirs : ∀ q, q ∈ prefixes dir → q ∈ fs_dirs fs;
  ok_files : ∀ q, repo_file q → q ∉ fs_dirs fs
}.

Lemma walk_normal fs cur p :
  Forall (λ w, w ≠ "..") p → (∀ n, (n < length p)%nat → cur ++ take n p ∈ fs_dirs fs) →
  walk fs cur p = Some (cur ++ p).
Proof.
  revert cur. induction p as [|w p IH]; intros cur Hn Hd; [by rewrite app_nil_r|].
  cbn [walk]. apply Forall_cons in Hn as [Hc Hn].
  pose proof (Hd 0%nat ltac:(simpl; lia)) as H0. rewrite take_0, app_nil_r in H0.
  rewrite decide_True by done. unfold enter. rewrite decide_False by done.
  rewrite IH; [by rewrite <- app_assoc|done|]. intros n Hlt.
  specialize (Hd (S n) ltac:(simpl; lia)). by rewrite <- app_assoc.
Qed.

Lemma prefixes_take p n : (n ≤ length p)%nat → take n p ∈ prefixes p.
Proof.
  intros Hn. unfold prefixes. apply list_elem_of_fmap. exists n. split; [done|].
  apply elem_of_seq. lia.
Qed.

Lemma repo_file_shape q : repo_file q → ∃ d w, q = d ++ [w] ∧ (d = base ∨ d = dir)
  ∧ w ≠ ".." ∧ has_nul w = false.
Proof.
  intros [i Hi|i Hi| |].
  - exists dir, (i +:+ ".json"). unfold dir, ck_file. rewrite <- app_assoc. split_and!; [done|by right| |].
    + intros H. apply (f_equal str_len) in H. rewrite str_len_app in H. unfold str_len in H. simpl in H. lia.
    + apply andb_true_iff in Hi as [_ H%negb_true_iff]. unfold has_nul in *. by rewrite contains_char_app, H.
  - exists dir, (tmp_name (i +:+ ".json")). unfold dir, ck_tmp. rewrite <- app_assoc.
    split_and!; [done|by right| |]; rewrite tmp_name_json.
    + intros H. apply (f_equal str_len) in H. rewrite str_len_app in H. unfold str_len in H. simpl in H. lia.
    + apply andb_true_iff in Hi as [_ H%negb_true_iff]. unfold has_nul in *. rewrite contains_char_app.
      destruct (truthy i); [by rewrite H|done].
  - exists base, "index.json". by split_and!; [|left|..].
  - exists base, "index.tmp". by split_and!; [|left|..].
Qed.

Lemma repo_file_resolve fs q : fs_ok fs → repo_file q →
  resolve fs q = Some q ∧ existsb has_nul q = false.
Proof using base_normal.
  intros [Hd _] Hq. destruct (repo_file_shape q Hq) as (d & w & -> & Hdir & Hc & Hnul).
  assert (Forall (λ w, w ≠ ".." ∧ has_nul w = false) d) as Hn.
  { destruct Hdir as [->| ->]; [done|]. apply Forall_app. split; [done|].
    constructor; [by split|done]. }
  split.
  - unfold resolve. rewrite walk_normal; [done| |].
    + apply Forall_app. split; [|by constructor]. eapply Forall_impl; [exact Hn|]. by intros ? [].
    + intros n Hlt. apply Hd. rewrite length_app in Hlt. simpl in *.
      rewrite take_app_le by lia. destruct Hdir as [->| ->].
      * replace (take n base) with (take n dir) by (unfold dir; by rewrite take_app_le by lia).
        apply prefixes_take. unfold dir. rewrite length_app. lia.
      * apply prefixes_take. lia.
  - apply not_true_is_false. intros He. apply existsb_exists in He as (e & Hin & He).
    apply list_elem_of_In in Hin. rewrite elem_of_app, list_elem_of_singleton in Hin.
    destruct Hin as [Hin| ->]; [|congruence].
    rewrite Forall_forall in Hn. destruct (Hn _ Hin) as [_ ?]. congruence.
Qed.

(** Reading, writing and replacing files of the repository. *)
Lemma repo_read fs q : fs_ok fs → repo_file q →
  fs_read fs q = match fs_files fs !! q with Some s => Ok s | None => Raise FileNotFoundError end.
Proof using base_normal.
  intros Hok Hq. unfold fs_read. rewrite (proj1 (repo_file_resolve fs q Hok Hq)).
  rewrite decide_False; [done|]. by apply Hok.
Qed.

Lemma repo_exists fs q : fs_ok fs → repo_file q →
  fs_exists fs q = bool_decide (is_Some (fs_files fs !! q)).
Proof using base_normal.
  intros Hok Hq. unfold fs_exists. rewrite (proj1 (repo_file_resolve fs q Hok Hq)).
  rewrite (bool_decide_eq_false_2 (q ∈ fs_dirs fs)); [done|]. by apply Hok.
Qed.

Lemma repo_write fs q s : fs_ok fs → repo_file q →
  fs_write q s fs = (Ok tt, run_op (OpWrite q s) fs).
Proof using base_normal.
  intros Hok Hq. unfold fs_write. destruct (repo_file_resolve fs q Hok Hq) as [-> ->].
  rewrite decide_False; [done|]. by apply Hok.
Qed.

Lemma repo_replace fs p q : fs_ok fs → repo_file p → repo_file q → is_Some (fs_files fs !! p) →
  fs_replace p q fs = (Ok tt, run_op (OpReplace p q) fs).
Proof using base_normal.
  intros Hok Hp Hq [s Hs]. unfold fs_replace.
  rewrite (proj1 (repo_file_resolve fs p Hok Hp)), (proj1 (repo_file_resolve fs q Hok Hq)), Hs.
  rewrite decide_False; [done|]. by apply Hok.
Qed.

Lemma run_op_ok op fs : fs_ok fs → fs_ok (run_op op fs).
Proof. intros [Hd Hf]. destruct op as [p s|p q]; simpl; [by split|]. by case_match. Qed.

(** ** What the files mean

    [S] are the checkpoints with their files, [I] the identifiers listed for
    each execution. After a crash a checkpoint may have its file and not be
    listed yet; [complete] says that none is in that case. *)
Definition ck_text c : string := json_dumps float_repr (VDict (_checkpoint_to_dict c)).
Definition listed (I : gmap string (list string)) x : list string := default [] (I !! x).
Definition id_list (l : list string) : pyval := VList (map VStr l).

Record holds (S : gmap string Checkpoint) (I : gmap string (list string)) fs : Prop := {
  h_ok : fs_ok fs;
  h_files : ∀ i, plain i = true → fs_files fs !! ck_file i = ck_text <$> S !! i;
  h_index : match fs_files fs !! index_file with
            | None => I = ∅
            | Some t => ∃ d, t = json_dumps float_repr (VDict d) ∧ json_exact (VDict d) = true
                ∧ ∀ x, dict_get x d = id_list <$> I !! x
            end;
  h_store : ∀ i c, S !! i = Some c → ck_checkpoint_id c = i ∧ storable c;
  h_listed : ∀ x i, i ∈ listed I x → ∃ c, S !! i = Some c ∧ ck_execution_id c = x;
  h_nodup : ∀ x, NoDup (listed I x)
}.

Definition complete (S : gmap string Checkpoint) (I : gmap string (list string)) : Prop :=
  ∀ i c, S !! i = Some c → i ∈ listed I (ck_execution_id c).

Lemma holds_get S I fs i : holds S I fs → plain i = true →
  fsc_get base fs i = Ok (read_back <$> S !! i).
Proof using base_normal.
  intros H Hp. unfold fsc_get. rewrite path_plain by done.
  assert (repo_file (ck_file i)) as Hf by by constructor.
  rewrite repo_exists, repo_read, (h_files _ _ _ H) by (done || apply H).
  destruct (S !! i) as [c|] eqn:Hc; [|done]. cbn [fmap option_fmap option_map].
  destruct (h_store _ _ _ H _ _ Hc) as [_ Hs].
  rewrite bool_decide_eq_true_2 by done. cbn [negb].
  unfold ck_text. rewrite json_round_trip by apply Hs. cbn [key_sorted as_dict].
  change (py_sorted item_leb _) with (sort_keys (_checkpoint_to_dict c)).
  cbn [mbind outcome_bind]. by rewrite checkpoint_read.
Qed.

Lemma as_list_sorted l : key_sorted (id_list l) = id_list l.
Proof.
  assert (map key_sorted (map VStr l) = map VStr l) as H
    by (induction l as [|s l IH]; [done|]; cbn [map key_sorted]; by rewrite IH).
  unfold id_list. cbn [key_sorted]. by rewrite H.
Qed.

(** The index in memory: the same entries. *)
Definition index_is (I : gmap string (list string)) (d : dict pyval) : Prop :=
  json_exact (VDict d) = true ∧ ∀ x, dict_get x d = id_list <$> I !! x.

Lemma holds_index S I fs : holds S I fs →
  ∃ d, _load_index base fs = Ok d ∧ index_is I d.
Proof using base_normal.
  intros H. unfold _load_index. change (_index_path base) with index_file.
  assert (repo_file index_file) as Hf by constructor.
  rewrite repo_exists, repo_read by (done || apply H).
  pose proof (h_index _ _ _ H) as Hi.
  destruct (fs_files fs !! index_file) as [t|].
  - destruct Hi as (d & -> & Hj & Hd). rewrite bool_decide_eq_true_2 by done. cbn [negb].
    rewrite json_round_trip by done. cbn [key_sorted as_dict].
    eexists. split; [done|]. split; [exact (key_sorted_exact (VDict d) Hj)|].
    intros x. rewrite key_sorted_get.
    + rewrite Hd. destruct (I !! x) as [l|]; [|done]. cbn [fmap option_fmap option_map].
      by rewrite as_list_sorted.
    + cbn [json_exact] in Hj. apply andb_true_iff in Hj as [_ ?%bool_decide_eq_true]. done.
  - subst I. rewrite bool_decide_eq_false_2 by by intros [? ?]. exists [].
    split; [done|]. split; [done|]. intros x. by rewrite lookup_empty.
Qed.

Lemma holds_list S I fs x : holds S I fs →
  fsc_list_by_execution base fs x
  = Ok (py_sorted ck_leb (omap (λ i, read_back <$> S !! i) (listed I x))).
Proof using base_normal.
  intros H. unfold fsc_list_by_execution.
  destruct (holds_index S I fs H) as (d & -> & _ & Hd). cbn [mbind outcome_bind].
  unfold dict_get_or. rewrite Hd.
  assert (as_list (default (VList []) (id_list <$> I !! x)) = Ok (map VStr (listed I x))) as ->
    by (unfold listed; by destruct (I !! x)).
  cbn [mbind outcome_bind].
  assert (∀ l, (∀ i, i ∈ l → i ∈ listed I x) →
    get_all base fs (map VStr l) = Ok (omap (λ i, read_back <$> S !! i) l)) as Hall.
  { induction l as [|i l IH]; intros Hl; [done|]. cbn [map get_all as_str mbind outcome_bind].
    destruct (h_listed _ _ _ H x i (Hl i ltac:(left))) as (c & Hc & _).
    destruct (h_store _ _ _ H _ _ Hc) as [Hid Hs].
    rewrite (holds_get S I) by (done || rewrite <- Hid; apply Hs). cbn [mbind outcome_bind].
    rewrite IH by (intros j Hj; apply Hl; by right). cbn [omap list_omap]. by rewrite Hc. }
  by rewrite Hall.
Qed.

(** ** What a save writes *)

Definition index_put (I : gmap string (list string)) x i : gmap string (list string) :=
  <[x := if decide (i ∈ listed I x) then listed I x else listed I x ++ [i]]> I.

Lemma listed_put I x i y :
  listed (index_put I x i) y
  = if decide (y = x) then if decide (i ∈ listed I x) then listed I x else listed I x ++ [i]
    else listed I y.
Proof.
  unfold listed, index_put. destruct (decide (y = x)) as [->|Hy].
  - by rewrite lookup_insert_eq.
  - by rewrite lookup_insert_ne.
Qed.

Lemma json_exact_set k v (d : dict pyval) :
  json_exact (VDict d) = true → is_ascii k = true → json_exact v = true →
  json_exact (VDict (dict_set k v d)) = true.
Proof.
  cbn [json_exact]. rewrite !andb_true_iff, !bool_decide_eq_true.
  intros [Hf Hn] Hk Hv. split; [|by apply dict_wf_set].
  clear Hn. induction d as [|[k' v'] d IH]; [cbn; by rewrite Hk, Hv|].
  cbn [forallb fst snd] in Hf. apply andb_true_iff in Hf as [H1 H2]. cbn [dict_set].
  case_decide as Hd; cbn [forallb fst snd].
  - subst. by rewrite Hk, Hv, H2.
  - by rewrite H1, IH.
Qed.

Lemma json_exact_ids l : json_exact (id_list l) = forallb is_ascii l.
Proof.
  unfold id_list. cbn [json_exact]. induction l as [|s l IH]; [done|].
  cbn [map forallb]. by rewrite IH.
Qed.

Lemma index_is_ascii I d x : index_is I d → forallb is_ascii (listed I x) = true.
Proof.
  intros [Hj Hd]. unfold listed. destruct (I !! x) as [l|] eqn:Hl; [|done]. cbn.
  specialize (Hd x). rewrite Hl in Hd. apply dict_get_elem in Hd.
  cbn [json_exact] in Hj. apply andb_true_iff in Hj as [Hj _].
  rewrite forallb_forall in Hj. apply list_elem_of_In, Hj in Hd. cbn in Hd.
  apply andb_true_iff in Hd as [_ Hd]. by rewrite <- json_exact_ids.
Qed.

Lemma fs_index_add_spec I d x i : index_is I d → is_ascii x = true → is_ascii i = true →
  ∃ d', fs_index_add x i d = Ok d' ∧ index_is (index_put I x i) d'.
Proof.
  intros HI Hx Hi. pose proof (index_is_ascii I d x HI) as Hl. destruct HI as [Hj Hd].
  unfold fs_index_add, dict_get_or. rewrite Hd.
  assert (as_list (default (VList []) (id_list <$> I !! x)) = Ok (map VStr (listed I x))) as ->
    by (unfold listed; by destruct (I !! x)).
  cbn [mbind outcome_bind].
  assert ((if decide (VStr i ∈ map VStr (listed I x)) then map VStr (listed I x)
           else map VStr (listed I x) ++ [VStr i])
    = map VStr (if decide (i ∈ listed I x) then listed I x else listed I x ++ [i])) as ->.
  { assert (VStr i ∈ map VStr (listed I x) ↔ i ∈ listed I x) as Hin.
    { rewrite !list_elem_of_In, in_map_iff. split; [|eauto]. by intros (j & [=->] & Hj'). }
    destruct (decide (i ∈ listed I x)) as [H|H].
    - rewrite decide_True by by apply Hin. done.
    - rewrite decide_False by by rewrite Hin. by rewrite map_app. }
  eexists. split; [reflexivity|]. split.
  - apply json_exact_set; [done..|]. fold (id_list (if decide (i ∈ listed I x) then listed I x
      else listed I x ++ [i])). rewrite json_exact_ids.
    case_decide; [done|]. rewrite forallb_app, Hl. cbn [forallb andb]. by rewrite Hi.
  - intros y. rewrite dict_get_set. unfold index_put. case_decide as Hy; subst.
    + by rewrite lookup_insert_eq.
    + rewrite lookup_insert_ne by done. apply Hd.
Qed.

(** A write to a file that is not read changes no meaning. *)
Lemma holds_tmp S I fs p s : holds S I fs → (∀ i, p ≠ ck_file i) → p ≠ index_file →
  holds S I (run_op (OpWrite p s) fs).
Proof.
  intros H Hck Hix. split; try apply H.
  - apply run_op_ok, H.
  - intros i Hi. cbn. rewrite lookup_insert_ne by done. by apply H.
  - cbn. rewrite lookup_insert_ne by done. apply H.
Qed.

(** The checkpoint's file appears, or changes, in one step. *)
Lemma holds_publish S I fs c :
  holds S I fs → storable c → fs_files fs !! ck_tmp (ck_checkpoint_id c) = Some (ck_text c) →
  (∀ old, S !! ck_checkpoint_id c = Some old → ck_execution_id old = ck_execution_id c) →
  holds (<[ck_checkpoint_id c := c]> S) I
    (run_op (OpReplace (ck_tmp (ck_checkpoint_id c)) (ck_file (ck_checkpoint_id c))) fs).
Proof.
  intros H Hc Ht Hown. destruct (ck_index (ck_checkpoint_id c)) as (N1 & N2 & N3 & N4).
  cbn [run_op]. rewrite Ht. split; cbn.
  - by destruct (h_ok _ _ _ H).
  - intros i Hi. destruct (decide (i = ck_checkpoint_id c)) as [->|Hne].
    + by rewrite !lookup_insert_eq.
    + rewrite !lookup_insert_ne by (done || by intros ?%ck_file_inj).
      rewrite lookup_delete_ne by (intros Heq; by apply (ck_file_tmp i (ck_checkpoint_id c))).
      by apply H.
  - rewrite lookup_insert_ne, lookup_delete_ne by done. apply H.
  - intros i d. destruct (decide (i = ck_checkpoint_id c)) as [->|Hne].
    + rewrite lookup_insert_eq. by intros [= <-].
    + rewrite lookup_insert_ne by done. apply H.
  - intros x i Hi. destruct (h_listed _ _ _ H x i Hi) as (d & Hd & Hx).
    destruct (decide (i = ck_checkpoint_id c)) as [->|Hne].
    + exists c. rewrite lookup_insert_eq. split; [done|]. rewrite <- Hx. symmetry. by apply Hown.
    + exists d. by rewrite lookup_insert_ne.
  - apply H.
Qed.

(** The index changes in one step. *)
Lemma holds_reindex S I J d fs :
  holds S I fs → index_is J d → fs_files fs !! index_tmp = Some (json_dumps float_repr (VDict d)) →
  (∀ x i, i ∈ listed J x → ∃ c, S !! i = Some c ∧ ck_execution_id c = x) →
  (∀ x, NoDup (listed J x)) →
  holds S J (run_op (OpReplace index_tmp index_file) fs).
Proof.
  intros H [Hj Hd] Ht Hl Hn. cbn [run_op]. rewrite Ht. split; cbn; try done; try apply H.
  - by destruct (h_ok _ _ _ H).
  - intros i Hi. destruct (ck_index i) as (N1 & N2 & _).
    rewrite lookup_insert_ne, lookup_delete_ne by done. by apply H.
  - rewrite lookup_insert_eq. by exists d.
Qed.

Definition save_ops c (d : dict pyval) : list fs_op :=
  let i := ck_checkpoint_id c in
  [ OpWrite (ck_tmp i) (ck_text c); OpReplace (ck_tmp i) (ck_file i);
    OpWrite index_tmp (json_dumps float_repr (VDict d)); OpReplace index_tmp index_file ].

Definition run_ops (ops : list fs_op) fs : FS := foldl (λ fs op, run_op op fs) fs ops.

(** A process dies while it performs [ops]: a write may leave any part of its
    text, a rename happens or does not. *)
Inductive crash : list fs_op → FS → FS → Prop :=
| crash_here ops fs : crash ops fs fs
| crash_torn p s t ops fs :
    str_startswith t s = true → crash (OpWrite p s :: ops) fs (run_op (OpWrite p t) fs)
| crash_later op ops fs fs' : crash ops (run_op op fs) fs' → crash (op :: ops) fs fs'.

(** What a save may leave behind: nothing, the checkpoint, the checkpoint and
    its entry in the index. *)
Definition save_stage S I c (S' : gmap string Checkpoint) (I' : gmap string (list string)) : Prop :=
  (S' = S ∧ I' = I)
  ∨ (S' = <[ck_checkpoint_id c := c]> S
     ∧ (I' = I ∨ I' = index_put I (ck_execution_id c) (ck_checkpoint_id c))).

(** A checkpoint that may be saved: it replaces only one of its own execution. *)
Definition savable (S : gmap string Checkpoint) c : Prop :=
  storable c
  ∧ ∀ old, S !! ck_checkpoint_id c = Some old → ck_execution_id old = ck_execution_id c.

Lemma index_put_listed S I fs c x i : holds S I fs → savable S c →
  i ∈ listed (index_put I (ck_execution_id c) (ck_checkpoint_id c)) x →
  ∃ d, <[ck_checkpoint_id c := c]> S !! i = Some d ∧ ck_execution_id d = x.
Proof.
  intros H [Hst Hown]. rewrite listed_put.
  assert (i ∈ listed I x → ∃ d, <[ck_checkpoint_id c := c]> S !! i = Some d ∧ ck_execution_id d = x)
    as Hold.
  { intros Hi. destruct (h_listed _ _ _ H x i Hi) as (d & Hd & Hx).
    destruct (decide (i = ck_checkpoint_id c)) as [->|Hne].
    - exists c. rewrite lookup_insert_eq. split; [done|]. rewrite <- Hx. symmetry. by apply Hown.
    - exists d. by rewrite lookup_insert_ne. }
  case_decide as Hx; [|done]. case_decide; subst; [done|].
  rewrite elem_of_app, list_elem_of_singleton. intros [Hi| ->]; [by apply Hold|].
  exists c. by rewrite lookup_insert_eq.
Qed.

Lemma index_put_nodup S I fs x i y : holds S I fs → NoDup (listed (index_put I x i) y).
Proof.
  intros H. rewrite listed_put. case_decide as Hy; subst; [|apply H].
  case_decide; [apply H|]. apply NoDup_app. split_and!; [apply H| |apply NoDup_singleton].
  intros j Hj ->%list_elem_of_singleton. done.
Qed.

Lemma storable_ascii c : storable c →
  is_ascii (ck_checkpoint_id c) = true ∧ is_ascii (ck_execution_id c) = true.
Proof.
  intros (_ & Hj & _). cbn [json_exact _checkpoint_to_dict forallb fst snd] in Hj.
  repeat (apply andb_true_iff in Hj as [Hj ?]). b2p. auto.
Qed.

(** The states of the disk along a save, each with what it means. *)
Lemma save_states S I fs c d : holds S I fs → savable S c →
  index_is (index_put I (ck_execution_id c) (ck_checkpoint_id c)) d →
  let i := ck_checkpoint_id c in
  let fs1 := run_op (OpWrite (ck_tmp i) (ck_text c)) fs in
  let fs2 := run_op (OpReplace (ck_tmp i) (ck_file i)) fs1 in
  let fs3 := run_op (OpWrite index_tmp (json_dumps float_repr (VDict d))) fs2 in
  let fs4 := run_op (OpReplace index_tmp index_file) fs3 in
  holds S I fs1 ∧ holds (<[i := c]> S) I fs2 ∧ holds (<[i := c]> S) I fs3
  ∧ holds (<[i := c]> S) (index_put I (ck_execution_id c) i) fs4
  ∧ is_Some (fs_files fs1 !! ck_tmp i) ∧ is_Some (fs_files fs3 !! index_tmp).
Proof.
  intros H Hs Hd i fs1 fs2 fs3 fs4. destruct (ck_index i) as (N1 & N2 & N3 & N4).
  assert (holds S I fs1) as H1.
  { apply holds_tmp; [done|intros j Hj; by apply (ck_file_tmp j i)|done]. }
  assert (holds (<[i := c]> S) I fs2) as H2.
  { apply holds_publish; [done|apply Hs| |apply Hs]. unfold fs1. cbn. by rewrite lookup_insert_eq. }
  assert (holds (<[i := c]> S) I fs3) as H3.
  { apply holds_tmp; [done|intros j Hj; by apply (proj1 (proj2 (ck_index j)))|].
    intros Hj. by apply index_ne. }
  split_and!; [done..| |by eexists; apply lookup_insert_eq|by eexists; apply lookup_insert_eq].
  apply (holds_reindex _ I _ d); [done|done| | |].
  - unfold fs3. cbn. by rewrite lookup_insert_eq.
  - intros x j Hj. by eapply index_put_listed.
  - intros x. by eapply index_put_nodup.
Qed.

Lemma save_crash S I fs c d fs' : holds S I fs → savable S c →
  index_is (index_put I (ck_execution_id c) (ck_checkpoint_id c)) d →
  crash (save_ops c d) fs fs' → ∃ S' I', save_stage S I c S' I' ∧ holds S' I' fs'.
Proof.
  intros H Hs Hd Hc. destruct (save_states S I fs c d H Hs Hd) as (H1 & H2 & H3 & H4 & _).
  destruct (ck_index (ck_checkpoint_id c)) as (N1 & N2 & N3 & N4).
  assert (∀ S I g i t, holds S I g → holds S I (run_op (OpWrite (ck_tmp i) t) g)) as Htmp.
  { intros S0 I0 g i t Hg. apply holds_tmp; [done|intros j Hj; by apply (ck_file_tmp j i)|].
    intros Hj. by apply (proj1 (proj2 (proj2 (ck_index i)))). }
  assert (∀ S I g t, holds S I g → holds S I (run_op (OpWrite index_tmp t) g)) as Hitmp.
  { intros S0 I0 g t Hg. apply holds_tmp; [done|intros j Hj; by apply (proj1 (proj2 (ck_index j)))|].
    intros Hj. by apply index_ne. }
  unfold save_stage. unfold save_ops in Hc.
  repeat (inversion Hc as [|?? t|???? Hc']; subst; clear Hc; [eauto 10..|rename Hc' into Hc]);
    inversion Hc; subst; eauto 10.
Qed.

Lemma load_same fs fs' : fs_ok fs → fs_ok fs' →
  fs_files fs' !! index_file = fs_files fs !! index_file → _load_index base fs' = _load_index base fs.
Proof using base_normal.
  intros H H' Heq. unfold _load_index. change (_index_path base) with index_file.
  rewrite !repo_exists, !repo_read by (done || constructor). by rewrite Heq.
Qed.

(** A save that is not interrupted returns, and has done all of it. *)
Lemma save_runs S I fs c : holds S I fs → savable S c →
  ∃ d, (index ← _load_index base fs;
        fs_index_add (ck_execution_id c) (ck_checkpoint_id c) index) = Ok d
    ∧ fsc_save float_repr base c fs = (Ok c, run_ops (save_ops c d) fs)
    ∧ holds (<[ck_checkpoint_id c := c]> S)
        (index_put I (ck_execution_id c) (ck_checkpoint_id c)) (run_ops (save_ops c d) fs).
Proof using base_normal.
  intros H Hs. pose proof Hs as [Hst Hown]. destruct (storable_ascii c Hst) as [Hai Hax].
  assert (plain (ck_checkpoint_id c) = true) as Hp by apply Hst.
  set (i := ck_checkpoint_id c) in *.
  set (fs1 := run_op (OpWrite (ck_tmp i) (ck_text c)) fs).
  set (fs2 := run_op (OpReplace (ck_tmp i) (ck_file i)) fs1).
  assert (holds (<[i := c]> S) I fs2) as H2.
  { apply holds_publish; [|done| |done].
    - apply holds_tmp; [done|intros j Hj; by apply (ck_file_tmp j i)|by intros Hj; apply (proj1 (proj2 (proj2 (ck_index i))))].
    - cbn. by rewrite lookup_insert_eq. }
  destruct (holds_index _ _ _ H2) as (d0 & Hload & Hd0).
  destruct (fs_index_add_spec I d0 (ck_execution_id c) i Hd0 Hax Hai) as (d & Hadd & Hd).
  destruct (save_states S I fs c d H Hs Hd) as (H1 & _ & H3 & H4 & T1 & T3).
  assert (_load_index base fs = Ok d0) as Hload0.
  { rewrite <- Hload. symmetry. apply load_same; [apply (h_ok _ _ _ H)|apply (h_ok _ _ _ H2)|].
    unfold fs2, fs1. cbn [run_op fs_files]. rewrite lookup_insert_eq. cbn [fs_files].
    destruct (ck_index i) as (N1 & _ & N3 & _).
    by rewrite lookup_insert_ne, lookup_delete_ne, lookup_insert_ne. }
  exists d. split_and!; [by rewrite Hload0| |exact H4].
  unfold fsc_save. fold i. rewrite path_plain, with_tmp_ck by done.
  rewrite (bind_ok _ _ _ _ _ (repo_write fs (ck_tmp i) _ (h_ok _ _ _ H) ltac:(by constructor))).
  rewrite (bind_ok _ _ _ _ _ (repo_replace _ (ck_tmp i) (ck_file i) (h_ok _ _ _ H1)
             ltac:(by constructor) ltac:(by constructor) T1)).
  change (run_op (OpReplace (ck_tmp i) (ck_file i)) _) with fs2.
  rewrite (bind_ok (read _) _ fs2 _ _ eq_refl). rewrite Hload.
  rewrite (bind_ok (of_outcome _) _ fs2 _ _ eq_refl). rewrite Hadd.
  rewrite (bind_ok (of_outcome _) _ fs2 _ _ eq_refl).
  unfold _save_index. rewrite with_tmp_index.
  set (fs3 := run_op (OpWrite index_tmp (json_dumps float_repr (VDict d))) fs2) in *.
  assert ((fs_write index_tmp (json_dumps float_repr (VDict d)) ;;
           fs_replace index_tmp (_index_path base)) fs2
    = (Ok tt, run_op (OpReplace index_tmp index_file) fs3)) as Hsave.
  { rewrite (bind_ok _ _ _ _ _ (repo_write fs2 index_tmp _ (h_ok _ _ _ H2) ltac:(by constructor))).
    apply (repo_replace fs3 index_tmp index_file); [apply (h_ok _ _ _ H3)|by constructor..|done]. }
  by rewrite (bind_ok _ _ _ _ _ Hsave).
Qed.

(** ** Opening the repository *)

Lemma repo_file_no_dir q : repo_file q → q ∉ prefixes dir.
Proof.
  intros Hq Hin. unfold prefixes in Hin. apply list_elem_of_fmap in Hin as (n & Heq & _). symmetry in Heq.
  assert (∀ a b : string, take n dir ≠ base ++ [a; b]) as H2.
  { intros a b H. apply (f_equal length) in H. rewrite length_take, length_app in H.
    unfold dir in H. rewrite length_app in H. simpl in H. lia. }
  assert (∀ a : string, a ≠ "checkpoints" → take n dir ≠ base ++ [a]) as H1.
  { intros a Ha H. unfold dir in H. destruct (decide (n ≤ length base)%nat) as [Hn|Hn].
    - apply (f_equal length) in H. rewrite take_app_le, length_take, length_app in H by done.
      simpl in H. lia.
    - rewrite take_ge in H by (rewrite length_app; simpl; lia).
      apply app_inv_head in H. by injection H as <-. }
  destruct Hq as [i Hi|i Hi| |]; [apply (H2 _ _ Heq)|apply (H2 _ _ Heq)|..].
  - by apply (H1 "index.json").
  - by apply (H1 "index.tmp").
Qed.

(** A place where a repository may be started. *)
Definition fresh fs : Prop :=
  (∀ q, q ∈ prefixes dir → (q ∈ fs_dirs fs ∨ fs_files fs !! q = None))
  ∧ (∀ q, repo_file q → (q ∉ fs_dirs fs ∧ fs_files fs !! q = None)).

Lemma open_runs fs :
  (∀ q, q ∈ prefixes dir → (q ∈ fs_dirs fs ∨ fs_files fs !! q = None)) →
  (∀ q, repo_file q → q ∉ fs_dirs fs) →
  ∃ fs', FileSystemCheckpointRepository_new base fs = (Ok tt, fs')
    ∧ fs_ok fs' ∧ fs_files fs' = fs_files fs.
Proof.
  intros Hp Hq. unfold FileSystemCheckpointRepository_new, fs_mkdir.
  change (_checkpoints_dir base) with dir.
  replace (existsb _ (prefixes dir)) with false.
  2: { symmetry. apply not_true_is_false. intros (q & Hin & Hb)%existsb_exists.
       apply list_elem_of_In in Hin. apply bool_decide_eq_true in Hb as [Hn [s Hs]].
       destruct (Hp q Hin); [done|congruence]. }
  eexists. split; [done|]. split; [|done]. split; cbn [fs_dirs].
  - intros q Hin. apply elem_of_union_l. by apply elem_of_list_to_set.
  - intros q Hf [Hin|Hin]%elem_of_union; [|by apply (Hq q)].
    apply elem_of_list_to_set in Hin. by apply (repo_file_no_dir q).
Qed.

Lemma holds_same_files S I fs fs' :
  holds S I fs → fs_ok fs' → fs_files fs' = fs_files fs → holds S I fs'.
Proof. intros H Hok Hf. split; rewrite ?Hf; try apply H. done. Qed.

Lemma open_holds S I fs : holds S I fs →
  ∃ fs', FileSystemCheckpointRepository_new base fs = (Ok tt, fs') ∧ holds S I fs'.
Proof.
  intros H. destruct (open_runs fs) as (fs' & Hr & Hok & Hf).
  - intros q Hq. left. by apply (h_ok _ _ _ H).
  - apply H.
  - exists fs'. split; [done|]. by eapply holds_same_files.
Qed.

Lemma open_fresh fs : fresh fs →
  ∃ fs', FileSystemCheckpointRepository_new base fs = (Ok tt, fs') ∧ holds ∅ ∅ fs'.
Proof.
  intros [Hp Hq]. destruct (open_runs fs Hp) as (fs' & Hr & Hok & Hf); [by intros; apply Hq|].
  exists fs'. split; [done|]. split; rewrite ?Hf; try done.
  - intros i Hi. rewrite lookup_empty. by apply Hq; constructor.
  - rewrite (proj2 (Hq index_file rf_index)). done.
  - intros x i Hi. unfold listed in Hi. rewrite lookup_empty in Hi. by apply elem_of_nil in Hi.
  - intros x. unfold listed. rewrite lookup_empty. apply NoDup_nil_2.
Qed.

(** ** Two repositories, the same answers *)

Lemma ck_leb_trans a b c : ck_leb a b = true → ck_leb b c = true → ck_leb a c = true.
Proof.
  unfold ck_leb. rewrite !orb_true_iff, !andb_true_iff, !Z.ltb_lt, !Z.eqb_eq.
  intros [?|[? H1]] [?|[? H2]]; try (left; lia). right. split; [lia|].
  by eapply str_leb_trans.
Qed.

Lemma ck_leb_id a b : ck_leb a b = true → ck_leb b a = true → ck_checkpoint_id a = ck_checkpoint_id b.
Proof.
  unfold ck_leb. rewrite !orb_true_iff, !andb_true_iff, !Z.ltb_lt, !Z.eqb_eq.
  intros [?|[? H1]] [?|[? H2]]; try lia. by apply str_leb_antisym.
Qed.

Lemma max_version_map l :
  max_version (map read_back l) = read_back <$> max_version l.
Proof.
  destruct l as [|c l]; [done|]. cbn [map max_version fmap option_fmap option_map]. f_equal.
  revert c. induction l as [|d l IH]; intros c; [done|]. cbn [map foldl]. rewrite <- IH.
  f_equal. change (ck_version (read_back c)) with (ck_version c).
  change (ck_version (read_back d)) with (ck_version d). by destruct (_ <? _)%Z.
Qed.

(** Lists with the same elements have a greatest element of the same version. *)
Lemma max_version_perm l k : l ≡ₚ k → ck_version <$> max_version l = ck_version <$> max_version k.
Proof.
  intros Hp. pose proof (max_version_spec l) as Hl. pose proof (max_version_spec k) as Hk.
  destruct (max_version l) as [a|], (max_version k) as [b|]; cbn.
  - destruct Hl as [Ha Hla], Hk as [Hb Hkb]. f_equal. apply Z.le_antisymm.
    + apply Hkb. by rewrite <- Hp.
    + apply Hla. by rewrite Hp.
  - destruct Hl as [Ha _]. subst k. rewrite Hp in Ha. by apply elem_of_nil in Ha.
  - destruct Hk as [Hb _]. subst l. rewrite <- Hp in Hb. by apply elem_of_nil in Hb.
  - done.
Qed.

(** The repository in memory and the one on the disk after the same calls:
    saves in which an identifier stays with its execution, and restarts of the
    one on the disk. *)
Inductive both_step : CheckpointRepository * FS → CheckpointRepository * FS → Prop :=
| both_save r fs c :
    storable c → keeps_owner ck_checkpoint_id ck_execution_id (cr_store r) c →
    both_step (r, fs) ((ck_save c r).2, (fsc_save float_repr base c fs).2)
| both_open r fs :
    both_step (r, fs) (r, (FileSystemCheckpointRepository_new base fs).2).

Definition in_step (p : CheckpointRepository * FS) : Prop :=
  indexed ck_checkpoint_id ck_execution_id (cr_store p.1) (cr_execution_index p.1)
  ∧ ∃ S I, holds S I p.2 ∧ complete S I ∧ ∀ i, S !! i = dict_get i (cr_store p.1).

Lemma complete_put S I fs c : holds S I fs → savable S c → complete S I →
  complete (<[ck_checkpoint_id c := c]> S) (index_put I (ck_execution_id c) (ck_checkpoint_id c)).
Proof.
  intros H [_ Hown] Hc i d. rewrite listed_put.
  destruct (decide (i = ck_checkpoint_id c)) as [->|Hi].
  - rewrite lookup_insert_eq. intros [= <-]. rewrite decide_True by done.
    case_decide; [done|]. apply elem_of_app. right. by apply list_elem_of_singleton.
  - rewrite lookup_insert_ne by done. intros Hd%Hc.
    case_decide as Hx; [|done]. rewrite Hx in Hd. case_decide; [done|].
    apply elem_of_app. by left.
Qed.

Lemma both_step_in_step p q : in_step p → both_step p q → in_step q.
Proof using base_normal.
  intros Hp Hstep. destruct Hstep as [r fs c Hst Hk|r fs];
    destruct Hp as (Hix & S & I & H & Hc & Hs); cbn [fst snd] in *.
  - split; [exact (indexed_save ck_checkpoint_id ck_execution_id _ _ c Hk Hix)|].
    assert (savable S c) as Hsav by (split; [done|]; intros old; rewrite Hs; apply Hk).
    destruct (save_runs S I fs c H Hsav) as (d & _ & -> & H').
    eexists _, _. split; [exact H'|]. split; [by eapply complete_put|].
    intros i. change (cr_store _) with (dict_set (ck_checkpoint_id c) c (cr_store r)).
    rewrite dict_get_set, <- Hs.
    destruct (decide (i = ck_checkpoint_id c)) as [->|Hne]; [by rewrite lookup_insert_eq|].
    by rewrite lookup_insert_ne.
  - split; [done|]. destruct (open_holds S I fs H) as (fs' & -> & H'). by exists S, I.
Qed.

(** The checkpoints of an execution, on the disk and in memory. *)
Lemma in_step_listed iter r fs S I x :
  (∀ X, iter X ≡ₚ elements X) → holds S I fs → complete S I →
  (∀ i, S !! i = dict_get i (cr_store r)) →
  indexed ck_checkpoint_id ck_execution_id (cr_store r) (cr_execution_index r) →
  ∃ l k, fetch (cr_store r) (iter (dict_get_or ∅ x (cr_execution_index r))) = Ok l
    ∧ omap (λ i, read_back <$> S !! i) (listed I x) = map read_back k
    ∧ k ≡ₚ l ∧ (∀ a b, a ∈ k → b ∈ k → ck_checkpoint_id a = ck_checkpoint_id b → a = b).
Proof.
  intros Hiter H Hc Hs Hix.
  destruct (fetch_indexed _ _ iter _ _ x Hiter Hix) as (l & Hl & Hnd & Hin).
  exists l, (omap (λ i, S !! i) (listed I x)). split; [done|].
  assert (∀ ids, omap (λ i, read_back <$> S !! i) ids = map read_back (omap (λ i, S !! i) ids)) as Hm.
  { induction ids as [|i ids IH]; [done|]. csimpl. rewrite IH. by destruct (S !! i). }
  assert (∀ v, v ∈ omap (λ i, S !! i) (listed I x) ↔ v ∈ l) as Hmem.
  { intros v. rewrite Hin, list_elem_of_omap. split.
    - intros (i & Hi & Hv). destruct (h_listed _ _ _ H x i Hi) as (d & Hd & Hx).
      destruct (h_store _ _ _ H _ _ Hv) as [Hid _].
      rewrite <- Hs, Hid. split; [done|]. congruence.
    - rewrite <- Hs. intros [Hv <-]. exists (ck_checkpoint_id v). split; [by apply Hc|done]. }
  assert (∀ a b, a ∈ l → b ∈ l → ck_checkpoint_id a = ck_checkpoint_id b → a = b) as Hinj.
  { intros a b [Ha _]%Hin [Hb _]%Hin Heq. congruence. }
  split; [apply Hm|]. split.
  - apply NoDup_Permutation; [|by eapply NoDup_fmap_1|done].
    pose proof (h_nodup _ _ _ H x) as Hn.
    assert (∀ i, i ∈ listed I x → ∃ c, S !! i = Some c ∧ ck_checkpoint_id c = i) as Hall.
    { intros i Hi. destruct (h_listed _ _ _ H x i Hi) as (c & Hi' & _). exists c.
      split; [done|]. by apply (h_store _ _ _ H i c). }
    clear - Hn Hall. revert Hn Hall. generalize (listed I x) as ids.
    induction ids as [|i ids IH]; intros Hn Hall; [constructor|].
    apply NoDup_cons in Hn as [Hi Hn]. cbn [omap list_omap].
    destruct (Hall i ltac:(by left)) as (c & Hc & Hid). rewrite Hc.
    apply NoDup_cons. split; [|apply IH; [done|]; intros j Hj; apply Hall; by right].
    rewrite list_elem_of_omap. intros (j & Hj & Hcj). destruct (Hall j ltac:(by right)) as (c' & Hc' & <-).
    rewrite Hcj in Hc'. injection Hc' as <-. by rewrite Hid in Hj.
  - intros a b. rewrite !Hmem. apply Hinj.
Qed.

(** C30: for checkpoints that are storable, the file-system repository behaves as
    the in-memory one. After any saves of such checkpoints in which an identifier
    stays with its execution, and any restarts of the process over the same files,
    in a fresh directory named without '..', both answer [get] of a plain
    identifier with the same checkpoint (read back from its JSON text), list the
    same checkpoints of an execution in the same order, agree on the version of
    the latest one, and the next save of such a checkpoint succeeds. A checkpoint
    is storable when its identifier is plain (no '/', no NUL), its strings are
    ASCII, no value is a float, no key repeats and its date is one of the
    calendar; for other identifiers the two differ. *)
Theorem file_store_equiv iter fs0 r fs :
  (∀ X, iter X ≡ₚ elements X) → fresh fs0 →
  star both_step (CheckpointRepository_new, (FileSystemCheckpointRepository_new base fs0).2) (r, fs) →
  (∀ i, plain i = true → fsc_get base fs i = Ok (read_back <$> ck_get r i))
  ∧ (∀ x, ∃ l, list_by_execution iter r x = Ok l
       ∧ fsc_list_by_execution base fs x = Ok (map read_back l))
  ∧ (∀ x, ∃ a b, get_latest iter r x = Ok a ∧ fsc_get_latest base fs x = Ok b
       ∧ ck_version <$> b = ck_version <$> a)
  ∧ (∀ c, storable c → keeps_owner ck_checkpoint_id ck_execution_id (cr_store r) c →
       (fsc_save float_repr base c fs).1 = Ok c).
Proof using base_normal.
  intros Hiter Hf Hr. destruct (open_fresh fs0 Hf) as (fs1 & Ho & H0). rewrite Ho in Hr.
  assert (in_step (r, fs)) as (Hix & S & I & H & Hc & Hs).
  { refine (star_invariant both_step in_step _ _ both_step_in_step _ Hr).
    split; [apply indexed_nil|]. exists ∅, ∅. by split_and!. }
  cbn [fst snd] in *.
  assert (∀ x, ∃ l k, fetch (cr_store r) (iter (dict_get_or ∅ x (cr_execution_index r))) = Ok l
    ∧ fsc_list_by_execution base fs x = Ok (map read_back (py_sorted ck_leb k))
    ∧ py_sorted ck_leb k = py_sorted ck_leb l ∧ k ≡ₚ l) as Hlist.
  { intros x. destruct (in_step_listed iter r fs S I x Hiter H Hc Hs Hix) as (l & k & Hl & Hk & Hp & Hinj).
    exists l, k. rewrite (holds_list S I) by done. rewrite Hk, (py_sorted_map _ read_back) by done.
    split_and!; [done..| |done].
    apply py_sorted_unique; [apply ck_leb_total|apply ck_leb_trans| |done].
    intros a b Ha Hb H1 H2. apply Hinj; [done..|]. by apply ck_leb_id. }
  split_and!.
  - intros i Hi. rewrite (holds_get S I) by done. unfold ck_get. by rewrite Hs.
  - intros x. destruct (Hlist x) as (l & k & Hl & Hk & Heq & _).
    exists (py_sorted ck_leb l). unfold list_by_execution. rewrite Hl, Hk, Heq. done.
  - intros x. destruct (Hlist x) as (l & k & Hl & Hk & Heq & _).
    unfold get_latest, fsc_get_latest. rewrite Hl, Hk. cbn [mbind outcome_bind].
    exists (if bool_decide (dict_get_or ∅ x (cr_execution_index r) = ∅) then None else max_version l).
    eexists. split; [by case_bool_decide|]. split; [reflexivity|].
    rewrite max_version_map, <- option_fmap_compose.
    change (ck_version ∘ read_back) with ck_version.
    rewrite (max_version_perm (py_sorted ck_leb k) l) by (by rewrite Heq, py_sorted_perm).
    case_bool_decide as He; [|done]. rewrite He in Hl.
    assert (iter ∅ = []) as Hi by (apply Permutation_nil; by rewrite Hiter, elements_empty).
    rewrite Hi in Hl. by injection Hl as <-.
  - intros c Hst Hk. assert (savable S c) as Hsav by (split; [done|]; intros old; rewrite Hs; apply Hk).
    destruct (save_runs S I fs c H Hsav) as (d & _ & -> & _). done.
Qed.

(** ** A process that dies *)

(** The entries of directories a save of [c] writes, in order. *)
Definition save_entries c fs : list fs_op :=
  match (index ← _load_index base fs; fs_index_add (ck_execution_id c) (ck_checkpoint_id c) index) with
  | Ok d => save_ops c d
  | Raise _ => []
  end.

(** What may have happened to the files: saves, restarts, and processes that
    died in the middle of a save. *)
Definition may_save c fs : Prop :=
  storable c ∧ ∀ old, fsc_get base fs (ck_checkpoint_id c) = Ok (Some old) →
    ck_execution_id old = ck_execution_id c.

Inductive disk_step fs : FS → Prop :=
| disk_save c : may_save c fs → disk_step fs (fsc_save float_repr base c fs).2
| disk_open : disk_step fs (FileSystemCheckpointRepository_new base fs).2
| disk_crash c fs' : may_save c fs → crash (save_entries c fs) fs fs' → disk_step fs fs'.

(** The same answers to every query. *)
Definition same_answers fs fs' : Prop :=
  (∀ i, plain i = true → fsc_get base fs' i = fsc_get base fs i)
  ∧ (∀ x, fsc_list_by_execution base fs' x = fsc_list_by_execution base fs x)
  ∧ (∀ x, fsc_get_latest base fs' x = fsc_get_latest base fs x).

Lemma may_savable S I fs c : holds S I fs → may_save c fs → savable S c.
Proof using base_normal.
  intros H [Hst Ho]. split; [done|]. intros old Hold.
  rewrite (holds_get S I) in Ho by (done || apply Hst). rewrite Hold in Ho.
  exact (Ho (read_back old) eq_refl).
Qed.

Lemma holds_save_entries S I fs c : holds S I fs → savable S c →
  ∃ d, (index ← _load_index base fs;
        fs_index_add (ck_execution_id c) (ck_checkpoint_id c) index) = Ok d
    ∧ save_entries c fs = save_ops c d
    ∧ index_is (index_put I (ck_execution_id c) (ck_checkpoint_id c)) d.
Proof using base_normal.
  intros H [Hst _]. destruct (storable_ascii c Hst) as [Hai Hax].
  destruct (holds_index S I fs H) as (d0 & Hl & Hd0).
  destruct (fs_index_add_spec I d0 _ _ Hd0 Hax Hai) as (d & Ha & Hd).
  exists d. unfold save_entries. rewrite Hl. cbn [mbind outcome_bind]. by rewrite Ha.
Qed.

Lemma same_answers_lists fs fs' :
  (∀ x, fsc_list_by_execution base fs' x = fsc_list_by_execution base fs x) →
  ∀ x, fsc_get_latest base fs' x = fsc_get_latest base fs x.
Proof. intros H x. unfold fsc_get_latest. by rewrite H. Qed.

Lemma holds_same_answers S I fs fs' : holds S I fs → holds S I fs' → same_answers fs fs'.
Proof using base_normal.
  intros H H'. assert (∀ x, fsc_list_by_execution base fs' x = fsc_list_by_execution base fs x)
    as Hl by (intros x; by rewrite (holds_list S I fs), (holds_list S I fs')).
  split_and!; [|done|by apply same_answers_lists].
  intros i Hi. by rewrite (holds_get S I fs), (holds_get S I fs').
Qed.

Lemma index_put_twice I x i : index_put (index_put I x i) x i = index_put I x i.
Proof.
  unfold index_put at 1. rewrite listed_put, (decide_True (P := x = x)) by done.
  assert (i ∈ if decide (i ∈ listed I x) then listed I x else listed I x ++ [i]) as Hin.
  { case_decide; [done|]. apply elem_of_app. right. by apply list_elem_of_singleton. }
  rewrite decide_True by done. unfold index_put. by rewrite insert_insert_eq.
Qed.

(** The checkpoint has its file, its entry may be missing: either it was listed
    already, or it is not listed yet and nothing shows it. *)
Lemma published_lists S I fs c : holds S I fs → savable S c →
  let S' := <[ck_checkpoint_id c := c]> S in
  let J := index_put I (ck_execution_id c) (ck_checkpoint_id c) in
  (∀ x, omap (λ i, read_back <$> S' !! i) (listed I x) = omap (λ i, read_back <$> S !! i) (listed I x))
  ∨ (∀ x, listed I x = listed J x).
Proof.
  intros H [_ Hown] S' J. destruct (decide (ck_checkpoint_id c ∈ listed I (ck_execution_id c))) as [Hin|Hin].
  - right. intros y. unfold J. rewrite listed_put. case_decide as Hy; [|done]. subst.
    by rewrite decide_True.
  - left. intros y. assert (ck_checkpoint_id c ∉ listed I y) as Hno.
    { intros Hy. destruct (h_listed _ _ _ H _ _ Hy) as (d & Hd & <-).
      by rewrite (Hown d Hd) in Hy. }
    clear - Hno. induction (listed I y) as [|i l IH]; [done|].
    apply not_elem_of_cons in Hno as [Hi Hl]. csimpl. rewrite IH by done. unfold S'.
    by rewrite lookup_insert_ne by congruence.
Qed.

(** Whatever happened to the files, they mean something. *)
Lemma disk_holds fs0 fs : fresh fs0 →
  star disk_step (FileSystemCheckpointRepository_new base fs0).2 fs → ∃ S I, holds S I fs.
Proof using base_normal.
  intros Hf Hr. destruct (open_fresh fs0 Hf) as (fs1 & Ho & H0). rewrite Ho in Hr.
  refine (star_invariant disk_step (λ fs, ∃ S I, holds S I fs) _ _ _ _ Hr);
    [|by exists ∅, ∅].
  intros g g' (S & I & H) [c' Hc'| |c' g'' Hc' Hcr].
  - destruct (save_runs S I g c' H (may_savable _ _ _ _ H Hc')) as (d & _ & -> & H'). eauto.
  - destruct (open_holds S I g H) as (g2 & -> & H'). eauto.
  - pose proof (may_savable _ _ _ _ H Hc') as Hs.
    destruct (holds_save_entries S I g c' H Hs) as (d & _ & Hd & Hi). rewrite Hd in Hcr.
    destruct (save_crash S I g c' d g'' H Hs Hi Hcr) as (S' & I' & _ & H'). eauto.
Qed.

(** C29: a process may die anywhere in the middle of a save, in the middle of
    writing a file included, and the repository opened again answers every [get]
    of a plain identifier as before the save or every such [get] as after it, and
    the same for the listings; nothing is lost or torn, and saving the checkpoint
    again gives the answers of the save that was not interrupted. This holds after
    any saves, restarts and earlier crashes, on a fresh directory named without
    '..', when every checkpoint saved is storable and stays with its execution. An
    identifier is plain when it has no '/' and no NUL (another one names a file
    outside the checkpoints, even the index); a checkpoint is storable when its
    identifier is plain, its strings are ASCII, no value is a float, no key
    repeats and its date is one of the calendar. *)
Theorem save_crash_atomic fs0 fs c :
  fresh fs0 → star disk_step (FileSystemCheckpointRepository_new base fs0).2 fs → may_save c fs →
  let fsend := run_ops (save_entries c fs) fs in
  fsc_save float_repr base c fs = (Ok c, fsend)
  ∧ fsc_get base fsend (ck_checkpoint_id c) = Ok (Some (read_back c))
  ∧ ∀ fs', crash (save_entries c fs) fs fs' →
    ∃ fs'', FileSystemCheckpointRepository_new base fs' = (Ok tt, fs'')
    ∧ ((∀ i, plain i = true → fsc_get base fs'' i = fsc_get base fs i)
       ∨ (∀ i, plain i = true → fsc_get base fs'' i = fsc_get base fsend i))
    ∧ ((∀ x, fsc_list_by_execution base fs'' x = fsc_list_by_execution base fs x)
       ∨ (∀ x, fsc_list_by_execution base fs'' x = fsc_list_by_execution base fsend x))
    ∧ (fsc_save float_repr base c fs'').1 = Ok c
    ∧ same_answers fsend (fsc_save float_repr base c fs'').2.
Proof using base_normal.
  intros Hf Hr Hm fsend. destruct (disk_holds fs0 fs Hf Hr) as (S & I & H).
  pose proof (may_savable S I fs c H Hm) as Hs. pose proof Hs as [Hst _].
  destruct (save_runs S I fs c H Hs) as (d & Hd & Hrun & Hend).
  assert (save_entries c fs = save_ops c d) as Hops by (unfold save_entries; by rewrite Hd).
  assert (index_is (index_put I (ck_execution_id c) (ck_checkpoint_id c)) d) as Hidx.
  { destruct (holds_save_entries S I fs c H Hs) as (d' & Hd' & _ & Hi).
    rewrite Hd in Hd'. by injection Hd' as ->. }
  subst fsend. rewrite Hops. set (fsend := run_ops (save_ops c d) fs) in *.
  set (S' := <[ck_checkpoint_id c := c]> S) in *. set (J := index_put I _ _) in *.
  split; [done|]. split.
  { rewrite (holds_get S' J) by (done || apply Hst). unfold S'. by rewrite lookup_insert_eq. }
  intros fs' Hc. destruct (save_crash S I fs c d fs' H Hs Hidx Hc) as (T & K & Hstage & H').
  destruct (open_holds T K fs' H') as (fs'' & Hopen & H''). exists fs''. split; [done|].
  assert (savable T c) as HsT.
  { destruct Hstage as [[-> ->]|[-> _]]; [done|]. split; [done|].
    intros old. unfold S'. rewrite lookup_insert_eq. by intros [= <-]. }
  destruct (save_runs T K fs'' c H'' HsT) as (d2 & _ & Hrun2 & Hend2). rewrite Hrun2.
  assert (<[ck_checkpoint_id c := c]> T = S') as HT
    by (destruct Hstage as [[-> ->]|[-> _]]; [done|]; unfold S'; by rewrite insert_insert_eq).
  assert (index_put K (ck_execution_id c) (ck_checkpoint_id c) = J) as HK
    by (destruct Hstage as [[-> ->]|[_ [->| ->]]]; [done..|]; apply index_put_twice).
  rewrite HT, HK in Hend2. split; [|split; [|split; [done|by eapply holds_same_answers]]].
  - destruct Hstage as [[-> ->]|[-> _]]; [left|right]; intros i Hi.
    + by rewrite (holds_get S I fs''), (holds_get S I fs).
    + by rewrite (holds_get S' K fs''), (holds_get S' J fsend).
  - destruct Hstage as [[-> ->]|[-> [->| ->]]].
    + left. intros x. by rewrite (holds_list S I fs''), (holds_list S I fs).
    + destruct (published_lists S I fs c H Hs) as [Hp|Hp]; [left|right]; intros x.
      * by rewrite (holds_list S' I fs''), (holds_list S I fs), Hp.
      * by rewrite (holds_list S' I fs''), (holds_list S' J fsend), Hp.
    + right. intros x. by rewrite (holds_list S' J fs''), (holds_list S' J fsend).
Qed.
End Files.

(** ** Concrete repositories *)

Definition demo_base : path := ["data"].
Definition demo_disk : FS := (FileSystemCheckpointRepository_new demo_base (mkFS ∅ ∅)).2.
Definition demo_cp i (v : Z) : Checkpoint :=
  mkCheckpoint i "e" v CT_STEP_COMPLETE "h" "1.0" None (Some "state") ["m"]
    [[("b", VInt 1); ("a", VStr "x")]] (Some (Aware 5)).

Lemma demo_base_normal : Forall (λ c, c ≠ ".." ∧ has_nul c = false) demo_base.
Proof. repeat constructor. done. Qed.

Lemma demo_fresh : fresh demo_base (mkFS ∅ ∅).
Proof. split; [by right|]. intros q _. split; [|done]. by intros ?%not_elem_of_empty. Qed.

Lemma demo_storable i v : plain i = true → is_ascii i = true → storable (demo_cp i v).
Proof.
  intros Hp Hi. split; [done|]. split; [|vm_compute; split; congruence].
  cbn. rewrite Hi. reflexivity.
Qed.

Lemma file_store_equiv_witness :
  let fs := (fsc_save (λ _, "0.0") demo_base (demo_cp "a" 3) demo_disk).2 in
  let r := (ck_save (demo_cp "a" 3) CheckpointRepository_new).2 in
  fsc_get demo_base fs "a" = Ok (Some (read_back (demo_cp "a" 3)))
  ∧ ∀ x, ∃ l, list_by_execution elements r x = Ok l
      ∧ fsc_list_by_execution demo_base fs x = Ok (map read_back l).
Proof.
  intros fs r.
  pose proof (file_store_equiv (λ _, "0.0") demo_base demo_base_normal elements (mkFS ∅ ∅) r fs
    (λ X, Permutation_refl _) demo_fresh) as H.
  assert (∀ p, p = (r, fs) → star (both_step (λ _, "0.0") demo_base)
    (CheckpointRepository_new, demo_disk) p) as Hr.
  { intros p ->. apply star_one. apply both_save; [by apply demo_storable|].
    intros old Ho. vm_compute in Ho. discriminate Ho. }
  destruct (H (Hr _ eq_refl)) as (Hg & Hl & _). split; [exact (Hg "a" eq_refl)|exact Hl].
Defined.

Lemma save_crash_atomic_witness :
  let c := demo_cp "a" 3 in
  let ops := save_entries (λ _, "0.0") demo_base c demo_disk in
  length ops = 4%nat
  ∧ fsc_save (λ _, "0.0") demo_base c demo_disk = (Ok c, run_ops ops demo_disk)
  ∧ ∃ fs'', FileSystemCheckpointRepository_new demo_base (run_ops (take 3 ops) demo_disk) = (Ok tt, fs'')
      ∧ (fsc_save (λ _, "0.0") demo_base c fs'').1 = Ok c.
Proof.
  intros c ops. split; [reflexivity|].
  assert (may_save demo_base c demo_disk) as Hm.
  { split; [by apply demo_storable|]. intros old Ho. vm_compute in Ho. discriminate Ho. }
  destruct (save_crash_atomic (λ _, "0.0") demo_base demo_base_normal (mkFS ∅ ∅) demo_disk c
    demo_fresh star_refl Hm) as (Hs & _ & Hc).
  split; [exact Hs|].
  destruct (Hc (run_ops (take 3 ops) demo_disk)) as (fs'' & Ho & _ & _ & Hr & _).
  { do 3 apply crash_later. apply crash_here. }
  exists fs''. exact (conj Ho Hr).
Defined.
