(* ===== verification/Deployment.v ===== *)
(** * A whole deployment

    The concrete collaborators behind the runtime, each over its own state: the
    policy engine, the tool registry with the router, the MCP gateway over any
    clients, and the checkpoint adapter over the in-memory repository. Router
    and gateway hold the same registry object. [deployed] is what every such
    stack satisfies; one execution on it is followed from the rules to the state
    that can be restored. *)
From S2P Require Import Prelude PyStr PyDict PyVal ExecState Tenant Observability.
From S2P Require Import Abi Runtime RuntimeSpec RuntimeProps ToolRegistry Gateway Capabilities.
From S2P Require Import PolicyEngine Storage Governance Json Persistence.

(** The part of the stack behind policy and router. *)
Record Backend (T : Type) := mkBackend {
  be_gateway : MCPToolGateway T;
  be_store : CheckpointPersistenceAdapter CheckpointRepository
}.
Arguments mkBackend {T}.
Arguments be_gateway {T}.
Arguments be_store {T}.

Section Deployment.
Context {T : Type}.
(** Clocks of the policy engine, the gateway, the adapter and the runtime. *)
Variable pclock gclock kclock clock obs_clock : nat → Z.
Variable psha sha16 : string → string.
Variable hex12 uuid : nat → string.
Variable float_repr : Q → string.
Variable json_error : string → string.
Variable ob : Observers.
Implicit Types s : Stack (Backend T).

#[export] Instance backend_gateway : ToolGateway (Backend T) := {
  access_tool p i := zoom be_gateway (λ g e, mkBackend g (be_store e)) (gw_access_tool gclock p i)
}.
#[export] Instance backend_persistence : StatePersistence (Backend T) := {
  save x st := zoom be_store (λ a e, mkBackend (be_gateway e) a)
                 (adapter_save kclock hex12 sha16 float_repr x st);
  restore c := zoom be_store (λ a e, mkBackend (be_gateway e) a) (adapter_restore json_error c)
}.

Definition deployed_execute (i : Intent) :
    M (World (Stack (Backend T))) ExecutionResult :=
  @execute_intent (Stack (Backend T)) (stack_policy pclock psha) stack_router
    stack_gateway stack_persistence clock obs_clock uuid ob i.

Let gateway s := be_gateway (st_rest s).
Let store s := be_store (st_rest s).
Let later := star (pa_step kclock hex12 sha16 float_repr json_error).

Context (hex_inj : ∀ m n, hex12 m = hex12 n → m = n).
Context (sha_nonempty : ∀ text, sha16 text ≠ ε).

Record deployed s : Prop := {
  dp_policy : coherent (st_policy s);
  dp_tools : tool_inv (st_tools s);
  dp_shared : gw_registry (gateway s) = st_tools s;
  dp_store : pa_inv hex12 (store s)
}.

(** A new stack is deployed, and stays so under administration: policy calls,
    and registrations in the registry the router and the gateway share. *)
Lemma deployed_new registry g :
  gw_registry g = ToolRegistry_new →
  deployed (mkStack (PolicyEngine_new registry) ToolRegistry_new
              (mkBackend g (CheckpointPersistenceAdapter_new CheckpointRepository_new))).
Proof.
  intros Hg. split; simpl; [by intros k v t| |done|apply pa_new_inv].
  apply tool_inv_star, star_refl.
Qed.

Lemma deployed_policy_step s e :
  deployed s → policy_step pclock psha (st_policy s) e →
  deployed (mkStack e (st_tools s) (st_rest s)).
Proof. intros [] Hs. split; try done. simpl. by eapply policy_step_coherent. Qed.

Definition gw_put_registry (r : ToolRegistry) (g : MCPToolGateway T) : MCPToolGateway T :=
  mkGateway r (gw_clients g) (gw_audit_log g) (gw_event_log g) (gw_logger g) (gw_metrics g)
    (gw_sink g) (gw_ticks g) (gw_ext g).

Lemma deployed_tool_step s r :
  deployed s → tool_step (st_tools s) r →
  deployed (mkStack (st_policy s) r (mkBackend (gw_put_registry r (gateway s)) (store s))).
Proof. intros [] Hs. split; try done. simpl. by eapply tool_step_inv. Qed.

(** ** One execution *)

(** The router's answer is a tool of the registry, under its own name. *)
Lemma routed_tool i s p : deployed s → router_route i (st_tools s) = Ok p →
  ∃ t, p = path_to t i ∧ tool_get (st_tools s) (td_tool_id t) = Some t.
Proof.
  intros [_ [Hwf Hids] _ _]. unfold router_route.
  destruct (tool_get (st_tools s) (in_action i)) as [t|] eqn:Ht.
  - intros [= <-]. exists t. split; [done|]. by destruct (Hids _ _ Ht) as [-> _].
  - destruct (match_pattern (st_tools s) (in_action i)) as [|t [|]] eqn:Hm; try done.
    intros [= <-]. exists t. split; [done|].
    assert (t ∈ match_pattern (st_tools s) (in_action i)) as Hin by (rewrite Hm; left).
    unfold match_pattern, dict_values in Hin. apply list_elem_of_filter in Hin as [_ Hin].
    apply list_elem_of_fmap in Hin as ([k t'] & -> & Hin). simpl.
    apply dict_elem_get in Hin; [|done]. by destruct (Hids _ _ Hin) as [-> _].
Qed.

(** A success with the tool's [data], whose state can be restored from [a] on. *)
Definition answered (x : string) (i : Intent) (ctx : option TenantContext) (data : dict pyval)
    (o : outcome ExecutionResult) (a : CheckpointPersistenceAdapter CheckpointRepository)
    : Prop := ∃ cid now,
  let state := checkpoint_state x i ctx (mkToolResult true data None) now in
  o = Ok (mkResult true x (Some cid) data None COMPLETED)
  ∧ (json_exact (VDict state) = true → ∀ b, later a b →
       adapter_restore json_error cid b = (Ok (key_sorted (VDict state)), b)).

(** What the accessed tool did, and what the execution [x] came to. *)
Definition ran (x : string) (i : Intent) (ctx : option TenantContext) s
    (o : outcome ExecutionResult) s' : Prop :=
  ∃ t a, router_route i (st_tools s) = Ok (path_to t i)
    ∧ tool_get (st_tools s) (td_tool_id t) = Some t
    ∧ gw_audit_log (gateway s') = gw_audit_log (gateway s) ++ [a]
    ∧ entry_for (path_to t i) i (td_mcp_server t) (succeeded o) a
    ∧ match dict_get (td_mcp_server t) (gw_clients (gateway s)) with
      | None => gw_ext (gateway s') = gw_ext (gateway s) ∧ succeeded o = false
      | Some client =>
          let '(answer, ext) :=
            call_tool client (td_tool_id t) (in_parameters i) (gw_ext (gateway s)) in
          gw_ext (gateway s') = ext
          ∧ match answer with
            | Raise _ => succeeded o = false ∧ store s' = store s
            | Ok data => answered x i ctx data o (store s')
            end
      end.

(** The adapter saves the state of any named execution. *)
Lemma backend_save x state (e : Backend T) :
  pa_inv hex12 (be_store e) → x ≠ ε →
  ∃ cid e', save x state e = (Ok cid, e')
    ∧ be_gateway e' = be_gateway e ∧ pa_inv hex12 (be_store e')
    ∧ (json_exact (VDict state) = true → ∀ b, later (be_store e') b →
         adapter_restore json_error cid b = (Ok (key_sorted (VDict state)), b)).
Proof using hex_inj sha_nonempty.
  intros HI Hx%truthy_true.
  pose proof (save_inv kclock hex12 sha16 float_repr hex_inj sha_nonempty x state _ HI) as HI'.
  pose proof (save_result kclock hex12 sha16 float_repr sha_nonempty x state _ (proj1 (proj2 HI)))
    as Hs.
  cbv beta zeta in HI', Hs. rewrite Hx in Hs. set (cid := checkpoint_id_of hex12 (pa_uuids (be_store e))) in *.
  set (a' := mkPersist _ _ _ _) in Hs. exists cid, (mkBackend (be_gateway e) a').
  split; [cbn; unfold zoom; by rewrite Hs|]. split; [done|].
  split; [by rewrite Hs in HI'|]. intros Hj b Hb.
  apply (restore_saved kclock hex12 sha16 float_repr json_error hex_inj sha_nonempty x state
           (be_store e) b HI Hx Hj). by rewrite Hs.
Qed.

Lemma backend_access p i (e : Backend T) o server ext :
  access_spec p (be_gateway e) = (o, server, ext) →
  ∃ g a, access_tool p i e = (o, mkBackend g (be_store e))
    ∧ gw_audit_log g = gw_audit_log (be_gateway e) ++ [a]
    ∧ entry_for p i server (is_ok o) a
    ∧ gw_ext g = ext ∧ gw_registry g = gw_registry (be_gateway e)
    ∧ gw_clients g = gw_clients (be_gateway e).
Proof.
  intros Hs. destruct (gw_access_tool_spec gclock _ i _ _ _ _ Hs) as (g & a & Hg & H).
  exists g, a. split; [|done]. cbn. unfold zoom. by rewrite Hg.
Qed.

Lemma access_spec_result p (g : MCPToolGateway T) r server ext :
  access_spec p g = (Ok r, server, ext) → r = mkToolResult true (tl_data r) None.
Proof. unfold access_spec. repeat case_match; intros; by simplify_eq/=. Qed.

(** What follows an access: the result is lost or saved. *)
Lemma after_access x i ctx (e e' : Backend T) o (o1 : outcome ToolResult) :
  pa_inv hex12 (be_store e) → x ≠ ε →
  (∀ r, o1 = Ok r → r = mkToolResult true (tl_data r) None) →
  (e' = e ∧ succeeded o = false ∧ (∀ r, o1 = Ok r → tl_success r = false)
   ∨ ∃ r now o2, o1 = Ok r ∧ tl_success r = true
       ∧ save x (checkpoint_state x i ctx r now) e = (o2, e')
       ∧ match o2 with
         | Ok cid => o = Ok (mkResult true x (Some cid) (tl_data r) None COMPLETED)
         | Raise _ => succeeded o = false
         end) →
  be_gateway e' = be_gateway e ∧ pa_inv hex12 (be_store e') ∧ succeeded o = is_ok o1
  ∧ match o1 with
    | Raise _ => be_store e' = be_store e
    | Ok r => answered x i ctx (tl_data r) o (be_store e')
    end.
Proof using hex_inj sha_nonempty.
  intros HI Hx Hr [(-> & Ho & Hf)|(r & now & o2 & -> & Hs & Hsave & Ho)].
  - destruct o1 as [r|err]; [|by split_and!].
    specialize (Hf r eq_refl). by rewrite (Hr r eq_refl) in Hf.
  - specialize (Hr r eq_refl). destruct r as [? data ?]. injection Hr as -> ->.
    destruct (backend_save x (checkpoint_state x i ctx (mkToolResult true data None) now) e HI Hx)
      as (cid & e2 & He2 & Hg & HI2 & Hrest).
    rewrite Hsave in He2. injection He2 as -> ->. subst o. split_and!; [done..|].
    exists cid, now. by split.
Qed.

(** C2: in a sound deployment and for an intent whose agent and action hold no '|'
    (the engine joins its cache keys with it), an execution with a non-empty
    identifier either stops before any tool is reached and does not succeed, or
    the rules allow its action, the router's tool is a registered one, and the
    client of that tool's server is called once with the intent's parameters; the
    gateway's audit log gains one entry saying how it went, the execution succeeds
    exactly when the client answers, with the client's data, and, when the state
    it saved holds ASCII strings, no floats and no repeated key, that state can be
    restored from then on under the identifier it returns. The deployment stays
    sound. Sound is: the cache agrees with the rules, as it does while every
    question put to the engine was without '|', the router and the gateway share
    one well-formed registry, and the checkpoints are those the adapter saved,
    under distinct random identifiers. *)
Theorem deployed_execution (i : Intent) (w : World (Stack (Backend T))) :
  let s := rt_ext (w_core w) in
  let x := uuid (rt_uuids (w_core w)) in
  deployed s → bar_free (in_agent_id i) = true → bar_free (in_action i) = true → x ≠ ε →
  let '(o, w') := deployed_execute i w in
  let s' := rt_ext (w_core w') in
  deployed s' ∧ st_tools s' = st_tools s
  ∧ ∃ d, decides (dict_values (pe_policies (st_policy s))) (in_action i) d
    ∧ (st_rest s' = st_rest s ∧ succeeded o = false
       ∨ pd_decision d = Some "ALLOW" ∧ ran x i (rt_tenant_context (w_core w)) s o s').
Proof using hex_inj sha_nonempty.
  intros s x HD Hg Ha Hx. destruct (deployed_execute i w) as [o w'] eqn:Hrun. intros s'.
  destruct (stack_governed pclock psha clock obs_clock uuid ob i w o w' (dp_policy _ HD) Hg Ha Hrun)
    as (d & Hd & HT & HR & HC & Hrest).
  fold s s' x in HT, HR, HC, Hrest, Hd.
  destruct Hrest as [[He Ho]|(Hallow & p & o1 & e1 & Hp & Hacc & Hrest)].
  { split; [|eauto 6]. destruct HD. split; unfold gateway, store; by rewrite ?He, ?HT. }
  destruct (routed_tool i s p HD Hp) as (t & -> & Ht).
  destruct (access_spec (path_to t i) (gateway s)) as [[o2 server] ext] eqn:Hspec.
  destruct (backend_access _ i _ _ _ _ Hspec) as (g & a & Hacc' & Hlog & Hent & Hext & Hreg & Hcl).
  rewrite Hacc in Hacc'. injection Hacc' as -> ->.
  assert (∀ r, o2 = Ok r → r = mkToolResult true (tl_data r) None) as Hres
    by (intros r ->; by eapply access_spec_result).
  destruct (after_access x i (rt_tenant_context (w_core w)) (mkBackend g (store s)) (st_rest s') o o2
              (dp_store _ HD) Hx Hres) as (Hgw & HI & Ho & Hans); [tauto|].
  cbn [be_gateway be_store] in Hgw, Hans.
  split.
  { split; [done|by rewrite HT; apply HD| |done].
    unfold gateway. rewrite Hgw, HT, Hreg. apply HD. }
  split; [done|]. exists d. split; [done|]. right. split; [done|].
  exists t, a. unfold gateway, store. rewrite Hgw, Ho, Hlog, Hext.
  revert Hspec. unfold access_spec. cbn [path_to ep_tool ep_parameters].
  rewrite (dp_shared _ HD), Ht. fold (gateway s).
  destruct (dict_get (td_mcp_server t) (gw_clients (gateway s))) as [client|];
    [destruct (call_tool client _ _ _) as [[data|err] ext']|];
    intros [= <- <- <-]; by split_and!.
Qed.
End Deployment.

(** ** A concrete deployment *)

(** One tool, whose server echoes its parameters and counts its calls. *)
Definition echo_client : MCPClient nat :=
  mkClient (λ tool parameters n, (Ok (("tool", VStr tool) :: parameters), S n)).
Definition demo_gateway_state (r : ToolRegistry) : MCPToolGateway nat :=
  mkGateway r [("srv", echo_client)] [] None None None [] 0%nat 0%nat.

Definition demo_policies (effect : string) : PolicyEngine :=
  (create_policy "p" "rule" "files.read" effect None (PolicyEngine_new None)).2.

Definition demo_deployment (effect : string) : Stack (Backend nat) :=
  mkStack (demo_policies effect) [("files.read", demo_tool "files.read")]
    (mkBackend (demo_gateway_state [("files.read", demo_tool "files.read")])
       (CheckpointPersistenceAdapter_new CheckpointRepository_new)).

Definition demo_deployed_execute (effect : string)
    : outcome ExecutionResult * World (Stack (Backend nat)) :=
  deployed_execute (λ _, 0%Z) demo_clock demo_clock demo_clock demo_clock (λ s, s) (λ _, "h")
    demo_hex demo_uuid (λ _, "0.0") (λ s, s) demo_observers
    (mkIntent "agent" "files.read" [("path", VStr "/tmp")] 0)
    (mkWorld (mkCore RUNNING [] None None None (demo_deployment effect) 0 0)
       (mkObsState [] MetricsRegistry_new 0)).

Lemma demo_deployed effect : deployed demo_hex (demo_deployment effect).
Proof.
  apply (deployed_policy_step (λ _, 0%Z) (λ s, s) demo_hex
           (mkStack (PolicyEngine_new None) _ _) (demo_policies effect)).
  - apply (deployed_tool_step demo_hex (mkStack (PolicyEngine_new None) ToolRegistry_new
             (mkBackend (demo_gateway_state ToolRegistry_new)
                (CheckpointPersistenceAdapter_new CheckpointRepository_new)))
             [("files.read", demo_tool "files.read")]).
    + by apply deployed_new.
    + by eapply (ts_register (demo_tool "files.read")).
  - eapply (ps_create _ _ "p" "rule" "files.read" effect None). apply surjective_pairing.
Qed.

Lemma deployed_execution_witness :
  succeeded (demo_deployed_execute "ALLOW").1 = true
  ∧ let '(o, w') := demo_deployed_execute "ALLOW" in
    deployed demo_hex (rt_ext (w_core w')).
Proof.
  split; [vm_compute; reflexivity|].
  assert (∀ m n, demo_hex m = demo_hex n → m = n) as Hinj
    by (intros m n H; unfold demo_hex, str_of_nat in H; by apply (inj pretty) in H).
  assert (demo_uuid 0 ≠ ε) as Hx by (vm_compute; discriminate).
  pose proof (deployed_execution (T := nat) (λ _, 0%Z) demo_clock demo_clock demo_clock
    demo_clock (λ s, s) (λ _, "h") demo_hex demo_uuid (λ _, "0.0") (λ s, s) demo_observers
    Hinj (λ _, ltac:(discriminate)) (mkIntent "agent" "files.read" [("path", VStr "/tmp")] 0)
    (mkWorld (mkCore RUNNING [] None None None (demo_deployment "ALLOW") 0 0)
       (mkObsState [] MetricsRegistry_new 0)) (demo_deployed "ALLOW") eq_refl eq_refl Hx) as H.
  unfold demo_deployed_execute. destruct (deployed_execute _ _ _ _ _ _ _ _ _ _ _ _ _ _) as [o w'].
  exact (proj1 H).
Defined.

(** Denied, nothing is called; allowed, the server is called once and the saved
    state holds its answer, keys sorted. *)
Example demo_deployment_runs :
  gw_ext (be_gateway (st_rest (rt_ext (w_core (demo_deployed_execute "DENY").2)))) = 0%nat
  ∧ let '(o, w') := demo_deployed_execute "ALLOW" in
    let rest := st_rest (rt_ext (w_core w')) in
    gw_ext (be_gateway rest) = 1%nat
    ∧ match o with
      | Ok r => match er_checkpoint_id r with
                | Some cid =>
                    match (adapter_restore (λ s, s) cid (be_store rest)).1 with
                    | Ok (VDict st) => dict_get "tool_result" st
                        = Some (VDict [("path", VStr "/tmp"); ("tool", VStr "files.read")])
                    | _ => False
                    end
                | None => False
                end
      | Raise _ => False
      end.
Proof. vm_compute. done. Qed.
