(* ===== verification/Registry.v ===== *)
(** * Registries of templates and instances

    [control_plane/registry/memory_template_repository.py] and
    [memory_instance_repository.py]. A configuration is a dictionary object that
    the instance keeps a reference to and that [update_instance] changes in
    place, so configurations live in a heap of objects shared with the callers:
    two instances created with one object see each other's updates. Manifests
    are stored and returned but never written to, so they are kept as values. *)
From S2P Require Import Prelude PyStr PyDict PyVal.

(** ** Templates *)

Record Template := mkTemplate {
  tp_id : string;
  tp_name : string;
  tp_framework : string;
  tp_manifest : dict pyval;
  tp_status : string
}.

Record MemoryTemplateRepository := mkTemplates {
  tr_templates : dict Template;
  tr_next_id : nat
}.

Definition MemoryTemplateRepository_new : MemoryTemplateRepository := mkTemplates [] 1.

Definition create_template (name framework : string) (manifest : dict pyval)
    : M MemoryTemplateRepository string := λ r,
  let template_id := "tpl-" +:+ str_of_nat (tr_next_id r) in
  (Ok template_id,
   mkTemplates (dict_set template_id (mkTemplate template_id name framework manifest "active")
                  (tr_templates r)) (S (tr_next_id r))).

Definition get_template (r : MemoryTemplateRepository) (template_id : string) : option Template :=
  dict_get template_id (tr_templates r).

Definition list_templates (r : MemoryTemplateRepository) (framework : option string)
    : list Template :=
  if truthy_opt framework
  then filter (λ t, tp_framework t = default ε framework) (dict_values (tr_templates r))
  else dict_values (tr_templates r).

Definition delete_template (template_id : string) (r : MemoryTemplateRepository)
    : MemoryTemplateRepository :=
  match dict_get template_id (tr_templates r) with
  | Some t => mkTemplates (dict_set template_id
                (mkTemplate (tp_id t) (tp_name t) (tp_framework t) (tp_manifest t) "archived")
                (tr_templates r)) (tr_next_id r)
  | None => r
  end.

(** ** Instances *)

Record Instance_ := mkInstance {
  it_id : string;
  it_tenant_id : string;
  it_template_id : string;
  it_name : string;
  it_config : nat;
  it_status : string
}.

(** The repository and the heap its configuration references point into. *)
Record MemoryInstanceRepository := mkInstances {
  nr_instances : dict Instance_;
  nr_next_id : nat;
  nr_heap : gmap nat (dict pyval)
}.

Definition MemoryInstanceRepository_new (heap : gmap nat (dict pyval))
    : MemoryInstanceRepository := mkInstances [] 1 heap.

Definition instance_id_of (n : nat) : string := "inst-" +:+ str_of_nat n.

Definition create_instance (tenant_id template_id name : string) (config : nat)
    : M MemoryInstanceRepository string := λ r,
  let instance_id := instance_id_of (nr_next_id r) in
  (Ok instance_id,
   mkInstances (dict_set instance_id
                  (mkInstance instance_id tenant_id template_id name config "active")
                  (nr_instances r)) (S (nr_next_id r)) (nr_heap r)).

Definition get_instance (r : MemoryInstanceRepository) (instance_id : string) : option Instance_ :=
  dict_get instance_id (nr_instances r).

Definition list_instances (r : MemoryInstanceRepository) (tenant_id : string) : list Instance_ :=
  filter (λ i, it_tenant_id i = tenant_id) (dict_values (nr_instances r)).

(** [self._instances[instance_id][config].update(config)] *)
Definition update_instance (instance_id : string) (config : dict pyval)
    (r : MemoryInstanceRepository) : MemoryInstanceRepository :=
  match dict_get instance_id (nr_instances r) with
  | Some i => mkInstances (nr_instances r) (nr_next_id r)
      (alter (λ d, dict_update d config) (it_config i) (nr_heap r))
  | None => r
  end.

Definition delete_instance (instance_id : string) (r : MemoryInstanceRepository)
    : MemoryInstanceRepository :=
  match dict_get instance_id (nr_instances r) with
  | Some i => mkInstances (dict_set instance_id
                (mkInstance (it_id i) (it_tenant_id i) (it_template_id i) (it_name i) (it_config i)
                   "archived") (nr_instances r)) (nr_next_id r) (nr_heap r)
  | None => r
  end.

(** The configuration an instance shows. *)
Definition config_of (r : MemoryInstanceRepository) (instance_id : string) : option (dict pyval) :=
  i ← get_instance r instance_id; nr_heap r !! it_config i.

(** ** What the repository guarantees *)

Inductive instance_step (r : MemoryInstanceRepository) : MemoryInstanceRepository → Prop :=
| is_create tenant template name config :
    is_Some (nr_heap r !! config) →
    instance_step r (create_instance tenant template name config r).2
| is_update i config : instance_step r (update_instance i config r)
| is_delete i : instance_step r (delete_instance i r).

Definition instance_inv (r : MemoryInstanceRepository) : Prop :=
  dict_wf (nr_instances r)
  ∧ ∀ i inst, dict_get i (nr_instances r) = Some inst →
      it_id inst = i ∧ is_Some (nr_heap r !! it_config inst)
      ∧ ∃ n, (n < nr_next_id r)%nat ∧ i = instance_id_of n.

Lemma instance_id_inj m n : instance_id_of m = instance_id_of n → m = n.
Proof. intros H%(str_app_inj_l "inst-"). by apply (inj pretty) in H. Qed.

Lemma instance_step_inv r r' : instance_inv r → instance_step r r' → instance_inv r'.
Proof.
  intros [Hwf HI] [tenant template name config Hc|i config|i].
  - split; [by apply dict_wf_set|]. intros i inst. cbn. rewrite dict_get_set. case_decide as Hd.
    + intros [= <-]. split_and!; [done|done|]. exists (nr_next_id r). split; [lia|done].
    + intros Hg. destruct (HI _ _ Hg) as (H1 & H2 & n & Hn & ->). split_and!; [done..|].
      exists n. split; [lia|done].
  - unfold update_instance. destruct (dict_get i (nr_instances r)) as [x|] eqn:Hx; [|done].
    split; [done|]. intros j inst Hg. destruct (HI _ _ Hg) as (H1 & H2 & Hn).
    split_and!; [done| |done]. cbn. destruct (decide (it_config inst = it_config x)) as [->|Hne].
    + rewrite lookup_alter_eq. destruct (HI _ _ Hx) as (_ & H3 & _). by apply fmap_is_Some.
    + by rewrite lookup_alter_ne by done.
  - unfold delete_instance. destruct (dict_get i (nr_instances r)) as [x|] eqn:Hx; [|done].
    split; [by apply dict_wf_set|]. intros j inst. cbn. rewrite dict_get_set. case_decide as Hd.
    + intros [= <-]. subst. cbn. apply (HI _ _ Hx).
    + apply HI.
Qed.

(** A new instance gets an identifier no instance has, and its configuration is
    the object it was created with. *)
Lemma create_instance_fresh tenant template name config r :
  instance_inv r → get_instance r (instance_id_of (nr_next_id r)) = None
  ∧ ∀ j, is_Some (get_instance r j) →
      get_instance (create_instance tenant template name config r).2 j = get_instance r j.
Proof.
  intros [_ HI].
  assert (get_instance r (instance_id_of (nr_next_id r)) = None) as Hnone.
  { unfold get_instance. destruct (dict_get _ _) as [x|] eqn:Hx; [|done].
    destruct (HI _ _ Hx) as (_ & _ & n & Hn & Heq). apply instance_id_inj in Heq. lia. }
  split; [done|]. intros j [x Hx]. unfold get_instance in *. cbn.
  rewrite dict_get_set_ne; [done|]. intros Hj. assert (j = instance_id_of (nr_next_id r)) as -> by exact Hj. congruence.
Qed.

(** An update of one instance is seen by exactly the instances that share its
    configuration object, whatever tenant they belong to. *)
Lemma update_instance_shared i config r x j y d :
  instance_inv r →
  get_instance r i = Some x → get_instance r j = Some y → config_of r j = Some d →
  config_of (update_instance i config r) j
  = Some (if decide (it_config y = it_config x) then dict_update d config else d).
Proof.
  intros _ Hx Hy Hd. unfold config_of, get_instance in *. rewrite Hy in Hd. cbn in Hd.
  unfold update_instance. rewrite Hx. cbn. rewrite Hy. cbn. case_decide as He.
  - rewrite He in *. by rewrite lookup_alter_eq, Hd.
  - by rewrite lookup_alter_ne.
Qed.

(** Two tenants created from one configuration object. *)
Example demo_shared_config :
  let heap : gmap nat (dict pyval) := {[ 0%nat := [("model", VStr "a")] ]} in
  let r1 := (create_instance "t1" "tpl-1" "x" 0 (MemoryInstanceRepository_new heap)).2 in
  let r2 := (create_instance "t2" "tpl-1" "y" 0 r1).2 in
  config_of (update_instance "inst-1" [("model", VStr "b")] r2) "inst-2"
  = Some [("model", VStr "b")].
Proof. vm_compute. reflexivity. Qed.
