(* ===== verification/Auth.v ===== *)
(** * Authentication and audit

    [core/identity/auth_context.py], [api/auth/provider.py] and
    [api/audit/recorder.py]. A key is stored under its fingerprint, the SHA-256
    digest, which is an argument; what the provider relies on is that the keys
    in use have different digests. Comparing in constant time and stopping at
    the first equal fingerprint is a lookup in the dictionary. *)
From S2P Require Import Prelude PyStr PyDict PyVal Observability.

Record AuthContext := mkAuth {
  au_tenant_id : string;
  au_agent_id : string;
  au_permissions : list string
}.

Record APIKeyAuthProvider := mkProvider {
  ak_key_prefix : string;
  ak_fingerprints : dict AuthContext
}.

Section Provider.
Variable _fingerprint : string → string.
Implicit Types p : APIKeyAuthProvider.

Definition put_fingerprints (d : dict AuthContext) p : APIKeyAuthProvider :=
  mkProvider (ak_key_prefix p) d.

Definition add_key (api_key : string) (context : AuthContext) p : APIKeyAuthProvider :=
  put_fingerprints (dict_set (_fingerprint api_key) context (ak_fingerprints p)) p.

Definition APIKeyAuthProvider_new (keys : dict AuthContext) (key_prefix : string)
    : APIKeyAuthProvider :=
  foldl (λ p kv, add_key kv.1 kv.2 p) (mkProvider key_prefix []) keys.

Definition remove_key (api_key : string) p : bool * APIKeyAuthProvider :=
  let fp := _fingerprint api_key in
  if dict_mem fp (ak_fingerprints p)
  then (true, put_fingerprints (dict_del fp (ak_fingerprints p)) p)
  else (false, p).

(** The metrics registry is given only by some callers. *)
Definition rotate_key (old_key new_key : string) (context : option AuthContext)
    (metrics : option MetricsRegistry) p : bool * option MetricsRegistry * APIKeyAuthProvider :=
  let old_fp := _fingerprint old_key in
  match dict_get old_fp (ak_fingerprints p) with
  | None => (false, metrics, p)
  | Some existing_ctx =>
      let target_ctx := default existing_ctx context in
      (true, increment "security.auth.rotation" 1 <$> metrics,
       put_fingerprints (dict_set (_fingerprint new_key) target_ctx
                           (dict_del old_fp (ak_fingerprints p))) p)
  end.

Fixpoint compare_all (candidate : string) (stored : dict AuthContext) : option AuthContext :=
  match stored with
  | [] => None
  | (stored_fp, ctx) :: stored' =>
      if String.eqb candidate stored_fp then Some ctx else compare_all candidate stored'
  end.

Definition authenticate (api_key : string) p : option AuthContext :=
  if negb (truthy api_key) then None
  else compare_all (_fingerprint api_key) (ak_fingerprints p).

Definition key_count p : nat := length (ak_fingerprints p).

(** ** The provider as a map from raw keys *)

Lemma compare_all_get fp d : compare_all fp d = dict_get fp d.
Proof.
  induction d as [|[fp' c] d IH]; [done|]. cbn. rewrite IH.
  destruct (String.eqb_spec fp fp'); [by rewrite decide_True|by rewrite decide_False].
Qed.

(** [p] stores the keys of [keys] and no others. *)
Definition stores (keys : gmap string AuthContext) p : Prop :=
  ∀ k, dict_get (_fingerprint k) (ak_fingerprints p) = keys !! k.

Context (fp_inj : ∀ k k', _fingerprint k = _fingerprint k' → k = k').

Lemma stores_add keys k c p : stores keys p → stores (<[k := c]> keys) (add_key k c p).
Proof using fp_inj.
  intros Hp k'. cbn. rewrite dict_get_set. case_decide as Hd.
  - apply fp_inj in Hd as ->. by rewrite lookup_insert_eq.
  - rewrite lookup_insert_ne by (intros ->; done). apply Hp.
Qed.

Lemma stores_del keys k p :
  stores keys p → stores (delete k keys) (put_fingerprints (dict_del (_fingerprint k) (ak_fingerprints p)) p).
Proof using fp_inj.
  intros Hp k'. cbn. rewrite dict_get_del. case_decide as Hd.
  - apply fp_inj in Hd as ->. by rewrite lookup_delete_eq.
  - rewrite lookup_delete_ne by (intros ->; done). apply Hp.
Qed.

(** Calls of the provider and what each does to the keys. *)
Inductive key_op :=
| OAdd (k : string) (c : AuthContext)
| ORemove (k : string)
| ORotate (old new : string) (c : option AuthContext).

Definition do_op (op : key_op) p : APIKeyAuthProvider :=
  match op with
  | OAdd k c => add_key k c p
  | ORemove k => (remove_key k p).2
  | ORotate old new c => (rotate_key old new c None p).2
  end.

Definition spec_op (op : key_op) (keys : gmap string AuthContext) : gmap string AuthContext :=
  match op with
  | OAdd k c => <[k := c]> keys
  | ORemove k => delete k keys
  | ORotate old new c =>
      match keys !! old with
      | Some e => <[new := default e c]> (delete old keys)
      | None => keys
      end
  end.

Lemma do_op_stores op keys p : stores keys p → stores (spec_op op keys) (do_op op p).
Proof using fp_inj.
  intros Hp. destruct op as [k c|k|old new c]; cbn.
  - by apply stores_add.
  - unfold remove_key. destruct (dict_mem _ _) eqn:Hm; cbn; [by apply stores_del|].
    apply dict_mem_false in Hm. rewrite Hp in Hm. by rewrite delete_id.
  - unfold rotate_key. rewrite Hp. destruct (keys !! old) as [e|]; [|done].
    apply (stores_add _ _ _ (put_fingerprints _ p)), stores_del, Hp.
Qed.

(** C40: after any additions, removals and rotations a non-empty key authenticates
    exactly as the map from raw keys those calls describe says: with its own
    context, a rotated key's successor with the context the old key had unless
    another was given, a removed or rotated key and any unknown one not at
    all; the empty key never authenticates. *)
Theorem auth_refines_keys (prefix : string) (ops : list key_op) (k : string) :
  authenticate k (foldl (λ p op, do_op op p) (mkProvider prefix []) ops)
  = if decide (k = ε) then None else foldl (λ m op, spec_op op m) ∅ ops !! k.
Proof using fp_inj.
  assert (∀ ops p keys, stores keys p →
    stores (foldl (λ m op, spec_op op m) keys ops) (foldl (λ p op, do_op op p) p ops)) as H.
  { induction ops0 as [|op ops0 IH]; intros p keys Hp; [done|]. cbn. by apply IH, do_op_stores. }
  specialize (H ops (mkProvider prefix []) ∅ ltac:(intros k'; by rewrite lookup_empty)).
  unfold authenticate. rewrite compare_all_get, H.
  case_decide as Hk; [by subst|]. by rewrite (proj2 (truthy_true k) Hk).
Qed.
End Provider.

Lemma auth_refines_keys_witness :
  let ops := [OAdd "k1" (mkAuth "t1" "a1" []); ORotate "k1" "k2" None] in
  authenticate (λ k, k) "k2" (foldl (λ p op, do_op (λ k, k) op p) (mkProvider ε []) ops)
  = Some (mkAuth "t1" "a1" [])
  ∧ authenticate (λ k, k) "k1" (foldl (λ p op, do_op (λ k, k) op p) (mkProvider ε []) ops) = None.
Proof.
  intros ops.
  split; [rewrite (auth_refines_keys (λ k, k) (λ k k' H, H) ε ops "k2")
         |rewrite (auth_refines_keys (λ k, k) (λ k k' H, H) ε ops "k1")];
    vm_compute; reflexivity.
Defined.

(** ** Audit *)

Inductive AuditEventType :=
| AUTH_SUCCESS | AUTH_FAILURE | KEY_ROTATION | TENANT_DENIED | WEBSOCKET_DEPRECATED.

Definition AuditEventType_value (t : AuditEventType) : string :=
  match t with
  | AUTH_SUCCESS => "auth.success"
  | AUTH_FAILURE => "auth.failure"
  | KEY_ROTATION => "auth.key_rotation"
  | TENANT_DENIED => "tenant.denied"
  | WEBSOCKET_DEPRECATED => "websocket.deprecated_auth"
  end.

Record AuditEvent := mkAuditEvent {
  ae_event_id : string;
  ae_event_type : AuditEventType;
  ae_tenant_id : string;
  ae_agent_id : string;
  ae_execution_id : string;
  ae_detail : string;
  ae_timestamp : Z
}.

(** The recorder's logger writes to a sink; identifiers and times are streams. *)
Record AuditState := mkAuditState {
  as_sink : list LogRecord;
  as_uuids : nat;
  as_ticks : nat
}.

Section Audit.
Variable clock : nat → Z.
Variable uuid : nat → string.
Variable logger : option RuntimeLogger.

Definition audit_record (e : AuditEvent) : M AuditState unit :=
  match logger with
  | None => mret tt
  | Some l => modify (λ s : AuditState,
      mkAuditState
        (log_to l LInfo (str_or (ae_detail e) (AuditEventType_value (ae_event_type e)))
           [ ("audit_event_id", VStr (ae_event_id e));
             ("audit_event_type", VStr (AuditEventType_value (ae_event_type e)));
             ("tenant_id", VStr (ae_tenant_id e));
             ("agent_id", VStr (ae_agent_id e));
             ("execution_id", VStr (ae_execution_id e)) ] (as_sink s))
        (as_uuids s) (as_ticks s))
  end.

Definition new_audit_event (t : AuditEventType) (tenant_id agent_id execution_id detail : string)
    : M AuditState AuditEvent := λ s,
  (Ok (mkAuditEvent (uuid (as_uuids s)) t tenant_id agent_id execution_id detail
         (clock (as_ticks s))),
   mkAuditState (as_sink s) (S (as_uuids s)) (S (as_ticks s))).

Definition record_event (t : AuditEventType) (tenant_id agent_id execution_id detail : string)
    : M AuditState AuditEvent :=
  event ← new_audit_event t tenant_id agent_id execution_id detail;
  audit_record event ;;
  mret event.

Definition record_auth_failure (tenant_id detail : string) : M AuditState AuditEvent :=
  record_event AUTH_FAILURE tenant_id ε ε (str_or detail "Authentication failed").
Definition record_auth_success (tenant_id agent_id : string) : M AuditState AuditEvent :=
  record_event AUTH_SUCCESS tenant_id agent_id ε "Authentication succeeded".
Definition record_key_rotation (tenant_id detail : string) : M AuditState AuditEvent :=
  record_event KEY_ROTATION tenant_id ε ε (str_or detail "API key rotated").
Definition record_tenant_denied (tenant_id execution_id detail : string)
    : M AuditState AuditEvent :=
  record_event TENANT_DENIED tenant_id ε execution_id (str_or detail "Cross-tenant access denied").
Definition record_websocket_deprecated (tenant_id detail : string) : M AuditState AuditEvent :=
  record_event WEBSOCKET_DEPRECATED tenant_id ε ε
    (str_or detail "WebSocket deprecated auth method used").

(** Recording appends at most one line and never loses one; the event returned
    is the one logged. *)
Lemma record_event_appends t tenant agent x detail s : ∃ e line,
  (record_event t tenant agent x detail s).1 = Ok e
  ∧ as_sink (record_event t tenant agent x detail s).2 = as_sink s ++ line
  ∧ ae_event_id e = uuid (as_uuids s)
  ∧ length line = match logger with Some _ => 1%nat | None => 0%nat end.
Proof.
  unfold record_event, audit_record, new_audit_event, log_to. m_unfold.
  destruct logger as [l|]; simpl; eexists _, _; (split; [reflexivity|]).
  - by split_and!.
  - split; [by rewrite app_nil_r|done].
Qed.
End Audit.
