(* ===== verification/Api.v ===== *)
(** * The REST and WebSocket API ([api/rest/app.py], [api/schemas/models.py])

    The endpoint functions of [create_app], over any collaborators of the
    runtime and any event publisher, with the application's state: the executions table, the event
    publisher, the metrics registry and the auth provider. Routing, request
    validation and the socket itself belong to the web framework; an endpoint is
    a function of its arguments. An [HTTPException] is a value of [http], any
    other exception is answered by the general handler. *)
From S2P Require Import Prelude PyStr PyDict PyVal ExecState Observability Events Publisher Abi Runtime RuntimeSpec RuntimeProps.
From S2P Require Import Tenant Isolation Quotas Auth.

(** ** Contracts *)

Record IntentRequest := mkIntentRequest {
  iq_agent_id : string;
  iq_action : string;
  iq_parameters : dict pyval
}.

Record ExecutionResponse := mkExecResponse {
  xr_execution_id : string;
  xr_success : bool;
  xr_state : string;
  xr_checkpoint_id : option string;
  xr_data : dict pyval;
  xr_error : option string
}.

Record ExecutionStatusResponse := mkStatusResponse {
  xs_execution_id : string;
  xs_state : string;
  xs_agent_id : string;
  xs_action : string;
  xs_success : bool;
  xs_error : option string
}.

Record ErrorResponse := mkErrorResponse { er_body_error : string; er_body_code : string }.

Record HealthResponse := mkHealth { hr_status : string; hr_version : string; hr_runtime : string }.
Definition HealthResponse_default : HealthResponse :=
  mkHealth "ok" "1.0.0-rc.1" "kitematic-runtime".

(** An entry of [app.state.executions]. *)
Record ExecutionRecord := mkExecRecord {
  rc_execution_id : string;
  rc_success : bool;
  rc_state : string;
  rc_agent_id : string;
  rc_action : string;
  rc_tenant_id : string;
  rc_checkpoint_id : option string;
  rc_error : option string;
  rc_created_at : string
}.

Definition _status_code_to_code (status_code : Z) : string :=
  match status_code with
  | 400 => "BAD_REQUEST"
  | 401 => "UNAUTHORIZED"
  | 403 => "FORBIDDEN"
  | 404 => "NOT_FOUND"
  | 422 => "VALIDATION_ERROR"
  | 429 => "RATE_LIMITED"
  | 500 => "INTERNAL_ERROR"
  | 503 => "SERVICE_UNAVAILABLE"
  | _ => "UNKNOWN"
  end%Z.

(** What an endpoint answers: its response model, or an [HTTPException]. *)
Inductive http (A : Type) := Response (a : A) | HttpError (status : Z) (detail : string).
Arguments Response {A}.
Arguments HttpError {A}.

(** Status code and body after the two exception handlers. *)
Definition handled {A} (ok_status : Z) (o : outcome (http A)) : Z * (A + ErrorResponse) :=
  match o with
  | Ok (Response a) => (ok_status, inl a)
  | Ok (HttpError status detail) =>
      (status, inr (mkErrorResponse detail (_status_code_to_code status)))
  | Raise e => (500%Z, inr (mkErrorResponse (exn_str e) "INTERNAL_ERROR"))
  end.

(** ** The application

    The runtime and the objects [create_app] makes for itself: the publisher and
    the metrics registry are not the runtime's. [startup_time], which nothing
    reads, is left out. *)

Record App (E P : Type) := mkApp {
  ap_world : World E;
  ap_provider : APIKeyAuthProvider;
  ap_publisher : P;
  ap_metrics : MetricsRegistry;
  ap_executions : dict ExecutionRecord;
  ap_ticks : nat;
  ap_uuids : nat
}.
Arguments mkApp {E P}.
Arguments ap_world {E P}.
Arguments ap_provider {E P}.
Arguments ap_publisher {E P}.
Arguments ap_metrics {E P}.
Arguments ap_executions {E P}.
Arguments ap_ticks {E P}.
Arguments ap_uuids {E P}.

Section App.
Context {E : Type} `{!PolicyEvaluator E, !IntentRouter E, !ToolGateway E, !StatePersistence E}.
Context {P : Type} `{!EventPublisher P}.
Variable clock obs_clock : nat → Z.
Variable uuid : nat → string.
Variable ob : Observers.
(** The clock and the identifiers the API module reads itself. *)
Variable api_clock : nat → Z.
Variable api_uuid : nat → string.
Variable _fingerprint : string → string.
Implicit Types s : App E P.

Definition ap_count (metric : string) : M (App E P) unit := modify (λ s : App E P,
  mkApp (ap_world s) (ap_provider s) (ap_publisher s) (increment metric 1 (ap_metrics s))
    (ap_executions s) (ap_ticks s) (ap_uuids s)).

Definition ap_now : M (App E P) Z := λ s,
  (Ok (api_clock (ap_ticks s)),
   mkApp (ap_world s) (ap_provider s) (ap_publisher s) (ap_metrics s) (ap_executions s)
     (S (ap_ticks s)) (ap_uuids s)).

Definition ap_new_uuid : M (App E P) string := λ s,
  (Ok (api_uuid (ap_uuids s)),
   mkApp (ap_world s) (ap_provider s) (ap_publisher s) (ap_metrics s) (ap_executions s)
     (ap_ticks s) (S (ap_uuids s))).

Definition on_runtime_world {A} (m : M (World E) A) : M (App E P) A :=
  zoom ap_world (λ w s, mkApp w (ap_provider s) (ap_publisher s) (ap_metrics s) (ap_executions s)
                          (ap_ticks s) (ap_uuids s)) m.

Definition store_execution (r : ExecutionRecord) : M (App E P) unit := modify (λ s : App E P,
  mkApp (ap_world s) (ap_provider s) (ap_publisher s) (ap_metrics s)
    (dict_set (rc_execution_id r) r (ap_executions s)) (ap_ticks s) (ap_uuids s)).

Definition put_publisher (p : P) s : App E P :=
  mkApp (ap_world s) (ap_provider s) p (ap_metrics s) (ap_executions s) (ap_ticks s) (ap_uuids s).

Definition on_publisher {A} (m : M P A) : M (App E P) A := zoom ap_publisher put_publisher m.

(** The dependency of the protected endpoints; the key is the X-API-Key header or
    the empty string. *)
Definition get_auth_context (api_key : string) : M (App E P) (http AuthContext) :=
  p ← read (λ s : App E P, ap_provider s);
  match authenticate _fingerprint api_key p with
  | None => ap_count "security.auth.failed" ;;
            mret (HttpError 401 "Invalid or missing API key")
  | Some ctx => mret (Response ctx)
  end.

Definition submit_intent (req : IntentRequest) (auth : AuthContext) (x_tenant_id x_agent_id : string)
    : M (App E P) (http ExecutionResponse) :=
  let tenant_id := str_or x_tenant_id (au_tenant_id auth) in
  let agent_id := str_or x_agent_id (str_or (au_agent_id auth) (iq_agent_id req)) in
  intent_time ← ap_now;
  let intent := mkIntent (iq_agent_id req) (iq_action req) (iq_parameters req) intent_time in
  result ← on_runtime_world (execute_intent clock obs_clock uuid ob intent);
  now ← ap_now;
  store_execution (mkExecRecord (er_execution_id result) (er_success result)
    (ExecutionState_value (er_state result)) (iq_agent_id req) (iq_action req) tenant_id
    (er_checkpoint_id result) (er_error result) (isoformat now)) ;;
  ap_count "api.intents_submitted" ;;
  ap_count (if er_success result then "api.intents_succeeded" else "api.intents_failed") ;;
  event_id ← ap_new_uuid;
  created_at ← ap_now;
  let event := mkEvent event_id (er_execution_id result) tenant_id (Some agent_id)
    (EKStr "execution.completed")
    [ ("success", VBool (er_success result));
      ("state", VStr (ExecutionState_value (er_state result)));
      ("error", VOptStr (er_error result)) ] created_at "1.0" in
  on_publisher (ep_publish event) ;;
  mret (Response (mkExecResponse (er_execution_id result) (er_success result)
    (ExecutionState_value (er_state result)) (er_checkpoint_id result) (er_data result)
    (er_error result))).

Definition access_denied {A} : http A := HttpError 403 "Execution not found or access denied".

Definition status_of (r : ExecutionRecord) : ExecutionStatusResponse :=
  mkStatusResponse (rc_execution_id r) (rc_state r) (rc_agent_id r) (rc_action r) (rc_success r)
    (rc_error r).

Definition api_execution_status (execution_id : string) (auth : AuthContext)
    : M (App E P) (http ExecutionStatusResponse) :=
  record ← read (λ s : App E P, dict_get execution_id (ap_executions s));
  match record with
  | None => mret access_denied
  | Some r =>
      if truthy (rc_tenant_id r) && negb (String.eqb (rc_tenant_id r) (au_tenant_id auth)) then
        ap_count "security.tenant.denied" ;;
        mret access_denied
      else mret (Response (status_of r))
  end.

Definition api_metrics : M (App E P) (http MetricsSnapshot) :=
  m ← read (λ s : App E P, ap_metrics s);
  snap ← of_outcome (snapshot m);
  mret (Response snap).

Definition health_check : http HealthResponse := Response HealthResponse_default.

(** [_ws_authenticate]: the two headers, lower-cased names, and the query
    parameter. The deprecation warning goes to the module's own logger. *)
Definition _ws_authenticate (authorization ws_protocol api_key : string)
    : M (App E P) (option AuthContext) :=
  p ← read (λ s : App E P, ap_provider s);
  if str_startswith "Bearer " authorization then
    mret (authenticate _fingerprint (str_drop 7 authorization) p)
  else
    let from_protocol :=
      if truthy ws_protocol && str_startswith "kitematic." ws_protocol
      then authenticate _fingerprint (str_drop 10 ws_protocol) p else None in
    match from_protocol with
    | Some ctx => mret (Some ctx)
    | None =>
        if truthy api_key then
          match authenticate _fingerprint api_key p with
          | Some ctx => ap_count "security.websocket.deprecated" ;; mret (Some ctx)
          | None => mret None
          end
        else mret None
    end.

(** The socket endpoint up to its message loop: [None] when the connection is
    closed with code 4001, otherwise the queue it streams from. *)
Definition open_events (execution_id authorization ws_protocol api_key : string)
    : M (App E P) (option nat) :=
  ctx ← _ws_authenticate authorization ws_protocol api_key;
  match ctx with
  | None => mret None
  | Some c => queue ← on_publisher (ep_subscribe execution_id (au_tenant_id c));
              mret (Some queue)
  end.

(** Its [finally] clause. *)
Definition close_events (execution_id : string) (queue : nat) : M (App E P) unit :=
  on_publisher (ep_unsubscribe execution_id queue).

(** The second half of [lifespan]. *)
Definition shutdown_app : M (App E P) unit :=
  on_runtime_world (on_obs (log (ob_logger ob) LInfo "API shutting down" [])) ;;
  on_runtime_world (stop ob) ;;
  on_publisher ep_close_all ;;
  on_runtime_world (on_obs (log (ob_logger ob) LInfo "API shutdown complete" [])).

(** ** What the endpoints do to the executions table *)

Definition core_of s : Core E := w_core (ap_world s).

Definition intent_of (req : IntentRequest) (now : Z) : Intent :=
  mkIntent (iq_agent_id req) (iq_action req) (iq_parameters req) now.

(** The response and the record a result of the runtime gives. *)
Definition response_of (r : ExecutionResult) : ExecutionResponse :=
  mkExecResponse (er_execution_id r) (er_success r) (ExecutionState_value (er_state r))
    (er_checkpoint_id r) (er_data r) (er_error r).

Definition record_of (req : IntentRequest) (tenant : string) (r : ExecutionResult) (now : Z)
    : ExecutionRecord :=
  mkExecRecord (er_execution_id r) (er_success r) (ExecutionState_value (er_state r))
    (iq_agent_id req) (iq_action req) tenant (er_checkpoint_id r) (er_error r) (isoformat now).

#[local] Arguments authenticate : simpl never.
#[local] Arguments str_startswith : simpl never.
#[local] Arguments str_drop : simpl never.
#[local] Arguments increment : simpl never.

(** The event of a submitted intent's result. *)
Definition event_for (tenant agent id : string) (now : Z) (r : ExecutionResult) : ExecutionEvent :=
  mkEvent id (er_execution_id r) tenant (Some agent) (EKStr "execution.completed")
    [ ("success", VBool (er_success r));
      ("state", VStr (ExecutionState_value (er_state r)));
      ("error", VOptStr (er_error r)) ] now "1.0".

(** Computations that return and touch none of the runtime, the publisher and the
    table; and those that end by publishing the event of a result. *)
Definition quiet {A} (m : M (App E P) A) : Prop := ∀ s, ∃ a s',
  m s = (Ok a, s') ∧ ap_world s' = ap_world s ∧ ap_publisher s' = ap_publisher s
  ∧ ap_executions s' = ap_executions s.

Definition publishes {A} (tenant : string) (r : ExecutionResult) (a : A) (m : M (App E P) A) : Prop :=
  ∀ s, ∃ agent id now',
    let '(op, p') := ep_publish (event_for tenant agent id now' r) (ap_publisher s) in
    let '(o, s') := m s in
    o = match op with Ok _ => Ok a | Raise e => Raise e end
    ∧ ap_publisher s' = p' ∧ ap_world s' = ap_world s ∧ ap_executions s' = ap_executions s.

Lemma publishes_bind {A B} tenant r (b : B) (m : M (App E P) A) (k : A → M (App E P) B) :
  quiet m → (∀ a, publishes tenant r b (k a)) → publishes tenant r b (m ≫= k).
Proof.
  intros Hm Hk s. destruct (Hm s) as (a & s1 & H1 & Hw & Hp & Hx).
  destruct (Hk a s1) as (agent & id & now & H). exists agent, id, now.
  rewrite (bind_ok _ _ _ _ _ H1). rewrite Hp in H.
  destruct (ep_publish _ _) as [op p'], (k a s1) as [o s']. rewrite <- Hw, <- Hx. exact H.
Qed.

Lemma api_quiet_count metric : quiet (ap_count metric).
Proof. intros s. by eexists _, _. Qed.
Lemma api_quiet_now : quiet ap_now.
Proof. intros s. by eexists _, _. Qed.
Lemma quiet_uuid : quiet ap_new_uuid.
Proof. intros s. by eexists _, _. Qed.

Lemma publishes_event {A} tenant agent id now r (a : A) :
  publishes tenant r a (on_publisher (ep_publish (event_for tenant agent id now r)) ;; mret a).
Proof.
  intros s. exists agent, id, now. unfold on_publisher, zoom, mbind, M_bind.
  by destruct (ep_publish _ _) as [[[]|e] p'].
Qed.

(** What a submission does: the runtime executes the intent; its result is
    recorded, then published, and answered if the publisher took it. *)
Lemma submit_effect req auth xt xa s : ∃ now agent id now',
  let '(o, s') := submit_intent req auth xt xa s in
  let '(o1, w1) := execute_intent clock obs_clock uuid ob
                     (intent_of req (api_clock (ap_ticks s))) (ap_world s) in
  let tenant := str_or xt (au_tenant_id auth) in
  ap_world s' = w1
  ∧ match o1 with
    | Ok r =>
        let '(op, p') := ep_publish (event_for tenant agent id now' r) (ap_publisher s) in
        o = match op with Ok _ => Ok (Response (response_of r)) | Raise e => Raise e end
        ∧ ap_publisher s' = p'
        ∧ ap_executions s' = dict_set (er_execution_id r) (record_of req tenant r now) (ap_executions s)
    | Raise e => o = Raise e ∧ ap_publisher s' = ap_publisher s ∧ ap_executions s' = ap_executions s
    end.
Proof.
  exists (api_clock (S (ap_ticks s))).
  unfold submit_intent. rewrite (bind_ok ap_now _ s _ _ eq_refl).
  change (mkIntent _ _ _ _) with (intent_of req (api_clock (ap_ticks s))).
  set (i := intent_of _ _). set (s1 := mkApp _ _ _ _ _ (S (ap_ticks s)) _).
  destruct (execute_intent clock obs_clock uuid ob i (ap_world s)) as [o1 w1] eqn:Hx.
  set (s2 := mkApp w1 (ap_provider s) (ap_publisher s) (ap_metrics s) (ap_executions s)
               (S (ap_ticks s)) (ap_uuids s)).
  assert (on_runtime_world (execute_intent clock obs_clock uuid ob i) s1 = (o1, s2)) as Hr
    by (unfold on_runtime_world, zoom; cbn [ap_world s1]; by rewrite Hx).
  destruct o1 as [r|e]; [|rewrite (bind_raise _ _ _ _ _ Hr); by exists ε, ε, 0%Z].
  rewrite (bind_ok _ _ _ _ _ Hr), (bind_ok ap_now _ _ _ _ eq_refl),
    (bind_ok (store_execution _) _ _ _ _ eq_refl).
  match goal with |- context [(?m ≫= ?k) ?s3] =>
    assert (publishes (str_or xt (au_tenant_id auth)) r (Response (response_of r)) (m ≫= k)) as Hq;
    [|destruct (Hq s3) as (agent & id & now' & H); exists agent, id, now';
      destruct (ep_publish _ _) as [op p'], ((m ≫= k) s3) as [o s']]
  end.
  { do 2 (apply publishes_bind; [apply api_quiet_count|intros []]).
    apply publishes_bind; [apply quiet_uuid|intros id].
    apply publishes_bind; [apply api_quiet_now|intros created_at]. apply publishes_event. }
  destruct H as (-> & -> & -> & ->). by split_and!.
Qed.

Lemma status_frame x auth s :
  ap_world (api_execution_status x auth s).2 = ap_world s
  ∧ ap_executions (api_execution_status x auth s).2 = ap_executions s.
Proof.
  unfold api_execution_status, ap_count. m_unfold.
  destruct (dict_get x (ap_executions s)) as [r|]; [|done]. by destruct (_ && _).
Qed.

Lemma ws_frame a b c s :
  ap_world (_ws_authenticate a b c s).2 = ap_world s
  ∧ ap_executions (_ws_authenticate a b c s).2 = ap_executions s.
Proof. unfold _ws_authenticate, ap_count. m_unfold. by repeat (case_match; simplify_eq/=). Qed.

(** Requests the application serves, whatever they answer. *)
Inductive api_step s : App E P → Prop :=
| api_submit req auth xt xa : api_step s (submit_intent req auth xt xa s).2
| api_status x auth : api_step s (api_execution_status x auth s).2
| api_auth key : api_step s (get_auth_context key s).2
| api_open x a b c : api_step s (open_events x a b c s).2
| api_close x q : api_step s (close_events x q s).2
| api_shutdown : api_step s (shutdown_app s).2.

(** Every record is filed under an identifier the runtime has already given out. *)
Definition app_inv s : Prop := ∀ x r, dict_get x (ap_executions s) = Some r →
  ∃ n, (n < rt_uuids (core_of s))%nat ∧ x = uuid n.

Context (uuid_inj : ∀ m n, uuid m = uuid n → m = n).

Definition records_kept s s' : Prop := app_inv s → app_inv s'
  ∧ ∀ x r, dict_get x (ap_executions s) = Some r → dict_get x (ap_executions s') = Some r.

#[export] Instance records_kept_preorder : PreOrder records_kept.
Proof.
  split; [by intros s HI|]. intros s1 s2 s3 H1 H2 HI.
  destruct (H1 HI) as [HI2 K1], (H2 HI2) as [HI3 K2]. split; auto.
Qed.

Lemma same_table_kept s s' :
  rt_uuids (core_of s') = rt_uuids (core_of s) → ap_executions s' = ap_executions s →
  records_kept s s'.
Proof. intros Hu Hx HI. unfold app_inv. rewrite Hu, Hx. auto. Qed.

Lemma submit_kept req auth xt xa s : records_kept s (submit_intent req auth xt xa s).2.
Proof using uuid_inj.
  intros HI. destruct (submit_effect req auth xt xa s) as (now & agent & id & now' & H).
  destruct (submit_intent req auth xt xa s) as [o s'].
  set (i := intent_of _ _) in H. pose proof (execute_post clock obs_clock uuid ob i (ap_world s)) as Hp.
  cbv zeta in Hp. destruct (execute_intent clock obs_clock uuid ob i (ap_world s)) as [o1 w1].
  cbn [fst snd] in *. destruct H as [Hw H].
  assert (rt_uuids (core_of s') = S (rt_uuids (core_of s))) as Hu
    by (unfold core_of; rewrite Hw; apply (ep_uuids _ _ _ _ Hp)).
  destruct o1 as [r|e]; [destruct (ep_publish _ _)|]; destruct H as (_ & _ & Hx);
    unfold app_inv; rewrite Hx, Hu.
  - destruct (ep_result _ _ _ _ Hp r eq_refl) as (Hid & _). rewrite Hid. split.
    + intros x rec. rewrite dict_get_set. case_decide as Hd; intros Hg.
      * exists (rt_uuids (core_of s)). split; [lia|done].
      * destruct (HI _ _ Hg) as (n & Hn & ->). exists n. split; [lia|done].
    + intros x rec Hg. rewrite dict_get_set_ne; [done|]. intros ->.
      destruct (HI _ _ Hg) as (n & Hn & Heq). apply uuid_inj in Heq. unfold core_of in Hn. lia.
  - split; [|done]. intros x rec Hg. destruct (HI _ _ Hg) as (n & Hn & ->).
    exists n. split; [lia|done].
Qed.

(** Computations that leave the count of identifiers and the table. *)
Definition tabled {A} (m : M (App E P) A) : Prop := ∀ s,
  rt_uuids (core_of (m s).2) = rt_uuids (core_of s) ∧ ap_executions (m s).2 = ap_executions s.

Lemma tabled_bind {A B} (m : M (App E P) A) (k : A → M (App E P) B) :
  tabled m → (∀ a, tabled (k a)) → tabled (m ≫= k).
Proof.
  intros Hm Hk s. destruct (Hm s) as [Hu Hx]. unfold mbind, M_bind.
  destruct (m s) as [[a|e] s1]; [|done]. destruct (Hk a s1). cbn [snd] in *. split; congruence.
Qed.

Lemma tabled_publisher {A} (m : M P A) : tabled (on_publisher m).
Proof. intros s. unfold on_publisher, zoom. by destruct (m (ap_publisher s)). Qed.

Lemma tabled_obs {A} (m : M Obs A) : tabled (on_runtime_world (on_obs m)).
Proof.
  intros s. unfold on_runtime_world, on_obs, zoom. by destruct (m (w_obs (ap_world s))).
Qed.

Lemma tabled_stop : tabled (on_runtime_world (stop ob)).
Proof.
  intros s. unfold on_runtime_world, zoom, core_of. pose proof (stop_core ob (ap_world s)) as Hs.
  destruct (stop ob (ap_world s)) as [o w]. cbn [snd ap_world ap_executions] in *. rewrite Hs.
  split; [|done]. by destruct (rt_state _).
Qed.

Lemma shutdown_frame : tabled shutdown_app.
Proof.
  apply tabled_bind; [apply tabled_obs|intros _]. apply tabled_bind; [apply tabled_stop|intros _].
  apply tabled_bind; [apply tabled_publisher|intros _]. apply tabled_obs.
Qed.

Lemma api_step_kept s s' : api_step s s' → records_kept s s'.
Proof using uuid_inj.
  intros [req auth xt xa|x auth|key|x a b c|x q|].
  - apply submit_kept.
  - destruct (status_frame x auth s) as [Hw Hx].
    apply same_table_kept; [unfold core_of; by rewrite Hw|done].
  - apply same_table_kept; unfold get_auth_context, ap_count; m_unfold; by case_match.
  - assert (tabled (open_events x a b c)) as Ht; [|destruct (Ht s); by apply same_table_kept].
    apply tabled_bind; [|intros [ctx|]; [|done]].
    + intros s1. destruct (ws_frame a b c s1) as [Hw Hx]. unfold core_of. by rewrite Hw.
    + apply tabled_bind; [apply tabled_publisher|done].
  - destruct (tabled_publisher (ep_unsubscribe x q) s). by apply same_table_kept.
  - destruct (shutdown_frame s) as [Hu Hx]. by apply same_table_kept.
Qed.

(** An application that has served nothing yet. *)
Definition fresh_app s : Prop := ap_executions s = [].

(** C5: an execution submitted by an authenticated tenant, without a tenant
    override, stays visible to that tenant with the answer it was given and is
    denied to every other one, whatever requests are served before and after;
    the denial is the one given for an execution that does not exist. *)
Theorem api_tenant_isolation (req : IntentRequest) (auth auth' : AuthContext) (xa : string)
    (s0 s1 s2 : App E P) (resp : ExecutionResponse) :
  fresh_app s0 → star api_step s0 s1 → au_tenant_id auth ≠ ε →
  (submit_intent req auth ε xa s1).1 = Ok (Response resp) →
  star api_step (submit_intent req auth ε xa s1).2 s2 →
  (api_execution_status (xr_execution_id resp) auth' s2).1
  = Ok (if decide (au_tenant_id auth' = au_tenant_id auth)
        then Response (mkStatusResponse (xr_execution_id resp) (xr_state resp) (iq_agent_id req)
                         (iq_action req) (xr_success resp) (xr_error resp))
        else access_denied)
  ∧ ∀ x, dict_get x (ap_executions s2) = None →
      (api_execution_status x auth' s2).1 = Ok access_denied.
Proof using uuid_inj.
  intros Hf H1 Ht Hsub H2. split.
  2:{ intros x Hx. unfold api_execution_status. m_unfold. by rewrite Hx. }
  assert (app_inv s0) as HI0 by (unfold app_inv; rewrite Hf; done).
  destruct (star_preorder api_step records_kept _ _ api_step_kept H1 HI0) as [HI1 _].
  destruct (submit_kept req auth ε xa s1 HI1) as [HI2 _].
  destruct (star_preorder api_step records_kept _ _ api_step_kept H2 HI2) as [_ Hkept].
  destruct (submit_effect req auth ε xa s1) as (now & agent & id & now' & Heff).
  destruct (submit_intent req auth ε xa s1) as [o s'].
  destruct (execute_intent _ _ _ _ _ (ap_world s1)) as [[r|e] w1]; cbn [fst snd] in *;
    [destruct (ep_publish _ _) as [[[]|e] p']|]; destruct Heff as (_ & -> & _ & Hx); try done.
  injection Hsub as <-.
  assert (dict_get (er_execution_id r) (ap_executions s2)
          = Some (record_of req (au_tenant_id auth) r now)) as Hg
    by (apply Hkept; rewrite Hx; apply dict_get_set_eq).
  unfold api_execution_status. m_unfold. cbn [xr_execution_id response_of]. rewrite Hg.
  cbn [rc_tenant_id record_of]. rewrite (proj2 (truthy_true _) Ht). cbn [andb].
  destruct (String.eqb_spec (au_tenant_id auth) (au_tenant_id auth')) as [Heq|Hne]; cbn [negb].
  - by rewrite decide_True.
  - by rewrite decide_False.
Qed.
End App.

(** ** A concrete application *)

Definition demo_app : App unit InMemoryEventPublisher :=
  mkApp (demo_world RUNNING) (mkProvider ε []) InMemoryEventPublisher_new MetricsRegistry_new [] 0 0.
Definition demo_submit (auth : AuthContext) (x_tenant_id : string) (s : App unit InMemoryEventPublisher)
    : outcome (http ExecutionResponse) * App unit InMemoryEventPublisher :=
  @submit_intent unit (demo_policy true) demo_router demo_gateway demo_store _ memory_publisher
    demo_clock demo_clock demo_uuid demo_observers demo_clock demo_uuid
    (mkIntentRequest "a1" "act" []) auth x_tenant_id ε s.

Definition tenant_a : AuthContext := mkAuth "tenant-a" "a1" [].
Definition tenant_b : AuthContext := mkAuth "tenant-b" "b1" [].

Lemma api_tenant_isolation_witness :
  ∃ resp, (demo_submit tenant_a ε demo_app).1 = Ok (Response resp)
    ∧ (api_execution_status (E := unit) (xr_execution_id resp) tenant_b
         (demo_submit tenant_a ε demo_app).2).1 = Ok access_denied.
Proof.
  eexists. split; [vm_compute; reflexivity|].
  refine (proj1 (@api_tenant_isolation unit (demo_policy true) demo_router demo_gateway demo_store _ memory_publisher
    demo_clock demo_clock demo_uuid demo_observers demo_clock demo_uuid (λ k, k) demo_uuid_inj
    (mkIntentRequest "a1" "act" []) tenant_a tenant_b ε demo_app demo_app
    (demo_submit tenant_a ε demo_app).2 _ eq_refl star_refl _ _ star_refl));
    [discriminate|vm_compute; reflexivity].
Defined.

(** The tenant of a record is the caller's [x_tenant_id] argument when there is
    one: a tenant can file its execution under another one, who sees it, and
    lose sight of it. *)
Example demo_tenant_override :
  let '(o, s) := demo_submit tenant_a "tenant-b" demo_app in
  (api_execution_status (E := unit) "exec-0" tenant_a s).1 = Ok access_denied
  ∧ match (api_execution_status (E := unit) "exec-0" tenant_b s).1 with
    | Ok (Response r) => xs_success r = true
    | _ => False
    end.
Proof. vm_compute. done. Qed.
