(* ===== verification/Sockets.v ===== *)
(** * Event sockets ([api/rest/app.py], the WebSocket endpoint)

    What a connected client is sent. The endpoint starts a task that takes the
    items of the client's queue and sends them, and waits for the client to
    leave; both are resumed by the event loop at their awaits, between which the
    rest of the application runs. A resumption is one step here, and a step
    that sends may fail, as it does when the connection is gone. *)
From S2P Require Import Prelude PyStr PyDict PyVal ExecState Auth Observability Tenant Abi.
From S2P Require Import Runtime RuntimeSpec RuntimeProps Events Publisher Api.

(** ** The endpoint *)

(** [await queue.get()]: [None] while the queue is empty and the task waits. *)
Definition queue_get (q : nat) (p : InMemoryEventPublisher)
    : option (queue_item * InMemoryEventPublisher) :=
  match pub_queues p !! q with
  | Some (item :: items) =>
      Some (item, mkPub (pub_subscribers p) (<[q := items]> (pub_queues p)))
  | _ => None
  end.

(** Where [listen_queue] is suspended, or that its task is over. *)
Inductive listener := Getting | Sending (event : dict pyval) | Ending | Finished.

Record Socket := mkSocket {
  so_execution_id : string;
  so_queue : nat;
  so_listener : listener;
  so_sent : list (dict pyval);
  so_connected : bool
}.

Definition stream_ended (execution_id : string) : dict pyval :=
  [("type", VStr "stream.ended"); ("execution_id", VStr execution_id)].

(** After [accept]: the subscription, and the task that listens. *)
Definition open_socket (execution_id tenant_id : string) (p : InMemoryEventPublisher)
    : Socket * InMemoryEventPublisher :=
  let '(queue, p') := subscribe execution_id tenant_id p in
  (mkSocket execution_id queue Getting [] true, p').

Definition set_listener (l : listener) (so : Socket) : Socket :=
  mkSocket (so_execution_id so) (so_queue so) l (so_sent so) (so_connected so).

(** [await websocket.send_json(message)], then [l]; a failure ends the task. *)
Definition send_json (delivered : bool) (message : dict pyval) (l : listener) (so : Socket)
    : Socket :=
  if delivered
  then mkSocket (so_execution_id so) (so_queue so) l (so_sent so ++ [message]) (so_connected so)
  else set_listener Finished so.

(** One resumption of [listen_queue]. *)
Definition listen_queue (delivered : bool) (so : Socket) (p : InMemoryEventPublisher)
    : option (Socket * InMemoryEventPublisher) :=
  match so_listener so with
  | Getting =>
      match queue_get (so_queue so) p with
      | Some (QEvent event, p') => Some (set_listener (Sending event) so, p')
      | Some (QEnd, p') => Some (set_listener Ending so, p')
      | None => None
      end
  | Sending event => Some (send_json delivered event Getting so, p)
  | Ending => Some (send_json delivered (stream_ended (so_execution_id so)) Finished so, p)
  | Finished => None
  end.

(** The [finally] clause, when the client has left. *)
Definition leave (so : Socket) (p : InMemoryEventPublisher) : Socket * InMemoryEventPublisher :=
  (mkSocket (so_execution_id so) (so_queue so) Finished (so_sent so) false,
   unsubscribe (so_execution_id so) (so_queue so) p).

(** ** A socket among everything else that uses the publisher *)

(** [sc_log] is what was ever put in the socket's queue; [sc_own] whose each
    queue is, as in [pub_step]. *)
Record Scene := mkScene {
  sc_own : list (string * string);
  sc_log : list queue_item;
  sc_socket : Socket;
  sc_pub : InMemoryEventPublisher
}.

Inductive socket_step : Scene → Scene → Prop :=
| sk_listen own log so p delivered so' p' :
    listen_queue delivered so p = Some (so', p') →
    socket_step (mkScene own log so p) (mkScene own log so' p')
| sk_leave own log so p so' p' :
    so_connected so = true → leave so p = (so', p') →
    socket_step (mkScene own log so p) (mkScene own log so' p')
| sk_other own log so p own' p' items new :
    pub_step (own, p) (own', p') →
    pub_queues p !! so_queue so = Some items →
    pub_queues p' !! so_queue so = Some (items ++ new) →
    socket_step (mkScene own log so p) (mkScene own' (log ++ new) so p').

(** What the items of a queue look like to the client: the events up to the end
    mark, which becomes the closing message. *)
Fixpoint frames (x : string) (items : list queue_item) : list (dict pyval) :=
  match items with
  | [] => []
  | QEvent d :: items' => d :: frames x items'
  | QEnd :: _ => [stream_ended x]
  end.

Definition is_end (item : queue_item) : bool := match item with QEnd => true | _ => false end.
Definition ended (items : list queue_item) : bool := existsb is_end items.

Lemma frames_app x c l : ended c = false → frames x (c ++ l) = frames x c ++ frames x l.
Proof. induction c as [|[d|] c IH]; cbn; [done| |done]. intros H. by rewrite IH. Qed.

Lemma frames_prefix x c l : frames x c `prefix_of` frames x (c ++ l).
Proof.
  induction c as [|[d|] c IH]; cbn; [apply prefix_nil| |done]. by apply prefix_cons.
Qed.

Lemma ended_snoc c i : ended (c ++ [i]) = ended c || is_end i.
Proof. unfold ended. rewrite existsb_app. cbn. by rewrite orb_false_r. Qed.

(** ** What one operation of the publisher does to one queue *)

(** An operation only adds items to a queue, and leaves one that is no longer
    subscribed alone. *)
Lemma pub_step_queue own p own' p' q x t items :
  pub_inv own p → pub_step (own, p) (own', p') →
  own !! q = Some (x, t) → pub_queues p !! q = Some items →
  own' !! q = Some (x, t)
  ∧ ∃ new, pub_queues p' !! q = Some (items ++ new)
    ∧ ((∀ t, (q, t) ∉ subs_of p x) → new = [] ∧ ∀ t, (q, t) ∉ subs_of p' x).
Proof.
  intros [Hl Hs Hi] Hst Hown Hq.
  assert (∀ y t', (q, t') ∈ subs_of p y → y = x) as Hy.
  { intros y t' Hin. apply Hs in Hin. by rewrite Hown in Hin; simplify_eq. }
  inversion Hst as [? y u ? q' ? Hsub|? y q' ?|? e d ? Hd|? y ?]; subst.
  - injection Hsub as <- <-. split; [by apply lookup_app_l_Some|]. exists [].
    rewrite app_nil_r. split; [by apply lookup_app_l_Some|].
    intros Hn. split; [done|]. intros t'. rewrite subs_of_set. case_decide; [subst|apply Hn].
    intros [Hin|Heq%list_elem_of_singleton]%elem_of_app; [by destruct (Hn t')|].
    injection Heq as -> ->. apply lookup_lt_Some in Hq. lia.
  - split; [done|]. exists []. rewrite app_nil_r. split; [done|].
    intros Hn. split; [done|]. intros t'. unfold unsubscribe. rewrite subs_of_set.
    case_decide; [subst|apply Hn]. intros [_ Hin]%list_elem_of_filter. by destruct (Hn t').
  - split; [done|]. cbn [deliver pub_queues].
    destruct (puts_grow (QEvent d)
      (λ s, tenant_match s.2 (ev_tenant_id e)) (subs_of p (ev_execution_id e)) _ _ _ Hq)
      as (new & Hn & _ & H0). exists new. split; [done|].
    intros Hns. split; [|done]. apply H0. intros t' Hin.
    rewrite (Hy _ _ Hin) in Hin. by destruct (Hns t').
  - split; [done|].
    destruct (puts_grow QEnd (λ _, true) (subs_of p y) _ _ _ Hq) as (new & Hn & _ & H0).
    exists new. split; [done|].
    intros Hns. split.
    + apply H0. intros t' Hin. pose proof (Hy _ _ Hin) as ->. by destruct (Hns t').
    + intros t'. unfold subs_of, pub_close, dict_get_or. cbn. rewrite dict_get_del.
      case_decide; [cbn; set_solver|apply Hns].
Qed.

(** Taking an item leaves the subscriptions and the other queues as they are. *)
Lemma queue_get_inv own p q item p' :
  pub_inv own p → queue_get q p = Some (item, p') →
  pub_inv own p' ∧ pub_subscribers p' = pub_subscribers p
  ∧ ∃ items, pub_queues p !! q = Some (item :: items) ∧ pub_queues p' = <[q := items]> (pub_queues p).
Proof.
  intros [Hl Hs Hi]. unfold queue_get. destruct (pub_queues p !! q) as [[|i items]|] eqn:Hq; [done| |done].
  intros [= <- <-]. split; [|split; [done|by exists items]]. split; cbn; [by rewrite length_insert|done|].
  intros q' x t items' Hown. rewrite list_lookup_insert. case_decide as Hd; [|by eauto].
  destruct Hd as [<- _]. intros [= <-]. specialize (Hi _ _ _ _ Hown Hq).
  by apply Forall_cons in Hi as [_ Hi].
Qed.

(** ** The stream of one socket *)

Section Stream.
Context (x t : string).

Definition in_order (l : listener) (consumed : list queue_item) (sent : list (dict pyval)) : Prop :=
  match l with
  | Getting => ended consumed = false ∧ sent = frames x consumed
  | Sending d => ended consumed = false ∧ sent ++ [d] = frames x consumed
  | Ending => sent ++ [stream_ended x] = frames x consumed
  | Finished => sent `prefix_of` frames x consumed
  end.

Record scene_inv (sc : Scene) : Prop := {
  si_pub : pub_inv (sc_own sc) (sc_pub sc);
  si_id : so_execution_id (sc_socket sc) = x;
  si_own : sc_own sc !! so_queue (sc_socket sc) = Some (x, t);
  si_log : ∃ consumed pending, sc_log sc = consumed ++ pending
    ∧ pub_queues (sc_pub sc) !! so_queue (sc_socket sc) = Some pending
    ∧ in_order (so_listener (sc_socket sc)) consumed (so_sent (sc_socket sc));
  si_items : Forall (item_ok x t) (sc_log sc);
  si_left : so_connected (sc_socket sc) = false →
    so_listener (sc_socket sc) = Finished
    ∧ ∀ t', (so_queue (sc_socket sc), t') ∉ subs_of (sc_pub sc) x
}.

Lemma in_order_prefix l consumed sent :
  in_order l consumed sent → sent `prefix_of` frames x consumed.
Proof.
  destruct l; cbn; [by intros [_ ->]|intros [_ <-]|intros <-|done]; by eexists.
Qed.

(** A new subscription starts with nothing sent and nothing to send. *)
Lemma open_inv own p so p' :
  pub_inv own p → open_socket x t p = (so, p') → scene_inv (mkScene (own ++ [(x, t)]) [] so p').
Proof.
  intros Hp. unfold open_socket. destruct (subscribe x t p) as [q p1] eqn:Hsub. intros [= <- <-].
  assert (pub_inv (own ++ [(x, t)]) p1) as Hp1 by (by eapply subscribe_inv).
  assert (q = length own ∧ pub_queues p1 = pub_queues p ++ [[]] ∧ length own = length (pub_queues p))
    as (-> & Hq & Hl) by (destruct Hp; injection Hsub as <- <-; auto).
  split; cbn; [done|done| | |constructor|done].
  - by rewrite lookup_app_r, Nat.sub_diag by lia.
  - exists [], []. split_and!; [done| |done|done]. rewrite Hq, Hl.
    by rewrite lookup_app_r, Nat.sub_diag by lia.
Qed.

Lemma listen_inv own log so p delivered so' p' :
  scene_inv (mkScene own log so p) → listen_queue delivered so p = Some (so', p') →
  scene_inv (mkScene own log so' p').
Proof.
  intros [Hp Hid Ho (c & pend & Hlog & Hq & Hin) Hi Hleft] Hl; cbn in *.
  assert (so_connected so = true ∨ so_listener so = Finished) as Hc
    by (destruct (so_connected so); [by left|right; by apply Hleft]).
  unfold listen_queue in Hl. destruct (so_listener so) eqn:Hls; [| | |done];
    (destruct Hc as [Hc|]; [|done]).
  - destruct (queue_get (so_queue so) p) as [[item p1]|] eqn:Hg; [|done].
    destruct (queue_get_inv _ _ _ _ _ Hp Hg) as (Hp1 & Hsubs & items & Hq1 & Hqs).
    rewrite Hq in Hq1. injection Hq1 as ->. destruct Hin as [He Hs].
    assert (log = (c ++ [item]) ++ items
      ∧ pub_queues p1 !! so_queue so = Some items) as [Hlog' Hq'].
    { rewrite Hlog, <- app_assoc. split; [done|]. rewrite Hqs. apply list_lookup_insert_eq.
      by eapply lookup_lt_Some. }
    destruct item as [d|]; injection Hl as <- <-; split; cbn; try done;
      try (by rewrite Hc); exists (c ++ [QEvent d]), items || exists (c ++ [QEnd]), items;
      (split_and!; [done|done|..]); rewrite ?ended_snoc, ?He, ?frames_app, ?Hs by done; done.
  - injection Hl as <- <-. destruct Hin as [He Hs]. unfold send_json.
    destruct delivered; split; cbn; try done; try (by rewrite Hc); exists c, pend;
      (split_and!; [done..|]); [done|]. rewrite <- Hs. by eexists.
  - injection Hl as <- <-. unfold send_json. rewrite Hid.
    destruct delivered; split; cbn; try done; try (by rewrite Hc); exists c, pend;
      (split_and!; [done..|]); rewrite <- Hin; [done|by eexists].
Qed.

Lemma leave_inv own log so p so' p' :
  scene_inv (mkScene own log so p) → leave so p = (so', p') → scene_inv (mkScene own log so' p').
Proof.
  intros [Hp Hid Ho (c & pend & Hlog & Hq & Hin) Hi _] [= <- <-]; cbn in *.
  rewrite Hid. split; cbn -[subs_of unsubscribe]; [|done|done| |done|].
  - apply (pub_step_inv (own, p) (own, unsubscribe x (so_queue so) p)); [done|constructor].
  - exists c, pend. split_and!; [done|done|]. by apply in_order_prefix in Hin.
  - intros _. split; [done|]. intros t'. unfold unsubscribe. rewrite subs_of_set, decide_True by done.
    by intros [? _]%list_elem_of_filter.
Qed.

Lemma other_inv own log so p own' p' items new :
  scene_inv (mkScene own log so p) → pub_step (own, p) (own', p') →
  pub_queues p !! so_queue so = Some items →
  pub_queues p' !! so_queue so = Some (items ++ new) →
  scene_inv (mkScene own' (log ++ new) so p').
Proof.
  intros [Hp Hid Ho (c & pend & Hlog & Hq & Hin) Hi Hleft] Hst Hq0 Hq'; cbn in *.
  destruct (pub_step_queue _ _ _ _ _ _ _ _ Hp Hst Ho Hq) as (Ho' & new' & Hn & Hsub).
  rewrite Hq in Hq0. injection Hq0 as <-. rewrite Hq' in Hn. injection Hn as Hn.
  apply app_inv_head in Hn as <-.
  assert (pub_inv own' p') as Hp' by (by apply (pub_step_inv (own, p) (own', p'))).
  split; cbn; [done|done|done| | |].
  - exists c, (pend ++ new). by rewrite Hlog, app_assoc.
  - apply Forall_app. split; [done|]. pose proof (pinv_items _ _ Hp' _ _ _ _ Ho' Hq') as Hf.
    by apply Forall_app in Hf as [_ ?].
  - intros Hc. destruct (Hleft Hc) as [? Hns]. split; [done|]. by apply Hsub.
Qed.

Lemma socket_step_inv sc sc' : scene_inv sc → socket_step sc sc' → scene_inv sc'.
Proof.
  intros Hi Hst. destruct Hst; [by eapply listen_inv|by eapply leave_inv|by eapply other_inv].
Qed.

(** Once the client has left, nothing is queued or sent any more. *)
Lemma left_step sc sc' : scene_inv sc → so_connected (sc_socket sc) = false → socket_step sc sc' →
  so_connected (sc_socket sc') = false ∧ so_sent (sc_socket sc') = so_sent (sc_socket sc)
  ∧ sc_log sc' = sc_log sc.
Proof.
  intros [Hp Hid Ho _ _ Hleft] Hc Hst. destruct (Hleft Hc) as [Hf Hns].
  destruct Hst as [own log so p dl so' p' Hl|own log so p so' p' Hc'|own log so p own' p' items new Hps Hq Hq'];
    cbn in *.
  - unfold listen_queue in Hl. by rewrite Hf in Hl.
  - by rewrite Hc in Hc'.
  - destruct (pub_step_queue _ _ _ _ _ _ _ _ Hp Hps Ho Hq) as (_ & new' & Hn & Hsub).
    rewrite Hq' in Hn. injection Hn as Hn. apply app_inv_head in Hn as <-.
    destruct (Hsub Hns) as [-> _]. by rewrite app_nil_r.
Qed.

(** C36: a connected client is sent, in order and without gaps, what was put in
    its queue up to the end mark, which reaches it as the closing message; when
    its listener waits on an empty queue everything put there has been sent;
    every event sent is one of the client's execution and, where both tenants
    are given, of its tenant; and after it has left nothing is put in its queue
    or sent. This holds for any interleaving of the listener with the other
    users of the publisher, and whichever sends fail. *)
Theorem socket_stream_exact own p so p' sc :
  star pub_step ([], InMemoryEventPublisher_new) (own, p) →
  open_socket x t p = (so, p') →
  star socket_step (mkScene (own ++ [(x, t)]) [] so p') sc →
  so_sent (sc_socket sc) `prefix_of` frames x (sc_log sc)
  ∧ (so_listener (sc_socket sc) = Getting →
     queue_get (so_queue (sc_socket sc)) (sc_pub sc) = None →
     so_sent (sc_socket sc) = frames x (sc_log sc))
  ∧ Forall (item_ok x t) (sc_log sc)
  ∧ (so_connected (sc_socket sc) = false → ∀ sc', star socket_step sc sc' →
     so_sent (sc_socket sc') = so_sent (sc_socket sc) ∧ sc_log sc' = sc_log sc).
Proof.
  intros Hreach Hopen Hrun.
  assert (pub_inv own p) as Hp.
  { apply (star_invariant pub_step (λ s, pub_inv s.1 s.2)) in Hreach; [done|apply pub_step_inv|].
    split; cbn; [done|set_solver|done]. }
  pose proof (open_inv _ _ _ _ Hp Hopen) as Hi0.
  pose proof (star_invariant socket_step scene_inv _ _ socket_step_inv Hi0 Hrun) as Hi.
  pose proof Hi as [_ _ _ (c & pend & Hlog & Hq & Hin) Hok _]. rewrite Hlog. split_and!.
  - etransitivity; [by eapply in_order_prefix|apply frames_prefix].
  - intros Hl Hg. rewrite Hl in Hin. destruct Hin as [_ ->].
    unfold queue_get in Hg. rewrite Hq in Hg. destruct pend; [by rewrite app_nil_r|done].
  - by rewrite <- Hlog.
  - intros Hc sc' Hst. rewrite <- Hlog. clear -Hi Hc Hst.
    induction Hst as [|a b d Hab _ IH]; [done|].
    destruct (left_step _ _ Hi Hc Hab) as (Hc' & <- & <-). apply IH; [|done].
    by eapply socket_step_inv.
Qed.
End Stream.

Definition demo_scene_event : ExecutionEvent :=
  mkEvent "e1" "x" "t1" None (EKStr "execution.completed") [] 0 "1.0".

Definition demo_open : Socket * InMemoryEventPublisher :=
  open_socket "x" "t1" InMemoryEventPublisher_new.
Definition demo_listen (sp : Socket * InMemoryEventPublisher) : Socket * InMemoryEventPublisher :=
  default sp (listen_queue true sp.1 sp.2).
Definition demo_published : InMemoryEventPublisher := publish demo_scene_event demo_open.2.
Definition demo_left : Socket * InMemoryEventPublisher :=
  let '(so, p) := Nat.iter 4 demo_listen (demo_open.1, pub_close "x" demo_published) in leave so p.
Definition demo_scene : Scene :=
  mkScene [("x", "t1")] [QEvent (ExecutionEvent_to_dict demo_scene_event); QEnd]
    demo_left.1 demo_left.2.

(** An event, the end of the execution, the closing message, the client leaves. *)
Lemma socket_stream_exact_witness :
  so_sent (sc_socket demo_scene) = [ExecutionEvent_to_dict demo_scene_event; stream_ended "x"]
  ∧ so_connected (sc_socket demo_scene) = false
  ∧ ∀ sc', star socket_step demo_scene sc' →
      so_sent (sc_socket sc') = so_sent (sc_socket demo_scene) ∧ sc_log sc' = sc_log demo_scene.
Proof.
  split; [vm_compute; reflexivity|]. split; [vm_compute; reflexivity|].
  refine (proj2 (proj2 (proj2 (socket_stream_exact "x" "t1" [] InMemoryEventPublisher_new
    demo_open.1 demo_open.2 demo_scene star_refl eq_refl _))) eq_refl).
  eapply star_step; [apply (sk_other _ [] demo_open.1 demo_open.2 [("x", "t1")] demo_published []
    [QEvent (ExecutionEvent_to_dict demo_scene_event)]); [apply ps_publish|reflexivity|reflexivity]|].
  eapply star_step; [apply (sk_other _ _ demo_open.1 _ [("x", "t1")] (pub_close "x" demo_published)
    [QEvent (ExecutionEvent_to_dict demo_scene_event)] [QEnd]);
    [constructor|reflexivity|reflexivity]|].
  do 4 (eapply star_step; [eapply (sk_listen _ _ _ _ true); reflexivity|]).
  eapply star_step; [eapply sk_leave; reflexivity|]. apply star_refl.
Defined.

(** ** Sockets of the application's clients *)

Section Late.
Context {E : Type} `{!PolicyEvaluator E, !IntentRouter E, !ToolGateway E, !StatePersistence E}.
Context (clock obs_clock : nat → Z) (uuid : nat → string) (ob : Observers).
Context (api_clock : nat → Z) (api_uuid : nat → string) (_fingerprint : string → string).
Context {P : Type} `{!EventPublisher P, !PublisherLaws P}.
Context (uuid_inj : ∀ m n, uuid m = uuid n → m = n).
Implicit Types (s : App E P) (p : P) (l : InMemoryEventPublisher).

(** Requests, and listeners taking items from their queues. *)
Inductive serve_step s : App E P → Prop :=
| serve_api s' :
    api_step clock obs_clock uuid ob api_clock api_uuid _fingerprint s s' → serve_step s s'
| serve_listen q item l :
    queue_get q (ep_local (ap_publisher s)) = Some (item, l) →
    serve_step s (put_publisher (ep_put_local l (ap_publisher s)) s).

(** What a request does to the publisher; an event it publishes is of the
    execution whose identifier the runtime gives out next. *)
Inductive pub_effect (next : string) p : P → Prop :=
| pe_same : pub_effect next p p
| pe_subscribe x t : pub_effect next p (ep_subscribe x t p).2
| pe_unsubscribe x q : pub_effect next p (ep_unsubscribe x q p).2
| pe_publish e : ev_execution_id e = next → pub_effect next p (ep_publish e p).2
| pe_close_all : pub_effect next p (ep_close_all p).2.

#[local] Arguments authenticate : simpl never.
#[local] Arguments str_startswith : simpl never.
#[local] Arguments str_drop : simpl never.
#[local] Arguments increment : simpl never.

Lemma submit_publisher req auth xt xa s :
  pub_effect (uuid (rt_uuids (core_of s))) (ap_publisher s)
    (ap_publisher (submit_intent clock obs_clock uuid ob api_clock api_uuid req auth xt xa s).2).
Proof.
  destruct (submit_effect clock obs_clock uuid ob api_clock api_uuid req auth xt xa s)
    as (now & agent & id & now' & H).
  destruct (submit_intent _ _ _ _ _ _ _ _ _ _ s) as [o s'].
  set (i := intent_of _ _) in H.
  pose proof (execute_post clock obs_clock uuid ob i (ap_world s)) as Hp. cbv zeta in Hp.
  destruct (execute_intent clock obs_clock uuid ob i (ap_world s)) as [[r|e] w1]; cbn [fst snd] in *;
    [|destruct H as (_ & _ & -> & _); apply pe_same].
  destruct (ep_result _ _ _ _ Hp r eq_refl) as (Hid & _). unfold core_of. rewrite <- Hid.
  set (ev := event_for _ _ _ _ _) in H. pose proof (pe_publish (er_execution_id r) (ap_publisher s) ev eq_refl) as Hpe.
  destruct (ep_publish ev (ap_publisher s)) as [op p']. by destruct H as (_ & _ & -> & _).
Qed.

Lemma ws_publisher a b c s :
  ap_publisher (_ws_authenticate _fingerprint a b c s).2 = ap_publisher s.
Proof. unfold _ws_authenticate, ap_count. m_unfold. by repeat (case_match; simplify_eq/=). Qed.

Lemma shutdown_publisher next s :
  pub_effect next (ap_publisher s) (ap_publisher (shutdown_app ob s).2).
Proof.
  unfold shutdown_app, on_runtime_world, on_obs, on_publisher. m_unfold.
  destruct (log _ _ _ _ _) as [[[]|e] o1]; [|constructor].
  destruct (stop ob _) as [[[]|e] w1]; [|constructor]. cbn [ap_publisher].
  pose proof (pe_close_all next (ap_publisher s)) as Hc.
  destruct (ep_close_all (ap_publisher s)) as [[[]|e] p']; [|exact Hc].
  cbn [ap_world put_publisher]. by destruct (log _ _ _ _ _) as [[[]|e] o2].
Qed.

Lemma api_step_publisher s s' :
  api_step clock obs_clock uuid ob api_clock api_uuid _fingerprint s s' →
  pub_effect (uuid (rt_uuids (core_of s))) (ap_publisher s) (ap_publisher s').
Proof.
  intros [req auth xt xa|x auth|key|x a b c|x q|].
  - apply submit_publisher.
  - unfold api_execution_status, ap_count. m_unfold. repeat case_match; simplify_eq/=; constructor.
  - unfold get_auth_context, ap_count. m_unfold. repeat case_match; simplify_eq/=; constructor.
  - pose proof (ws_publisher a b c s) as Hw. unfold open_events, mbind, M_bind.
    destruct (_ws_authenticate _fingerprint a b c s) as [[[ctx|]|e] s1]; cbn [snd mret M_ret] in Hw |- *;
      [|rewrite Hw; constructor..].
    unfold on_publisher, zoom. rewrite Hw.
    pose proof (pe_subscribe (uuid (rt_uuids (core_of s))) (ap_publisher s) x (au_tenant_id ctx)) as Hc.
    by destruct (ep_subscribe _ _ _) as [[q|e] p'].
  - unfold close_events, on_publisher, zoom.
    pose proof (pe_unsubscribe (uuid (rt_uuids (core_of s))) (ap_publisher s) x q) as Hc.
    by destruct (ep_unsubscribe _ _ _) as [[[]|e] p'].
  - unfold shutdown_app. apply shutdown_publisher.
Qed.

(** The queue of a subscriber of [x] while no event is published for [x]. *)
Definition quiet_queue (x : string) (q : nat) l : Prop :=
  ∃ own t items, pub_inv own l ∧ own !! q = Some (x, t)
    ∧ pub_queues l !! q = Some items ∧ Forall (eq QEnd) items.

Lemma close_quiet x q y l : quiet_queue x q l → quiet_queue x q (pub_close y l).
Proof.
  intros (own & t & items & Hp & Ho & Hq & He).
  destruct (puts_grow QEnd (λ _, true) (subs_of l y) _ _ _ Hq) as (new & Hn & Ha & _).
  exists own, t, (items ++ new). split_and!; [|done|done|by apply Forall_app].
  by apply (pub_step_inv (own, l) (own, pub_close y l)); [|constructor].
Qed.

Lemma close_all_quiet x q l : quiet_queue x q l → quiet_queue x q (close_all l).
Proof.
  unfold close_all. generalize (dict_keys (pub_subscribers l)). intros ys. revert l.
  induction ys as [|y ys IH]; intros l H; [done|]. by apply IH, close_quiet.
Qed.

Lemma deliver_quiet x q e d l :
  ev_execution_id e ≠ x → carries e d → quiet_queue x q l →
  quiet_queue x q (deliver (QEvent d) e l).
Proof.
  intros Hne Hd (own & t & items & Hp & Ho & Hq & He). exists own, t, items.
  split_and!; [|done| |done].
  - by apply (pub_step_inv (own, l) (own, deliver (QEvent d) e l)); [|constructor].
  - destruct (puts_grow (QEvent d)
      (λ sub, tenant_match sub.2 (ev_tenant_id e)) (subs_of l (ev_execution_id e)) _ _ _ Hq)
      as (new & Hn & _ & H0). cbn [deliver pub_queues]. rewrite Hn, H0, app_nil_r; [done|].
    intros t' Hin. apply (pinv_subs _ _ Hp) in Hin. rewrite Ho in Hin. congruence.
Qed.

Lemma effect_quiet x q next p p' :
  next ≠ x → pub_effect next p p' → quiet_queue x q (ep_local p) → quiet_queue x q (ep_local p').
Proof.
  intros Hne Heff Hquiet. destruct Heff as [|y u|y q'|e Hid|]; [done|..].
  - rewrite (locally_local _ _ _ _ (law_subscribe y u p)).
    destruct Hquiet as (own & t & items & Hp & Ho & Hq & He).
    exists (own ++ [(y, u)]), t, items. split_and!; [by eapply subscribe_inv|..|done];
      by apply lookup_app_l_Some.
  - rewrite (locally_local _ _ _ _ (law_unsubscribe y q' p)).
    destruct Hquiet as (own & t & items & Hp & Ho & Hq & He). exists own, t, items.
    split_and!; [|done..].
    by apply (pub_step_inv (own, ep_local p) (own, unsubscribe y q' (ep_local p))); [|constructor].
  - pose proof (law_publish e p) as Hl. destruct (ep_publish e p) as [[[]|ex] p']; cbn [snd].
    + destruct Hl as (d & Hd & ->). apply deliver_quiet; [by rewrite Hid|done|done].
    + by rewrite Hl.
  - rewrite (locally_local _ _ _ _ (law_close_all p)). by apply close_all_quiet.
Qed.

Lemma get_quiet x q q' item l l' :
  queue_get q' l = Some (item, l') → quiet_queue x q l → quiet_queue x q l'.
Proof.
  intros Hg (own & t & items & Hp & Ho & Hq & He).
  destruct (queue_get_inv _ _ _ _ _ Hp Hg) as (Hp' & _ & items' & Hq' & Hqs).
  destruct (decide (q' = q)) as [->|Hne].
  - rewrite Hq in Hq'. injection Hq' as ->. exists own, t, items'.
    split_and!; [done|done| |by apply Forall_cons in He as [_ He]].
    rewrite Hqs. apply list_lookup_insert_eq. by eapply lookup_lt_Some.
  - exists own, t, items. split_and!; [done|done| |done]. by rewrite Hqs, list_lookup_insert_ne.
Qed.

(** What holds once a client has subscribed to an execution it was told of. *)
Definition late (x : string) (q : nat) s : Prop :=
  app_inv uuid s ∧ is_Some (dict_get x (ap_executions s)) 
  ∧ quiet_queue x q (ep_local (ap_publisher s)).

(** The identifier of an execution on file is not given out again. *)
Lemma known_not_next s x :
  app_inv uuid s → is_Some (dict_get x (ap_executions s)) → uuid (rt_uuids (core_of s)) ≠ x.
Proof using uuid_inj.
  intros HI [r Hr] Heq. destruct (HI _ _ Hr) as (n & Hn & ->).
  apply uuid_inj in Heq. lia.
Qed.

Lemma serve_late x q s s' : late x q s → serve_step s s' → late x q s'.
Proof using uuid_inj PublisherLaws0.
  intros (HI & Hx & Hq) [s1 Hst|q' item l Hg].
  - destruct (api_step_kept _ _ _ _ _ _ _ uuid_inj _ _ Hst HI) as [HI' Hkept].
    split_and!; [exact HI'|destruct Hx as [r Hr]; exists r; by apply Hkept|].
    eapply (effect_quiet _ _ (uuid (rt_uuids (core_of s))));
      [by apply known_not_next|by apply api_step_publisher|done].
  - split_and!; [exact HI|done|]. cbn [ap_publisher put_publisher]. rewrite law_put_local.
    by eapply get_quiet.
Qed.

(** Any publisher the application reaches is well formed. *)
Definition served s : Prop := app_inv uuid s ∧ ∃ own, pub_inv own (ep_local (ap_publisher s)).

Lemma effect_inv next own p p' :
  pub_inv own (ep_local p) → pub_effect next p p' → ∃ own', pub_inv own' (ep_local p').
Proof.
  intros Hp Heff.
  assert (∃ own', star client_step (own, p) (own', p')) as (own' & Hs).
  { destruct Heff as [|y u|y q'|e _|]; eexists; [constructor|apply star_one; constructor..]. }
  exists own'. by apply (star_invariant client_step (λ a, pub_inv a.1 (ep_local a.2))) in Hs;
    [|apply client_step_inv|].
Qed.

Lemma serve_served s s' : served s → serve_step s s' → served s'.
Proof using uuid_inj PublisherLaws0.
  intros (HI & own & Hp) [s1 Hst|q' item l Hg].
  - destruct (api_step_kept _ _ _ _ _ _ _ uuid_inj _ _ Hst HI) as [HI' _].
    split; [exact HI'|]. eapply effect_inv; [done|by eapply api_step_publisher].
  - split; [exact HI|]. exists own. cbn [ap_publisher put_publisher]. rewrite law_put_local.
    by destruct (queue_get_inv _ _ _ _ _ Hp Hg).
Qed.

Lemma open_late x a b c q s s' :
  served s → is_Some (dict_get x (ap_executions s)) →
  open_events _fingerprint x a b c s = (Ok (Some q), s') → late x q s'.
Proof.
  intros (HI & own & Hp) Hx. unfold open_events, mbind, M_bind.
  pose proof (ws_publisher a b c s) as Hpub. destruct (ws_frame _fingerprint a b c s) as [Hw Hex].
  destruct (_ws_authenticate _fingerprint a b c s) as [[[ctx|]|e] s1]; cbn [snd] in Hpub, Hw, Hex |- *;
    [|done|done].
  unfold on_publisher, zoom. rewrite Hpub.
  destruct (law_subscribe x (au_tenant_id ctx) (ap_publisher s)) as (p' & -> & Hl).
  intros [= <- <-]. unfold late, app_inv, core_of. cbn [ap_world ap_executions ap_publisher put_publisher].
  rewrite Hw, Hex, Hl. split_and!; [exact HI|done|]. pose proof (pinv_own _ _ Hp) as Hlen.
  exists (own ++ [(x, au_tenant_id ctx)]), (au_tenant_id ctx), [].
  split_and!; [by eapply subscribe_inv|..|done]; cbn; [rewrite <- Hlen|];
    by rewrite lookup_app_r, Nat.sub_diag by lia.
Qed.

(** C35: a client that learns an execution's identifier from the application and
    then subscribes is never sent an event of it: its queue holds end marks
    only, however long the application goes on serving. The event of an
    execution is published before its identifier is answered, and no other one
    follows. *)
Theorem late_subscriber_gets_no_event x r a b c q s0 s1 s2 s3 :
  fresh_app s0 → ep_local (ap_publisher s0) = InMemoryEventPublisher_new →
  star serve_step s0 s1 → dict_get x (ap_executions s1) = Some r →
  open_events _fingerprint x a b c s1 = (Ok (Some q), s2) →
  star serve_step s2 s3 →
  ∃ items, pub_queues (ep_local (ap_publisher s3)) !! q = Some items ∧ Forall (eq QEnd) items.
Proof using uuid_inj PublisherLaws0.
  intros Hf Hp0 H01 Hx Hopen H23.
  assert (served s0) as Hs0.
  { split; [unfold app_inv; by rewrite Hf|]. exists []. rewrite Hp0. split; cbn; [done|set_solver|done]. }
  pose proof (star_invariant serve_step served _ _ serve_served Hs0 H01) as Hs1.
  assert (late x q s2) as Hl2 by (eapply open_late; [done|by exists r|done]).
  destruct (star_invariant serve_step (late x q) _ _ (serve_late x q) Hl2 H23) as (_ & _ & Hq).
  destruct Hq as (own & t & items & _ & _ & Hq & He). by exists items.
Qed.
End Late.

(** A tenant submits an intent and then follows the execution's events. *)
Definition late_app : App unit InMemoryEventPublisher :=
  mkApp (demo_world RUNNING) (mkProvider ε [("k", tenant_a)]) InMemoryEventPublisher_new
    MetricsRegistry_new [] 0 0.
Definition late_opened : outcome (option nat) * App unit InMemoryEventPublisher :=
  open_events (λ k, k) "exec-0" "Bearer k" ε ε (demo_submit tenant_a ε late_app).2.

#[local] Instance demo_policy_evaluator : PolicyEvaluator unit := demo_policy true.
Lemma demo_submit_serves s :
  @serve_step unit demo_policy_evaluator demo_router demo_gateway demo_store
    demo_clock demo_clock demo_uuid demo_observers demo_clock demo_uuid (λ k, k) _ memory_publisher
    s (demo_submit tenant_a ε s).2.
Proof. unfold demo_submit. apply serve_api, api_submit. Qed.

Lemma late_subscriber_gets_no_event_witness :
  is_Some (dict_get "exec-0" (ap_executions (demo_submit tenant_a ε late_app).2))
  ∧ late_opened.1 = Ok (Some 0%nat)
  ∧ ∃ items,
      pub_queues (ap_publisher (demo_submit tenant_a ε late_opened.2).2) !! 0%nat = Some items
      ∧ Forall (eq QEnd) items.
Proof.
  split; [vm_compute; by eexists|]. split; [vm_compute; reflexivity|].
  destruct (dict_get "exec-0" (ap_executions (demo_submit tenant_a ε late_app).2)) as [r|] eqn:Hr;
    [|vm_compute in Hr; discriminate].
  refine (late_subscriber_gets_no_event (E := unit) (P := InMemoryEventPublisher) demo_clock demo_clock demo_uuid demo_observers
    demo_clock demo_uuid (λ k, k) demo_uuid_inj
    "exec-0" r "Bearer k" ε ε 0%nat late_app (demo_submit tenant_a ε late_app).2 late_opened.2
    (demo_submit tenant_a ε late_opened.2).2 eq_refl eq_refl (star_one _ _ _ (demo_submit_serves _))
    Hr _ (star_one _ _ _ (demo_submit_serves _))).
  vm_compute. reflexivity.
Defined.
