(* ===== verification/Architecture.v ===== *)
(** * The architecture checker ([scripts/verify_architecture.py]) and the coverage
    gate ([scripts/check_coverage.py])

    The checker reads the abstract syntax of every Python file of a tree. The
    syntax here has the nodes it looks at; every other node is [Other] with its
    children. [ast.walk] is breadth first. The files come in the order
    [rglob] finds them, and the elements of a set in the order [iter], of which
    nothing is assumed. Importing a module to inspect its classes is the
    argument [load_class]. *)
From S2P Require Import Prelude PyStr PyDict.
From Stdlib Require Import Ascii QArith.

(** ** Syntax trees *)

Inductive node :=
| Import (names : list string)
| ImportFrom (module : option string)
| ClassDef (name : string) (bases : list node) (keywords body decorator_list : list node)
| FunctionDef (is_async : bool) (name : string) (args body decorator_list returns : list node)
| Name (id : string)
| Attribute (value : node) (attr : string)
| Call (func : node) (args : list node)
| Raise_ (lineno : nat) (exc cause : option node)
| Pass (lineno : nat)
| ConstantStr (lineno : nat) (value : string)
| Other (children : list node).

(** [ast.iter_child_nodes(node)], by field *)
Definition iter_child_nodes (n : node) : list node :=
  match n with
  | Import _ | ImportFrom _ | Name _ | Pass _ | ConstantStr _ _ => []
  | ClassDef _ bases keywords body decorators => bases ++ keywords ++ body ++ decorators
  | FunctionDef _ _ args body decorators returns => args ++ body ++ decorators ++ returns
  | Attribute value _ => [value]
  | Call func args => func :: args
  | Raise_ _ exc cause => option_list exc ++ option_list cause
  | Other children => children
  end.

Fixpoint node_size (n : node) : nat :=
  S (match n with
     | Import _ | ImportFrom _ | Name _ | Pass _ | ConstantStr _ _ => 0
     | ClassDef _ a b c d | FunctionDef _ _ a b c d =>
         sum_list_with node_size a + (sum_list_with node_size b
           + (sum_list_with node_size c + sum_list_with node_size d))
     | Attribute v _ => node_size v
     | Call f l => node_size f + sum_list_with node_size l
     | Raise_ _ e c => from_option node_size 0 e + from_option node_size 0 c
     | Other l => sum_list_with node_size l
     end)%nat.

(** [ast.walk(tree)]: take a node, put its children at the end of the queue. *)
Fixpoint walk_nodes (fuel : nat) (todo : list node) : list node :=
  match fuel, todo with
  | S fuel, n :: todo => n :: walk_nodes fuel (todo ++ iter_child_nodes n)
  | _, _ => []
  end.
Definition ast_walk (tree : node) : list node := walk_nodes (node_size tree) [tree].

(** ** The tree of files *)

Abbreviation rel_path := (list string).

(** A file [None] has a syntax error. *)
Record Root := mkRoot {
  r_files : list (rel_path * option node);
  r_dirs : list rel_path
}.

Record CheckResult := mkCheck {
  cr_name : string;
  cr_passed : bool;
  cr_details : list string
}.

Definition check_result (name : string) (violations : list string) : CheckResult :=
  mkCheck name (bool_decide (length violations = 0%nat)) violations.

Definition path_str (p : rel_path) : string := str_join "/" p.
Definition first_part (p : rel_path) : string := default ε (head p).
Definition file_name (p : rel_path) : string := default ε (last p).

(** Paths are ordered by their parts. *)
Fixpoint path_leb (p q : rel_path) : bool :=
  match p, q with
  | [], _ => true
  | _ :: _, [] => false
  | a :: p', b :: q' => if decide (a = b) then path_leb p' q' else str_leb a b
  end.

(** [list(dict)] of a set literal: the order does not reach any answer. *)
Definition LAYER_ALLOWED_IMPORTS : dict (list string) :=
  [ ("core", ["core"]);
    ("kernel", ["core"; "kernel"]);
    ("control_plane", ["core"; "kernel"; "control_plane"]);
    ("agents", ["core"; "kernel"; "agents"; "ai_gateway"]);
    ("ai_gateway", ["core"; "ai_gateway"]);
    ("infrastructure", ["core"; "infrastructure"]);
    ("api", ["core"; "kernel"; "control_plane"; "api"]);
    ("config", ["core"; "config"]);
    ("runtime", ["core"; "kernel"; "runtime"]);
    ("services", ["core"; "kernel"; "control_plane"; "services"]) ].

Definition FORBIDDEN_IMPORTS : dict (list string) :=
  [ ("control_plane",
      ["sqlite3"; "psycopg"; "psycopg2"; "sqlalchemy"; "pymongo"; "redis"; "requests"; "httpx";
       "aiohttp"; "urllib"; "http.client"; "websockets"]) ].

Definition KNOWN_ABC_IMPLEMENTATIONS : list (string * string * option string) :=
  [ ("TemplateRepository", "control_plane/registry", Some "control_plane/registry");
    ("InstanceRepository", "control_plane/registry", Some "control_plane/registry");
    ("PolicyEvaluator", "core/policies", Some "control_plane/policy");
    ("Orchestrator", "control_plane/orchestrator", None) ].

Definition KNOWN_CONTRACTS : list (string * string * string * string) :=
  [ ("control_plane.registry.template_repository", "TemplateRepository",
     "control_plane.registry.memory_template_repository", "MemoryTemplateRepository");
    ("control_plane.registry.instance_repository", "InstanceRepository",
     "control_plane.registry.memory_instance_repository", "MemoryInstanceRepository");
    ("core.policies.evaluator", "PolicyEvaluator",
     "control_plane.policy.engine", "PolicyEngine") ].

Definition file_leb (a b : rel_path * option node) : bool := path_leb a.1 b.1.

Definition discover_python_files (root : Root) (exclude_tests : bool)
    : list (rel_path * option node) :=
  py_sorted file_leb
    (filter (λ f, "__pycache__" ∉ f.1 ∧ ¬ (exclude_tests = true ∧ first_part f.1 = "tests"))
       (r_files root)).

Definition get_layer (p : rel_path) : option string :=
  if decide (first_part p ∈ ["core"; "kernel"; "control_plane"; "agents"; "ai_gateway";
                             "infrastructure"; "api"; "config"; "runtime"; "services"])
  then Some (first_part p) else None.

Definition imports_of (n : node) : list string :=
  match n with
  | Import names => names
  | ImportFrom (Some m) => if truthy m then [m] else []
  | _ => []
  end.

Definition extract_imports (f : rel_path * option node) : list string :=
  match f.2 with
  | None => []
  | Some tree => mjoin (map imports_of (ast_walk tree))
  end.

Definition is_project_import (module : string) : bool :=
  bool_decide (first_part (str_split "." module) ∈ ["runtime"; "services"]).

Definition classify_import (module : string) : option string :=
  let part := first_part (str_split "." module) in
  if decide (part = "runtime") then Some "runtime"
  else if decide (part = "services") then Some "services"
  else None.

Definition newline : string := String (Ascii.ascii_of_nat 10) ε.

(** ** The checks over imports *)

Definition import_allowed (layer imp : string) : bool :=
  negb (is_project_import imp)
  || match classify_import imp with
     | None => true
     | Some target => bool_decide (target ∈ dict_get_or [] layer LAYER_ALLOWED_IMPORTS)
     end.

Definition check_dependency_direction (root : Root) : CheckResult :=
  check_result "Dependency Direction"
    (f ← discover_python_files root true;
     match get_layer f.1 with
     | None => []
     | Some layer =>
         imp ← extract_imports f;
         if import_allowed layer imp then []
         else ["  " +:+ path_str f.1 +:+ newline +:+ "    imports " +:+ imp]
     end).

Definition check_layer_isolation (root : Root) : CheckResult :=
  check_result "Layer Isolation"
    (f ← discover_python_files root true;
     if decide (first_part f.1 ≠ "runtime") then []
     else
       imp ← extract_imports f;
       if str_startswith "services" imp
       then ["  " +:+ path_str f.1 +:+ newline +:+ "    imports '" +:+ imp +:+ "'"]
       else []).

Definition import_matches (imp fb : string) : bool :=
  bool_decide (imp = fb) || str_startswith (fb +:+ ".") imp.

Definition check_forbidden_imports (root : Root) : CheckResult :=
  check_result "Forbidden Imports"
    (f ← discover_python_files root true;
     rule ← FORBIDDEN_IMPORTS;
     if decide (rule.1 ∈ f.1) then
       imp ← extract_imports f;
       fb ← rule.2;
       if import_matches imp fb
       then ["  " +:+ path_str f.1 +:+ newline +:+ "    imports '" +:+ imp +:+ "' (forbidden)"]
       else []
     else []).

Definition _DUNDER_WHITELIST : list string := ["__future__"; "__main__"; "__init__"].

Definition private_import (imp : string) : bool :=
  existsb (λ part, str_startswith "_" part && bool_decide (part ∉ _DUNDER_WHITELIST))
    (str_split "." imp).

Definition check_package_boundaries (root : Root) : CheckResult :=
  check_result "Package Boundaries"
    (f ← discover_python_files root true;
     imp ← extract_imports f;
     if private_import imp
     then ["  " +:+ path_str f.1 +:+ newline +:+ "    imports '" +:+ imp +:+ "' (private package)"]
     else []).

(** ** Import cycles *)

(** [root / Path].exists() *)
Definition path_exists (root : Root) (p : rel_path) : bool :=
  bool_decide (p ∈ map fst (r_files root)) || bool_decide (p ∈ r_dirs root).

(** The file a project import names. *)
Definition import_target (root : Root) (imp : string) : option rel_path :=
  let parts := str_split "." imp in
  let candidate := removelast parts ++ [file_name parts +:+ ".py"] in
  let candidate_pkg := parts ++ ["__init__.py"] in
  if path_exists root candidate then Some candidate
  else if path_exists root candidate_pkg then Some candidate_pkg
  else None.

Definition file_deps (root : Root) (f : rel_path * option node) : list string :=
  omap (λ imp, if is_project_import imp then path_str <$> import_target root imp else None)
    (extract_imports f).

Definition import_graph (root : Root) : dict (list string) :=
  foldl (λ graph f,
    match get_layer f.1 with
    | None => graph
    | Some _ => dict_set (path_str f.1) (file_deps root f) graph
    end) [] (discover_python_files root true).

Inductive colour := WHITE | GRAY | BLACK.

#[export] Instance colour_eq_dec : EqDecision colour.
Proof. solve_decision. Defined.

Record dfs_state := mkDfs { color : gmap string colour; cycle_path : list string }.

Definition set_color (n : string) (k : colour) (s : dfs_state) : dfs_state :=
  mkDfs (<[n := k]> (color s)) (cycle_path s).

Section Dfs.
Variable graph : dict (list string).

(** The loop over the neighbours; [dfs] is the recursive call. *)
Fixpoint dfs_neighbors (dfs : string → dfs_state → option (bool * dfs_state))
    (ns : list string) (s : dfs_state) : option (bool * dfs_state) :=
  match ns with
  | [] => Some (false, s)
  | n :: ns' =>
      match color s !! n with
      | None => dfs_neighbors dfs ns' s
      | Some GRAY => Some (true, mkDfs (color s) (cycle_path s ++ [n]))
      | Some WHITE =>
          match dfs n s with
          | Some (false, s') => dfs_neighbors dfs ns' s'
          | r => r
          end
      | Some BLACK => dfs_neighbors dfs ns' s
      end
  end.

Fixpoint dfs (fuel : nat) (n : string) (s : dfs_state) : option (bool * dfs_state) :=
  match fuel with
  | 0%nat => None
  | S fuel =>
      match dfs_neighbors (dfs fuel) (dict_get_or [] n graph)
              (mkDfs (<[n := GRAY]> (color s)) (cycle_path s ++ [n])) with
      | Some (false, s') => Some (false, mkDfs (<[n := BLACK]> (color s')) (removelast (cycle_path s')))
      | r => r
      end
  end.

(** The loop over the nodes of the graph. *)
Fixpoint find_cycle (fuel : nat) (ns : list string) (s : dfs_state) : option (bool * dfs_state) :=
  match ns with
  | [] => Some (false, s)
  | n :: ns' =>
      if decide (color s !! n = Some WHITE) then
        match dfs fuel n s with
        | Some (false, s') => find_cycle fuel ns' s'
        | r => r
        end
      else find_cycle fuel ns' s
  end.

(** The deepest call has every node of the graph below it on the stack. *)
Definition detect_cycle : option (bool * dfs_state) :=
  find_cycle (S (length graph)) (dict_keys graph)
    (mkDfs (list_to_map (map (λ n, (n, WHITE)) (dict_keys graph))) []).
End Dfs.

(** [None] would be a recursion without end. *)
Definition check_import_cycles (root : Root) : option CheckResult :=
  r ← detect_cycle (import_graph root);
  let '(found_cycle, s) := (r : bool * dfs_state) in
  mret (mkCheck "Import Cycles" (negb found_cycle)
          (if found_cycle then ["  Cycle detected: " +:+ str_join " → " (cycle_path s)] else [])).

(** ** The checks over classes *)

(** The name of a base class as the checker reads it. *)
Definition base_name (b : node) : string :=
  match b with Name id => id | Attribute _ attr => attr | _ => ε end.

Definition is_abc_class (abc_name : string) (n : node) : bool :=
  match n with
  | ClassDef name bases _ _ _ =>
      bool_decide (name = abc_name) && existsb (λ b, bool_decide (base_name b = "ABC")) bases
  | _ => false
  end.

(** [(root / dir).rglob("*.py")], less the files that do not parse *)
Definition trees_below (root : Root) (dir : string) : list node :=
  omap snd (filter (λ f, str_split "/" dir `prefix_of` f.1) (r_files root)).

(** The last class found is the one that is kept. *)
Definition find_abc (root : Root) (dir abc_name : string) : option node :=
  last (filter (λ n, is_abc_class abc_name n = true) (mjoin (map ast_walk (trees_below root dir)))).

Definition is_abstractmethod (d : node) : bool :=
  match d with Name id => bool_decide (id = "abstractmethod") | _ => false end.

(** Plain functions only: an [async def] is another class of node. *)
Definition abstract_methods (abc_class : node) : gset string :=
  list_to_set (omap (λ n, match n with
    | FunctionDef false name _ _ decorators _ =>
        if existsb is_abstractmethod decorators then Some name else None
    | _ => None
    end) (ast_walk abc_class)).

Definition method_names (body : list node) : gset string :=
  list_to_set (omap (λ n, match n with FunctionDef _ name _ _ _ _ => Some name | _ => None end) body).

(** A class that could be imported: the names of its abstract methods, and the
    signature of a method or the message of the error it has instead of one. *)
Record pyclass := mkClass {
  pc_abstractmethods : gset string;
  pc_method : string → option (string + string)
}.

Section Checks.
Variable iter : gset string → list string.
(** [getattr(importlib.import_module(module), name)], or the error's message *)
Variable load_class : string → string → pyclass + string.

Definition set_str (X : gset string) : string :=
  "{" +:+ str_join ", " (map str_repr (iter X)) +:+ "}".

(** What one class of the implementation's directory has missing. *)
Definition implements (abc_name : string) (n : node) : bool :=
  match n with
  | ClassDef _ bases _ _ _ => existsb (λ b, bool_decide (base_name b = abc_name)) bases
  | _ => false
  end.

Definition missing_methods (abc_name : string) (abc_class n : node) : list string :=
  match n with
  | ClassDef name _ _ body _ =>
      let missing := abstract_methods abc_class ∖ method_names body in
      if decide (missing = ∅) then []
      else ["  " +:+ abc_name +:+ " → " +:+ name +:+ ": missing " +:+ set_str missing]
  | _ => []
  end.

Definition check_abc (root : Root) (known : string * string * option string) : list string :=
  let '(abc_name, abc_dir, impl_dir) := known in
  if negb (path_exists root (str_split "/" abc_dir)) then []
  else match find_abc root abc_dir abc_name, impl_dir with
  | Some abc_class, Some impl_dir =>
      if negb (path_exists root (str_split "/" impl_dir))
      then ["  " +:+ abc_name +:+ ": no implementation directory " +:+ impl_dir]
      else
        let impls := filter (λ n, implements abc_name n = true)
                       (mjoin (map ast_walk (trees_below root impl_dir))) in
        mjoin (map (missing_methods abc_name abc_class) impls)
        ++ (if decide (impls = []) then ["  " +:+ abc_name +:+ ": no implementation found in " +:+ impl_dir]
            else [])
  | _, _ => []
  end.

Definition check_interface_compliance (root : Root) : CheckResult :=
  check_result "Interface Compliance" (mjoin (map (check_abc root) KNOWN_ABC_IMPLEMENTATIONS)).

(** One method of a contract. *)
Definition check_signature (abc_cls impl_cls : string) (abc_class impl_class : pyclass) (m : string)
    : list string :=
  match pc_method abc_class m, pc_method impl_class m with
  | None, _ => ["  " +:+ abc_cls +:+ "." +:+ m +:+ ": ABC method not found"]
  | Some _, None => ["  " +:+ impl_cls +:+ "." +:+ m +:+ ": implementation not found"]
  | Some (inl a), Some (inl b) =>
      if decide (a = b) then []
      else ["  " +:+ impl_cls +:+ "." +:+ m +:+ ": signature mismatch" +:+ newline
              +:+ "    ABC:   " +:+ a +:+ newline +:+ "    Found: " +:+ b]
  | Some (inr e), Some _ | Some (inl _), Some (inr e) =>
      ["  " +:+ impl_cls +:+ "." +:+ m +:+ ": signature inspection failed (" +:+ e +:+ ")"]
  end.

Definition check_contract (known : string * string * string * string) : list string :=
  let '(abc_mod, abc_cls, impl_mod, impl_cls) := known in
  match load_class abc_mod abc_cls with
  | inr e => ["  " +:+ abc_mod +:+ "." +:+ abc_cls +:+ ": import failed (" +:+ e +:+ ")"]
  | inl abc_class =>
      match load_class impl_mod impl_cls with
      | inr e => ["  " +:+ impl_mod +:+ "." +:+ impl_cls +:+ ": import failed (" +:+ e +:+ ")"]
      | inl impl_class =>
          mjoin (map (check_signature abc_cls impl_cls abc_class impl_class)
                   (iter (pc_abstractmethods abc_class)))
      end
  end.

Definition check_contract_consistency (root : Root) : CheckResult :=
  check_result "Contract Consistency" (mjoin (map check_contract KNOWN_CONTRACTS)).

(** ** Hygiene *)

Definition todo_pattern (value : string) : option string :=
  snd <$> list_find (λ pat, str_contains pat value = true) ["TODO"; "FIXME"; "HACK"].

Definition node_hygiene (file : string) (n : node) : list string :=
  match n with
  | Pass lineno => ["  " +:+ file +:+ ":" +:+ str_of_nat lineno]
  | ConstantStr lineno value =>
      match todo_pattern value with
      | Some pat => ["  " +:+ file +:+ ":" +:+ str_of_nat lineno +:+ " — contains '" +:+ pat +:+ "'"]
      | None => []
      end
  | Raise_ lineno (Some (Call (Name "NotImplementedError") _)) _ =>
      ["  " +:+ file +:+ ":" +:+ str_of_nat lineno]
  | _ => []
  end.

Definition check_hygiene (root : Root) : CheckResult :=
  check_result "Hygiene"
    (f ← discover_python_files root true;
     if decide (first_part f.1 = "scripts" ∨ file_name f.1 = "__init__.py") then []
     else match f.2 with
     | None => []
     | Some tree => n ← ast_walk tree; node_hygiene (path_str f.1) n
     end).

(** ** The verification *)

Definition run_verification (root : Root) : option (list CheckResult * nat) :=
  cycles ← check_import_cycles root;
  let results := [ check_dependency_direction root; check_layer_isolation root;
                   check_forbidden_imports root; cycles; check_interface_compliance root;
                   check_contract_consistency root; check_package_boundaries root;
                   check_hygiene root ] in
  let failed := length (filter (λ r, cr_passed r = false) results) in
  mret (results, if (0 <? failed)%nat then 1%nat else 0%nat).

Definition report_check (i : nat) (r : CheckResult) : list string :=
  ("  [" +:+ (if cr_passed r then "PASS" else "FAIL") +:+ "] " +:+ str_of_nat i +:+ ". " +:+ cr_name r)
  :: map (λ detail, "    " +:+ detail) (cr_details r).

(** The lines [print_report] writes. *)
Definition print_report (results : list CheckResult) : list string :=
  ["Architecture Verification Report"; "================================"; ε]
  ++ mjoin (imap (λ i r, report_check (S i) r) results)
  ++ [ε; "Summary: " +:+ str_of_nat (length (filter (λ r, cr_passed r = true) results))
         +:+ "/" +:+ str_of_nat (length results) +:+ " passed"].

(** [main] on a root, or on a path that does not exist: what it writes to
    stdout and to stderr, and the exit code. *)
Definition verify_main (root : string * option Root) : option (list string * list string * nat) :=
  match root.2 with
  | None => Some ([], ["Error: " +:+ root.1 +:+ " does not exist"], 1%nat)
  | Some r =>
      res ← run_verification r;
      let '(results, exit_code) := (res : list CheckResult * nat) in
      mret (print_report results, [], exit_code)
  end.
End Checks.

(** ** The coverage gate

    Rates are the rationals of the report's decimals. The report is parsed by
    the standard library: [packages] are its (name, line-rate) pairs in document
    order, absent attributes included. *)

Definition parse_packages (packages : list (option string * option Q)) : dict Q :=
  foldl (λ d p, dict_set (default ε p.1) (default 0%Q p.2) d) [] packages.

Definition runtime_packages (packages : dict Q) : dict Q :=
  filter (λ kv, str_contains "kitematic_runtime" kv.1 = true) packages.

(** What the gate writes, line by line, and the baseline it saves. *)
Inductive gate_line :=
| Usage
| RuntimeCoverage (overall threshold : Q)
| BelowThreshold (overall threshold : Q)
| BaselineSaved
| NoPriorBaseline
| Dropped (pkg : string) (rate prev : Q)
| RegressionDetected
| AllPassed.

Record gate_run := mkGate {
  g_lines : list gate_line;
  g_saved : option (dict Q);
  g_exit : nat
}.

Definition Qltb (a b : Q) : bool := negb (Qle_bool b a).

Definition rate_leb (a b : string * Q) : bool := str_leb a.1 b.1.

Definition overall_rate (rp : dict Q) : Q :=
  match rp with
  | [] => 0
  | _ => foldr Qplus 0 (dict_values rp) / inject_Z (Z.of_nat (length rp))
  end%Q.

(** The loop over the packages: the lines, one for each regression. *)
Definition regressions (baseline rp : dict Q) : list gate_line :=
  omap (λ kv, match dict_get kv.1 baseline with
    | Some prev => if Qltb kv.2 (prev - (1 # 200))%Q then Some (Dropped kv.1 kv.2 prev) else None
    | None => None
    end) (py_sorted rate_leb rp).

(** [main]: [args] are the report and the threshold when both were given,
    [baseline] the stored one when it exists and can be read. *)
Definition coverage_main (args : option (list (option string * option Q) * Q))
    (baseline : option (dict Q)) : gate_run :=
  match args with
  | None => mkGate [Usage] None 1
  | Some (packages, threshold) =>
      let rp := runtime_packages (parse_packages packages) in
      let overall := overall_rate rp in
      if Qltb overall (threshold / 100)%Q
      then mkGate [RuntimeCoverage overall threshold; BelowThreshold overall threshold] None 1
      else match default [] baseline with
      | [] => mkGate [RuntimeCoverage overall threshold; BaselineSaved; NoPriorBaseline] (Some rp) 0
      | baseline =>
          match regressions baseline rp with
          | [] => mkGate [RuntimeCoverage overall threshold; AllPassed] None 0
          | failed => mkGate (RuntimeCoverage overall threshold :: failed ++ [RegressionDetected]) None 1
          end
      end
  end.
