(* ===== verification/ArchitectureProps.v ===== *)
(** * Theorems about the architecture checker and the coverage gate

    The depth-first search ends and finds a cycle exactly when the import graph
    has one, with a path that ends in it; what the verification's exit code
    means; what the gate lets through. *)
From S2P Require Import Prelude PyStr PyDict Architecture.
From Stdlib Require Import Ascii QArith.
From stdpp Require Import relations.

Implicit Types n m : string.

(** ** Depth-first search *)

Section Graph.
Context (graph : dict (list string)).

(** One file imports another of the graph. *)
Definition edge n m : Prop :=
  m ∈ dict_get_or [] n graph ∧ is_Some (dict_get n graph) ∧ is_Some (dict_get m graph).

(** Every node of the list imports the next one. *)
Definition is_walk (l : list string) : Prop := ∀ l1 a b l2, l = l1 ++ a :: b :: l2 → edge a b.

Definition ends_in_cycle (l : list string) : Prop :=
  is_walk l ∧ ∃ p c q, l = p ++ c :: q ++ [c].

Lemma is_walk_snoc l a b : is_walk (l ++ [a]) → edge a b → is_walk (l ++ [a; b]).
Proof.
  intros Hw Hab l1 x y l2 Heq.
  destruct l2 as [|z l2 _] using rev_ind.
  - change (l1 ++ [x; y]) with (l1 ++ [x] ++ [y]) in Heq.
    change (l ++ [a; b]) with (l ++ [a] ++ [b]) in Heq. rewrite !app_assoc in Heq.
    apply app_inj_tail in Heq as [Heq ->]. apply app_inj_tail in Heq as [_ ->]. done.
  - apply (Hw l1 x y l2). change (l ++ [a; b]) with (l ++ [a] ++ [b]) in Heq.
    rewrite app_assoc in Heq. rewrite !app_comm_cons, app_assoc in Heq.
    by apply app_inj_tail in Heq as [-> _].
Qed.

Lemma is_walk_tail a l : is_walk (a :: l) → is_walk l.
Proof. intros H l1 x y l2 ->. by apply (H (a :: l1) x y l2). Qed.

Lemma is_walk_app_r l k : is_walk (l ++ k) → is_walk k.
Proof. induction l as [|a l IH]; [done|]. intros H. by apply IH, (is_walk_tail a). Qed.

Lemma is_walk_path c q d : is_walk (c :: q ++ [d]) → tc edge c d.
Proof.
  revert c. induction q as [|e q IH]; intros c H.
  - apply tc_once. by apply (H [] c d []).
  - apply tc_l with e; [by apply (H [] c e (q ++ [d]))|]. by apply IH, (is_walk_tail c).
Qed.

Lemma ends_in_cycle_cyclic l : ends_in_cycle l → ∃ c, tc edge c c.
Proof. intros [Hw (p & c & q & ->)]. exists c. by apply is_walk_path with q, is_walk_app_r with p. Qed.

(** What holds between two calls: the grey nodes are the path, and what is
    black has been explored and lies on no cycle. *)
Record dfs_inv (s : dfs_state) : Prop := {
  inv_dom : ∀ n, is_Some (color s !! n) ↔ is_Some (dict_get n graph);
  inv_walk : is_walk (cycle_path s);
  inv_gray : ∀ n, color s !! n = Some GRAY ↔ n ∈ cycle_path s;
  inv_black : ∀ n m, color s !! n = Some BLACK → edge n m → color s !! m = Some BLACK;
  inv_acyclic : ∀ n, color s !! n = Some BLACK → ¬ tc edge n n
}.

Definition whites (s : dfs_state) : gset string :=
  dom (filter (λ kv, kv.2 = WHITE) (color s)).

Lemma elem_of_whites s n : n ∈ whites s ↔ color s !! n = Some WHITE.
Proof.
  unfold whites. rewrite elem_of_dom. split.
  - intros [k [H Hk]%map_lookup_filter_Some]. simpl in Hk. by subst.
  - intros H. exists WHITE. by apply map_lookup_filter_Some.
Qed.

(** What a call that found nothing did: it only explored white nodes. *)
Record explored (s s' : dfs_state) : Prop := {
  ex_inv : dfs_inv s';
  ex_path : cycle_path s' = cycle_path s;
  ex_kept : ∀ m, color s !! m ≠ Some WHITE → color s' !! m = color s !! m
}.

Lemma explored_refl s : dfs_inv s → explored s s.
Proof. by split. Qed.

Lemma explored_whites s s' : explored s s' → whites s' ⊆ whites s.
Proof.
  intros H m. rewrite !elem_of_whites. intros Hm.
  destruct (decide (color s !! m = Some WHITE)) as [|Hne]; [done|].
  by rewrite <- (ex_kept _ _ H m Hne).
Qed.

Lemma explored_trans s1 s2 s3 : explored s1 s2 → explored s2 s3 → explored s1 s3.
Proof.
  intros H H'. split; [apply H'|by rewrite (ex_path _ _ H'), (ex_path _ _ H)|].
  intros m Hm. rewrite (ex_kept _ _ H' m), (ex_kept _ _ H m); [done..|].
  by rewrite (ex_kept _ _ H m).
Qed.

Lemma explored_black s s' m : explored s s' → color s !! m = Some BLACK → color s' !! m = Some BLACK.
Proof. intros H Hm. rewrite (ex_kept _ _ H m); [done|]. by rewrite Hm. Qed.

Lemma black_reach s n m : dfs_inv s → color s !! n = Some BLACK → tc edge n m → color s !! m = Some BLACK.
Proof. intros Hi Hn H. induction H as [x y H|x y z H _ IH]; [by eapply inv_black|apply IH; by eapply inv_black]. Qed.

(** A node may be entered when the path leads to it. *)
Definition enters (s : dfs_state) n : Prop :=
  cycle_path s = [] ∨ ∃ p a, cycle_path s = p ++ [a] ∧ edge a n.

Definition outcome_ok (s : dfs_state) (done : dfs_state → Prop) (r : option (bool * dfs_state)) : Prop :=
  ∃ b s', r = Some (b, s')
    ∧ if (b : bool) then ends_in_cycle (cycle_path s') else explored s s' ∧ done s'.

Definition pushed n s : dfs_state := mkDfs (<[n := GRAY]> (color s)) (cycle_path s ++ [n]).

Lemma pushed_inv s n : dfs_inv s → color s !! n = Some WHITE → enters s n → dfs_inv (pushed n s).
Proof.
  intros [Hdom Hwalk Hgray Hblack Hacyc] Hn He. split; cbn [pushed color cycle_path].
  - intros m. destruct (decide (m = n)) as [->|Hm].
    + rewrite lookup_insert_eq, <- Hdom, Hn. done.
    + by rewrite lookup_insert_ne by congruence.
  - destruct He as [->|(p & a & Hp & Ha)].
    + intros [|a [|b l1]] x y l2 Heq; discriminate Heq.
    + rewrite Hp, <- app_assoc. apply is_walk_snoc; [by rewrite <- Hp|done].
  - intros m. rewrite elem_of_app, list_elem_of_singleton, <- Hgray.
    destruct (decide (m = n)) as [->|Hm]; [rewrite lookup_insert_eq; naive_solver|].
    rewrite lookup_insert_ne by congruence. naive_solver.
  - intros x y Hx Hxy. destruct (decide (x = n)) as [->|Hne]; [by rewrite lookup_insert_eq in Hx|].
    rewrite lookup_insert_ne in Hx by congruence. specialize (Hblack x y Hx Hxy).
    rewrite lookup_insert_ne; [done|]. intros ->. congruence.
  - intros x Hx. destruct (decide (x = n)) as [->|Hne]; [by rewrite lookup_insert_eq in Hx|].
    rewrite lookup_insert_ne in Hx by congruence. by apply Hacyc.
Qed.

Lemma pushed_whites s n : color s !! n = Some WHITE → (size (whites (pushed n s)) < size (whites s))%nat.
Proof.
  intros Hn. apply subset_size. split.
  - intros m. rewrite !elem_of_whites. cbn. destruct (decide (m = n)) as [->|Hm].
    + by rewrite lookup_insert_eq.
    + by rewrite lookup_insert_ne by congruence.
  - intros Hs. specialize (Hs n). rewrite !elem_of_whites in Hs. cbn in Hs.
    rewrite lookup_insert_eq in Hs. by specialize (Hs Hn).
Qed.

(** Every neighbour done: the node turns black. *)
Lemma popped_explored s s' n : dfs_inv s → color s !! n = Some WHITE → explored (pushed n s) s' →
  (∀ m, edge n m → color s' !! m = Some BLACK) →
  explored s (mkDfs (<[n := BLACK]> (color s')) (removelast (cycle_path s'))).
Proof.
  intros Hi Hn [[Hdom Hwalk Hgray Hblack Hacyc] Hpath Hkept] Hnb.
  cbn [pushed color cycle_path] in *.
  assert (n ∉ cycle_path s) as Hfresh by (rewrite <- (inv_gray _ Hi), Hn; done).
  assert (color s' !! n = Some GRAY) as Hgn
    by (rewrite Hkept; rewrite lookup_insert_eq; done).
  assert (removelast (cycle_path s') = cycle_path s) as Hpop by (by rewrite Hpath, removelast_last).
  split; cbn [color cycle_path]; [split; cbn [color cycle_path]|done|].
  - intros m. destruct (decide (m = n)) as [->|Hm].
    + rewrite lookup_insert_eq, <- Hdom, Hgn. done.
    + by rewrite lookup_insert_ne by congruence.
  - rewrite Hpop. apply Hi.
  - intros m. rewrite Hpop. destruct (decide (m = n)) as [->|Hm].
    + rewrite lookup_insert_eq. naive_solver.
    + rewrite lookup_insert_ne, Hgray, Hpath, elem_of_app, list_elem_of_singleton by congruence.
      naive_solver.
  - intros x y Hx Hxy. destruct (decide (y = n)) as [->|Hy]; [by rewrite lookup_insert_eq|].
    rewrite lookup_insert_ne by congruence. destruct (decide (x = n)) as [->|Hne]; [by apply Hnb|].
    rewrite lookup_insert_ne in Hx by congruence. by eapply Hblack.
  - intros x Hx Hc. destruct (decide (x = n)) as [->|Hne].
    + assert (color s' !! n = Some BLACK) as Hb; [|congruence].
      inversion Hc as [? ? Hxy|? y ? Hxy Hyn]; subst; [by apply Hnb|].
      apply (black_reach s' y n); [by split|by apply Hnb|done].
    + rewrite lookup_insert_ne in Hx by congruence. by apply (Hacyc x).
  - intros m Hm. assert (m ≠ n) as Hne by congruence.
    rewrite lookup_insert_ne, Hkept by (rewrite ?lookup_insert_ne by congruence; congruence).
    by rewrite lookup_insert_ne by congruence.
Qed.

Lemma neighbors_ok f k n ns s p :
  (∀ m s', dfs_inv s' → color s' !! m = Some WHITE → enters s' m → (size (whites s') ≤ k)%nat →
     outcome_ok s' (λ s'', color s'' !! m = Some BLACK) (f m s')) →
  dfs_inv s → (size (whites s) ≤ k)%nat → cycle_path s = p ++ [n] →
  (∀ m, m ∈ ns → is_Some (color s !! m) → edge n m) →
  outcome_ok s (λ s', ∀ m, m ∈ ns → is_Some (color s !! m) → color s' !! m = Some BLACK)
    (dfs_neighbors f ns s).
Proof.
  intros Hf. revert s. induction ns as [|m ns IH]; intros s Hi Hk Hp He; cbn [dfs_neighbors].
  { exists false, s. split; [done|]. split; [by apply explored_refl|].
    intros m Hm. by apply elem_of_nil in Hm. }
  assert (∀ s', explored s s' → (is_Some (color s !! m) → color s' !! m = Some BLACK) →
    outcome_ok s (λ s', ∀ x, x ∈ m :: ns → is_Some (color s !! x) → color s' !! x = Some BLACK)
      (dfs_neighbors f ns s')) as Hnext.
  { intros s' Hex Hm. assert (∀ x, is_Some (color s' !! x) ↔ is_Some (color s !! x)) as Hdom
      by (intros x; by rewrite (inv_dom _ (ex_inv _ _ Hex)), (inv_dom _ Hi)).
    destruct (IH s') as (b & s'' & Hr & Hb).
    - apply Hex.
    - etrans; [|exact Hk]. by apply subseteq_size, explored_whites.
    - by rewrite (ex_path _ _ Hex).
    - intros x Hx. rewrite Hdom. apply He. by right.
    - exists b, s''. split; [done|]. destruct b; [done|]. destruct Hb as [Hex' Hall].
      split; [by eapply explored_trans|]. intros x. rewrite elem_of_cons. intros [->|Hx] Hs.
      + apply (explored_black s'); auto.
      + apply Hall; [done|]. by apply Hdom. }
  destruct (color s !! m) as [[| |]|] eqn:Hm.
  - destruct (Hf m s Hi Hm) as (b & s' & -> & Hb).
    + right. exists p, n. split; [done|]. apply He; [by left|by rewrite Hm].
    + done.
    + destruct b; [by exists true, s'|]. destruct Hb as [Hex Hb]. by apply Hnext.
  - exists true, (mkDfs (color s) (cycle_path s ++ [m])). split; [done|]. cbn [cycle_path].
    assert (is_walk (cycle_path s ++ [m])) as Hw.
    { rewrite Hp, <- app_assoc. apply is_walk_snoc; [rewrite <- Hp; apply Hi|].
      apply He; [by left|by rewrite Hm]. }
    split; [done|]. apply (inv_gray _ Hi) in Hm. apply list_elem_of_split in Hm as (p1 & p2 & Heq).
    exists p1, m, p2. by rewrite Heq, <- app_assoc.
  - apply Hnext; [by apply explored_refl|by intros _].
  - apply Hnext; [by apply explored_refl|]. by intros [? ?].
Qed.

Lemma dfs_ok fuel n s :
  dfs_inv s → color s !! n = Some WHITE → enters s n → (size (whites s) ≤ fuel)%nat →
  outcome_ok s (λ s', color s' !! n = Some BLACK) (dfs graph fuel n s).
Proof.
  revert n s. induction fuel as [|fuel IH]; intros n s Hi Hn He Hk.
  { assert (n ∈ whites s) as Hw by by apply elem_of_whites.
    rewrite (size_empty_inv (whites s) ltac:(lia)) in Hw. by apply not_elem_of_empty in Hw. }
  pose proof (pushed_inv s n Hi Hn He) as Hi'. pose proof (pushed_whites s n Hn) as Hlt.
  cbn [dfs]. fold (pushed n s).
  destruct (neighbors_ok (dfs graph fuel) fuel n (dict_get_or [] n graph) (pushed n s) (cycle_path s))
    as (b & s' & -> & Hb); [done..|lia|done| |].
  - intros m Hm Hs. split; [done|]. split; [by apply (inv_dom _ Hi)|by apply (inv_dom _ Hi')].
  - destruct b; [by exists true, s'|]. destruct Hb as [Hex Hall].
    eexists false, _. split; [done|]. split; [|cbn [color]; by rewrite lookup_insert_eq].
    apply popped_explored; [done..|]. intros m (Hm & _ & Hg). apply Hall; [done|].
    by apply (inv_dom _ Hi').
Qed.

Lemma find_cycle_ok fuel ns s :
  dfs_inv s → cycle_path s = [] → (size (whites s) ≤ fuel)%nat →
  outcome_ok s (λ s', ∀ n, n ∈ ns → is_Some (color s !! n) → color s' !! n = Some BLACK)
    (find_cycle graph fuel ns s).
Proof.
  revert s. induction ns as [|n ns IH]; intros s Hi Hp Hk; cbn [find_cycle].
  { exists false, s. split; [done|]. split; [by apply explored_refl|].
    intros m Hm. by apply elem_of_nil in Hm. }
  assert (∀ s', explored s s' → (is_Some (color s !! n) → color s' !! n = Some BLACK) →
    outcome_ok s (λ s', ∀ x, x ∈ n :: ns → is_Some (color s !! x) → color s' !! x = Some BLACK)
      (find_cycle graph fuel ns s')) as Hnext.
  { intros s' Hex Hn. assert (∀ x, is_Some (color s' !! x) ↔ is_Some (color s !! x)) as Hdom
      by (intros x; by rewrite (inv_dom _ (ex_inv _ _ Hex)), (inv_dom _ Hi)).
    destruct (IH s') as (b & s'' & Hr & Hb).
    - apply Hex.
    - by rewrite (ex_path _ _ Hex).
    - etrans; [|exact Hk]. by apply subseteq_size, explored_whites.
    - exists b, s''. split; [done|]. destruct b; [done|]. destruct Hb as [Hex' Hall].
      split; [by eapply explored_trans|]. intros x. rewrite elem_of_cons. intros [->|Hx] Hs.
      + apply (explored_black s'); auto.
      + apply Hall; [done|]. by apply Hdom. }
  case_decide as Hn.
  - destruct (dfs_ok fuel n s Hi Hn (or_introl Hp) Hk) as (b & s' & -> & Hb).
    destruct b; [by exists true, s'|]. destruct Hb as [Hex Hb]. by apply Hnext.
  - apply Hnext; [by apply explored_refl|]. intros [[| |] Hc]; [done| |done].
    apply (inv_gray _ Hi) in Hc. rewrite Hp in Hc. by apply elem_of_nil in Hc.
Qed.

Definition start_state : dfs_state :=
  mkDfs (list_to_map (map (λ n, (n, WHITE)) (dict_keys graph))) [].

Lemma start_color n k : color start_state !! n = Some k → k = WHITE.
Proof.
  unfold start_state. cbn. intros H%elem_of_list_to_map_2.
  apply list_elem_of_In, in_map_iff in H as (x & [= _ <-] & _). done.
Qed.

Lemma start_inv : dfs_inv start_state.
Proof.
  split; cbn [cycle_path start_state].
  - intros n. rewrite <- dict_elem_keys. cbn. split.
    + intros [k H%elem_of_list_to_map_2]. apply list_elem_of_In, in_map_iff in H as (x & [= <- _] & H).
      by apply list_elem_of_In.
    + intros Hn. apply not_eq_None_Some. intros H. apply not_elem_of_list_to_map_2 in H.
      apply H. apply list_elem_of_fmap. exists (n, WHITE). split; [done|].
      apply list_elem_of_In, in_map_iff. exists n. split; [done|]. by apply list_elem_of_In.
  - intros [|? ?] ? ? ? H; discriminate H.
  - intros n. rewrite elem_of_nil. split; [intros ?%start_color|]; done.
  - intros n m ?%start_color. done.
  - intros n ?%start_color. done.
Qed.

Lemma size_nodes (l : list string) : (size (list_to_set l : gset string) ≤ length l)%nat.
Proof.
  apply submseteq_length, NoDup_submseteq; [apply NoDup_elements|].
  intros x. by rewrite elem_of_elements, elem_of_list_to_set.
Qed.

(** The search ends, and finds a cycle exactly when there is one. *)
Lemma detect_cycle_ok : ∃ b s, detect_cycle graph = Some (b, s)
  ∧ if (b : bool) then ends_in_cycle (cycle_path s) else ∀ c, ¬ tc edge c c.
Proof.
  destruct (find_cycle_ok (S (length graph)) (dict_keys graph) start_state) as (b & s & Hr & Hb).
  - apply start_inv.
  - done.
  - assert (whites start_state ⊆ list_to_set (dict_keys graph)) as Hw%subseteq_size.
    { intros n. rewrite elem_of_whites, elem_of_list_to_set. intros Hn.
      apply dict_elem_keys, (inv_dom _ start_inv). by rewrite Hn. }
    pose proof (size_nodes (dict_keys graph)). unfold dict_keys in *.
    rewrite length_fmap in *. lia.
  - exists b, s. split; [exact Hr|]. destruct b; [done|]. destruct Hb as [Hex Hall].
    intros c Hc. apply (inv_acyclic _ (ex_inv _ _ Hex) c); [|done].
    assert (is_Some (dict_get c graph)) as Hg by (inversion Hc as [? ? H|? ? ? H]; subst; apply H).
    apply Hall; [by apply dict_elem_keys|]. by apply (inv_dom _ start_inv).
Qed.
End Graph.

(** C31: the check for import cycles always ends, passes exactly when no file
    of the tree imports itself through other files of the graph it builds, and
    when it fails reports one path of imports that ends in a cycle. *)
Theorem import_cycles_exact root : ∃ r,
  check_import_cycles root = Some r
  ∧ (cr_passed r = true ↔ ∀ file, ¬ tc (edge (import_graph root)) file file)
  ∧ (cr_passed r = false → ∃ l, ends_in_cycle (import_graph root) l
       ∧ cr_details r = ["  Cycle detected: " +:+ str_join " → " l]).
Proof.
  destruct (detect_cycle_ok (import_graph root)) as (b & s & Hd & Hb).
  unfold check_import_cycles. rewrite Hd. eexists. split; [reflexivity|].
  destruct b; cbn [cr_passed cr_details negb]; (split; [split|]); intros H; try done.
  - destruct (ends_in_cycle_cyclic _ _ Hb) as [c Hc]. by destruct (H c).
  - by exists (cycle_path s).
Qed.

(** ** Walking a syntax tree *)

Definition child (n m : node) : Prop := m ∈ iter_child_nodes n.

Lemma node_size_children (n : node) : node_size n = S (sum_list_with node_size (iter_child_nodes n)).
Proof.
  assert (∀ o : option node, sum_list_with node_size (option_list o) = from_option node_size 0%nat o)
    as Ho by (intros [?|]; cbn; lia).
  destruct n; cbn [node_size iter_child_nodes sum_list_with];
    rewrite ?sum_list_with_app, ?Ho; try reflexivity; lia.
Qed.

Lemma walk_nodes_spec fuel todo x : (sum_list_with node_size todo ≤ fuel)%nat →
  x ∈ walk_nodes fuel todo ↔ ∃ t, t ∈ todo ∧ rtc child t x.
Proof.
  revert todo. induction fuel as [|fuel IH]; intros [|n todo] Hf; cbn [walk_nodes].
  1, 3: split; [by intros ?%elem_of_nil|by intros (t & ?%elem_of_nil & _)].
  { cbn in Hf. rewrite node_size_children in Hf. lia. }
  rewrite elem_of_cons, IH.
  2: { rewrite sum_list_with_app. cbn in Hf. rewrite node_size_children in Hf. lia. }
  split.
  - intros [->|(t & Ht & Hx)]; [exists n; split; [by left|done]|].
    apply elem_of_app in Ht as [Ht|Ht]; [exists t; split; [by right|done]|].
    exists n. split; [by left|]. by apply rtc_l with t.
  - intros (t & [->|Ht]%elem_of_cons & Hx).
    + inversion Hx as [|? c ? Hc Hx']; subst; [by left|]. right. exists c.
      split; [|done]. apply elem_of_app. by right.
    + right. exists t. split; [|done]. apply elem_of_app. by left.
Qed.

(** [ast.walk] finds the tree's nodes, all of them. *)
Lemma ast_walk_spec tree x : x ∈ ast_walk tree ↔ rtc child tree x.
Proof.
  unfold ast_walk. rewrite walk_nodes_spec by (cbn; lia). split.
  - by intros (t & ->%list_elem_of_singleton & H).
  - intros H. exists tree. by split; [apply list_elem_of_singleton|].
Qed.

(** The imports of a file: those of any of its nodes. *)
Definition file_imports (f : rel_path * option node) (imp : string) : Prop :=
  ∃ tree x, f.2 = Some tree ∧ rtc child tree x ∧ imp ∈ imports_of x.

Lemma extract_imports_spec f imp : imp ∈ extract_imports f ↔ file_imports f imp.
Proof.
  unfold extract_imports, file_imports. destruct f.2 as [tree|]; [|split].
  - rewrite list_elem_of_join. split.
    + intros (l & Hi & Hl). apply list_elem_of_In, in_map_iff in Hl as (x & <- & Hx).
      exists tree, x. split; [done|]. split; [|done]. by apply ast_walk_spec, list_elem_of_In.
    + intros (t & x & [= <-] & Hx & Hi). exists (imports_of x). split; [done|].
      apply list_elem_of_In, in_map_iff. exists x. split; [done|]. by apply list_elem_of_In, ast_walk_spec.
  - by intros ?%elem_of_nil.
  - by intros (? & ? & ? & _).
Qed.

(** The files the checks look at. *)
Definition checked_file root (f : rel_path * option node) : Prop :=
  f ∈ r_files root ∧ "__pycache__" ∉ f.1 ∧ first_part f.1 ≠ "tests".

Lemma discover_spec root f : f ∈ discover_python_files root true ↔ checked_file root f.
Proof.
  unfold discover_python_files, checked_file. rewrite py_sorted_perm, list_elem_of_filter. naive_solver.
Qed.

Lemma check_result_passed name l : cr_passed (check_result name l) = true ↔ l = [].
Proof. cbn. rewrite bool_decide_eq_true. apply length_zero_iff_nil. Qed.

Lemma bind_nil {A B} (f : A → list B) l : l ≫= f = [] ↔ ∀ x, x ∈ l → f x = [].
Proof.
  induction l as [|x l IH]; [split; [intros _ ? ?%elem_of_nil|]; done|]. csimpl.
  rewrite app_nil, IH. setoid_rewrite elem_of_cons. naive_solver.
Qed.

(** C32: the dependency check passes exactly when, in every file of a layer
    outside the tests, every import anywhere in the file whose first component
    is [runtime] or [services] names a layer allowed for the file's: imports
    of any other layer are not looked at. *)
Theorem dependency_direction_exact root :
  cr_passed (check_dependency_direction root) = true
  ↔ ∀ f layer imp, checked_file root f → get_layer f.1 = Some layer → file_imports f imp →
      let target := first_part (str_split "." imp) in
      target ∈ ["runtime"; "services"] → target ∈ dict_get_or [] layer LAYER_ALLOWED_IMPORTS.
Proof.
  unfold check_dependency_direction. rewrite check_result_passed, bind_nil.
  assert (∀ layer imp, import_allowed layer imp = true
    ↔ (first_part (str_split "." imp) ∈ ["runtime"; "services"] →
       first_part (str_split "." imp) ∈ dict_get_or [] layer LAYER_ALLOWED_IMPORTS)) as Hallow.
  { intros layer imp. unfold import_allowed, is_project_import, classify_import.
    set (t := first_part (str_split "." imp)).
    rewrite orb_true_iff, negb_true_iff, bool_decide_eq_false.
    assert (t ∈ ["runtime"; "services"] ↔ t = "runtime" ∨ t = "services") as Hin
      by (rewrite !elem_of_cons, elem_of_nil; naive_solver).
    rewrite Hin. clear Hin. repeat case_decide; rewrite ?bool_decide_eq_true;
      repeat match goal with H : t = _ |- _ => rewrite H in *; clear H end; naive_solver. }
  split.
  - intros H f layer imp Hf Hl Hi Ht. refine (proj1 (Hallow layer imp) _ Ht).
    specialize (H f (proj2 (discover_spec _ _) Hf)). cbn beta in H. rewrite Hl, bind_nil in H.
    specialize (H imp (proj2 (extract_imports_spec _ _) Hi)). cbn beta in H. by case_match.
  - intros H f Hf%discover_spec. destruct (get_layer f.1) as [layer|] eqn:Hl; [|done].
    apply bind_nil. intros imp Hi%extract_imports_spec.
    by rewrite (proj2 (Hallow layer imp) (H f layer imp Hf Hl Hi)).
Qed.

(** ** The exit code *)

(** The verification always ends; its exit code is 0 exactly when all the
    checks pass, and the report counts them. *)
Lemma run_verification_exact iter load_class root : ∃ rs code,
  run_verification iter load_class root = Some (rs, code)
  ∧ length rs = 8%nat
  ∧ (code = 0%nat ↔ Forall (λ r, cr_passed r = true) rs).
Proof.
  destruct (detect_cycle_ok (import_graph root)) as (b & s & Hd & _).
  unfold run_verification, check_import_cycles. rewrite Hd.
  eexists _, _. split; [reflexivity|]. split; [reflexivity|].
  set (rs := [_; _; _; _; _; _; _; _]).
  destruct (filter (λ r, cr_passed r = false) rs) as [|x l] eqn:Hf.
  - split; [|done]. intros _. apply Forall_forall. intros y Hy.
    destruct (cr_passed y) eqn:Hp; [done|].
    assert (y ∈ filter (λ r, cr_passed r = false) rs) as Hin by by apply list_elem_of_filter.
    rewrite Hf in Hin. by apply elem_of_nil in Hin.
  - split; [done|]. intros Hall. rewrite Forall_forall in Hall.
    assert (x ∈ filter (λ r, cr_passed r = false) rs) as [Hx Hin]%list_elem_of_filter
      by (rewrite Hf; by left). rewrite (Hall x Hin) in Hx. done.
Qed.

(** ** The coverage gate *)

Lemma Qltb_true a b : Qltb a b = true ↔ (a < b)%Q.
Proof.
  unfold Qltb. rewrite negb_true_iff. rewrite <- not_true_iff_false, Qle_bool_iff. split; [apply Qnot_le_lt|apply Qlt_not_le].
Qed.
Lemma Qltb_false a b : Qltb a b = false ↔ (b <= a)%Q.
Proof.
  rewrite <- not_true_iff_false, Qltb_true. split; [apply Qnot_lt_le|apply Qle_not_lt].
Qed.

Lemma regressions_nil baseline rp :
  regressions baseline rp = []
  ↔ ∀ pkg rate prev, (pkg, rate) ∈ rp → dict_get pkg baseline = Some prev → (prev - (1 # 200) <= rate)%Q.
Proof.
  unfold regressions. setoid_rewrite <- (py_sorted_perm rate_leb rp) at 2.
  induction (py_sorted rate_leb rp) as [|[k v] l IH].
  - split; [by intros _ ? ? ? ?%elem_of_nil|done].
  - csimpl. setoid_rewrite elem_of_cons. destruct (dict_get k baseline) as [prev|] eqn:Hk; cbn [snd].
    + destruct (Qltb v _) eqn:Hlt.
      * split; [done|]. intros H. apply Qltb_true in Hlt. exfalso.
        apply (Qlt_not_le _ _ Hlt). by apply (H k v prev); [left|].
      * apply Qltb_false in Hlt. rewrite IH. split; [|naive_solver].
        intros H pkg rate p [[= -> ->]|Hin] Hp; [|by eapply H]. by simplify_eq.
    + rewrite IH. split; [|naive_solver]. intros H pkg rate p [[= -> ->]|Hin] Hp; [congruence|by eapply H].
Qed.

(** The gate succeeds exactly when the mean rate of the selected packages
    reaches the threshold and none of them has lost more than half a percent
    since the baseline. *)
Lemma coverage_gate_exact packages threshold baseline :
  let rp := runtime_packages (parse_packages packages) in
  g_exit (coverage_main (Some (packages, threshold)) baseline) = 0%nat
  ↔ (threshold / 100 <= overall_rate rp)%Q
    ∧ ∀ pkg rate prev, (pkg, rate) ∈ rp → dict_get pkg (default [] baseline) = Some prev →
        (prev - (1 # 200) <= rate)%Q.
Proof.
  intros rp. unfold coverage_main. fold rp. destruct (Qltb (overall_rate rp) _) eqn:Hlt.
  - apply Qltb_true, Qlt_not_le in Hlt. split; [done|]. by intros [? _].
  - apply Qltb_false in Hlt. destruct (default [] baseline) as [|b bs] eqn:Hb; [by split|].
    rewrite <- regressions_nil. destruct (regressions (b :: bs) rp); [done|]. split; [done|]. by intros [_ ?].
Qed.

(** A report without a package of that name reaches no threshold above zero. *)
Lemma coverage_gate_no_package packages threshold baseline :
  (∀ p, p ∈ packages → str_contains "kitematic_runtime" (default ε p.1) = false) → (0 < threshold)%Q →
  g_exit (coverage_main (Some (packages, threshold)) baseline) = 1%nat.
Proof.
  intros Hp Ht.
  assert (runtime_packages (parse_packages packages) = []) as Hr.
  { unfold runtime_packages, parse_packages. assert (∀ d, filter (λ kv : string * Q,
      str_contains "kitematic_runtime" kv.1 = true) d = [] → filter (λ kv : string * Q,
      str_contains "kitematic_runtime" kv.1 = true) (foldl (λ d p, dict_set (default ε p.1)
        (default 0%Q p.2) d) d packages) = []) as H; [|by apply H].
    clear Ht. induction packages as [|p l IH]; intros d Hd; [done|]. cbn [foldl]. apply IH.
    - intros q Hq. apply Hp. by right.
    - apply elem_of_nil_inv. intros kv [Hc Hin]%list_elem_of_filter.
      apply dict_set_items in Hin as [->|Hin].
      + cbn in Hc. rewrite Hp in Hc by by left. done.
      + assert (kv ∈ filter (λ kv : string * Q, str_contains "kitematic_runtime" kv.1 = true) d) as H
          by by apply list_elem_of_filter. rewrite Hd in H. by apply elem_of_nil in H. }
  unfold coverage_main. rewrite Hr. cbn [overall_rate].
  assert (Qltb 0 (threshold / 100) = true) as ->; [|done].
  apply Qltb_true. by apply Qlt_shift_div_l.
Qed.

(** A kernel file that imports the control plane, an [async] abstract method
    that no class implements: both pass. *)
Example demo_architecture :
  let abc := ClassDef "PolicyEvaluator" [Name "ABC"] []
    [FunctionDef true "evaluate" [] [] [Name "abstractmethod"] []] [] in
  let impl := ClassDef "PolicyEngine" [Name "PolicyEvaluator"] [] [Pass 3] [] in
  let root := mkRoot
    [ (["kernel"; "a.py"], Some (Other [ImportFrom (Some "control_plane.policy.engine")]));
      (["core"; "policies"; "evaluator.py"], Some (Other [abc]));
      (["control_plane"; "policy"; "engine.py"], Some (Other [impl])) ]
    [["core"; "policies"]; ["control_plane"; "policy"]] in
  cr_passed (check_dependency_direction root) = true
  ∧ cr_passed (check_interface_compliance elements root) = true
  ∧ cr_details (check_hygiene root) = ["  control_plane/policy/engine.py:3"].
Proof. vm_compute. done. Qed.

Example demo_import_cycle :
  let f name imp := ([ "runtime"; name +:+ ".py" ], Some (Other [Import [imp]])) in
  cr_details <$> check_import_cycles (mkRoot
    [ f "a" "runtime.b"; f "b" "runtime.c"; f "c" "runtime.b" ] [])
  = Some ["  Cycle detected: runtime/a.py → runtime/b.py → runtime/c.py → runtime/b.py"].
Proof. vm_compute. done. Qed.
