(* ===== verification/Plugins.v ===== *)
(** * Plugins: manifests, validation, discovery, installation, registration
    ([core/domain/plugin.py], [core/domain/capability.py], [agents/loader])

    A raw manifest is a dynamic value read from YAML; the YAML parser is the
    argument [safe_load]. A tuple of a capability is a list here. Files are those
    of the file-system model. *)
From S2P Require Import Prelude PyStr PyDict PyVal PyText FileStore.
From Stdlib Require Import Ascii.

(** ** The manifest ([core/domain/plugin.py]) *)

Inductive PluginType := PT_AGENT | PT_TOOL | PT_MODEL | PT_FRAMEWORK.

#[export] Instance PluginType_eq_dec : EqDecision PluginType.
Proof. solve_decision. Defined.

Definition PluginType_value (t : PluginType) : string :=
  match t with
  | PT_AGENT => "agent" | PT_TOOL => "tool" | PT_MODEL => "model" | PT_FRAMEWORK => "framework"
  end.
Definition PluginTypes : list PluginType := [PT_AGENT; PT_TOOL; PT_MODEL; PT_FRAMEWORK].

Record PluginManifest := mkManifest {
  pm_name : string;
  pm_version : string;
  pm_plugin_type : PluginType;
  pm_runtime_type : string;
  pm_description : pyval;
  pm_author : string;
  pm_entrypoint : dict pyval;
  pm_capabilities : list (dict pyval);
  pm_permissions : list pyval;
  pm_dependencies : list pyval;
  pm_min_kernel_version : pyval;
  pm_config_schema : pyval;
  pm_provider : pyval
}.

Definition PluginManifest_validate (m : PluginManifest) : list string :=
  (if truthy (pm_name m) then [] else ["name is required"])
  ++ (if truthy (pm_version m) then [] else ["version is required"])
  ++ (if dict_mem "module" (pm_entrypoint m) then [] else ["entrypoint.module is required"])
  ++ (if dict_mem "class" (pm_entrypoint m) then [] else ["entrypoint.class is required"])
  ++ (if truthy (pm_runtime_type m) then [] else ["runtime_type is required"]).

Definition PluginManifest_is_valid (m : PluginManifest) : bool :=
  bool_decide (length (PluginManifest_validate m) = 0%nat).

(** ** Capabilities ([core/domain/capability.py]) *)

Record PluginCapability := mkPluginCap {
  pc_name : pyval;
  pc_risk_level : pyval;
  pc_description : pyval;
  pc_permissions : list pyval
}.

(** [c.__dict__] *)
Definition capability_dict (c : PluginCapability) : dict pyval :=
  [ ("name", pc_name c); ("risk_level", pc_risk_level c);
    ("description", pc_description c); ("permissions", VList (pc_permissions c)) ].

(** ** Validation ([agents/loader/validator.py]) *)

Definition ValidationError (errors : list string) : exn :=
  mkExn "ValidationError" (str_join "; " errors).

Section Validation.
Variable float_repr : Q → string.

(** [_require_str]: the value, and the error it adds. *)
Definition _require_str (raw : dict pyval) (key : string) : string * list string :=
  match dict_get_or VNone key raw with
  | VStr s =>
      if truthy (str_strip s) then (str_strip s, []) else (ε, [key +:+ " is required"])
  | _ => (ε, [key +:+ " is required"])
  end.

(** [PluginType(value)] *)
Definition PluginType_of (v : pyval) : option PluginType :=
  snd <$> list_find (λ t, v = VStr (PluginType_value t)) PluginTypes.

Definition plugin_type_field (raw : dict pyval) : PluginType * list string :=
  let v := dict_get_or (VStr ε) "plugin_type" raw in
  match PluginType_of v with
  | Some t => (t, [])
  | None =>
      (PT_TOOL, ["invalid plugin_type '" +:+ py_str float_repr v +:+ "'; expected one of "
                 +:+ py_repr float_repr (VList (map (VStr ∘ PluginType_value) PluginTypes))])
  end.

Definition entrypoint_field (raw : dict pyval) : dict pyval * list string :=
  match dict_get_or VNone "entrypoint" raw with
  | VDict d =>
      (d, (if dict_mem "module" d then [] else ["entrypoint.module is required"])
          ++ (if dict_mem "class" d then [] else ["entrypoint.class is required"]))
  | _ => ([], ["entrypoint must be a dict with 'module' and 'class' keys"])
  end.

Definition risk_levels : list pyval := [VStr "low"; VStr "medium"; VStr "high"; VStr "critical"].

(** One element of [capabilities]. *)
Definition capability_field (i : nat) (cap : pyval) : list PluginCapability * list string :=
  let at_i := "capabilities[" +:+ str_of_nat i +:+ "]" in
  match cap with
  | VDict d =>
      let risk := dict_get_or (VStr "low") "risk_level" d in
      ([mkPluginCap (dict_get_or (VStr ε) "name" d) risk (dict_get_or (VStr ε) "description" d)
          (match dict_get_or (VList []) "permissions" d with VList l => l | _ => [] end)],
       (if py_truth (dict_get_or (VStr ε) "name" d) then [] else [at_i +:+ ".name is required"])
       ++ (if decide (risk ∈ risk_levels) then []
           else [at_i +:+ ".risk_level must be one of low, medium, high, critical"]))
  | _ => ([], [at_i +:+ " must be a dict"])
  end.

Definition list_field (raw : dict pyval) (key : string) : list pyval * list string :=
  match dict_get_or (VList []) key raw with
  | VList l => (l, [])
  | _ => ([], [key +:+ " must be a list"])
  end.

Definition validate_manifest (raw : dict pyval) : outcome PluginManifest :=
  let '(name, e1) := _require_str raw "name" in
  let '(version, e2) := _require_str raw "version" in
  let '(plugin_type, e3) := plugin_type_field raw in
  let '(runtime_type, e4) := _require_str raw "runtime_type" in
  let description := dict_get_or (VStr ε) "description" raw in
  let '(author, e5) := _require_str raw "author" in
  let '(entrypoint, e6) := entrypoint_field raw in
  caps ← py_iter (dict_get_or (VList []) "capabilities" raw);
  let fields := imap capability_field caps in
  let capabilities := mjoin (map fst fields) in
  let '(permissions, e8) := list_field raw "permissions" in
  let '(dependencies, e9) := list_field raw "dependencies" in
  let errors := e1 ++ e2 ++ e3 ++ e4 ++ e5 ++ e6 ++ mjoin (map snd fields) ++ e8 ++ e9 in
  if bool_decide (errors = []) then
    mret (mkManifest name version plugin_type runtime_type description author entrypoint
            (map capability_dict capabilities) permissions dependencies
            (dict_get_or (VStr "1.0.0") "min_kernel_version" raw)
            (dict_get_or VNone "config_schema" raw) (dict_get_or VNone "provider" raw))
  else Raise (ValidationError errors).
End Validation.

(** ** Registration ([agents/loader/registry_bridge.py]) *)

Class CapabilityStore (S : Type) := {
  add_capabilities : string → list (dict pyval) → M S unit;
  remove_capabilities : string → M S unit
}.
Class PluginTools (S : Type) := {
  register_tool : string → dict pyval → M S unit;
  unregister_tool : string → M S unit
}.
Class CapabilityEvaluator (S : Type) := {
  evaluate_capabilities : list (dict pyval) → dict pyval → M S bool
}.

Record RegistrationResult := mkRegistration {
  rg_success : bool;
  rg_plugin_name : string;
  rg_errors : list string
}.

Section Bridge.
Context {S : Type} `{!CapabilityStore S, !PluginTools S}.

(** [policy_evaluator] may be [None]. *)
Definition bridge_register (policy_evaluator : option (CapabilityEvaluator S))
    (manifest : PluginManifest) : M S RegistrationResult :=
  allowed ← match policy_evaluator with
    | None => mret true
    | Some _ =>
        evaluate_capabilities (pm_capabilities manifest)
          [ ("plugin_name", VStr (pm_name manifest));
            ("plugin_type", VStr (PluginType_value (pm_plugin_type manifest))) ]
    end;
  if negb allowed then
    mret (mkRegistration false (pm_name manifest)
            ["Plugin '" +:+ pm_name manifest +:+ "' capabilities rejected by policy"])
  else
    add_capabilities (pm_name manifest) (pm_capabilities manifest) ;;
    register_tool (pm_name manifest) (pm_entrypoint manifest) ;;
    mret (mkRegistration true (pm_name manifest) []).

Definition bridge_unregister (manifest_name : string) : M S unit :=
  remove_capabilities manifest_name ;; unregister_tool manifest_name.
End Bridge.

(** ** Discovery ([agents/loader/discovery.py]) *)

Definition PLUGIN_DIRS : list string := ["tools"; "frameworks"; "models"].

Definition is_dir (fs : FS) (p : path) : bool :=
  match resolve fs p with Some q => bool_decide (q ∈ fs_dirs fs) | None => false end.
Definition is_file (fs : FS) (p : path) : bool :=
  match resolve fs p with
  | Some q => bool_decide (q ∉ fs_dirs fs ∧ is_Some (fs_files fs !! q))
  | None => false
  end.

(** The directories in [p], sorted: [sorted(p.iterdir())] less the files, which
    the loop skips. *)
Definition sub_dirs (fs : FS) (p : path) : list path :=
  map (λ w, p ++ [w])
    (py_sorted str_leb
       (omap (λ q, w ← last q; if decide (q = p ++ [w]) then Some w else None)
          (elements (fs_dirs fs)))).

Section Loader.
Variable float_repr : Q → string.
(** [yaml.safe_load(text)] *)
Variable safe_load : string → outcome pyval.

Definition _load_manifest (fs : FS) (p : path) : outcome PluginManifest :=
  text ← fs_read fs p;
  raw ← safe_load text;
  match raw with
  | VDict d => validate_manifest float_repr d
  | _ => Raise (ValidationError ["manifest must be a YAML mapping"])
  end.

(** [except (ValidationError, yaml.YAMLError, OSError)] *)
Definition skipped (e : exn) : bool :=
  bool_decide (exn_class e ∈
    ["ValidationError"; "YAMLError"; "OSError"; "FileNotFoundError"; "IsADirectoryError";
     "PermissionError"]).

(** The plugins found and the files skipped, each with the reason logged. *)
Fixpoint discover_in (fs : FS) (paths : list path)
    : outcome (list PluginManifest * list (path * string)) :=
  match paths with
  | [] => Ok ([], [])
  | p :: paths' =>
      let manifest_file := p ++ ["manifest.yaml"] in
      if negb (is_file fs manifest_file) then discover_in fs paths'
      else match _load_manifest fs manifest_file with
      | Ok m =>
          rest ← discover_in fs paths';
          mret (m :: fst rest, snd rest)
      | Raise e =>
          if skipped e then
            rest ← discover_in fs paths';
            mret (fst rest, (manifest_file, exn_str e) :: snd rest)
          else Raise e
      end
  end.

Definition plugin_paths (fs : FS) (root : path) : list path :=
  subdir ← PLUGIN_DIRS;
  let plugin_dir := root ++ ["agents"; subdir] in
  if is_dir fs plugin_dir then sub_dirs fs plugin_dir else [].

Definition discover_plugins (fs : FS) (root : path) : outcome (list PluginManifest) :=
  found ← discover_in fs (plugin_paths fs root);
  mret (fst found).

Definition discover_plugin (fs : FS) (root : path) (name : string)
    : outcome (option PluginManifest) :=
  plugins ← discover_plugins fs root;
  mret (snd <$> list_find (λ m, pm_name m = name) plugins).

(** [_find_project_root]: the nearest directory with [core] and [kernel]. *)
Definition _find_project_root (fs : FS) (cwd : path) : path :=
  match list_find (λ p, is_dir fs (p ++ ["core"]) = true ∧ is_dir fs (p ++ ["kernel"]) = true)
          (reverse (prefixes cwd)) with
  | Some (_, p) => p
  | None => cwd
  end.

(** ** Installation ([agents/loader/installer.py]) *)

Definition _plugin_dest (root : path) (m : PluginManifest) : path :=
  let type_dir := PluginType_value (pm_plugin_type m) +:+ "s" in
  let type_dir := if decide (type_dir = "agents") then "tools" else type_dir in
  path_join (root ++ ["agents"; type_dir]) (pm_name m).

(** [p.mkdir(parents=True, exist_ok=True)] of a path that may climb with [..]:
    where it leads, with the directories that had to be made. *)
Fixpoint make_dirs (fs : FS) (cur p : path) : outcome path * FS :=
  match p with
  | [] => (Ok cur, fs)
  | w :: p' =>
      if decide (w = "..") then make_dirs fs (removelast cur) p'
      else if decide (cur ++ [w] ∈ fs_dirs fs) then make_dirs fs (cur ++ [w]) p'
      else if decide (is_Some (fs_files fs !! (cur ++ [w]))) then
        (Raise (if decide (p' = []) then FileExistsError
                else mkExn "NotADirectoryError" "Not a directory"), fs)
      else make_dirs (mkFS ({[cur ++ [w]]} ∪ fs_dirs fs) (fs_files fs)) (cur ++ [w]) p'
  end.

Definition make_parents (p : path) : M FS unit := λ fs,
  if existsb has_nul p then (Raise (ValueError "embedded null byte"), fs)
  else let '(o, fs') := make_dirs fs [] p in (_ ← o; Ok tt, fs').

Definition below (p q : path) : option path :=
  if decide (p `prefix_of` q) then Some (drop (length p) q) else None.

(** [shutil.copytree(source, dest, dirs_exist_ok=True)] of a source that does
    not contain [dest]: a directory that cannot be made is left out with what is
    below it, a file that cannot be written is left out, and the error is raised
    after the rest has been copied. *)
Definition copytree (source dest : path) : M FS unit := λ fs,
  match resolve fs source, resolve fs dest with
  | Some src, Some dst =>
      let dirs := omap (below src) (elements (fs_dirs fs)) in
      let files := omap (λ kv, r ← below src kv.1; Some (r, kv.2)) (map_to_list (fs_files fs)) in
      let bad_dir (r : path) := existsb (λ d, bool_decide (d `prefix_of` r ∧ is_Some (fs_files fs !! (dst ++ d)))) dirs in
      let bad_file (f : path * string) := bad_dir f.1 || bool_decide (dst ++ f.1 ∈ fs_dirs fs)
                                          || bool_decide (src = dst) in
      let good_dirs := filter (λ r, bad_dir r = false) dirs in
      let good_files := filter (λ f, bad_file f = false) files in
      (if existsb bad_dir dirs || existsb bad_file files
       then Raise (mkExn "Error" "copytree") else Ok tt,
       mkFS (list_to_set (map (app dst) good_dirs) ∪ fs_dirs fs)
            (list_to_map (map (λ f, (dst ++ f.1, f.2)) good_files) ∪ fs_files fs))
  | _, _ => (Raise FileNotFoundError, fs)
  end.

(** [shutil.rmtree(p)] *)
Definition rmtree (p : path) : M FS unit := λ fs,
  match resolve fs p with
  | None => (Raise FileNotFoundError, fs)
  | Some d =>
      (Ok tt, mkFS (filter (λ q, ¬ d `prefix_of` q) (fs_dirs fs))
                   (filter (λ kv, ¬ d `prefix_of` kv.1) (fs_files fs)))
  end.

(** [validate_manifest(raw)] of whatever the file holds. *)
Definition validate_raw (raw : pyval) : outcome PluginManifest :=
  match raw with
  | VDict d => validate_manifest float_repr d
  | _ => Raise (mkExn "AttributeError" ("'" +:+ type_name raw +:+ "' object has no attribute 'get'"))
  end.

Definition install_from_path (source root : path) : M FS PluginManifest :=
  let manifest_file := source ++ ["manifest.yaml"] in
  found ← read (λ fs, is_file fs manifest_file);
  if negb found then
    raise (ValidationError ["manifest.yaml not found in /" +:+ str_join "/" source])
  else
    text ← read (λ fs, fs_read fs manifest_file);
    text ← of_outcome text;
    raw ← of_outcome (safe_load text);
    manifest ← of_outcome (validate_raw raw);
    let dest := _plugin_dest root manifest in
    make_parents (removelast dest) ;;
    copytree source dest ;;
    mret manifest.

Definition install_from_registry (name : string) (version : option string) : outcome PluginManifest :=
  Raise (mkExn "NotImplementedError" "Registry-based install is not yet implemented").

Definition remove_plugin (name : string) (root : path) : M FS bool :=
  plugins ← read (λ fs, discover_plugins fs root);
  plugins ← of_outcome plugins;
  match list_find (λ m, pm_name m = name) plugins with
  | None => mret false
  | Some (_, target) =>
      let dest := _plugin_dest root target in
      here ← read (λ fs, is_dir fs dest);
      if (here : bool) then rmtree dest ;; mret true else mret false
  end.

Definition list_installed (fs : FS) (root : path) : outcome (list PluginManifest) :=
  discover_plugins fs root.
End Loader.

(** ** What validation accepts *)

Definition required_ok (raw : dict pyval) (key : string) : Prop :=
  ∃ s, dict_get key raw = Some (VStr s) ∧ truthy (str_strip s) = true.

Definition capability_ok (v : pyval) : Prop :=
  ∃ d, v = VDict d ∧ py_truth (dict_get_or (VStr ε) "name" d) = true
    ∧ dict_get_or (VStr "low") "risk_level" d ∈ risk_levels.

Definition list_ok (raw : dict pyval) (key : string) : Prop :=
  ∃ l, dict_get_or (VList []) key raw = VList l.

(** A manifest as the documentation asks for. *)
Record manifest_ok (raw : dict pyval) : Prop := {
  mo_name : required_ok raw "name";
  mo_version : required_ok raw "version";
  mo_runtime : required_ok raw "runtime_type";
  mo_author : required_ok raw "author";
  mo_type : ∃ t, dict_get "plugin_type" raw = Some (VStr (PluginType_value t));
  mo_entrypoint : ∃ d, dict_get "entrypoint" raw = Some (VDict d)
    ∧ dict_mem "module" d = true ∧ dict_mem "class" d = true;
  mo_capabilities : ∃ caps, py_iter (dict_get_or (VList []) "capabilities" raw) = Ok caps
    ∧ Forall capability_ok caps;
  mo_permissions : list_ok raw "permissions";
  mo_dependencies : list_ok raw "dependencies"
}.

Lemma require_str_ok raw key :
  snd (_require_str raw key) = [] ↔ required_ok raw key.
Proof.
  unfold _require_str, required_ok, dict_get_or. destruct (dict_get key raw) as [v|]; cbn [default from_option id].
  - destruct v; cbn [snd]; try (split; [done|]; by intros (? & [=] & _)).
    destruct (truthy (str_strip s)) eqn:Ht; split; [eauto|done..|]. intros (? & [= <-] & ?). congruence.
  - split; [done|]. by intros (? & [=] & _).
Qed.

Lemma require_str_value raw key : required_ok raw key → truthy (fst (_require_str raw key)) = true
  ∧ str_strip (fst (_require_str raw key)) = fst (_require_str raw key).
Proof.
  intros (s & Hs & Ht). unfold _require_str, dict_get_or. rewrite Hs. cbn. rewrite Ht. cbn.
  split; [done|]. apply str_strip_idem.
Qed.

Section ValidationProps.
Variable float_repr : Q → string.

Lemma PluginType_of_spec v t : PluginType_of v = Some t ↔ v = VStr (PluginType_value t).
Proof.
  split.
  - unfold PluginType_of. intros H. destruct (list_find _ PluginTypes) as [[i u]|] eqn:Hf; [|done].
    apply list_find_Some in Hf as (_ & Hv & _). cbn in H. injection H as <-. done.
  - intros ->. by destruct t.
Qed.

Lemma plugin_type_ok raw :
  snd (plugin_type_field float_repr raw) = []
  ↔ ∃ t, dict_get "plugin_type" raw = Some (VStr (PluginType_value t)).
Proof.
  unfold plugin_type_field, dict_get_or.
  destruct (PluginType_of _) as [t|] eqn:Ht; cbn [snd]; split; try done.
  - intros _. exists t. apply PluginType_of_spec in Ht.
    destruct (dict_get "plugin_type" raw); [by f_equal|]. by destruct t.
  - intros [t Hs]. rewrite Hs in Ht. cbn in Ht. by destruct t.
Qed.

Lemma entrypoint_ok raw :
  snd (entrypoint_field raw) = []
  ↔ ∃ d, dict_get "entrypoint" raw = Some (VDict d)
      ∧ dict_mem "module" d = true ∧ dict_mem "class" d = true.
Proof.
  unfold entrypoint_field, dict_get_or.
  destruct (dict_get "entrypoint" raw) as [[]|]; cbn [default from_option id snd];
    try (split; [done|]; by intros (? & [=] & _)).
  rewrite app_nil. split.
  - intros [Hm Hc]. exists d. by destruct (dict_mem "module" d), (dict_mem "class" d).
  - by intros (? & [= <-] & -> & ->).
Qed.

Lemma capability_field_ok i v : snd (capability_field i v) = [] ↔ capability_ok v.
Proof.
  unfold capability_ok. destruct v; cbn [capability_field snd];
    try (split; [done|]; by intros (? & [=] & _)).
  rewrite app_nil. split.
  - intros [Hn Hr]. exists d. split; [done|]. split; [by destruct (py_truth _)|]. by case_decide.
  - intros (? & [= <-] & -> & Hr). by rewrite decide_True.
Qed.

Lemma capabilities_ok caps : mjoin (map snd (imap capability_field caps)) = [] ↔ Forall capability_ok caps.
Proof.
  assert (∀ (f : nat → pyval → list PluginCapability * list string),
    (∀ i v, snd (f i v) = [] ↔ capability_ok v) →
    mjoin (map snd (imap f caps)) = [] ↔ Forall capability_ok caps) as H;
    [|apply H, capability_field_ok].
  induction caps as [|v caps IH]; intros f Hf; [by split|].
  cbn. change (snd (f 0%nat v) ++ mjoin (map snd (imap (f ∘ S) caps)) = [] ↔ Forall capability_ok (v :: caps)).
  rewrite app_nil, Hf, Forall_cons, IH; [done|]. intros i w. apply Hf.
Qed.

Lemma list_field_ok raw key : snd (list_field raw key) = [] ↔ list_ok raw key.
Proof.
  unfold list_field, list_ok. destruct (dict_get_or _ key raw);
    (split; [try done|]); try (by intros (? & [=])); eauto.
Qed.

(** What the registry bridge and the policy engine are given: a name and one of
    the four risk levels. *)
Definition capability_wf (d : dict pyval) : Prop :=
  (∃ v, dict_get "name" d = Some v ∧ py_truth v = true)
  ∧ (∃ r, dict_get "risk_level" d = Some r ∧ r ∈ risk_levels)
  ∧ ∃ l, dict_get "permissions" d = Some (VList l).

Lemma capability_dicts_wf caps : Forall capability_ok caps →
  Forall capability_wf (map capability_dict (mjoin (map fst (imap capability_field caps)))).
Proof.
  assert (∀ (f : nat → pyval → list PluginCapability * list string),
    (∀ i v, capability_ok v → Forall capability_wf (map capability_dict (fst (f i v)))) →
    Forall capability_ok caps →
    Forall capability_wf (map capability_dict (mjoin (map fst (imap f caps))))) as H.
  { induction caps as [|v caps IH]; intros f Hf Hc; [constructor|].
    apply Forall_cons in Hc as [Hv Hc].
    change (Forall capability_wf (map capability_dict
      (fst (f 0%nat v) ++ mjoin (map fst (imap (f ∘ S) caps))))).
    rewrite map_app. apply Forall_app. split; [by apply Hf|]. apply IH; [|done].
    intros i w. apply Hf. }
  apply H. intros i v (d & -> & Hn & Hr). cbn. constructor; [|constructor].
  split; [|split]; eexists; by split.
Qed.

(** No error is found exactly in the manifests the schema asks for. *)
Lemma errors_nil raw caps : py_iter (dict_get_or (VList []) "capabilities" raw) = Ok caps →
  snd (_require_str raw "name") ++ snd (_require_str raw "version")
  ++ snd (plugin_type_field float_repr raw) ++ snd (_require_str raw "runtime_type")
  ++ snd (_require_str raw "author") ++ snd (entrypoint_field raw)
  ++ mjoin (map snd (imap capability_field caps))
  ++ snd (list_field raw "permissions") ++ snd (list_field raw "dependencies") = []
  ↔ manifest_ok raw.
Proof.
  intros Hit. rewrite !app_nil, !require_str_ok, plugin_type_ok, entrypoint_ok, capabilities_ok,
    !list_field_ok. split.
  - intros (H1 & H2 & H3 & H4 & H5 & H6 & H7 & H8 & H9). split; try done. by exists caps.
  - intros [H1 H2 H4 H5 H3 H6 (caps' & Hc & H7) H8 H9]. rewrite Hit in Hc. injection Hc as <-. done.
Qed.

(** What a valid manifest's fields come to. *)
Lemma fields_valid raw : manifest_ok raw →
  Forall (λ key, truthy (fst (_require_str raw key)) = true
                 ∧ str_strip (fst (_require_str raw key)) = fst (_require_str raw key))
    ["name"; "version"; "runtime_type"; "author"]
  ∧ dict_mem "module" (fst (entrypoint_field raw)) = true
  ∧ dict_mem "class" (fst (entrypoint_field raw)) = true.
Proof.
  intros Hok. split.
  - repeat constructor; apply require_str_value; apply Hok.
  - destruct (mo_entrypoint _ Hok) as (d & Hd & Hm). unfold entrypoint_field, dict_get_or. by rewrite Hd.
Qed.

(** C33: validation returns a manifest exactly for the raw manifests that have
    what the schema asks for, and the manifest it returns is valid by its own
    [validate], with trimmed name, version and runtime type and every
    capability carrying a name and one of the four risk levels; any other raw
    manifest raises [ValidationError], except that capabilities that cannot be
    iterated raise [TypeError]. *)
Theorem validate_manifest_exact raw :
  match validate_manifest float_repr raw with
  | Ok m =>
      manifest_ok raw ∧ PluginManifest_validate m = []
      ∧ Forall capability_wf (pm_capabilities m)
      ∧ Forall (λ s, str_strip s = s) [pm_name m; pm_version m; pm_runtime_type m; pm_author m]
  | Raise e =>
      ¬ manifest_ok raw
      ∧ if decide (is_ok (py_iter (dict_get_or (VList []) "capabilities" raw)) = true)
        then exn_class e = "ValidationError" else exn_class e = "TypeError"
  end.
Proof.
  unfold validate_manifest. pose proof (errors_nil raw) as Herr. pose proof (fields_valid raw) as Hval.
  destruct (_require_str raw "name") as [name e1] eqn:E1.
  destruct (_require_str raw "version") as [version e2] eqn:E2.
  destruct (plugin_type_field float_repr raw) as [pt e3] eqn:E3.
  destruct (_require_str raw "runtime_type") as [rt e4] eqn:E4.
  destruct (_require_str raw "author") as [author e5] eqn:E5.
  destruct (entrypoint_field raw) as [ep e6] eqn:E6.
  destruct (py_iter _) as [caps|e] eqn:Hit; cbn [mbind outcome_bind].
  2: { split; [|by destruct (dict_get_or _ _ raw); try discriminate Hit; injection Hit as <-].
       intros H. destruct (mo_capabilities _ H) as (caps & Hc & _). congruence. }
  destruct (list_field raw "permissions") as [perms e8] eqn:E8.
  destruct (list_field raw "dependencies") as [deps e9] eqn:E9.
  specialize (Herr caps eq_refl). cbn [snd] in Herr. case_bool_decide as He.
  - apply Herr in He as Hok. destruct (Hval Hok) as (Hf & Hm & Hcl).
    rewrite !Forall_cons, E1, E2, E4, E5 in Hf.
    destruct Hf as ([V1 S1] & [V2 S2] & [V4 S4] & [V5 S5] & _).
    cbn [fst] in V1, V2, V4, V5, Hm, Hcl.
    split; [done|]. split; [|split].
    + unfold PluginManifest_validate. cbn. by rewrite V1, V2, V4, Hm, Hcl.
    + apply capability_dicts_wf. destruct (mo_capabilities _ Hok) as (caps' & Hc & Hall). congruence.
    + by repeat constructor.
  - split; [|done]. intros H. by apply He, Herr.
Qed.
End ValidationProps.

(** ** Concrete plugins *)

Definition demo_manifest (name : string) (caps : pyval) : pyval :=
  VDict [ ("name", VStr name); ("version", VStr "1.0"); ("plugin_type", VStr "tool");
          ("runtime_type", VStr "python"); ("author", VStr "a");
          ("entrypoint", VDict [("module", VStr "m"); ("class", VStr "C")]);
          ("capabilities", caps) ].

(** A parser for three texts. *)
Definition demo_load (text : string) : outcome pyval :=
  if decide (text = "up") then Ok (demo_manifest ".." (VList []))
  else if decide (text = "null") then Ok (demo_manifest "n" VNone)
  else Ok (demo_manifest text (VList [VDict [("name", VStr "read")]])).

Definition demo_tree (plugin text : string) : FS :=
  let agents := ["p"; "agents"] in
  mkFS (list_to_set [[]; ["p"]; agents; agents ++ ["tools"]; agents ++ ["tools"; plugin];
                     agents ++ ["tools"; "good"]; ["src"]])
    (list_to_map [ (agents ++ ["tools"; plugin; "manifest.yaml"], text);
                   (agents ++ ["tools"; "good"; "manifest.yaml"], "good");
                   (["src"; "manifest.yaml"], "fresh") ]).

(** Installed from [src], found, and removed again. *)
Example demo_install :
  let '(o, fs) := install_from_path (λ _, ε) demo_load ["src"] ["p"] (demo_tree "x" "x") in
  is_ok o = true
  ∧ match discover_plugins (λ _, ε) demo_load fs ["p"] with
    | Ok l => map pm_name l = ["fresh"; "good"; "x"]
    | Raise _ => False
    end
  ∧ (remove_plugin (λ _, ε) demo_load "fresh" ["p"] fs).1 = Ok true.
Proof. vm_compute. done. Qed.

(** One manifest whose capabilities are null: the good plugin is not found. *)
Example demo_null_capabilities :
  discover_plugins (λ _, ε) demo_load (demo_tree "x" "null") ["p"]
  = Raise (TypeError "'NoneType' object is not iterable").
Proof. vm_compute. done. Qed.

(** Removing a plugin that calls itself [..] removes every plugin. *)
Example demo_remove_all :
  let '(o, fs) := remove_plugin (λ _, ε) demo_load ".." ["p"] (demo_tree "x" "up") in
  o = Ok true ∧ discover_plugins (λ _, ε) demo_load fs ["p"] = Ok [].
Proof. vm_compute. done. Qed.
