(* ===== verification/Regex.v ===== *)
(** * Regular expressions

    The part of Python's [re] the marketplace uses: character classes,
    sequence, choice and repetition, matched by derivatives, with the meaning of
    an expression as an inductive relation and the proof that they agree. Strings are
    UTF-8, so a character is a text of one to four bytes: a class of ASCII
    characters is [RChar], any other one [ROneOf] its texts. [re_match] is [re.match] of a
    pattern between [^] and [$], and [$] also matches before a final newline. *)
From S2P Require Import Prelude PyStr.
From Stdlib Require Import Ascii.

Inductive regex :=
| RNone
| REmpty
| RChar (p : ascii → bool)
| RSeq (r1 r2 : regex)
| ROr (r1 r2 : regex)
| RStar (r : regex).

(** The strings of an expression. *)
Inductive in_regex : regex → string → Prop :=
| in_empty : in_regex REmpty ε
| in_char p c : p c = true → in_regex (RChar p) (String c ε)
| in_seq r1 r2 s t : in_regex r1 s → in_regex r2 t → in_regex (RSeq r1 r2) (s +:+ t)
| in_or_l r1 r2 s : in_regex r1 s → in_regex (ROr r1 r2) s
| in_or_r r1 r2 s : in_regex r2 s → in_regex (ROr r1 r2) s
| in_star_nil r : in_regex (RStar r) ε
| in_star_cons r s t : in_regex r s → in_regex (RStar r) t → in_regex (RStar r) (s +:+ t).

Fixpoint nullable (r : regex) : bool :=
  match r with
  | RNone | RChar _ => false
  | REmpty | RStar _ => true
  | RSeq r1 r2 => nullable r1 && nullable r2
  | ROr r1 r2 => nullable r1 || nullable r2
  end.

(** What may follow the character [c]. *)
Fixpoint deriv (c : ascii) (r : regex) : regex :=
  match r with
  | RNone | REmpty => RNone
  | RChar p => if p c then REmpty else RNone
  | RSeq r1 r2 =>
      if nullable r1 then ROr (RSeq (deriv c r1) r2) (deriv c r2) else RSeq (deriv c r1) r2
  | ROr r1 r2 => ROr (deriv c r1) (deriv c r2)
  | RStar r => RSeq (deriv c r) (RStar r)
  end.

Fixpoint full_match (r : regex) (s : string) : bool :=
  match s with
  | ε => nullable r
  | String c s' => full_match (deriv c r) s'
  end.

Definition newline_char : ascii := ascii_of_nat 10.

(** The string without a final newline. *)
Fixpoint chop_newline (s : string) : option string :=
  match s with
  | ε => None
  | String c ε => if decide (c = newline_char) then Some ε else None
  | String c s' => String c <$> chop_newline s'
  end.

(** [re.match("^r$", s)] *)
Definition re_match_line (r : regex) (s : string) : bool :=
  full_match r s || match chop_newline s with Some t => full_match r t | None => false end.

(** ** The matcher agrees with the meaning *)

Lemma in_seq_iff r1 r2 s :
  in_regex (RSeq r1 r2) s ↔ ∃ t u, s = t +:+ u ∧ in_regex r1 t ∧ in_regex r2 u.
Proof.
  split; [intros H; inversion H; subst; by eexists _, _|]. intros (t & u & -> & H1 & H2). by constructor.
Qed.

Lemma nullable_spec r : nullable r = true ↔ in_regex r ε.
Proof.
  induction r as [| |p|r1 IH1 r2 IH2|r1 IH1 r2 IH2|r IH]; cbn.
  - split; [done|]. intros H. inversion H.
  - split; [constructor|done].
  - split; [done|]. intros H. inversion H.
  - rewrite andb_true_iff, IH1, IH2. split.
    + intros [H1 H2]. apply (in_seq _ _ ε ε H1 H2).
    + intros ([|? ?] & [|? ?] & Heq & H1 & H2)%in_seq_iff; done.
  - rewrite orb_true_iff, IH1, IH2. split.
    + intros [?|?]; [by apply in_or_l|by apply in_or_r].
    + intros H. inversion H; subst; auto.
  - split; [constructor|done].
Qed.

Lemma in_star_cons_inv r c s : in_regex (RStar r) (String c s) →
  ∃ t u, s = t +:+ u ∧ in_regex r (String c t) ∧ in_regex (RStar r) u.
Proof.
  remember (RStar r) as q eqn:Hq. remember (String c s) as w eqn:Hw.
  intros H. revert Hq s Hw. induction H as [| | | | | |r' s1 t H1 _ H2 IH]; intros [= ->] s' Hw; try done.
  destruct s1 as [|d s1].
  - exact (IH eq_refl s' Hw).
  - injection Hw as -> <-. by exists s1, t.
Qed.

Lemma deriv_spec r c s : in_regex (deriv c r) s ↔ in_regex r (String c s).
Proof.
  revert s. induction r as [| |p|r1 IH1 r2 IH2|r1 IH1 r2 IH2|r IH]; intros s; cbn [deriv].
  1, 2: split; intros H; inversion H.
  - destruct (p c) eqn:Hp; split; intros H; inversion H; subst; try congruence.
    + by constructor.
    + constructor.
  - assert (in_regex (RSeq (deriv c r1) r2) s
      ↔ ∃ t u, s = t +:+ u ∧ in_regex r1 (String c t) ∧ in_regex r2 u) as Hd.
    { split.
      - intros (t & u & -> & H1 & H2)%in_seq_iff. exists t, u. by rewrite <- IH1.
      - intros (t & u & -> & H1 & H2). constructor; [by apply IH1|done]. }
    assert (in_regex (RSeq r1 r2) (String c s)
      ↔ (∃ t u, s = t +:+ u ∧ in_regex r1 (String c t) ∧ in_regex r2 u)
        ∨ (in_regex r1 ε ∧ in_regex r2 (String c s))) as Hs.
    { split.
      - intros ([|d t] & u & Heq & H1 & H2)%in_seq_iff; [right; by cbn in Heq; subst|].
        injection Heq as -> ->. left. by exists t, u.
      - intros [(t & u & -> & H1 & H2)|[H1 H2]].
        + apply (in_seq r1 r2 (String c t) u H1 H2).
        + apply (in_seq r1 r2 ε _ H1 H2). }
    rewrite Hs, <- nullable_spec. destruct (nullable r1) eqn:Hn; [|naive_solver].
    rewrite <- IH2. rewrite <- Hd. split.
    + intros H. inversion H; subst; auto.
    + intros [H|[_ H]]; [by apply in_or_l|by apply in_or_r].
  - split; intros H; inversion H as [| | |? ? ? H'|? ? ? H'| |]; subst.
    + by apply in_or_l, IH1.
    + by apply in_or_r, IH2.
    + by apply in_or_l, IH1.
    + by apply in_or_r, IH2.
  - split; intros H.
    + apply in_seq_iff in H as (t & u & -> & H1 & H2).
      apply (in_star_cons r (String c t) u); [by apply IH|done].
    + apply in_star_cons_inv in H as (t & u & -> & H1 & H2). constructor; [by apply IH|done].
Qed.

Lemma full_match_spec r s : full_match r s = true ↔ in_regex r s.
Proof.
  revert r. induction s as [|c s IH]; intros r; cbn; [apply nullable_spec|].
  by rewrite IH, deriv_spec.
Qed.

(** ** Expressions that are easy to read back *)

Lemma in_star_char p s : in_regex (RStar (RChar p)) s ↔ str_all p s = true.
Proof.
  induction s as [|c s IH]; [by split; [|constructor]|]. cbn. rewrite andb_true_iff, <- IH. split.
  - intros (t & u & -> & H1 & H2)%in_star_cons_inv. inversion H1; subst. done.
  - intros [Hc Hs]. apply (in_star_cons _ (String c ε) s); [by constructor|done].
Qed.

Lemma in_char_iff p s : in_regex (RChar p) s ↔ ∃ c, s = String c ε ∧ p c = true.
Proof.
  split; [intros H; inversion H; subst; by eexists|]. intros (c & -> & H). by constructor.
Qed.

Lemma in_or_iff r1 r2 s : in_regex (ROr r1 r2) s ↔ in_regex r1 s ∨ in_regex r2 s.
Proof.
  split; [intros H; inversion H; subst; auto|]. intros [?|?]; [by apply in_or_l|by apply in_or_r].
Qed.

Lemma in_empty_iff s : in_regex REmpty s ↔ s = ε.
Proof. split; [intros H; by inversion H|]. intros ->. constructor. Qed.

Definition RPlus (r : regex) : regex := RSeq r (RStar r).
Definition ROpt (r : regex) : regex := ROr r REmpty.

(** A text, and one of several texts. *)
Fixpoint RText (s : string) : regex :=
  match s with ε => REmpty | String c s' => RSeq (RChar (Ascii.eqb c)) (RText s') end.
Definition ROneOf (l : list string) : regex := foldr (λ s r, ROr (RText s) r) RNone l.

Lemma in_text s t : in_regex (RText s) t ↔ t = s.
Proof.
  revert t. induction s as [|c s IH]; intros t; cbn [RText]; [apply in_empty_iff|].
  rewrite in_seq_iff. split.
  - intros (x & y & -> & (d & -> & Hd%Ascii.eqb_eq)%in_char_iff & ->%IH). by subst.
  - intros ->. exists (String c ε), s. split; [done|].
    split; [constructor; apply Ascii.eqb_refl|by apply IH].
Qed.

Lemma in_one_of l s : in_regex (ROneOf l) s ↔ s ∈ l.
Proof.
  induction l as [|t l IH]; cbn [ROneOf foldr].
  - split; [intros H; inversion H|by intros ?%elem_of_nil].
  - rewrite in_or_iff, in_text, elem_of_cons. by rewrite IH.
Qed.

Lemma in_star_iff r s : in_regex (RStar r) s ↔ ∃ ts, s = foldr String.append ε ts ∧ Forall (in_regex r) ts.
Proof.
  split.
  - remember (RStar r) as q eqn:Hq. intros H. revert Hq.
    induction H as [| | | | | |r' s t H1 _ H2 IH]; intros [= ->]; [by exists []|].
    destruct (IH eq_refl) as (ts & -> & Hts). exists (s :: ts). by split; [|constructor].
  - intros (ts & -> & Hts). induction Hts as [|t ts Ht Hts IH]; cbn; [constructor|by apply in_star_cons].
Qed.

Lemma in_plus_iff r s : in_regex (RPlus r) s ↔
  ∃ ts, ts ≠ [] ∧ s = foldr String.append ε ts ∧ Forall (in_regex r) ts.
Proof.
  unfold RPlus. rewrite in_seq_iff. split.
  - intros (t & u & -> & H1 & (ts & -> & Hts)%in_star_iff). exists (t :: ts). by split_and!; [| |constructor].
  - intros ([|t ts] & Hne & -> & Hts); [done|]. apply Forall_cons in Hts as [Ht Hts].
    exists t, (foldr String.append ε ts). split_and!; [done..|]. apply in_star_iff. by exists ts.
Qed.

Lemma in_plus_char p s : in_regex (RPlus (RChar p)) s ↔ s ≠ ε ∧ str_all p s = true.
Proof.
  unfold RPlus. rewrite in_seq_iff. split.
  - intros (t & u & -> & (c & -> & Hc)%in_char_iff & Hu%in_star_char). split; [done|].
    cbn. by rewrite Hc.
  - intros [Hne Hs]. destruct s as [|c s]; [done|]. cbn in Hs. apply andb_true_iff in Hs as [Hc Hs].
    exists (String c ε), s. split; [done|]. split; [by constructor|by apply in_star_char].
Qed.

Lemma chop_newline_spec s t : chop_newline s = Some t ↔ s = t +:+ String newline_char ε.
Proof.
  revert t. induction s as [|c s IH]; intros t; [split; [done|]; by destruct t|].
  destruct s as [|d s].
  - cbn. case_decide as Hc; [subst|]; split.
    + by intros [= <-].
    + by destruct t as [|e [|f t]]; intros ?; simplify_eq/=.
    + done.
    + by destruct t as [|e [|f t]]; intros ?; simplify_eq/=.
  - change (chop_newline (String c (String d s))) with (String c <$> chop_newline (String d s)).
    split.
    + intros (u & Hu & ->)%fmap_Some. apply IH in Hu. cbn. by f_equal.
    + destruct t as [|e t]; [by intros [= -> H]|]. intros [= -> Ht].
      apply fmap_Some. exists t. split; [by apply IH|done].
Qed.

(** What [re.match] accepts: the strings of the expression, with or without a
    newline at the end. *)
Lemma re_match_line_spec r s :
  re_match_line r s = true
  ↔ in_regex r s ∨ ∃ t, s = t +:+ String newline_char ε ∧ in_regex r t.
Proof.
  unfold re_match_line. rewrite orb_true_iff, full_match_spec. apply or_iff_compat_l.
  destruct (chop_newline s) as [t|] eqn:Hc.
  - apply chop_newline_spec in Hc as Hs. rewrite full_match_spec. split; [eauto|].
    intros (u & Hu & H). apply chop_newline_spec in Hu. congruence.
  - split; [done|]. intros (u & Hu & H). apply chop_newline_spec in Hu. congruence.
Qed.
