(* ===== verification/Marketplace.v ===== *)
(** * The extension marketplace ([control_plane/governance/marketplace])

    Manifests and their rules, the listing registry, reviews, security scans and
    trust scores, enterprise policies and the private marketplace, the artifact
    store, the loaders, publishers and audit entries. The services take their
    times from the clock and their identifiers from [uuid4], streams here. A
    service's methods that return one of its own dictionaries return a snapshot. *)
From S2P Require Import Prelude PyStr PyDict PyVal Json Regex.
From Stdlib Require Import Ascii.

(** ** Rules ([model/invariants.py]) *)

Definition MIN_EXTENSION_ID_LENGTH : nat := 3.
Definition MAX_EXTENSION_ID_LENGTH : nat := 64.
Definition MAX_CAPABILITIES_PER_EXTENSION : nat := 50.
Definition MIN_CAPABILITIES_PER_EXTENSION : nat := 1.

(** [[0-9]] *)
Definition is_digit (c : ascii) : bool :=
  let n := nat_of_ascii c in (48 <=? n)%nat && (n <=? 57)%nat.
Definition is_lower (c : ascii) : bool :=
  let n := nat_of_ascii c in (97 <=? n)%nat && (n <=? 122)%nat.
(** [[a-z0-9]] *)
Definition is_alnum (c : ascii) : bool := is_lower c || is_digit c.
(** [[a-z0-9\-]] *)
Definition is_id_char (c : ascii) : bool := is_alnum c || bool_decide (c = "-"%char).
(** [[a-z0-9\.\-]] *)
Definition is_tag_char (c : ascii) : bool := is_id_char c || bool_decide (c = "."%char).
Definition is_char (d c : ascii) : bool := bool_decide (c = d).

(** [^[a-z0-9][a-z0-9\-]*[a-z0-9]$|^[a-z0-9]$] *)
Definition EXTENSION_ID_PATTERN : regex :=
  ROr (RSeq (RChar is_alnum) (RSeq (RStar (RChar is_id_char)) (RChar is_alnum))) (RChar is_alnum).

(** [\d] matches the decimal digits of Unicode: ten consecutive code points for
    each digit zero. These are the zeros of Unicode 15, which Python 3.12 and 3.13
    have. *)
Definition DIGIT_ZEROS : list Z :=
  [48; 1632; 1776; 1984; 2406; 2534; 2662; 2790; 2918; 3046; 3174; 3302; 3430; 3558; 3664;
   3792; 3872; 4160; 4240; 6112; 6160; 6470; 6608; 6784; 6800; 6992; 7088; 7232; 7248;
   42528; 43216; 43264; 43472; 43504; 43600; 44016; 65296; 66720; 68912; 69734; 69872;
   69942; 70096; 70384; 70736; 70864; 71248; 71360; 71472; 71904; 72016; 72784; 73040;
   73120; 73552; 92768; 92864; 93008; 120782; 120792; 120802; 120812; 120822; 123200;
   123632; 124144; 125264; 130032]%Z.
Definition DECIMAL_DIGITS : list string :=
  concat (map (λ zero, map (λ k, utf8 (zero + k)) [0; 1; 2; 3; 4; 5; 6; 7; 8; 9]) DIGIT_ZEROS)%Z.

(** [^\d+\.\d+\.\d+(-[a-z0-9\.\-]+)?(\+[a-z0-9\.\-]+)?$] *)
Definition VERSION_PATTERN : regex :=
  let digits := RPlus (ROneOf DECIMAL_DIGITS) in
  let dot := RChar (is_char ".") in
  let tail c := ROpt (RSeq (RChar (is_char c)) (RPlus (RChar is_tag_char))) in
  RSeq digits (RSeq dot (RSeq digits (RSeq dot (RSeq digits (RSeq (tail "-"%char) (tail "+"%char)))))).

Definition invariants_validate_extension_id (extension_id : string) : list string :=
  (if (str_len extension_id <? MIN_EXTENSION_ID_LENGTH)%nat
   then ["Extension ID too short (min " +:+ str_of_nat MIN_EXTENSION_ID_LENGTH +:+ ")"] else [])
  ++ (if (MAX_EXTENSION_ID_LENGTH <? str_len extension_id)%nat
      then ["Extension ID too long (max " +:+ str_of_nat MAX_EXTENSION_ID_LENGTH +:+ ")"] else [])
  ++ (if re_match_line EXTENSION_ID_PATTERN extension_id then []
      else ["Extension ID must be lowercase alphanumeric with hyphens"]).

Definition invariants_validate_version (version : string) : list string :=
  if re_match_line VERSION_PATTERN version then []
  else ["Invalid version format (expected semver): " +:+ version].

Definition invariants_validate_capabilities {A} (capabilities : list A) : list string :=
  (if (MAX_CAPABILITIES_PER_EXTENSION <? length capabilities)%nat
   then ["Too many capabilities (max " +:+ str_of_nat MAX_CAPABILITIES_PER_EXTENSION +:+ ")"] else [])
  ++ (if (length capabilities <? MIN_CAPABILITIES_PER_EXTENSION)%nat
      then ["Too few capabilities (min " +:+ str_of_nat MIN_CAPABILITIES_PER_EXTENSION +:+ ")"] else []).

(** ** Manifests ([domain/extension_manifest.py]) *)

Record ExtensionManifest := mkExtension {
  em_extension_id : string;
  em_name : string;
  em_version : string;
  em_publisher_id : string;
  em_description : string;
  em_readme : string;
  em_tags : list string;
  em_capabilities : list string;
  em_allowed_models : list string;
  em_allowed_tools : list string;
  em_dependencies : list string;
  em_min_runtime_version : string;
  em_max_runtime_version : option string;
  em_icon_url : string;
  em_homepage_url : string;
  em_repository_url : string;
  em_license : string;
  em_keywords : list string;
  em_maintainers : list string;
  em_created_at : option Z;
  em_updated_at : option Z;
  em_metadata : dict pyval
}.

Definition validate_extension_id (extension_id : string) : list string :=
  (if (str_len extension_id <? 3)%nat then ["Extension ID must be at least 3 characters"] else [])
  ++ (if (64 <? str_len extension_id)%nat then ["Extension ID too long (max 64 chars)"] else [])
  ++ (if re_match_line EXTENSION_ID_PATTERN extension_id then []
      else ["Extension ID must be lowercase alphanumeric with hyphens"]).

Definition version_errors (version : string) : list string :=
  if re_match_line VERSION_PATTERN version then [] else ["Invalid version format: " +:+ version].

Definition ExtensionManifest_validate (m : ExtensionManifest) : list string :=
  validate_extension_id (em_extension_id m)
  ++ version_errors (em_version m)
  ++ invariants_validate_capabilities (em_capabilities m).

(** The errors of the capabilities are computed and dropped. *)
Definition ExtensionManifestValidator_validate (m : ExtensionManifest) : list string :=
  validate_extension_id (em_extension_id m) ++ version_errors (em_version m).

(** ** Listing status ([domain/listing_status.py]) *)

Inductive ExtensionListingStatus :=
| LS_DRAFT | LS_SUBMITTED | LS_UNDER_REVIEW | LS_APPROVED | LS_PUBLISHED | LS_DEPRECATED | LS_REMOVED.

#[export] Instance ExtensionListingStatus_eq_dec : EqDecision ExtensionListingStatus.
Proof. solve_decision. Defined.

Definition ListingStatus_value (s : ExtensionListingStatus) : string :=
  match s with
  | LS_DRAFT => "DRAFT" | LS_SUBMITTED => "SUBMITTED" | LS_UNDER_REVIEW => "UNDER_REVIEW"
  | LS_APPROVED => "APPROVED" | LS_PUBLISHED => "PUBLISHED" | LS_DEPRECATED => "DEPRECATED"
  | LS_REMOVED => "REMOVED"
  end.

(** [ExtensionListingStatus(s)] *)
Definition ListingStatus_of (s : string) : outcome ExtensionListingStatus :=
  match list_find (λ t, ListingStatus_value t = s)
          [LS_DRAFT; LS_SUBMITTED; LS_UNDER_REVIEW; LS_APPROVED; LS_PUBLISHED; LS_DEPRECATED;
           LS_REMOVED] with
  | Some (_, t) => Ok t
  | None => Raise (mkExn "ValueError" (str_repr s +:+ " is not a valid ExtensionListingStatus"))
  end.

(** ** The listing registry ([registry/extension_registry.py]) *)

(** What the registry stores; the status is the string it was given. *)
Record listing_data := mkListing {
  ld_listing_id : string;
  ld_manifest : ExtensionManifest;
  ld_status : string;
  ld_publisher_id : string;
  ld_created_at : string;
  ld_updated_at : string
}.

(** What it answers. *)
Record listing_view := mkView {
  lv_listing_id : string;
  lv_manifest : ExtensionManifest;
  lv_status : ExtensionListingStatus;
  lv_publisher_id : string;
  lv_created_at : string;
  lv_updated_at : string
}.

Record ExtensionRegistry := mkExtRegistry {
  er_listings : dict listing_data;
  er_ticks : nat
}.
Definition ExtensionRegistry_new : ExtensionRegistry := mkExtRegistry [] 0.

Section Services.
(** [datetime.utcnow().isoformat()] and [uuid4().hex[:12]] at each use. *)
Variable utcnow : nat → string.
Variable uuid12 : nat → string.

Definition er_tick : M ExtensionRegistry nat := λ r,
  (Ok (er_ticks r), mkExtRegistry (er_listings r) (S (er_ticks r))).

Definition er_put (d : listing_data) : M ExtensionRegistry unit :=
  modify (λ r : ExtensionRegistry,
    mkExtRegistry (dict_set (ld_listing_id d) d (er_listings r)) (er_ticks r)).

Definition ext_register (manifest : ExtensionManifest) : M ExtensionRegistry string :=
  n ← er_tick;
  let listing_id := "lst-" +:+ uuid12 n in
  er_put (mkListing listing_id manifest "DRAFT" (em_publisher_id manifest) (utcnow n) (utcnow n)) ;;
  mret listing_id.

Definition ext_unregister (listing_id : string) : M ExtensionRegistry bool :=
  found ← read (λ r : ExtensionRegistry, dict_mem listing_id (er_listings r));
  if (found : bool) then
    modify (λ r : ExtensionRegistry,
      mkExtRegistry (dict_del listing_id (er_listings r)) (er_ticks r)) ;;
    mret true
  else mret false.

Definition _listing_from_data (d : listing_data) : outcome listing_view :=
  status ← ListingStatus_of (ld_status d);
  mret (mkView (ld_listing_id d) (ld_manifest d) status (ld_publisher_id d)
          (ld_created_at d) (ld_updated_at d)).

Definition ext_get (r : ExtensionRegistry) (listing_id : string) : outcome (option listing_view) :=
  match dict_get listing_id (er_listings r) with
  | None => Ok None
  | Some d => v ← _listing_from_data d; mret (Some v)
  end.

(** [l[offset : offset + limit]] *)
Definition slice_bound (n i : Z) : Z := if (i <? 0)%Z then Z.max 0 (i + n) else Z.min i n.
Definition py_slice {A} (l : list A) (offset limit : Z) : list A :=
  let n := Z.of_nat (length l) in
  let start := slice_bound n offset in
  let stop := slice_bound n (offset + limit) in
  take (Z.to_nat (stop - start)) (drop (Z.to_nat start) l).

Definition opt_matches (filter : option string) (value : string) : bool :=
  match filter with Some f => negb (truthy f) || bool_decide (value = f) | None => true end.

(** The loop of [list]: a manifest has no [extension_type]. *)
Fixpoint select_listings (extension_type publisher_id status : option string)
    (ds : list listing_data) : outcome (list listing_view) :=
  match ds with
  | [] => Ok []
  | d :: ds' =>
      if truthy_opt extension_type then
        Raise (mkExn "AttributeError" "'ExtensionManifest' object has no attribute 'extension_type'")
      else if opt_matches publisher_id (ld_publisher_id d) && opt_matches status (ld_status d) then
        v ← _listing_from_data d;
        vs ← select_listings extension_type publisher_id status ds';
        mret (v :: vs)
      else select_listings extension_type publisher_id status ds'
  end.

Definition ext_list (r : ExtensionRegistry) (extension_type publisher_id status : option string)
    (limit offset : Z) : outcome (list listing_view) :=
  results ← select_listings extension_type publisher_id status (dict_values (er_listings r));
  mret (py_slice results offset limit).

(** Any string is accepted as the new status. *)
Definition ext_update_status (listing_id status : string) : M ExtensionRegistry bool :=
  data ← read (λ r : ExtensionRegistry, dict_get listing_id (er_listings r));
  match data with
  | None => mret false
  | Some d =>
      n ← er_tick;
      modify (λ r : ExtensionRegistry,
        mkExtRegistry
          (dict_set listing_id (mkListing (ld_listing_id d) (ld_manifest d) status
             (ld_publisher_id d) (ld_created_at d) (utcnow n)) (er_listings r)) (er_ticks r)) ;;
      mret true
  end.

(** ** Reviews ([governance/review_service.py]) *)

Record ReviewDecisionRecord := mkDecision {
  rd_decision : string;
  rd_reviewer_id : string;
  rd_reason : string;
  rd_timestamp : string
}.

Record review := mkReview {
  rv_review_id : string;
  rv_listing_id : string;
  rv_status : string;
  rv_submitted_by : string;
  rv_submitted_at : string;
  rv_decisions : list ReviewDecisionRecord
}.

Record ReviewService := mkReviews { rs_reviews : dict review; rs_ticks : nat }.
Definition ReviewService_new : ReviewService := mkReviews [] 0.

Definition submit_for_review (listing_id submitter_id : string) : M ReviewService string := λ r,
  (Ok ("rev-" +:+ listing_id),
   mkReviews (dict_set listing_id (mkReview ("rev-" +:+ listing_id) listing_id "PENDING"
                submitter_id (utcnow (rs_ticks r)) []) (rs_reviews r)) (S (rs_ticks r))).

Definition record_decision (listing_id decision reviewer_id reason : string) : M ReviewService bool := λ r,
  match dict_get listing_id (rs_reviews r) with
  | None => (Ok false, r)
  | Some v =>
      (Ok true,
       mkReviews (dict_set listing_id (mkReview (rv_review_id v) (rv_listing_id v) (rv_status v)
                    (rv_submitted_by v) (rv_submitted_at v)
                    (rv_decisions v ++ [mkDecision decision reviewer_id reason (utcnow (rs_ticks r))]))
                    (rs_reviews r)) (S (rs_ticks r)))
  end.

Definition get_review (r : ReviewService) (listing_id : string) : option review :=
  dict_get listing_id (rs_reviews r).
Definition get_review_status (r : ReviewService) (listing_id : string) : option string :=
  rv_status <$> dict_get listing_id (rs_reviews r).

(** ** Security ([governance/security_checker.py]) *)

Record SecurityFinding := mkFinding {
  sf_severity : string;
  sf_category : string;
  sf_description : string;
  sf_file_path : string;
  sf_line_number : Z;
  sf_recommendation : string;
  sf_cve_refs : list string
}.
Record SecurityScanResult := mkScan {
  ss_passed : bool;
  ss_findings : list SecurityFinding;
  ss_scanned_at : string;
  ss_scanner_version : string
}.

Definition _check_malware_signatures (package : pyval) : list SecurityFinding := [].
Definition _check_permissions (package : pyval) : list SecurityFinding := [].
Definition _check_data_exfiltration (package : pyval) : list SecurityFinding := [].
Definition _check_vulnerabilities (package : pyval) : list SecurityFinding := [].

Definition severity_count (severity : string) (l : list SecurityFinding) : nat :=
  length (filter (λ f, sf_severity f = severity) l).

Definition scan_with (rules : list (pyval → list SecurityFinding)) (now : string) (package : pyval)
    : SecurityScanResult :=
  let findings := mjoin (map (λ rule, rule package) rules) in
  mkScan (bool_decide (severity_count "CRITICAL" findings = 0%nat)
          && bool_decide (severity_count "HIGH" findings = 0%nat)) findings now "1.0.0".

Definition scan_extension : string → pyval → SecurityScanResult :=
  scan_with [_check_malware_signatures; _check_permissions; _check_data_exfiltration;
             _check_vulnerabilities].

(** ** Publishers ([domain/publisher.py]) and trust ([governance/trust_scorer.py]) *)

Inductive PublisherStatus := PS_PENDING_VERIFICATION | PS_VERIFIED | PS_SUSPENDED | PS_REVOKED.

#[export] Instance PublisherStatus_eq_dec : EqDecision PublisherStatus.
Proof. solve_decision. Defined.

Record Publisher := mkPublisher {
  pb_publisher_id : string;
  pb_name : string;
  pb_email : string;
  pb_status : PublisherStatus;
  pb_verified_at : option Z;
  pb_created_at : Z;
  pb_updated_at : Z;
  pb_metadata : dict pyval
}.

(** [now], [now']: the clock read twice. *)
Definition publisher_verify (now now' : Z) (p : Publisher) : Publisher :=
  mkPublisher (pb_publisher_id p) (pb_name p) (pb_email p) PS_VERIFIED (Some now)
    (pb_created_at p) now' (pb_metadata p).
Definition publisher_suspend (now : Z) (p : Publisher) : Publisher :=
  mkPublisher (pb_publisher_id p) (pb_name p) (pb_email p) PS_SUSPENDED (pb_verified_at p)
    (pb_created_at p) now (pb_metadata p).

Definition trust_weights : dict Q :=
  [ ("publisher_verification", 3 # 10); ("extension_age", 1 # 5); ("download_count", 1 # 5);
    ("review_score", 3 # 20); ("security_scan", 3 # 20) ]%Q.

Definition Qmin1 (q : Q) : Q := if Qle_bool q 1 then q else 1%Q.

Definition score_publisher (p : Publisher) : Q :=
  Qmin1 (0 + if decide (pb_status p = PS_VERIFIED)
             then dict_get_or 0%Q "publisher_verification" trust_weights else 0)%Q.
Definition score_extension (listing : listing_view) : Q := Qmin1 0%Q.
Definition get_trust_score (entity_id entity_type : string) : Q := (1 # 2)%Q.

(** ** Enterprise ([enterprise/policy_enforcer.py], [enterprise/private_marketplace.py]) *)

Record EnterpriseRule := mkEntRule {
  en_rule_id : string;
  en_name : string;
  en_description : string;
  en_effect : string;
  en_conditions : option (dict pyval);
  en_actions : list string
}.

(** [PolicyRule(..., actions)]: [None] becomes the empty tuple. *)
Definition EnterpriseRule_new (rule_id name description effect : string)
    (conditions : option (dict pyval)) (actions : option (list string)) : EnterpriseRule :=
  mkEntRule rule_id name description effect conditions (default [] actions).

Definition _check_rule (rule : EnterpriseRule) (context : dict pyval) : bool := true.

Fixpoint enforcer_evaluate (rules : list EnterpriseRule) (context : dict pyval) : bool * list string :=
  match rules with
  | [] => (true, [])
  | rule :: rules' =>
      if _check_rule rule context then enforcer_evaluate rules' context
      else (false, ["Policy violation: " +:+ en_name rule +:+ " - " +:+ en_description rule])
  end.

Definition enforcer_add_rule (rule : EnterpriseRule) (rules : list EnterpriseRule)
    : list EnterpriseRule := rules ++ [rule].

Definition enforcer_validate_extension (rules : list EnterpriseRule) (listing : dict pyval)
    : bool * list string :=
  let violations := snd (enforcer_evaluate rules listing) in
  (bool_decide (length violations = 0%nat), violations).

Record PrivateMarketplaceConfig := mkPrivConfig {
  pv_marketplace_id : string;
  pv_name : string;
  pv_owner_organization : string;
  pv_allowed_publishers : list string;
  pv_allowed_extensions : list string;
  pv_created_at : string
}.

Record PrivateMarketplace := mkPrivate {
  pr_config : PrivateMarketplaceConfig;
  pr_extensions : dict (pyval * string);
  pr_ticks : nat
}.
Definition PrivateMarketplace_new (config : PrivateMarketplaceConfig) : PrivateMarketplace :=
  mkPrivate config [] 0.

Definition add_extension (listing : pyval) : M PrivateMarketplace string := λ m,
  let listing_id := "prv-" +:+ uuid12 (pr_ticks m) in
  (Ok listing_id,
   mkPrivate (pr_config m) (dict_set listing_id (listing, utcnow (pr_ticks m)) (pr_extensions m))
     (S (pr_ticks m))).

Definition remove_extension (listing_id : string) : M PrivateMarketplace bool := λ m,
  if dict_mem listing_id (pr_extensions m)
  then (Ok true, mkPrivate (pr_config m) (dict_del listing_id (pr_extensions m)) (pr_ticks m))
  else (Ok false, m).

Definition list_extensions (m : PrivateMarketplace) : list (pyval * string) :=
  dict_values (pr_extensions m).
Definition get_extension (m : PrivateMarketplace) (listing_id : string) : option (pyval * string) :=
  dict_get listing_id (pr_extensions m).
End Services.

(** ** Artifacts ([distribution/artifact_store.py]) *)

Record artifact_meta := mkArtifact {
  am_manifest_id : string;
  am_version : string;
  am_checksum : string
}.
Record ArtifactStore := mkArtifacts {
  as_artifacts : dict string;
  as_metadata : dict artifact_meta
}.
Definition ArtifactStore_new : ArtifactStore := mkArtifacts [] [].

Section Artifacts.
(** [hashlib.sha256(data).hexdigest()] *)
Variable sha256_hex : string → string.

Definition artifact_store (manifest : ExtensionManifest) (artifact_data : string) : M ArtifactStore string := λ s,
  let artifact_id := str_take 16 (sha256_hex artifact_data) in
  (Ok artifact_id,
   mkArtifacts (dict_set artifact_id artifact_data (as_artifacts s))
     (dict_set artifact_id (mkArtifact (em_extension_id manifest) (em_version manifest)
        (sha256_hex artifact_data)) (as_metadata s))).

Definition artifact_retrieve (s : ArtifactStore) (artifact_id : string) : option string :=
  dict_get artifact_id (as_artifacts s).

Definition artifact_delete (artifact_id : string) : M ArtifactStore bool := λ s,
  if dict_mem artifact_id (as_artifacts s)
  then (Ok true, mkArtifacts (dict_del artifact_id (as_artifacts s)) (dict_del artifact_id (as_metadata s)))
  else (Ok false, s).

Definition artifact_metadata (s : ArtifactStore) (artifact_id : string) : option artifact_meta :=
  dict_get artifact_id (as_metadata s).
End Artifacts.

(** ** Loaders ([loader/extension_loader.py], [loader/manifest_loader.py]) *)

Definition missing_fields (required : list string) (manifest : dict pyval) : list string :=
  omap (λ field, if dict_mem field manifest then None else Some ("Missing required field: " +:+ field))
    required.

(** [read]: opening the path and parsing it as YAML. *)
Definition load_extension (read : string → outcome pyval) (extension_path : string)
    : bool * option pyval * list string :=
  match read extension_path with
  | Ok manifest => (true, Some manifest, [])
  | Raise e => (false, None, [exn_str e])
  end.

Definition loader_validate_extension (manifest : dict pyval) : bool * list string :=
  let errors := missing_fields ["id"; "name"; "version"; "type"; "capabilities"] manifest in
  (bool_decide (length errors = 0%nat), errors).

(** The second [load_manifest] of the class replaces the first: the argument
    comes back as it is, a path included. *)
Definition load_manifest (manifest_data : pyval) : bool * option pyval * list string :=
  (true, Some manifest_data, []).

Definition loader_validate_manifest (manifest : dict pyval) : bool * list string :=
  let errors := missing_fields ["id"; "name"; "version"; "type"] manifest in
  (bool_decide (length errors = 0%nat), errors).

(** ** Audit entries ([model/audit_entry.py]) *)

Inductive MarketAuditAction :=
| AA_CREATE | AA_UPDATE | AA_DELETE | AA_PUBLISH | AA_UNPUBLISH | AA_APPROVE | AA_REJECT
| AA_DEPRECATE | AA_SUBMIT | AA_WITHDRAW.

Definition MarketAuditAction_value (a : MarketAuditAction) : string :=
  match a with
  | AA_CREATE => "CREATE" | AA_UPDATE => "UPDATE" | AA_DELETE => "DELETE"
  | AA_PUBLISH => "PUBLISH" | AA_UNPUBLISH => "UNPUBLISH" | AA_APPROVE => "APPROVE"
  | AA_REJECT => "REJECT" | AA_DEPRECATE => "DEPRECATE" | AA_SUBMIT => "SUBMIT"
  | AA_WITHDRAW => "WITHDRAW"
  end.

Record MarketAuditEntry := mkMarketAudit {
  ma_entry_id : string;
  ma_action : MarketAuditAction;
  ma_actor_id : string;
  ma_resource_type : string;
  ma_resource_id : string;
  ma_old_state : option (dict pyval);
  ma_new_state : option (dict pyval);
  ma_reason : string;
  ma_timestamp : string;
  ma_metadata : dict pyval
}.

Definition opt_dict (d : option (dict pyval)) : pyval := from_option VDict VNone d.

Definition MarketAuditEntry_to_dict (e : MarketAuditEntry) : dict pyval :=
  [ ("entry_id", VStr (ma_entry_id e)); ("action", VStr (MarketAuditAction_value (ma_action e)));
    ("actor_id", VStr (ma_actor_id e)); ("resource_type", VStr (ma_resource_type e));
    ("resource_id", VStr (ma_resource_id e)); ("old_state", opt_dict (ma_old_state e));
    ("new_state", opt_dict (ma_new_state e)); ("reason", VStr (ma_reason e));
    ("timestamp", VStr (ma_timestamp e)); ("metadata", VDict (ma_metadata e)) ].

(** ** Domain audit entries and rules ([domain/audit_entry.py], [domain/invariants.py]) *)

Inductive DomainAuditAction :=
| DA_SUBMITTED | DA_APPROVED | DA_REJECTED | DA_CHANGES_REQUESTED | DA_PUBLISHED | DA_DEPRECATED
| DA_REMOVED | DA_VERSION_ADDED | DA_VERSION_REMOVED | DA_STATUS_CHANGED | DA_METADATA_UPDATED.

Record DomainAuditEntry := mkDomainAudit {
  da_entry_id : string;
  da_listing_id : string;
  da_action : DomainAuditAction;
  da_actor_id : string;
  da_actor_role : string;
  da_timestamp : string;
  da_changes : option (dict pyval);
  da_metadata : option (dict pyval)
}.

Record DomainInvariants := mkInvariants {
  di_max_capabilities_per_extension : nat;
  di_max_capability_id_length : nat;
  di_required_manifest_fields : list string;
  di_allowed_extension_types : list string;
  di_max_artifact_size : Z;
  di_allowed_licenses : list string;
  di_min_runtime_version : string
}.

Definition DOMAIN_INVARIANTS : DomainInvariants :=
  mkInvariants 50 64
    ["extension_id"; "name"; "version"; "extension_type"; "publisher_id"]
    ["agent"; "tool"; "model"; "mcp"]
    (100 * 1024 * 1024)%Z
    ["MIT"; "Apache-2.0"; "BSD-3-Clause"; "GPL-3.0"; "LGPL-3.0"; "MPL-2.0"]
    "1.0".
