(* ===== verification/MarketplaceProps.v ===== *)
(** * Theorems about the marketplace

    The two patterns mean what their names say, a final newline apart; the
    listing registry answers with what was registered as long as statuses are
    those of the enumeration; artifacts are found under the digest of their
    content; reviews, scans and policies decide nothing. *)
From S2P Require Import Prelude PyStr PyDict PyVal Json Regex Marketplace.
From Stdlib Require Import Ascii.

(** ** Manifests *)

(** Lower-case letters, digits and hyphens, with a letter or digit at each end. *)
Definition id_shape (s : string) : Prop :=
  (∃ c mid d, s = String c (mid +:+ String d ε) ∧ is_alnum c = true ∧ is_alnum d = true
     ∧ str_all is_id_char mid = true)
  ∨ ∃ c, s = String c ε ∧ is_alnum c = true.

(** Nothing, or the character [c] and at least one of [[a-z0-9.-]]. *)
Definition version_tail (c : ascii) (s : string) : Prop :=
  s = ε ∨ ∃ t, s = String c t ∧ t ≠ ε ∧ str_all is_tag_char t = true.

(** One or more decimal digits, of any script. *)
Definition number (s : string) : Prop :=
  ∃ ds, ds ≠ [] ∧ s = foldr String.append ε ds ∧ Forall (.∈ DECIMAL_DIGITS) ds.

Definition version_shape (s : string) : Prop :=
  ∃ major minor patch pre build,
    s = major +:+ "." +:+ minor +:+ "." +:+ patch +:+ pre +:+ build
    ∧ number major ∧ number minor ∧ number patch
    ∧ version_tail "-" pre ∧ version_tail "+" build.

Definition with_newline (P : string → Prop) (s : string) : Prop :=
  P s ∨ ∃ t, s = t +:+ String newline_char ε ∧ P t.

Lemma id_pattern_spec s : in_regex EXTENSION_ID_PATTERN s ↔ id_shape s.
Proof.
  unfold EXTENSION_ID_PATTERN, id_shape. rewrite in_or_iff, in_char_iff. apply or_iff_compat_r.
  rewrite in_seq_iff. split.
  - intros (x & y & -> & (c & -> & Hc)%in_char_iff & Hy).
    apply in_seq_iff in Hy as (mid & z & -> & Hm%in_star_char & (d & -> & Hd)%in_char_iff).
    by exists c, mid, d.
  - intros (c & mid & d & -> & Hc & Hd & Hm). exists (String c ε), (mid +:+ String d ε).
    split; [done|]. split; [by constructor|]. constructor; [by apply in_star_char|by constructor].
Qed.

Lemma version_tail_spec c s :
  in_regex (ROpt (RSeq (RChar (is_char c)) (RPlus (RChar is_tag_char)))) s ↔ version_tail c s.
Proof.
  unfold ROpt, version_tail. rewrite in_or_iff, in_empty_iff, in_seq_iff. split.
  - intros [(x & t & -> & (d & -> & Hd)%in_char_iff & [Hne Ht]%in_plus_char)| ->]; [|by left].
    apply bool_decide_eq_true in Hd as ->. right. by exists t.
  - intros [->|(t & -> & Hne & Ht)]; [by right|]. left. exists (String c ε), t.
    split; [done|]. split; [constructor; by apply bool_decide_eq_true|by apply in_plus_char].
Qed.

Lemma in_char_seq d r s :
  in_regex (RSeq (RChar (is_char d)) r) s ↔ ∃ t, s = String d t ∧ in_regex r t.
Proof.
  rewrite in_seq_iff. split.
  - intros (x & t & -> & (c & -> & Hc)%in_char_iff & Ht). apply bool_decide_eq_true in Hc as ->. eauto.
  - intros (t & -> & Ht). exists (String d ε), t. split; [done|].
    split; [constructor; by apply bool_decide_eq_true|done].
Qed.

Lemma digits_spec s : in_regex (RPlus (ROneOf DECIMAL_DIGITS)) s ↔ number s.
Proof.
  rewrite in_plus_iff. unfold number.
  split; intros (ds & Hne & -> & Hds); exists ds; split_and!; try done;
    (eapply Forall_impl; [exact Hds|]); intros d; apply in_one_of.
Qed.

Lemma version_pattern_spec s : in_regex VERSION_PATTERN s ↔ version_shape s.
Proof.
  unfold VERSION_PATTERN, version_shape. rewrite in_seq_iff. split.
  - intros (major & r1 & -> & H1%digits_spec & (r2 & -> & H2)%in_char_seq).
    apply in_seq_iff in H2 as (minor & r3 & -> & H2%digits_spec & (r4 & -> & H3)%in_char_seq).
    apply in_seq_iff in H3 as (patch & r5 & -> & H3%digits_spec & H4).
    apply in_seq_iff in H4 as (pre & build & -> & H4%version_tail_spec & H5%version_tail_spec).
    by exists major, minor, patch, pre, build.
  - intros (major & minor & patch & pre & build & -> & H1 & H2 & H3 & H4 & H5).
    exists major, ("." +:+ minor +:+ "." +:+ patch +:+ pre +:+ build).
    split; [done|]. split; [by apply digits_spec|]. apply in_char_seq.
    eexists. split; [done|]. apply in_seq_iff. eexists minor, _. split; [reflexivity|].
    split; [by apply digits_spec|]. apply in_char_seq. eexists. split; [done|].
    apply in_seq_iff. eexists patch, _. split; [reflexivity|]. split; [by apply digits_spec|].
    apply in_seq_iff. exists pre, build. split; [done|]. by rewrite !version_tail_spec.
Qed.

Lemma id_match s : re_match_line EXTENSION_ID_PATTERN s = true ↔ with_newline id_shape s.
Proof. unfold with_newline. rewrite re_match_line_spec. setoid_rewrite id_pattern_spec. done. Qed.

Lemma version_match s : re_match_line VERSION_PATTERN s = true ↔ with_newline version_shape s.
Proof. unfold with_newline. rewrite re_match_line_spec. setoid_rewrite version_pattern_spec. done. Qed.

Lemma if_nil {A} (b : bool) (x : A) : (if b then [x] else []) = [] ↔ b = false.
Proof. by destruct b. Qed.
Lemma if_nil' {A} (b : bool) (x : A) : (if b then [] else [x]) = [] ↔ b = true.
Proof. by destruct b. Qed.

Lemma validate_id_nil s :
  validate_extension_id s = [] ↔ (3 ≤ str_len s ≤ 64)%nat ∧ with_newline id_shape s.
Proof.
  unfold validate_extension_id. rewrite !app_nil, !if_nil, if_nil', id_match, !Nat.ltb_ge. tauto.
Qed.

(** C34: a marketplace manifest is valid exactly when its identifier is 3 to 64
    characters of lower-case ASCII letters, ASCII digits and inner hyphens, its
    version is three numbers, in decimal digits of any script, with optional
    pre-release and build tags, and it declares 1 to 50 capabilities; either text
    may also be followed by one newline, which counts towards the length of the
    identifier. The validator class drops the rule about capabilities. *)
Theorem manifest_rules_exact m :
  (ExtensionManifest_validate m = []
   ↔ (3 ≤ str_len (em_extension_id m) ≤ 64)%nat
     ∧ with_newline id_shape (em_extension_id m)
     ∧ with_newline version_shape (em_version m)
     ∧ (1 ≤ length (em_capabilities m) ≤ 50)%nat)
  ∧ (ExtensionManifestValidator_validate m = []
     ↔ (3 ≤ str_len (em_extension_id m) ≤ 64)%nat
       ∧ with_newline id_shape (em_extension_id m)
       ∧ with_newline version_shape (em_version m)).
Proof.
  unfold ExtensionManifest_validate, ExtensionManifestValidator_validate, version_errors,
    invariants_validate_capabilities.
  rewrite !app_nil, validate_id_nil, !if_nil, if_nil', version_match, !Nat.ltb_ge.
  unfold MAX_CAPABILITIES_PER_EXTENSION, MIN_CAPABILITIES_PER_EXTENSION. tauto.
Qed.

(** ** The listing registry *)

Section RegistryProps.
Context (utcnow uuid12 : nat → string).
Implicit Types r : ExtensionRegistry.

(** Operations whose identifiers are fresh and whose statuses are listed. *)
Inductive ext_step r : ExtensionRegistry → Prop :=
| ext_step_register m :
    dict_get ("lst-" +:+ uuid12 (er_ticks r)) (er_listings r) = None →
    ext_step r (ext_register utcnow uuid12 m r).2
| ext_step_unregister i : ext_step r (ext_unregister i r).2
| ext_step_status i s : ext_step r (ext_update_status utcnow i (ListingStatus_value s) r).2.

Definition listing_ok (i : string) (d : listing_data) : Prop :=
  ld_listing_id d = i ∧ ld_publisher_id d = em_publisher_id (ld_manifest d)
  ∧ ∃ s, ld_status d = ListingStatus_value s.

Definition ext_ok r : Prop :=
  dict_wf (er_listings r) ∧ ∀ i d, dict_get i (er_listings r) = Some d → listing_ok i d.

Lemma ext_register_state m r :
  er_listings (ext_register utcnow uuid12 m r).2
  = dict_set ("lst-" +:+ uuid12 (er_ticks r))
      (mkListing ("lst-" +:+ uuid12 (er_ticks r)) m "DRAFT" (em_publisher_id m)
         (utcnow (er_ticks r)) (utcnow (er_ticks r))) (er_listings r).
Proof. reflexivity. Qed.

Lemma ext_unregister_state i r :
  er_listings (ext_unregister i r).2
  = if dict_mem i (er_listings r) then dict_del i (er_listings r) else er_listings r.
Proof. unfold ext_unregister. m_unfold. by destruct (dict_mem i (er_listings r)). Qed.

Lemma ext_update_state i s r :
  er_listings (ext_update_status utcnow i s r).2
  = match dict_get i (er_listings r) with
    | None => er_listings r
    | Some d => dict_set i (mkListing (ld_listing_id d) (ld_manifest d) s (ld_publisher_id d)
                  (ld_created_at d) (utcnow (er_ticks r))) (er_listings r)
    end.
Proof. unfold ext_update_status, er_tick. m_unfold. by destruct (dict_get i (er_listings r)). Qed.

Lemma ext_step_ok r r' : ext_ok r → ext_step r r' → ext_ok r'.
Proof.
  intros [Hwf Hok] [m Hf|i|i s].
  - unfold ext_ok. rewrite ext_register_state. split; [by apply dict_wf_set|].
    intros i d. rewrite dict_get_set. case_decide; subst; [|apply Hok].
    intros [= <-]. split; [done|]. split; [done|]. by exists LS_DRAFT.
  - unfold ext_ok. rewrite ext_unregister_state. destruct (dict_mem i (er_listings r)); [|by split].
    split; [by apply dict_wf_del|]. intros j d. rewrite dict_get_del. case_decide; [done|apply Hok].
  - unfold ext_ok. rewrite ext_update_state.
    destruct (dict_get i (er_listings r)) as [d|] eqn:Hd; [|by split].
    destruct (Hok i d Hd) as (Hid & Hp & _). split; [by apply dict_wf_set|].
    intros j e. rewrite dict_get_set. case_decide; subst; [|apply Hok].
    intros [= <-]. split_and!; [done..|]. by exists s.
Qed.

Lemma ListingStatus_round s : ListingStatus_of (ListingStatus_value s) = Ok s.
Proof. by destruct s. Qed.

(** The view of a listing whose status is one of the enumeration's. *)
Definition view_of (d : listing_data) : option listing_view :=
  match _listing_from_data d with Ok v => Some v | Raise _ => None end.

#[local] Arguments view_of : simpl never.
#[local] Arguments _listing_from_data : simpl never.

Lemma select_ok publisher_id status ds :
  (∀ d, d ∈ ds → ∃ s, ld_status d = ListingStatus_value s) →
  select_listings None publisher_id status ds
  = Ok (omap view_of (filter (λ d, opt_matches publisher_id (ld_publisher_id d) = true
                                  ∧ opt_matches status (ld_status d) = true) ds)).
Proof.
  induction ds as [|d ds IH]; intros Hd; [done|]. cbn [select_listings truthy_opt from_option].
  rewrite IH by (intros e He; apply Hd; by right). rewrite filter_cons.
  destruct (Hd d ltac:(by left)) as [s Hs].
  assert (_listing_from_data d = Ok (mkView (ld_listing_id d) (ld_manifest d) s (ld_publisher_id d)
    (ld_created_at d) (ld_updated_at d))) as Hv
    by (unfold _listing_from_data; by rewrite Hs, ListingStatus_round).
  destruct (opt_matches publisher_id _), (opt_matches status _); cbn [andb].
  - rewrite decide_True by done. rewrite Hv. csimpl.
    assert (view_of d = Some (mkView (ld_listing_id d) (ld_manifest d) s (ld_publisher_id d)
      (ld_created_at d) (ld_updated_at d))) as Hw by (unfold view_of; by rewrite Hv).
    by rewrite Hw.
  - rewrite decide_False by naive_solver. done.
  - rewrite decide_False by naive_solver. done.
  - rewrite decide_False by naive_solver. done.
Qed.

(** After any registrations under fresh identifiers, removals and status
    updates to statuses of the enumeration, [get] and [list] without a type
    filter never raise: [get] answers with the stored listing, [list] with the
    ones that match the filters, in order of registration, sliced. *)
Theorem listing_registry_exact r publisher_id status limit offset :
  star ext_step ExtensionRegistry_new r →
  ext_list r None publisher_id status limit offset
  = Ok (py_slice (omap view_of (filter (λ d, opt_matches publisher_id (ld_publisher_id d) = true
                    ∧ opt_matches status (ld_status d) = true) (dict_values (er_listings r))))
          offset limit)
  ∧ ∀ i, ext_get r i = Ok (dict_get i (er_listings r) ≫= view_of)
    ∧ match dict_get i (er_listings r) with
      | Some d => ∃ v, view_of d = Some v ∧ lv_listing_id v = i ∧ lv_manifest v = ld_manifest d
          ∧ ListingStatus_value (lv_status v) = ld_status d
      | None => True
      end.
Proof.
  intros Hr. assert (ext_ok r) as [Hwf Hok].
  { refine (star_invariant ext_step ext_ok _ _ ext_step_ok _ Hr).
    split; [apply dict_wf_nil|done]. }
  split.
  - unfold ext_list. rewrite select_ok; [done|]. intros d Hd. unfold dict_values in Hd.
    apply list_elem_of_fmap in Hd as ([i e] & -> & Hin). cbn.
    apply dict_elem_get in Hin; [|done]. by destruct (Hok i e Hin) as (_ & _ & ?).
  - intros i. unfold ext_get. destruct (dict_get i (er_listings r)) as [d|] eqn:Hd; [|done].
    destruct (Hok i d Hd) as (Hid & _ & s & Hs).
    assert (_listing_from_data d = Ok (mkView (ld_listing_id d) (ld_manifest d) s (ld_publisher_id d)
      (ld_created_at d) (ld_updated_at d))) as Hv
      by (unfold _listing_from_data; by rewrite Hs, ListingStatus_round).
    unfold view_of. cbn. rewrite Hv. split; [done|]. eexists. split; [done|]. cbn. by rewrite Hs.
Qed.
End RegistryProps.

Definition demo_extension (i : string) : ExtensionManifest :=
  mkExtension i "n" "1.0.0" "pub" ε ε [] ["read"] [] [] [] "1.0.0" None ε ε ε "MIT" [] [] None None [].

Lemma listing_registry_exact_witness :
  let r := (ext_register (λ _, "t") str_of_nat (demo_extension "abc") ExtensionRegistry_new).2 in
  ∃ v, ext_list r None (Some "pub") None 50 0 = Ok [v] ∧ lv_status v = LS_DRAFT
    ∧ ext_get r "lst-0" = Ok (Some v).
Proof.
  intros r. assert (star (ext_step (λ _, "t") str_of_nat) ExtensionRegistry_new r) as Hr
    by (apply star_one; by constructor).
  destruct (listing_registry_exact (λ _, "t") str_of_nat r (Some "pub") None 50 0 Hr) as [Hl Hg].
  eexists. split; [exact Hl|]. split; [reflexivity|]. exact (proj1 (Hg "lst-0")).
Defined.

(** A status outside the enumeration is stored, and every later answer about
    the listing raises; a type filter raises on any listing. *)
Example demo_registry_errors :
  let r := (ext_register (λ _, "t") str_of_nat (demo_extension "abc") ExtensionRegistry_new).2 in
  let '(o, r') := ext_update_status (λ _, "t") "lst-0" "LIVE" r in
  o = Ok true ∧ is_ok (ext_get r' "lst-0") = false
  ∧ is_ok (ext_list r' None None None 50 0) = false
  ∧ is_ok (ext_list r (Some "tool") None None 50 0) = false.
Proof. vm_compute. done. Qed.

(** ** Artifacts *)

Section ArtifactProps.
Context (sha256_hex : string → string).

Inductive artifact_step (s : ArtifactStore) : ArtifactStore → Prop :=
| artifact_step_store m data : artifact_step s (artifact_store sha256_hex m data s).2
| artifact_step_delete i : artifact_step s (artifact_delete i s).2.

Definition artifacts_ok (s : ArtifactStore) : Prop :=
  ∀ i, match artifact_retrieve s i, artifact_metadata s i with
       | Some data, Some meta => i = str_take 16 (sha256_hex data) ∧ am_checksum meta = sha256_hex data
       | None, None => True
       | _, _ => False
       end.

Lemma artifact_step_ok s s' : artifacts_ok s → artifact_step s s' → artifacts_ok s'.
Proof.
  unfold artifacts_ok, artifact_retrieve, artifact_metadata. intros H [m data|i] j.
  - cbn. rewrite !dict_get_set. case_decide; [done|apply H].
  - unfold artifact_delete. destruct (dict_mem i (as_artifacts s)); cbn; [|apply H].
    rewrite !dict_get_del. case_decide; [done|apply H].
Qed.

(** Whatever is stored and deleted, an artifact is found only under the
    first sixteen digits of its content's digest, with metadata that carries
    that content's full digest, and never without metadata; storing a content
    makes it retrievable under the identifier returned. *)
Theorem artifacts_content_addressed s :
  star artifact_step ArtifactStore_new s →
  (∀ i, match artifact_retrieve s i, artifact_metadata s i with
        | Some data, Some meta =>
            i = str_take 16 (sha256_hex data) ∧ am_checksum meta = sha256_hex data
        | None, None => True
        | _, _ => False
        end)
  ∧ ∀ m data, ∃ i s', artifact_store sha256_hex m data s = (Ok i, s')
      ∧ artifact_retrieve s' i = Some data
      ∧ (∀ j, j ≠ i → artifact_retrieve s' j = artifact_retrieve s j)
      ∧ (artifact_delete i s').1 = Ok true ∧ artifact_retrieve (artifact_delete i s').2 i = None.
Proof.
  intros Hs. split.
  - by refine (star_invariant artifact_step artifacts_ok _ _ artifact_step_ok _ Hs).
  - intros m data. eexists _, _. split; [reflexivity|].
    set (i := str_take 16 (sha256_hex data)).
    unfold artifact_retrieve, artifact_delete. cbn [as_artifacts as_metadata].
    rewrite (proj2 (dict_mem_true i _)) by (rewrite dict_get_set_eq; done).
    cbn [fst snd as_artifacts]. rewrite dict_get_set_eq, dict_get_del_eq.
    split; [done|]. split; [|done]. intros j Hj. by rewrite dict_get_set_ne.
Qed.
End ArtifactProps.

Lemma artifacts_content_addressed_witness :
  let s := (artifact_store (λ d, d +:+ "-digest") (demo_extension "abc") "data" ArtifactStore_new).2 in
  artifact_retrieve s "data-digest" = Some "data"
  ∧ ∃ meta, artifact_metadata s "data-digest" = Some meta ∧ am_checksum meta = "data-digest".
Proof.
  intros s. split; [vm_compute; reflexivity|].
  assert (star (artifact_step (λ d, d +:+ "-digest")) ArtifactStore_new s) as Hs
    by (apply star_one; by constructor).
  pose proof (proj1 (artifacts_content_addressed (λ d, d +:+ "-digest") s Hs) "data-digest") as H.
  eexists. split; [vm_compute; reflexivity|]. vm_compute in H. exact (proj2 H).
Defined.

(** ** What decides nothing *)

(** A review stays pending whatever decisions are recorded. *)
Section ReviewProps.
Context (utcnow : nat → string).

Inductive review_step (r : ReviewService) : ReviewService → Prop :=
| review_step_submit l s : review_step r (submit_for_review utcnow l s r).2
| review_step_decide l d who why : review_step r (record_decision utcnow l d who why r).2.

Lemma reviews_stay_pending r l : star review_step ReviewService_new r →
  get_review_status r l = None ∨ get_review_status r l = Some "PENDING".
Proof.
  intros Hr. refine (star_invariant review_step (λ r, ∀ l, get_review_status r l = None
    ∨ get_review_status r l = Some "PENDING") _ _ _ _ Hr l); [|by left].
  unfold get_review_status. intros r1 r2 H [l' s|l' d who why] j.
  - cbn. rewrite dict_get_set. case_decide; [by right|apply H].
  - unfold record_decision. destruct (dict_get l' (rs_reviews r1)) as [v|] eqn:Hv; [|apply H].
    cbn. rewrite dict_get_set. case_decide; [|apply H]. subst. specialize (H l'). rewrite Hv in H.
    cbn in *. naive_solver.
Qed.
End ReviewProps.

(** Every scan passes and every rule allows. *)
Lemma scans_pass now package : ss_passed (scan_extension now package) = true.
Proof. reflexivity. Qed.

Lemma enforcer_allows rules context : enforcer_evaluate rules context = (true, []).
Proof. by induction rules. Qed.

(** An identifier and a version with a newline at the end are valid. *)
(** The digits of a version may be Arabic-Indic, those of an identifier not. *)
Example demo_digits :
  re_match_line VERSION_PATTERN (utf8 1633 +:+ "." +:+ utf8 1634 +:+ ".10-rc.1") = true
  ∧ re_match_line VERSION_PATTERN ("1." +:+ utf8 178 +:+ ".3") = false
  ∧ re_match_line EXTENSION_ID_PATTERN ("ab" +:+ utf8 1633) = false.
Proof. vm_compute. done. Qed.

Example demo_newline :
  ExtensionManifest_validate
    (mkExtension ("abc" +:+ String newline_char ε) "n" ("1.0.0" +:+ String newline_char ε) "p" ε ε []
       ["read"] [] [] [] "1.0.0" None ε ε ε "MIT" [] [] None None []) = []
  ∧ ExtensionManifest_validate (demo_extension "a_b") ≠ [].
Proof. vm_compute. done. Qed.
