(* ===== verification/Streams.v ===== *)
(** * Event publishers over Redis
    ([kernel/events/redis_streams.py], [kernel/events/redis_publisher.py],
    [kernel/events/factory.py])

    The Redis client is third-party code: a class over an arbitrary state, any
    call of which may raise. The subscribers of the process are those of the
    in-memory publisher. The names of the streams are a set, iterated in the
    order [iter]. The connection is opened lazily and kept. *)
From S2P Require Import Prelude PyStr PyDict PyVal Json Events Publisher.

(** An entry of a stream: its identifier and its fields. *)
Definition entry : Type := string * dict pyval.

(** One item of what [XREADGROUP] answers: not a pair, or a stream's name and
    entries, either of which may be missing. *)
Inductive read_item := NotAPair | Pair (stream_name : option string) (entries : option (list entry)).

Class RedisClient (W : Type) := {
  redis_publish : string → string → M W unit;
  xadd : string → dict pyval → nat → M W unit;
  xgroup_create : string → string → M W unit;
  xreadgroup : string → string → list string → nat → nat → M W (option (list read_item));
  xack : string → string → string → M W unit;
  xrange : string → string → string → nat → M W (option (list entry));
  xtrim : string → nat → M W unit
}.

(** [aioredis.ResponseError] *)
Definition is_response_error (e : exn) : bool := bool_decide (exn_class e = "ResponseError").

(** A message handed to a consumer. *)
Record message := mkMessage { msg_stream : string; msg_id : string; msg_data : dict pyval }.

Record StreamPublisher (W : Type) := mkStreams {
  st_redis : W;
  st_connected : bool;
  st_local : InMemoryEventPublisher;
  st_stream_keys : gset string
}.
Arguments mkStreams {_} _ _ _ _.
Arguments st_redis {_} _.
Arguments st_connected {_} _.
Arguments st_local {_} _.
Arguments st_stream_keys {_} _.

Section Streams.
Context {W : Type} `{!RedisClient W}.
Variable iter : gset string → list string.
Variables (prefix instance_id : string).
(** [str(time.time())] of a reading of the clock *)
Variable time_str : Z → string.
Implicit Types p : StreamPublisher W.

Definition RedisStreamPublisher_new (redis : W) : StreamPublisher W :=
  mkStreams redis false InMemoryEventPublisher_new ∅.

Definition _ensure_connected : M (StreamPublisher W) unit :=
  modify (λ p, mkStreams (st_redis p) true (st_local p) (st_stream_keys p)).

(** A call to the client. *)
Definition on_redis {A} (m : M W A) : M (StreamPublisher W) A :=
  zoom st_redis (λ w p, mkStreams w (st_connected p) (st_local p) (st_stream_keys p)) m.

Definition on_local (f : InMemoryEventPublisher → InMemoryEventPublisher)
    : M (StreamPublisher W) unit :=
  modify (λ p, mkStreams (st_redis p) (st_connected p) (f (st_local p)) (st_stream_keys p)).

Definition on_keys (f : gset string → gset string) : M (StreamPublisher W) unit :=
  modify (λ p, mkStreams (st_redis p) (st_connected p) (st_local p) (f (st_stream_keys p))).

Definition _stream_key (execution_id : string) : string := prefix +:+ ":s:" +:+ execution_id.
Definition _group_name (tenant_id : string) : string :=
  prefix +:+ ":g:" +:+ str_or tenant_id "default".
Definition _consumer_name : string := prefix +:+ ":c:" +:+ instance_id.

(** What is added to the stream and put in the queues. *)
Definition stream_data (now : Z) (e : ExecutionEvent) : dict pyval :=
  dict_set "__timestamp__" (VStr (time_str now))
    (dict_set "__agent_id__" (VStr (opt_or (ev_agent_id e) ε))
      (dict_set "__tenant_id__" (VStr (ev_tenant_id e))
        (dict_set "__event_type__" (VStr (event_kind_value (ev_event_type e)))
           (ExecutionEvent_to_dict e)))).

Definition stream_publish (now : Z) (e : ExecutionEvent) : M (StreamPublisher W) unit :=
  let stream := _stream_key (ev_execution_id e) in
  _ensure_connected ;;
  on_redis (xadd stream (stream_data now e) 10000) ;;
  on_keys (λ K, {[stream]} ∪ K) ;;
  on_local (deliver (QEvent (stream_data now e)) e).

Definition stream_subscribe (execution_id tenant_id : string) : M (StreamPublisher W) nat := λ p,
  let '(q, l) := subscribe execution_id tenant_id (st_local p) in
  (Ok q, mkStreams (st_redis p) (st_connected p) l (st_stream_keys p)).

Definition stream_unsubscribe (execution_id : string) (queue : nat) : M (StreamPublisher W) unit :=
  on_local (unsubscribe execution_id queue).

Definition stream_close (execution_id : string) : M (StreamPublisher W) unit :=
  on_keys (λ K, K ∖ {[_stream_key execution_id]}) ;;
  on_local (pub_close execution_id).

Fixpoint close_each (executions : list string) : M (StreamPublisher W) unit :=
  match executions with
  | [] => mret tt
  | x :: xs => stream_close x ;; close_each xs
  end.
Definition stream_close_all : M (StreamPublisher W) unit :=
  executions ← read (λ p, active_executions (st_local p));
  close_each executions.

(** [except aioredis.ResponseError as e: if "BUSYGROUP" not in str(e): raise] *)
Fixpoint create_groups (group : string) (streams : list string) : M (StreamPublisher W) unit :=
  match streams with
  | [] => mret tt
  | stream :: streams' =>
      r ← attempt (on_redis (xgroup_create stream group));
      match (r : outcome unit) with
      | Ok _ => create_groups group streams'
      | Raise e =>
          if is_response_error e && str_contains "BUSYGROUP" (exn_str e)
          then create_groups group streams' else raise e
      end
  end.

Definition ensure_consumer_group (tenant_id : string) : M (StreamPublisher W) string :=
  _ensure_connected ;;
  streams ← read (λ p, iter (st_stream_keys p));
  create_groups (_group_name tenant_id) streams ;;
  mret (_group_name tenant_id).

Definition messages_of (item : read_item) : list message :=
  match item with
  | Pair (Some stream) (Some entries) => map (λ e, mkMessage stream e.1 e.2) entries
  | _ => []
  end.

Definition read_messages (tenant_id : string) (count block_ms : nat)
    : M (StreamPublisher W) (list message) :=
  _ensure_connected ;;
  keys ← read (λ p, st_stream_keys p);
  let stream_keys := if decide (keys = ∅) then [prefix +:+ ":s:placeholder"] else iter keys in
  r ← attempt (on_redis (xreadgroup (_group_name tenant_id) _consumer_name stream_keys count block_ms));
  match (r : outcome (option (list read_item))) with
  | Ok results => mret (mjoin (map messages_of (default [] results)))
  | Raise e => if is_response_error e then mret [] else raise e
  end.

Definition acknowledge (stream msg_id tenant_id : string) : M (StreamPublisher W) unit :=
  _ensure_connected ;; on_redis (xack stream (_group_name tenant_id) msg_id).

(** The tenant is a parameter the body does not use. *)
Definition replay (execution_id tenant_id start_id : string) (count : nat)
    : M (StreamPublisher W) (list message) :=
  _ensure_connected ;;
  let stream := _stream_key execution_id in
  r ← attempt (on_redis (xrange stream start_id "+" count));
  match (r : outcome (option (list entry))) with
  | Ok entries => mret (map (λ e, mkMessage stream e.1 e.2) (default [] entries))
  | Raise e => if is_response_error e then mret [] else raise e
  end.

Definition trim (execution_id : string) (maxlen : nat) : M (StreamPublisher W) unit :=
  _ensure_connected ;;
  r ← attempt (on_redis (xtrim (_stream_key execution_id) maxlen));
  match (r : outcome unit) with
  | Ok _ => mret tt
  | Raise e => if is_response_error e then mret tt else raise e
  end.

(** [active_executions] and [subscriber_count] *)
Definition stream_active_executions p : list string := active_executions (st_local p).
Definition stream_subscriber_count p (execution_id : string) : nat :=
  subscriber_count (st_local p) execution_id.

(** The publisher as the protocol has it; [time w] is what [time.time()] reads when
    the client is in state [w]. *)
Definition stream_publisher (time : W → Z) : EventPublisher (StreamPublisher W) := {|
  ep_publish e := now ← read (λ p, time (st_redis p)); stream_publish now e;
  ep_subscribe := stream_subscribe;
  ep_unsubscribe := stream_unsubscribe;
  ep_close := stream_close;
  ep_close_all := stream_close_all;
  ep_active_executions := stream_active_executions;
  ep_subscriber_count := stream_subscriber_count;
  ep_local := st_local;
  ep_put_local l p := mkStreams (st_redis p) (st_connected p) l (st_stream_keys p)
|}.
End Streams.

(** ** Pub/Sub ([kernel/events/redis_publisher.py]) *)

Record RedisEventPublisher (W : Type) := mkRedisPub {
  rp_redis : W;
  rp_connected : bool;
  rp_local : InMemoryEventPublisher
}.
Arguments mkRedisPub {_} _ _ _.
Arguments rp_redis {_} _.
Arguments rp_connected {_} _.
Arguments rp_local {_} _.

Section PubSub.
Context {W : Type} `{!RedisClient W}.
Variable channel_prefix : string.
(** [repr] of a float, which [json.dumps] writes *)
Variable float_repr : Q → string.
Implicit Types p : RedisEventPublisher W.

Definition RedisEventPublisher_new (redis : W) : RedisEventPublisher W :=
  mkRedisPub redis false InMemoryEventPublisher_new.

Definition pubsub_connect : M (RedisEventPublisher W) unit :=
  modify (λ p, mkRedisPub (rp_redis p) true (rp_local p)).

Definition on_pubsub_local (f : InMemoryEventPublisher → InMemoryEventPublisher)
    : M (RedisEventPublisher W) unit :=
  modify (λ p, mkRedisPub (rp_redis p) (rp_connected p) (f (rp_local p))).

Definition pubsub_publish (e : ExecutionEvent) : M (RedisEventPublisher W) unit :=
  let channel := channel_prefix +:+ ":events:" +:+ ev_execution_id e in
  pubsub_connect ;;
  let data := json_text float_repr (VDict (ExecutionEvent_to_dict e)) in
  zoom rp_redis (λ w p, mkRedisPub w (rp_connected p) (rp_local p)) (redis_publish channel data) ;;
  on_pubsub_local (deliver (QEvent (ExecutionEvent_to_dict e)) e).

Definition pubsub_subscribe (execution_id tenant_id : string) : M (RedisEventPublisher W) nat := λ p,
  let '(q, l) := subscribe execution_id tenant_id (rp_local p) in
  (Ok q, mkRedisPub (rp_redis p) (rp_connected p) l).
Definition pubsub_unsubscribe (execution_id : string) (queue : nat) : M (RedisEventPublisher W) unit :=
  on_pubsub_local (unsubscribe execution_id queue).
Definition pubsub_close (execution_id : string) : M (RedisEventPublisher W) unit :=
  on_pubsub_local (pub_close execution_id).
Definition pubsub_close_all : M (RedisEventPublisher W) unit := on_pubsub_local close_all.
Definition pubsub_active_executions p : list string := active_executions (rp_local p).
Definition pubsub_subscriber_count p (execution_id : string) : nat :=
  subscriber_count (rp_local p) execution_id.

Definition redis_publisher : EventPublisher (RedisEventPublisher W) := {|
  ep_publish := pubsub_publish;
  ep_subscribe := pubsub_subscribe;
  ep_unsubscribe := pubsub_unsubscribe;
  ep_close := pubsub_close;
  ep_close_all := pubsub_close_all;
  ep_active_executions := pubsub_active_executions;
  ep_subscriber_count := pubsub_subscriber_count;
  ep_local := rp_local;
  ep_put_local l p := mkRedisPub (rp_redis p) (rp_connected p) l
|}.
End PubSub.

(** ** The choice of a publisher ([kernel/events/factory.py]) *)

Inductive publisher_choice :=
| ChooseMemory
| ChoosePubSub (redis_url channel_prefix : string)
| ChooseStreams (redis_url stream_prefix : string).

(** [has_redis]: whether the package could be imported. *)
Definition create_event_publisher (has_redis : bool)
    (event_backend redis_url event_channel_prefix : string) : outcome publisher_choice :=
  let backend := str_lower event_backend in
  if decide (backend = "memory") then Ok ChooseMemory
  else if decide (backend ∈ ["redis"; "redis_pubsub"]) then
    if negb (truthy redis_url)
    then Raise (mkExn "ValueError" "redis_url is required when event_backend is 'redis'")
    else if negb has_redis
    then Raise (mkExn "RuntimeError" ("Redis support requires the 'redis' package. "
                +:+ "Install it with: pip install redis"))
    else Ok (ChoosePubSub redis_url event_channel_prefix)
  else if decide (backend ∈ ["redis_streams"; "streams"]) then
    if negb (truthy redis_url)
    then Raise (mkExn "ValueError" "redis_url is required when event_backend is 'redis_streams'")
    else if negb has_redis
    then Raise (mkExn "RuntimeError" ("Redis Streams support requires the 'redis' package. "
                +:+ "Install it with: pip install redis"))
    else Ok (ChooseStreams redis_url event_channel_prefix)
  else Raise (mkExn "ValueError" ("Unknown event_backend: " +:+ str_repr backend
              +:+ ". Must be one of: 'memory', 'redis', 'redis_streams'")).
