(* ===== verification/StreamsProps.v ===== *)
(** * Theorems about the Redis publishers

    For the subscribers of the process, the publisher over streams is the
    in-memory one fed with the events Redis accepted; the calls that only talk
    to Redis leave the subscribers alone. *)
From S2P Require Import Prelude PyStr PyDict PyVal Json Events Publisher Streams.

Create HintDb calm.

Section Refinement.
Context {W : Type} `{!RedisClient W}.
Context (iter : gset string → list string) (prefix instance_id : string) (time_str : Z → string).
Implicit Types p s : StreamPublisher W.
Implicit Types m l : InMemoryEventPublisher.

(** ** Calls that leave the subscribers alone *)

Definition calm {A} (c : M (StreamPublisher W) A) : Prop := ∀ p, st_local (c p).2 = st_local p.

Lemma calm_ret {A} (a : A) : calm (mret a).
Proof. done. Qed.

Lemma calm_bind {A B} (c : M (StreamPublisher W) A) (k : A → M (StreamPublisher W) B) :
  calm c → (∀ a, calm (k a)) → calm (c ≫= k).
Proof.
  intros Hc Hk p. specialize (Hc p). unfold mbind, M_bind. destruct (c p) as [[a|e] p']; [|done].
  rewrite Hk. exact Hc.
Qed.

Lemma calm_redis {A} (c : M W A) : calm (on_redis c).
Proof. intros p. unfold on_redis, zoom. by destruct (c (st_redis p)). Qed.

Lemma calm_attempt {A} (c : M (StreamPublisher W) A) : calm c → calm (attempt c).
Proof. intros Hc p. specialize (Hc p). unfold attempt. by destruct (c p). Qed.

Lemma calm_read {A} (f : StreamPublisher W → A) : calm (read f).
Proof. done. Qed.
Lemma calm_raise {A} e : calm (A:=A) (raise e).
Proof. done. Qed.
Lemma calm_connect : calm _ensure_connected.
Proof. done. Qed.
Lemma calm_keys f : calm (on_keys f).
Proof. done. Qed.

#[local] Hint Resolve calm_ret calm_redis calm_read calm_raise calm_connect calm_keys
  calm_attempt : calm.

Ltac go_calm :=
  repeat (apply calm_bind; [eauto with calm|intros ?]); repeat case_match; eauto with calm.

Lemma calm_create_groups g streams : calm (create_groups g streams).
Proof. induction streams as [|x xs IH]; cbn [create_groups]; go_calm. Qed.

Lemma calm_ensure_consumer_group t : calm (ensure_consumer_group iter prefix t).
Proof. unfold ensure_consumer_group. pose proof calm_create_groups. go_calm. Qed.

Lemma calm_read_messages t n b : calm (read_messages iter prefix instance_id t n b).
Proof. unfold read_messages. go_calm. Qed.

Lemma calm_acknowledge x i t : calm (acknowledge prefix x i t).
Proof. unfold acknowledge. go_calm. Qed.

Lemma calm_replay x t i n : calm (replay prefix x t i n).
Proof. unfold replay. go_calm. Qed.

Lemma calm_trim x n : calm (trim prefix x n).
Proof. unfold trim. go_calm. Qed.

(** ** Publishing *)

Definition strip (d : dict pyval) : dict pyval :=
  filter (λ kv, str_startswith "__" kv.1 = false) d.
Definition strip_item (i : queue_item) : queue_item :=
  match i with QEvent d => QEvent (strip d) | QEnd => QEnd end.

(** The stream's data is the event's dictionary and four fields of its own. *)
Lemma strip_data now e : strip (stream_data time_str now e) = ExecutionEvent_to_dict e.
Proof. reflexivity. Qed.

(** The same subscriptions, and the same queues up to those fields. *)
Definition same_local m l : Prop :=
  pub_subscribers l = pub_subscribers m
  ∧ map (map strip_item) (pub_queues l) = pub_queues m.

Lemma put_strip q i qs :
  map (map strip_item) (put_nowait q i qs) = put_nowait q (strip_item i) (map (map strip_item) qs).
Proof.
  unfold put_nowait. revert q. induction qs as [|items qs IH]; intros [|q]; [done|done| |].
  - change (map strip_item (items ++ [i]) :: map (map strip_item) qs
      = (map strip_item items ++ [strip_item i]) :: map (map strip_item) qs). by rewrite map_app.
  - change (map strip_item items :: map (map strip_item) (alter (λ x, x ++ [i]) q qs)
      = map strip_item items :: alter (λ x, x ++ [strip_item i]) q (map (map strip_item) qs)).
    by rewrite IH.
Qed.

Lemma puts_strip i j (f : nat * string → bool) subs qs : strip_item i = j →
  map (map strip_item) (foldl (λ qs x, if f x then put_nowait x.1 i qs else qs) qs subs)
  = foldl (λ qs x, if f x then put_nowait x.1 j qs else qs) (map (map strip_item) qs) subs.
Proof.
  intros Hij. revert qs. induction subs as [|x subs IH]; intros qs; [done|]. cbn [foldl].
  rewrite IH. by destruct (f x); [rewrite put_strip, Hij|].
Qed.

Lemma same_subs m l x : same_local m l → subs_of l x = subs_of m x.
Proof. intros [H _]. unfold subs_of. by rewrite H. Qed.

Lemma deliver_same m l now e : same_local m l →
  same_local (publish e m) (deliver (QEvent (stream_data time_str now e)) e l).
Proof.
  intros H. pose proof (same_subs m l (ev_execution_id e) H) as Hs. destruct H as [H1 H2].
  split; [done|]. cbn [deliver publish pub_queues]. rewrite Hs, <- H2.
  apply (puts_strip _ _ (λ x, tenant_match x.2 (ev_tenant_id e))). exact (f_equal QEvent (strip_data now e)).
Qed.

Lemma close_same m l x : same_local m l → same_local (pub_close x m) (pub_close x l).
Proof.
  intros H. pose proof (same_subs m l x H) as Hs. destruct H as [H1 H2]. split; cbn; [by rewrite H1|].
  rewrite Hs, <- H2. by apply (puts_strip _ _ (λ _, true)).
Qed.

Lemma subscribe_same m l x t : same_local m l →
  (subscribe x t l).1 = (subscribe x t m).1 ∧ same_local (subscribe x t m).2 (subscribe x t l).2.
Proof.
  intros H. pose proof (same_subs m l x H) as Hs. destruct H as [H1 H2].
  assert (length (pub_queues l) = length (pub_queues m)) as Hn by by rewrite <- H2, length_map.
  split; [exact Hn|]. split; cbn; [by rewrite Hs, H1, Hn|]. by rewrite map_app, H2.
Qed.

Lemma unsubscribe_same m l x q : same_local m l → same_local (unsubscribe x q m) (unsubscribe x q l).
Proof.
  intros H. pose proof (same_subs m l x H) as Hs. destruct H as [H1 H2].
  split; cbn; [by rewrite Hs, H1|done].
Qed.

Lemma close_each_local xs p :
  st_local (close_each prefix xs p).2 = foldl (λ l x, pub_close x l) (st_local p) xs.
Proof. revert p. induction xs as [|x xs IH]; intros p; [done|]. cbn [foldl]. exact (IH _). Qed.

Lemma close_fold_same xs m l : same_local m l →
  same_local (foldl (λ l x, pub_close x l) m xs) (foldl (λ l x, pub_close x l) l xs).
Proof. revert m l. induction xs as [|x xs IH]; intros m l H; [done|]. by apply IH, close_same. Qed.

(** A publish either fails in Redis and delivers nothing, or delivers. *)
Lemma stream_publish_local now e p :
  match (stream_publish prefix time_str now e p).1 with
  | Ok _ => st_local (stream_publish prefix time_str now e p).2
            = deliver (QEvent (stream_data time_str now e)) e (st_local p)
  | Raise _ => st_local (stream_publish prefix time_str now e p).2 = st_local p
  end.
Proof.
  unfold stream_publish, _ensure_connected, on_redis, on_keys, on_local, zoom. m_unfold. cbn.
  by destruct (xadd _ _ _ _) as [[[]|ex] w].
Qed.

(** ** The refinement *)

(** The two publishers side by side: the in-memory one receives the events Redis
    accepted. *)
Inductive pair_step : InMemoryEventPublisher * StreamPublisher W →
    InMemoryEventPublisher * StreamPublisher W → Prop :=
| pair_subscribe m p x t : pair_step (m, p) ((subscribe x t m).2, (stream_subscribe x t p).2)
| pair_unsubscribe m p x q : pair_step (m, p) (unsubscribe x q m, (stream_unsubscribe x q p).2)
| pair_published m p now e :
    (stream_publish prefix time_str now e p).1 = Ok tt →
    pair_step (m, p) (publish e m, (stream_publish prefix time_str now e p).2)
| pair_rejected m p now e ex :
    (stream_publish prefix time_str now e p).1 = Raise ex →
    pair_step (m, p) (m, (stream_publish prefix time_str now e p).2)
| pair_close m p x : pair_step (m, p) (pub_close x m, (stream_close prefix x p).2)
| pair_close_all m p : pair_step (m, p) (close_all m, (stream_close_all prefix p).2)
| pair_group m p t : pair_step (m, p) (m, (ensure_consumer_group iter prefix t p).2)
| pair_read m p t n b : pair_step (m, p) (m, (read_messages iter prefix instance_id t n b p).2)
| pair_ack m p x i t : pair_step (m, p) (m, (acknowledge prefix x i t p).2)
| pair_replay m p x t i n : pair_step (m, p) (m, (replay prefix x t i n p).2)
| pair_trim m p x n : pair_step (m, p) (m, (trim prefix x n p).2).

Lemma pair_step_same a b : same_local a.1 (st_local a.2) → pair_step a b → same_local b.1 (st_local b.2).
Proof.
  intros H Hs. destruct Hs as [m p x t|m p x q|m p now e Hok|m p now e ex Hno|m p x|m p|m p t|m p t n b|m p x i t
    |m p x t i n|m p x n]; cbn [fst snd] in *.
  - destruct (subscribe_same m (st_local p) x t H) as [_ Hs]. unfold stream_subscribe.
    by destruct (subscribe x t (st_local p)).
  - by apply unsubscribe_same.
  - pose proof (stream_publish_local now e p) as Hl. rewrite Hok in Hl. rewrite Hl. by apply deliver_same.
  - pose proof (stream_publish_local now e p) as Hl. rewrite Hno in Hl. by rewrite Hl.
  - by apply close_same.
  - change (st_local (stream_close_all prefix p).2)
      with (st_local (close_each prefix (active_executions (st_local p)) p).2).
    rewrite close_each_local. unfold close_all, active_executions. rewrite (proj1 H).
    by apply close_fold_same.
  - by rewrite calm_ensure_consumer_group.
  - by rewrite calm_read_messages.
  - by rewrite calm_acknowledge.
  - by rewrite calm_replay.
  - by rewrite calm_trim.
Qed.

(** C38: for the subscribers of the process the publisher over Redis streams
    implements the in-memory publisher, whatever the Redis client answers or
    raises: after any calls, group, read, replay and trim calls included, it has
    the same subscriptions, active executions and counts, and each queue holds
    the same items as the in-memory queue that received just the events Redis
    accepted, but for the four fields the stream adds. *)
Theorem streams_refine_memory w m p :
  star pair_step (InMemoryEventPublisher_new, RedisStreamPublisher_new w) (m, p) →
  map (map strip_item) (pub_queues (st_local p)) = pub_queues m
  ∧ active_executions (st_local p) = active_executions m
  ∧ ∀ x, subs_of (st_local p) x = subs_of m x
      ∧ subscriber_count (st_local p) x = subscriber_count m x.
Proof.
  intros Hs. assert (same_local m (st_local p)) as H.
  { by apply (star_invariant pair_step (λ a, same_local a.1 (st_local a.2))) in Hs;
      [|apply pair_step_same|]. }
  split; [apply H|]. split; [unfold active_executions; by rewrite (proj1 H)|].
  intros x. unfold subscriber_count. by rewrite (same_subs m _ x H).
Qed.

(** ** Both implement the protocol *)

Lemma stream_data_carries now e : carries e (stream_data time_str now e).
Proof.
  intros k v Hk. unfold stream_data. rewrite !dict_get_set.
  repeat (case_decide; [subst k; vm_compute in Hk; discriminate|]). exact Hk.
Qed.

Lemma stream_laws (time : W → Z) :
  PublisherLaws (StreamPublisher W) (EventPublisher0 := stream_publisher prefix time_str time).
Proof.
  split; try done; try (by intros; eexists).
  - intros e p. cbn [ep_publish stream_publisher]. unfold mbind, M_bind, read.
    pose proof (stream_publish_local (time (st_redis p)) e p) as Hl.
    destruct (stream_publish _ _ _ e p) as [[]]; [|done].
    eexists. split; [apply stream_data_carries|exact Hl].
  - intros p. cbn [ep_close_all stream_publisher].
    assert (∃ p', close_each prefix (active_executions (st_local p)) p = (Ok tt, p')) as (p' & Hp').
    { generalize (active_executions (st_local p)). intros xs. clear. revert p.
      induction xs as [|x xs IH]; intros p; [by exists p|]. exact (IH _). }
    exists p'. split; [exact Hp'|]. cbn [ep_local stream_publisher].
    pose proof (close_each_local (active_executions (st_local p)) p) as Hc. by rewrite Hp' in Hc.
Qed.

(** The client's documentation: a field that is a dictionary cannot be encoded. *)
Definition rejects_dicts : Prop := ∀ stream d n w k v,
  dict_get k d = Some (VDict v) → is_ok (xadd stream d n w).1 = false.

(** Every event has a dictionary for payload, so no event is ever published. *)
Lemma stream_publish_rejected now e p : rejects_dicts →
  is_ok (stream_publish prefix time_str now e p).1 = false
  ∧ st_local (stream_publish prefix time_str now e p).2 = st_local p.
Proof.
  intros Hrej. unfold stream_publish, _ensure_connected, on_redis, on_keys, on_local, zoom.
  m_unfold. cbn -[stream_data].
  pose proof (Hrej (_stream_key prefix (ev_execution_id e)) (stream_data time_str now e) 10000%nat
    (st_redis p) "payload" (ev_payload e) eq_refl) as Hx.
  by destruct (xadd _ _ _ _) as [[[]|ex] w].
Qed.

(** The tenant given to [replay] plays no part. *)
Lemma replay_any_tenant x t t' i n p : replay prefix x t i n p = replay prefix x t' i n p.
Proof. reflexivity. Qed.

(** A tenant called [default] shares the group of events without a tenant. *)
Lemma default_group_shared : _group_name prefix "default" = _group_name prefix ε.
Proof. reflexivity. Qed.
End Refinement.

Lemma pubsub_laws {W} `{!RedisClient W} (channel_prefix : string) (float_repr : Q → string) :
  PublisherLaws (RedisEventPublisher W) (EventPublisher0 := redis_publisher channel_prefix float_repr).
Proof.
  split; try done; try (by intros; eexists).
  intros e p. cbn [ep_publish redis_publisher]. unfold pubsub_publish, pubsub_connect, on_pubsub_local, zoom.
  m_unfold. cbn -[json_text]. destruct (redis_publish _ _ _) as [[[]|ex] w]; cbn; [|done].
  exists (ExecutionEvent_to_dict e). split; [by intros k v|done].
Qed.

(** A client that answers every call, with nothing to read. *)
Definition demo_client : RedisClient unit := {|
  redis_publish _ _ := mret tt;
  xadd _ _ _ := mret tt;
  xgroup_create _ _ := mret tt;
  xreadgroup _ _ _ _ _ := mret (Some [Pair (Some "s") (Some [("1-0", [])]); NotAPair; Pair None None]);
  xack _ _ _ := mret tt;
  xrange _ _ _ _ := mret None;
  xtrim _ _ := mret tt
|}.

Lemma streams_refine_memory_witness :
  let p := (@stream_publish unit demo_client "k" (λ _, "0") 0 demo_event
             (stream_subscribe "x" "t1" (RedisStreamPublisher_new tt)).2).2 in
  length (mjoin (pub_queues (st_local p))) = 1%nat
  ∧ map (map strip_item) (pub_queues (st_local p)) = [[QEvent (ExecutionEvent_to_dict demo_event)]].
Proof.
  intros p. split; [vm_compute; reflexivity|].
  refine (proj1 (@streams_refine_memory unit demo_client elements "k" "i" (λ _, "0") tt
    (publish demo_event (subscribe "x" "t1" InMemoryEventPublisher_new).2) p _)).
  eapply star_step; [apply (pair_subscribe _ _ _ _ _ _ "x" "t1")|].
  apply star_one. by apply pair_published.
Defined.

(** What a consumer reads, the malformed items of an answer left out. *)
Example demo_read :
  (@read_messages unit demo_client elements "k" "i" "t" 10 0 (RedisStreamPublisher_new tt)).1
  = Ok [mkMessage "s" "1-0" []].
Proof. vm_compute. reflexivity. Qed.

Example demo_factory :
  create_event_publisher true "MEMORY" ε "k" = Ok ChooseMemory
  ∧ create_event_publisher true "streams" "redis://r" "k" = Ok (ChooseStreams "redis://r" "k")
  ∧ is_ok (create_event_publisher true "redis" ε "k") = false
  ∧ is_ok (create_event_publisher true "kafka" "u" "k") = false.
Proof. vm_compute. done. Qed.
