(* ===== verification/Adapters.v ===== *)
(** * The AI gateway: model adapters, the adapter registry, the MCP adapter
    ([ai_gateway], [agents/tools/mcp])

    The HTTP client and the MCP client are third-party or unimplemented: classes
    over an arbitrary state, any call of which may raise. A response is what the
    code reads of it: its status, whether [raise_for_status] raises, and its
    JSON. A stream is the lines received and, if the connection broke, the
    error; a generator is the chunks it yields and how it ends. Identifiers and
    times are streams indexed by a counter. A [datetime] in an answer is its
    text. The four model adapters import a name its module does not define;
    their bodies are modelled as they are written. *)
From S2P Require Import Prelude PyStr PyDict PyVal PyText Json.

(** ** Values read from JSON *)

Definition AttributeError (v : pyval) (attr : string) : exn :=
  mkExn "AttributeError" ("'" +:+ type_name v +:+ "' object has no attribute '" +:+ attr +:+ "'").

(** [v.get(key, dflt)] *)
Definition py_get (key : string) (dflt v : pyval) : outcome pyval :=
  match v with
  | VDict d => Ok (dict_get_or dflt key d)
  | _ => Raise (AttributeError v "get")
  end.

(** [v[key]] and [v[0]] *)
Definition py_item (key : string) (v : pyval) : outcome pyval :=
  match v with
  | VDict d =>
      match dict_get key d with
      | Some w => Ok w
      | None => Raise (mkExn "KeyError" (str_repr key))
      end
  | VList _ | VStr _ => Raise (TypeError (type_name v +:+ " indices must be integers"))
  | _ => Raise (TypeError ("'" +:+ type_name v +:+ "' object is not subscriptable"))
  end.
Definition py_first (v : pyval) : outcome pyval :=
  match v with
  | VList (x :: _) => Ok x
  | VList [] => Raise (mkExn "IndexError" "list index out of range")
  | VStr (String c _) => Ok (VStr (String c ε))
  | VStr ε => Raise (mkExn "IndexError" "string index out of range")
  | VDict _ => Raise (mkExn "KeyError" "0")
  | _ => Raise (TypeError ("'" +:+ type_name v +:+ "' object is not subscriptable"))
  end.

(** [len(v)] *)
Definition py_len (v : pyval) : outcome Z :=
  match v with
  | VStr s => Ok (Z.of_nat (str_len s))
  | VList l => Ok (Z.of_nat (length l))
  | VDict d => Ok (Z.of_nat (length d))
  | _ => Raise (TypeError ("object of type '" +:+ type_name v +:+ "' has no len()"))
  end.

(** ["".join(f(x) for x in l)] *)
Fixpoint join_texts (f : pyval → outcome pyval) (l : list pyval) : outcome string :=
  match l with
  | [] => Ok ε
  | x :: l' =>
      t ← f x;
      match t with
      | VStr s => rest ← join_texts f l'; mret (s +:+ rest)
      | _ => Raise (TypeError ("expected str instance, " +:+ type_name t +:+ " found"))
      end
  end.

(** ** The gateway's data ([ai_gateway/domain]) *)

Inductive AdapterStatus := AS_UNKNOWN | AS_ACTIVE | AS_DEPRECATED | AS_RETIRED | AS_ERROR.
Definition AdapterStatus_value (s : AdapterStatus) : string :=
  match s with
  | AS_UNKNOWN => "unknown" | AS_ACTIVE => "active" | AS_DEPRECATED => "deprecated"
  | AS_RETIRED => "retired" | AS_ERROR => "error"
  end.

Record AdapterMetadata := mkAdapterMeta {
  amd_adapter_id : string;
  amd_name : string;
  amd_version : string;
  amd_capabilities : list string;
  amd_provider : string;
  amd_status : AdapterStatus;
  amd_config_schema : dict pyval;
  amd_description : string
}.

Record Cost := mkCost { co_amount : Q; co_currency : string; co_details : dict pyval }.
(** [Cost(amount, currency, details)]: absent details are the empty dictionary. *)
Definition Cost_new (amount : Q) (currency : string) (details : option (dict pyval)) : Cost :=
  mkCost amount currency (default [] details).

Record GatewayRequest := mkGwRequest {
  gq_capability : string;
  gq_payload : dict pyval;
  gq_metadata : dict pyval;
  gq_tenant_id : string;
  gq_trace_id : string;
  gq_request_id : string
}.

Record UsageRecord := mkUsage {
  ur_capability : string;
  ur_adapter_id : string;
  ur_timestamp : string;
  ur_input_units : Z;
  ur_output_units : Z;
  ur_cost : option Q;
  ur_provider_id : string;
  ur_tenant_id : string;
  ur_trace_id : string;
  ur_request_id : string;
  ur_metadata : dict pyval
}.

Record GatewayResponse := mkGwResponse {
  gr_success : bool;
  gr_result : option (dict pyval);
  gr_error : option string;
  gr_usage : option UsageRecord;
  gr_trace : dict pyval;
  gr_timestamp : string
}.

(** ** The adapter registry ([ai_gateway/registry/adapter_registry.py]) *)

Section AdapterRegistry.
Context {A : Type}.
(** [getattr(adapter, "metadata", {})] *)
Variable metadata_of : A → option (dict pyval).

Definition AdapterRegistry : Type := dict A.
Definition AdapterRegistry_new : AdapterRegistry := [].

Definition adapter_id_of (adapter : A) : string :=
  match dict_get "adapter_id" (default [] (metadata_of adapter)) with
  | Some (VStr s) => s
  | _ => ε
  end.

Definition adapter_register (adapter : A) : M AdapterRegistry unit :=
  if negb (truthy (adapter_id_of adapter))
  then raise (mkExn "ValueError" "Adapter must have metadata with adapter_id")
  else modify (dict_set (adapter_id_of adapter) adapter).

Definition adapter_unregister (adapter_id : string) : M AdapterRegistry unit :=
  modify (dict_del adapter_id).

Definition adapter_get (r : AdapterRegistry) (adapter_id : string) : option A := dict_get adapter_id r.
Definition adapter_list (r : AdapterRegistry) : list A := dict_values r.
End AdapterRegistry.

(** ** Chunks of a stream ([core/domain/runtime_event.py]) *)

Record StreamChunk := mkChunk {
  sc_content : pyval;
  sc_finish_reason : option string;
  sc_metadata : option (dict pyval)
}.
Definition text_chunk (v : pyval) : StreamChunk := mkChunk v None None.
Definition stop_chunk : StreamChunk := mkChunk VNone (Some "stop") None.

(** What a generator does. *)
Definition generated : Type := list StreamChunk * outcome unit.

(** ** Server-sent events

    The three stream functions read lines the same way: blank lines and comments
    are skipped, [data: ] is taken off, and text that is not JSON is skipped. *)
Definition sse_text (line : string) : option string :=
  if negb (truthy (str_strip line)) || str_startswith ":" line then None
  else Some (if str_startswith "data: " line then str_drop 6 line else line).

(** [on_chunk]: the chunks an event yields, and whether the function then goes
    on ([Ok false]), returns ([Ok true]) or raises; [is_done]: the end mark. *)
Fixpoint sse_loop (is_done : string → bool) (on_chunk : pyval → list StreamChunk * outcome bool)
    (lines : list string) : generated :=
  match lines with
  | [] => ([], Ok tt)
  | line :: lines' =>
      match sse_text line with
      | None => sse_loop is_done on_chunk lines'
      | Some text =>
          if is_done text then ([stop_chunk], Ok tt)
          else match json_loads text with
          | None => sse_loop is_done on_chunk lines'
          | Some chunk =>
              match on_chunk chunk with
              | (cs, Ok false) =>
                  let '(rest, o) := sse_loop is_done on_chunk lines' in (cs ++ rest, o)
              | (cs, Ok true) => (cs, Ok tt)
              | (cs, Raise e) => (cs, Raise e)
              end
          end
      end
  end.

(** One value, when there is one. *)
Definition yield_value (o : outcome (option pyval)) : list StreamChunk * outcome bool :=
  match o with
  | Ok (Some v) => ([text_chunk v], Ok false)
  | Ok None => ([], Ok false)
  | Raise e => ([], Raise e)
  end.

Definition when_truthy (v : pyval) : option pyval := if py_truth v then Some v else None.

(** [_stream_openai] *)
Definition openai_chunk (chunk : pyval) : list StreamChunk * outcome bool :=
  yield_value
    (choices ← py_get "choices" (VList [VDict []]) chunk;
     first ← py_first choices;
     delta ← py_get "delta" (VDict []) first;
     content ← py_get "content" VNone delta;
     mret (when_truthy content)).
Definition openai_lines : list string → generated :=
  sse_loop (λ text, bool_decide (str_strip text = "[DONE]")) openai_chunk.

(** [_stream_anthropic] *)
Definition anthropic_chunk (chunk : pyval) : list StreamChunk * outcome bool :=
  match py_get "type" VNone chunk with
  | Raise e => ([], Raise e)
  | Ok t =>
      if decide (t = VStr "content_block_delta") then
        yield_value
          (delta ← py_get "delta" (VDict []) chunk;
           text ← py_get "text" (VStr ε) delta;
           mret (when_truthy text))
      else if decide (t = VStr "message_stop") then ([stop_chunk], Ok true)
      else ([], Ok false)
  end.
Definition anthropic_lines : list string → generated := sse_loop (λ _, false) anthropic_chunk.

(** [_stream_gemini] *)
Fixpoint gemini_parts (parts : list pyval) : list StreamChunk * outcome bool :=
  match parts with
  | [] => ([], Ok false)
  | p :: parts' =>
      match py_get "text" (VStr ε) p with
      | Raise e => ([], Raise e)
      | Ok text =>
          let '(cs, o) := gemini_parts parts' in
          (option_list (text_chunk <$> when_truthy text) ++ cs, o)
      end
  end.
Definition gemini_chunk (chunk : pyval) : list StreamChunk * outcome bool :=
  match (candidates ← py_get "candidates" (VList []) chunk;
         if negb (py_truth candidates) then mret []
         else
           first ← py_first candidates;
           content ← py_get "content" (VDict []) first;
           parts ← py_get "parts" (VList []) content;
           py_iter parts) with
  | Raise e => ([], Raise e)
  | Ok parts => gemini_parts parts
  end.
Definition gemini_lines : list string → generated := sse_loop (λ _, false) gemini_chunk.

(** ** The HTTP client *)

Record response := mkResponse {
  rp_status_code : Z;
  rp_raise_for_status : outcome unit;
  rp_json : outcome pyval
}.

Class HttpClient (W : Type) := {
  http_post : string → dict string → dict string → pyval → M W response;
  http_get : string → dict string → dict string → M W response;
  http_stream : string → dict string → dict string → pyval → M W (list string * outcome unit * outcome unit)
}.

Section Calls.
Context {W : Type} `{!HttpClient W}.

(** [usage.get(key, len(v))]: the length is computed even when it is not used. *)
Definition units (key : string) (v usage : pyval) : outcome pyval :=
  n ← py_len v; py_get key (VInt n) usage.

Definition chat_messages (prompt : pyval) : pyval :=
  VList [VDict [("role", VStr "user"); ("content", prompt)]].

Definition openai_headers (api_key : string) : dict string :=
  [("Authorization", "Bearer " +:+ api_key); ("Content-Type", "application/json")].

Definition _call_openai (prompt : pyval) (model api_key base_url : string) : M W (pyval * pyval * pyval) :=
  response ← http_post (base_url +:+ "/chat/completions") (openai_headers api_key) []
    (VDict [("model", VStr model); ("messages", chat_messages prompt)]);
  of_outcome
    (_ ← rp_raise_for_status response;
     data ← rp_json response;
     choices ← py_item "choices" data;
     choice ← py_first choices;
     message ← py_item "message" choice;
     text ← py_item "content" message;
     usage ← py_get "usage" (VDict []) data;
     input ← units "prompt_tokens" prompt usage;
     output ← units "completion_tokens" text usage;
     mret (text, input, output)).

Definition anthropic_headers (api_key : string) : dict string :=
  [("x-api-key", api_key); ("anthropic-version", "2023-06-01"); ("Content-Type", "application/json")].

Definition _call_anthropic (prompt : pyval) (model api_key base_url : string) : M W (pyval * pyval * pyval) :=
  response ← http_post (base_url +:+ "/messages") (anthropic_headers api_key) []
    (VDict [("model", VStr model); ("max_tokens", VInt 4096); ("messages", chat_messages prompt)]);
  of_outcome
    (_ ← rp_raise_for_status response;
     data ← rp_json response;
     content ← py_get "content" (VList []) data;
     blocks ← py_iter content;
     text ← join_texts (py_get "text" (VStr ε)) blocks;
     usage ← py_get "usage" (VDict []) data;
     input ← units "input_tokens" prompt usage;
     output ← units "output_tokens" (VStr text) usage;
     mret (VStr text, input, output)).

Definition gemini_contents (prompt : pyval) : pyval :=
  VDict [("contents", VList [VDict [("parts", VList [VDict [("text", prompt)]])]])].

Definition _call_gemini (prompt : pyval) (model api_key base_url : string) : M W (pyval * pyval * pyval) :=
  response ← http_post (base_url +:+ "/models/" +:+ model +:+ ":generateContent") []
    [("key", api_key)] (gemini_contents prompt);
  of_outcome
    (_ ← rp_raise_for_status response;
     data ← rp_json response;
     candidates ← py_get "candidates" (VList []) data;
     text ← (if negb (py_truth candidates) then mret ε
             else
               first ← py_first candidates;
               content ← py_get "content" (VDict []) first;
               parts ← py_get "parts" (VList []) content;
               parts ← py_iter parts;
               join_texts (py_get "text" (VStr ε)) parts);
     usage ← py_get "usageMetadata" (VDict []) data;
     input ← units "promptTokenCount" prompt usage;
     output ← units "candidatesTokenCount" (VStr text) usage;
     mret (VStr text, input, output)).

(** A stream: what the lines give, then the error of a connection that broke
    unless the function had returned. *)
Definition read_stream (parse : list string → generated) (lines : list string) (ended : outcome unit)
    : generated :=
  match parse lines with
  | (cs, Ok _) =>
      if existsb (λ c, bool_decide (sc_finish_reason c = Some "stop")) cs then (cs, Ok tt) else (cs, ended)
  | r => r
  end.

Definition stream_with (parse : list string → generated) (request : M W (list string * outcome unit * outcome unit))
    : M W generated := λ w,
  match request w with
  | (Raise e, w') => (Ok ([], Raise e), w')
  | (Ok (lines, status, ended), w') =>
      (Ok (match status with Raise e => ([], Raise e) | Ok _ => read_stream parse lines ended end), w')
  end.

Definition _stream_openai (prompt : pyval) (model api_key base_url : string) : M W generated :=
  stream_with openai_lines
    (http_stream (base_url +:+ "/chat/completions") (openai_headers api_key) []
       (VDict [("model", VStr model); ("messages", chat_messages prompt); ("stream", VBool true)])).

Definition _stream_anthropic (prompt : pyval) (model api_key base_url : string) : M W generated :=
  stream_with anthropic_lines
    (http_stream (base_url +:+ "/messages") (anthropic_headers api_key) []
       (VDict [("model", VStr model); ("max_tokens", VInt 4096); ("messages", chat_messages prompt);
               ("stream", VBool true)])).

Definition _stream_gemini (prompt : pyval) (model api_key base_url : string) : M W generated :=
  stream_with gemini_lines
    (http_stream (base_url +:+ "/models/" +:+ model +:+ ":streamGenerateContent") []
       [("key", api_key); ("alt", "sse")] (gemini_contents prompt)).

(** ** The adapters ([ai_gateway/adapters])

    The state counts the identifiers and times taken. *)

Record GatewayWorld := mkGwWorld { gw_client : W; gw_ticks : nat }.

Variable uuid12 : nat → string.
Variable now_str : nat → string.
Variable float_repr : Q → string.

Definition gw_tick : M GatewayWorld nat := λ s, (Ok (gw_ticks s), mkGwWorld (gw_client s) (S (gw_ticks s))).
Definition on_client {A} (m : M W A) : M GatewayWorld A :=
  zoom gw_client (λ w s, mkGwWorld w (gw_ticks s)) m.

Record ModelAdapter := mkModelAdapter {
  mo_model_name : string;
  mo_api_key : string;
  mo_base_url : string
}.

(** [base_url.rstrip("/")] *)
Fixpoint str_rstrip_slash (s : string) : string :=
  match s with
  | ε => ε
  | String c s' =>
      match str_rstrip_slash s' with
      | ε => if decide (String c ε = "/") then ε else String c ε
      | t => String c t
      end
  end.

Definition ModelAdapter_new (model_name api_key base_url : string) : ModelAdapter :=
  mkModelAdapter model_name api_key (str_rstrip_slash base_url).

Definition adapter_metadata (adapter_id name provider : string) (capabilities : list string) : dict pyval :=
  [ ("adapter_id", VStr adapter_id); ("name", VStr name); ("version", VStr "1.0");
    ("capabilities", VList (map VStr capabilities)); ("provider", VStr provider) ].

Definition openai_capabilities : list string :=
  ["model.text.generate"; "model.code.generate"; "model.embed.create"].
Definition anthropic_capabilities : list string :=
  ["model.text.generate"; "model.code.generate"; "model.reasoning"].
Definition gemini_capabilities : list string :=
  ["model.text.generate"; "model.code.generate"; "model.vision"].
Definition local_capabilities : list string := ["model.text.generate"; "model.code.generate"].

Definition openai_metadata : dict pyval :=
  adapter_metadata "openai" "OpenAI GPT" "openai" openai_capabilities.
Definition anthropic_metadata : dict pyval :=
  adapter_metadata "anthropic" "Anthropic Claude" "anthropic" anthropic_capabilities.
Definition local_metadata : dict pyval :=
  adapter_metadata "local" "Local LLM" "local" local_capabilities.

(** [required.issubset(frozenset(self._metadata["capabilities"]))] *)
Definition adapter_supports (capabilities : list string) (required : gset string) : bool :=
  bool_decide (required ⊆ list_to_set capabilities).

(** [request.get("payload", {}).get("prompt", "")] *)
Definition request_prompt (request : dict pyval) : outcome pyval :=
  py_get "prompt" (VStr ε) (dict_get_or (VDict []) "payload" request).

Definition adapter_failure (e : exn) : dict pyval :=
  [("success", VBool false); ("error", VStr (exn_str e))].

Definition usage_dict (adapter_id timestamp : string) (input output : pyval) (provider : string) : dict pyval :=
  [ ("capability", VStr "chat.generate"); ("adapter_id", VStr adapter_id);
    ("timestamp", VStr timestamp); ("input_units", input); ("output_units", output);
    ("cost", VNone); ("provider_id", VStr provider) ].

Definition adapter_success (adapter_id provider model : string) (text input output : pyval)
    (request_id trace_id timestamp : string) : dict pyval :=
  [ ("success", VBool true);
    ("result", VDict
      [ ("text", text); ("model", VStr model); ("provider", VStr provider);
        ("request_id", VStr request_id); ("finish_reason", VStr "stop");
        ("execution", VDict [("runtime", VStr adapter_id); ("device", VStr ε); ("memory_mb", VInt 0)]);
        ("billing", VDict [("input_units", input); ("output_units", output)]);
        ("trace", VDict [("request_id", VStr trace_id)]) ]);
    ("usage", VDict (usage_dict adapter_id timestamp input output provider)) ].

(** The body the two adapters share; [call] is what [self._call_...] evaluates to. *)
Definition execute_with (adapter_id provider : string) (a : ModelAdapter)
    (call : outcome (pyval → string → string → string → M W (pyval * pyval * pyval)))
    (request : dict pyval) : M GatewayWorld (dict pyval) :=
  prompt ← of_outcome (request_prompt request);
  n ← gw_tick;
  r ← attempt
    (f ← of_outcome call;
     on_client (f prompt (mo_model_name a) (mo_api_key a) (mo_base_url a)));
  match (r : outcome (pyval * pyval * pyval)) with
  | Ok (text, input, output) =>
      k ← gw_tick;
      mret (adapter_success adapter_id provider (mo_model_name a) text input output
              (uuid12 n) (uuid12 k) (now_str k))
  | Raise e => mret (adapter_failure e)
  end.

Definition stream_method (call : outcome (pyval → string → string → string → M W generated))
    (a : ModelAdapter) (request : dict pyval) : M GatewayWorld generated :=
  match (prompt ← request_prompt request; f ← call; mret (prompt, f)) with
  | Raise e => mret ([], Raise e)
  | Ok (prompt, f) => on_client (f prompt (mo_model_name a) (mo_api_key a) (mo_base_url a))
  end.

(** [self.name] of an object whose class has no such attribute: the functions
    are module functions and not methods. *)
Definition no_attribute {A} (cls name : string) : outcome A :=
  Raise (mkExn "AttributeError" ("'" +:+ cls +:+ "' object has no attribute '" +:+ name +:+ "'")).

Definition openai_execute : ModelAdapter → dict pyval → M GatewayWorld (dict pyval) := λ a,
  execute_with "openai" "openai" a (no_attribute "OpenAIAdapter" "_call_openai").
Definition openai_execute_stream : ModelAdapter → dict pyval → M GatewayWorld generated :=
  stream_method (no_attribute "OpenAIAdapter" "_stream_openai").
Definition anthropic_execute : ModelAdapter → dict pyval → M GatewayWorld (dict pyval) := λ a,
  execute_with "anthropic" "anthropic" a (no_attribute "AnthropicAdapter" "_call_anthropic").
Definition anthropic_execute_stream : ModelAdapter → dict pyval → M GatewayWorld generated :=
  stream_method (no_attribute "AnthropicAdapter" "_stream_anthropic").

(** [GeminiAdapter(...)]: the attributes are properties without a setter. *)
Definition GeminiAdapter_new (model_name api_key base_url : string) : outcome ModelAdapter :=
  Raise (mkExn "AttributeError" "property '_model_name' of 'GeminiAdapter' object has no setter").

(** The bodies of its methods, for an object made without the constructor:
    the properties answer with constants. *)
Definition gemini_properties : ModelAdapter :=
  mkModelAdapter "gemini-2.0-flash" ε "https://generativelanguage.googleapis.com/v1beta".

Definition gemini_execute (request : dict pyval) : M GatewayWorld (dict pyval) :=
  prompt ← of_outcome (request_prompt request);
  _ ← gw_tick;
  let a := gemini_properties in
  r ← attempt (on_client (_call_gemini prompt (mo_model_name a) (mo_api_key a) (mo_base_url a)));
  match (r : outcome (pyval * pyval * pyval)) with
  | Ok (text, input, output) =>
      k ← gw_tick;
      l ← gw_tick;
      mret (adapter_success "gemini" "google" (mo_model_name a) text input output
              (uuid12 k) (uuid12 l) (now_str l))
  | Raise e => mret (adapter_failure e)
  end.

Definition gemini_execute_stream : dict pyval → M GatewayWorld generated :=
  stream_method (no_attribute "GeminiAdapter" "_stream_gemini") gemini_properties.

(** [health_check]: a status other than 200 is an answer, an error too. *)
Definition health_with (provider : string) (a : ModelAdapter) (headers params : dict string)
    : M GatewayWorld (dict pyval) :=
  r ← attempt (on_client (http_get (mo_base_url a +:+ "/models") headers params));
  mret match (r : outcome response) with
  | Ok response =>
      [ ("healthy", VBool (rp_status_code response =? 200)%Z); ("provider", VStr provider);
        ("model", VStr (mo_model_name a));
        ("details", VDict [("status_code", VInt (rp_status_code response))]) ]
  | Raise e =>
      [ ("healthy", VBool false); ("provider", VStr provider);
        ("details", VDict [("error", VStr (exn_str e))]) ]
  end.

Definition openai_health_check (a : ModelAdapter) : M GatewayWorld (dict pyval) :=
  health_with "openai" a [("Authorization", "Bearer " +:+ mo_api_key a)] [].
Definition anthropic_health_check (a : ModelAdapter) : M GatewayWorld (dict pyval) :=
  health_with "anthropic" a [("x-api-key", mo_api_key a)] [].
Definition gemini_health_check : M GatewayWorld (dict pyval) :=
  health_with "google" gemini_properties [] [("key", mo_api_key gemini_properties)].

(** ** The local adapter ([ai_gateway/adapters/local.py]) *)

(** [f"Local response to: {prompt[:50]}..."] *)
Definition local_text (prompt : pyval) : outcome string :=
  cut ← match prompt with
        | VStr s => Ok (str_take 50 s)
        | VList l => Ok (py_repr float_repr (VList (take 50 l)))
        | VDict _ => Raise (mkExn "KeyError" "slice(None, 50, None)")
        | _ => Raise (TypeError ("'" +:+ type_name prompt +:+ "' object is not subscriptable"))
        end;
  mret ("Local response to: " +:+ cut +:+ "...").

Definition local_execute (request : dict pyval) : M GatewayWorld (dict pyval) :=
  prompt ← of_outcome (request_prompt request);
  _ ← gw_tick;
  text ← of_outcome (local_text prompt);
  n ← gw_tick;
  len ← of_outcome (py_len prompt);
  k ← gw_tick;
  mret [ ("success", VBool true);
         ("result", VDict
           [ ("text", VStr text); ("request_id", VStr (uuid12 n)); ("finish_reason", VStr "stop");
             ("execution", VDict [("runtime", VStr "local"); ("device", VStr "cpu"); ("memory_mb", VInt 0)]);
             ("billing", VDict [("input_units", VInt len); ("output_units", VInt 50)]);
             ("trace", VDict [("request_id", VStr (uuid12 k))]) ]);
         ("usage", VDict (usage_dict "local" (now_str k) (VInt len) (VInt 50) "local")) ].

(** [[text[i:i+10] for i in range(0, len(text), 10)]] *)
Fixpoint pieces (fuel : nat) (s : string) : list string :=
  match fuel with
  | 0%nat => []
  | S fuel => if truthy s then str_take 10 s :: pieces fuel (str_drop 10 s) else []
  end.

Definition local_execute_stream (request : dict pyval) : generated :=
  match (prompt ← request_prompt request; local_text prompt) with
  | Raise e => ([], Raise e)
  | Ok text =>
      (map (λ t, text_chunk (VStr t)) (pieces (str_len text) text) ++ [stop_chunk], Ok tt)
  end.

Definition local_health_check (a : ModelAdapter) : dict pyval :=
  [("healthy", VBool true); ("provider", VStr "local"); ("model", VStr (mo_model_name a))].
End Calls.

(** ** The MCP adapter ([agents/tools/mcp/mcp_adapter.py]) *)

Class MCPClient (W : Type) := {
  call_tool : string → dict pyval → M W (dict pyval);
  get_server_info : M W pyval
}.

Section MCP.
Context {W : Type} `{!MCPClient W}.
(** [datetime.now()], read once in a call. *)
Variable now : string.
Variable float_repr : Q → string.
Implicit Types m : AdapterMetadata.

Definition mcp_metadata m : dict pyval :=
  [ ("adapter_id", VStr (amd_adapter_id m)); ("name", VStr (amd_name m));
    ("version", VStr (amd_version m)); ("capabilities", VList (map VStr (amd_capabilities m)));
    ("provider", VStr (amd_provider m)); ("status", VStr (AdapterStatus_value (amd_status m))) ].

Definition mcp_execute m (request : GatewayRequest) : M W (dict pyval) :=
  result ← call_tool (gq_capability request) (gq_payload request);
  mret [ ("success", VBool true); ("result", VDict result);
         ("usage", VDict
           [ ("capability", VStr (gq_capability request)); ("adapter_id", VStr (amd_adapter_id m));
             ("timestamp", VStr now);
             ("input_units", dict_get_or (VInt 0) "input_units" result);
             ("output_units", dict_get_or (VInt 0) "output_units" result);
             ("cost", dict_get_or VNone "cost" result); ("provider_id", VStr (amd_provider m));
             ("tenant_id", dict_get_or VNone "tenant_id" (gq_metadata request));
             ("trace_id", dict_get_or VNone "trace_id" (gq_metadata request));
             ("request_id", dict_get_or VNone "request_id" (gq_metadata request)) ]) ].

Definition mcp_execute_stream (request : GatewayRequest) : M W (list StreamChunk) :=
  result ← call_tool (gq_capability request) (gq_payload request);
  mret [ text_chunk (dict_get_or (dict_get_or (VStr ε) "prompt" (gq_payload request)) "text" result);
         stop_chunk ].

Definition mcp_health_check m : M W (dict pyval) :=
  r ← attempt get_server_info;
  mret match (r : outcome pyval) with
  | Ok info =>
      [ ("healthy", VBool true); ("provider", VStr (amd_provider m));
        ("details", VDict [("server_info", VStr (py_str float_repr info))]) ]
  | Raise e =>
      [ ("healthy", VBool false); ("provider", VStr (amd_provider m));
        ("details", VDict [("error", VStr (exn_str e))]) ]
  end.

Definition mcp_supports m (required : gset string) : bool :=
  adapter_supports (amd_capabilities m) required.
Definition mcp_get_capabilities m : list string := amd_capabilities m.
End MCP.
