(* ===== verification/AdaptersProps.v ===== *)
(** * Theorems about the model adapters

    The stream readers recover the text the services send, keep-alive lines
    apart; the registry holds what was registered last; the adapters that call
    module functions through [self] answer with a failure whatever the service
    would say. *)
From S2P Require Import Prelude PyStr PyDict PyVal PyText Json Adapters.
From Stdlib Require Import Ascii.

(** ** Lines of a stream *)

Lemma strip_head c s : (nat_of_ascii c < 128)%nat → is_space c = false →
  ∃ t, str_strip (String c s) = String c t.
Proof.
  intros Hb Hc.
  assert (∀ n, (128 ≤ n)%nat → is_byte n c = false) as Hn
    by (intros n Hn; apply Nat.eqb_neq; lia).
  assert (str_lstrip (String c s) = String c s) as Hl.
  { cbn [str_lstrip]. rewrite Hc. unfold is_space2, is_space3. rewrite !Hn by lia.
    destruct s as [|d [|e s]]; [done..|]. by rewrite !andb_false_l. }
  unfold str_strip. rewrite Hl. cbn [str_rstrip]. rewrite Hl. by eexists.
Qed.

Lemma sse_text_data s : sse_text ("data: " +:+ s) = Some s.
Proof.
  unfold sse_text. destruct (strip_head "d" ("ata: " +:+ s)) as [t Ht]; [by apply Nat.ltb_lt|done|].
  change ("data: " +:+ s) with (String "d" ("ata: " +:+ s)). rewrite Ht. reflexivity.
Qed.

(** A line of a stream of server-sent events with the texts it carries: a blank
    line, a comment, a field other than [data], or an event, [data: ] and the
    text of a JSON object in any layout. *)
Inductive sse_line (event : pyval → list string → Prop) : string → list string → Prop :=
| sl_blank line : str_strip line = ε → sse_line event line []
| sl_comment s : sse_line event (":" +:+ s) []
| sl_field name s : name ∈ ["event"; "id"; "retry"] → sse_line event (name +:+ ":" +:+ s) []
| sl_event s v ts : json_loads ("{" +:+ s) = Some v → event v ts →
    sse_line event ("data: {" +:+ s) ts.

(** The chunks of the texts; an empty one is not passed on. *)
Definition text_chunks (ts : list string) : list StreamChunk :=
  map (λ t, text_chunk (VStr t)) (filter (λ t, truthy t = true) ts).

Lemma text_chunks_app ts us : text_chunks (ts ++ us) = text_chunks ts ++ text_chunks us.
Proof. unfold text_chunks. by rewrite list.filter_app, map_app. Qed.

Lemma field_is_no_json name s : name ∈ ["event"; "id"; "retry"] →
  sse_text (name +:+ ":" +:+ s) = Some (name +:+ ":" +:+ s)
  ∧ json_loads (name +:+ ":" +:+ s) = None
  ∧ str_strip (name +:+ ":" +:+ s) ≠ "[DONE]".
Proof.
  intros Hn. repeat (apply elem_of_cons in Hn as [->|Hn]; [|]); [..|by apply elem_of_nil in Hn].
  all: unfold sse_text; cbn [String.append];
    match goal with |- context [str_strip (String ?c ?t)] =>
      destruct (strip_head c t) as [u Hu]; [by apply Nat.ltb_lt|done|] end;
    rewrite Hu; split_and!; [reflexivity|reflexivity|discriminate].
Qed.

Section Lines.
Context (event : pyval → list string → Prop).
Context (is_done : string → bool) (on_chunk : pyval → list StreamChunk * outcome bool).
Hypothesis event_read : ∀ v ts, event v ts → on_chunk v = (text_chunks ts, Ok false).
Hypothesis done_mark : ∀ s, is_done s = true → str_strip s = "[DONE]".

Lemma object_not_done s : is_done ("{" +:+ s) = false.
Proof using done_mark.
  destruct (is_done _) eqn:Hd; [|done]. apply done_mark in Hd.
  destruct (strip_head "{" s) as [t Ht]; [by apply Nat.ltb_lt|done|]. cbn in Hd, Ht. congruence.
Qed.

(** The events of the lines are passed on and the reader goes on. *)
Lemma sse_lines ls tss rest : Forall2 (sse_line event) ls tss →
  sse_loop is_done on_chunk (ls ++ rest)
  = (text_chunks (concat tss) ++ (sse_loop is_done on_chunk rest).1,
     (sse_loop is_done on_chunk rest).2).
Proof using event_read done_mark.
  induction 1 as [|line ts ls tss Hl _ IH]; [apply surjective_pairing|].
  cbn [app concat sse_loop]. rewrite text_chunks_app, <- app_assoc.
  destruct Hl as [line Hb|s|name s Hn|s v ts Hj He].
  - unfold sse_text at 1. by rewrite Hb.
  - unfold sse_text at 1. by rewrite orb_true_r.
  - destruct (field_is_no_json name s Hn) as (-> & -> & Hnd).
    destruct (is_done _) eqn:Hd; [by apply done_mark in Hd|]. done.
  - change ("data: {" +:+ s) with ("data: " +:+ ("{" +:+ s)).
    rewrite sse_text_data, object_not_done, Hj, (event_read _ _ He), IH. done.
Qed.

Lemma sse_lines_end ls tss : Forall2 (sse_line event) ls tss →
  sse_loop is_done on_chunk ls = (text_chunks (concat tss), Ok tt).
Proof using event_read done_mark.
  intros H. rewrite <- (app_nil_r ls), (sse_lines _ _ _ H). cbn. by rewrite app_nil_r.
Qed.
End Lines.

(** ** The events of the three services

    The fields a reader depends on; an event has others, which do not matter. *)

(** [chat.completion.chunk]: the first choice's delta has a text, or none (the
    role, a tool call, the end). *)
Inductive openai_event : pyval → list string → Prop :=
| oe_text d choice choices delta t :
    dict_get "choices" d = Some (VList (VDict choice :: choices)) →
    dict_get "delta" choice = Some (VDict delta) →
    dict_get "content" delta = Some (VStr t) →
    openai_event (VDict d) [t]
| oe_silent d choice choices delta :
    dict_get "choices" d = Some (VList (VDict choice :: choices)) →
    dict_get "delta" choice = Some (VDict delta) →
    dict_get "content" delta = None ∨ dict_get "content" delta = Some VNone →
    openai_event (VDict d) [].

(** A [content_block_delta] with a text or of another kind, and the events that
    are neither that nor [message_stop]. *)
Inductive anthropic_event : pyval → list string → Prop :=
| ae_text d delta t :
    dict_get "type" d = Some (VStr "content_block_delta") →
    dict_get "delta" d = Some (VDict delta) → dict_get "text" delta = Some (VStr t) →
    anthropic_event (VDict d) [t]
| ae_delta d delta :
    dict_get "type" d = Some (VStr "content_block_delta") →
    dict_get "delta" d = Some (VDict delta) → dict_get "text" delta = None →
    anthropic_event (VDict d) []
| ae_other d t :
    dict_get "type" d = Some (VStr t) → t ∉ ["content_block_delta"; "message_stop"] →
    anthropic_event (VDict d) [].

(** A [GenerateContentResponse]: the parts of the first candidate's content, with
    a text or of another kind, or no content or candidate at all. *)
Inductive gemini_part : pyval → list string → Prop :=
| gp_text d t : dict_get "text" d = Some (VStr t) → gemini_part (VDict d) [t]
| gp_other d : dict_get "text" d = None → gemini_part (VDict d) [].

Inductive gemini_event : pyval → list string → Prop :=
| ge_parts d candidate candidates content parts tss :
    dict_get "candidates" d = Some (VList (VDict candidate :: candidates)) →
    dict_get "content" candidate = Some (VDict content) →
    dict_get "parts" content = Some (VList parts) → Forall2 gemini_part parts tss →
    gemini_event (VDict d) (concat tss)
| ge_no_content d candidate candidates :
    dict_get "candidates" d = Some (VList (VDict candidate :: candidates)) →
    dict_get "content" candidate = None →
    gemini_event (VDict d) []
| ge_no_candidate d :
    dict_get "candidates" d = None ∨ dict_get "candidates" d = Some (VList []) →
    gemini_event (VDict d) [].

Lemma yield_text t :
  yield_value (Ok (when_truthy (VStr t))) = (text_chunks [t], Ok false).
Proof.
  unfold when_truthy, text_chunks. cbn [py_truth]. destruct (truthy t) eqn:Ht; cbn [filter list_filter].
  - by rewrite decide_True.
  - by rewrite decide_False by congruence.
Qed.

Lemma openai_read v ts : openai_event v ts → openai_chunk v = (text_chunks ts, Ok false).
Proof.
  unfold openai_chunk. intros [d c cs delta t Hc Hd Ht|d c cs delta Hc Hd Ht];
    cbn [py_get]; unfold dict_get_or; rewrite Hc; cbn; unfold dict_get_or; rewrite Hd; cbn;
    unfold dict_get_or.
  - rewrite Ht. apply yield_text.
  - by destruct Ht as [-> | ->].
Qed.

Lemma anthropic_read v ts : anthropic_event v ts → anthropic_chunk v = (text_chunks ts, Ok false).
Proof.
  unfold anthropic_chunk. intros [d delta t H1 H2 H3|d delta H1 H2 H3|d t H1 H2];
    cbn [py_get]; unfold dict_get_or; rewrite H1.
  - rewrite decide_True by done. cbn. unfold dict_get_or. rewrite H2. cbn. unfold dict_get_or.
    rewrite H3. apply yield_text.
  - rewrite decide_True by done. cbn. unfold dict_get_or. rewrite H2. cbn. unfold dict_get_or.
    by rewrite H3.
  - apply not_elem_of_cons in H2 as [Hn1 [Hn2 _]%not_elem_of_cons].
    by rewrite !decide_False by (intros [= ->]; done).
Qed.

Lemma gemini_parts_read ps tss : Forall2 gemini_part ps tss →
  gemini_parts ps = (text_chunks (concat tss), Ok false).
Proof.
  induction 1 as [|p ts ps tss Hp _ IH]; [done|]. cbn [gemini_parts concat].
  rewrite text_chunks_app, IH. destruct Hp as [d t Ht|d Ht]; cbn [py_get]; unfold dict_get_or;
    rewrite Ht; [|reflexivity].
  change (default (VStr ε) (Some (VStr t))) with (VStr t).
  pose proof (yield_text t) as Hy. unfold yield_value in Hy.
  destruct (when_truthy (VStr t)); injection Hy as <-; reflexivity.
Qed.

Lemma gemini_read v ts : gemini_event v ts → gemini_chunk v = (text_chunks ts, Ok false).
Proof.
  unfold gemini_chunk. intros [d c cs content ps tss H1 H2 H3 H4|d c cs H1 H2|d H1];
    cbn [py_get]; unfold dict_get_or.
  - rewrite H1. cbn. unfold dict_get_or. rewrite H2. cbn. unfold dict_get_or. rewrite H3. cbn.
    by apply gemini_parts_read.
  - rewrite H1. cbn. unfold dict_get_or. by rewrite H2.
  - by destruct H1 as [-> | ->].
Qed.

Lemma done_mark_openai s : bool_decide (str_strip s = "[DONE]") = true → str_strip s = "[DONE]".
Proof. apply bool_decide_eq_true. Qed.

(** C37: the readers of the streams recover the text: for any lines that are
    blank, comments, fields other than [data], or events that carry texts in the
    fields the service documents, with any other fields, in any layout of the
    JSON and in any script, the chunks yielded are the texts in order, less the
    empty ones. The OpenAI reader then stops at its end mark and the Anthropic
    reader at the stop event, each with one closing chunk, and neither reads what
    follows; a stream that breaks off before has no closing chunk, and that of
    Gemini never has one. *)
Theorem stream_text_exact ls tss rest :
  (Forall2 (sse_line openai_event) ls tss →
     openai_lines (ls ++ "data: [DONE]" :: rest) = (text_chunks (concat tss) ++ [stop_chunk], Ok tt)
     ∧ openai_lines ls = (text_chunks (concat tss), Ok tt))
  ∧ (Forall2 (sse_line anthropic_event) ls tss →
     (∀ s d, json_loads ("{" +:+ s) = Some (VDict d) →
        dict_get "type" d = Some (VStr "message_stop") →
        anthropic_lines (ls ++ ("data: {" +:+ s) :: rest)
        = (text_chunks (concat tss) ++ [stop_chunk], Ok tt))
     ∧ anthropic_lines ls = (text_chunks (concat tss), Ok tt))
  ∧ (Forall2 (sse_line gemini_event) ls tss → gemini_lines ls = (text_chunks (concat tss), Ok tt)).
Proof.
  split; [|split]; intros H.
  - unfold openai_lines.
    rewrite (sse_lines _ _ _ openai_read done_mark_openai _ _ _ H),
      (sse_lines_end _ _ _ openai_read done_mark_openai _ _ H). done.
  - split; [|apply (sse_lines_end _ _ _ anthropic_read); [|exact H]; by intros s [=]].
    intros s d Hj Hs. unfold anthropic_lines.
    rewrite (sse_lines _ _ _ anthropic_read (λ s (Hf : false = true), False_rect _ (diff_false_true Hf)) _ _ _ H). cbn [sse_loop].
    change ("data: {" +:+ s) with ("data: " +:+ ("{" +:+ s)).
    rewrite sse_text_data, Hj. unfold anthropic_chunk. cbn [py_get]. unfold dict_get_or. by rewrite Hs.
  - apply (sse_lines_end _ _ _ gemini_read); [|exact H]; by intros s [=].
Qed.

(** Text with double quotes for the single ones. *)
Fixpoint requoted (s : string) : string :=
  match s with
  | ε => ε
  | String c s => String (if decide (c = "'"%char) then quote_char else c) (requoted s)
  end.

(** A stream as the OpenAI documentation shows it, with a comment and a text in
    Greek, and the first event of one of Anthropic. *)
Definition demo_openai_lines : list string :=
  [ ": keep-alive";
    requoted ("data: {'id':'chatcmpl-1','object':'chat.completion.chunk','created':1694268190,"
      +:+ "'model':'gpt-4o','system_fingerprint':'fp_1','choices':[{'index':0,"
      +:+ "'delta':{'role':'assistant','content':''},'logprobs':null,'finish_reason':null}]}");
    ε;
    requoted ("data: {'id':'chatcmpl-1','object':'chat.completion.chunk','created':1694268190,"
      +:+ "'model':'gpt-4o','system_fingerprint':'fp_1','choices':[{'index':0,"
      +:+ "'delta':{'content':'\u03b1 b'},'logprobs':null,'finish_reason':null}]}");
    requoted ("data: {'id':'chatcmpl-1','object':'chat.completion.chunk','created':1694268190,"
      +:+ "'model':'gpt-4o','system_fingerprint':'fp_1','choices':[{'index':0,"
      +:+ "'delta':{},'logprobs':null,'finish_reason':'stop'}]}") ].
Definition demo_anthropic_lines : list string :=
  [ "event: message_start";
    requoted "data: {'type':'message_start','message':{'id':'msg_1','role':'assistant','content':[]}}";
    ε;
    "event: content_block_delta";
    requoted "data: {'type':'content_block_delta','index':0,'delta':{'type':'text_delta','text':'Hi'}}" ].

Lemma stream_text_exact_witness :
  openai_lines (demo_openai_lines ++ "data: [DONE]" :: ["data: garbage"])
  = (text_chunks (concat [[]; [ε]; []; [utf8 945 +:+ " b"]; []]) ++ [stop_chunk], Ok tt)
  ∧ anthropic_lines demo_anthropic_lines = (text_chunks (concat [[]; []; []; []; ["Hi"]]), Ok tt).
Proof.
  split.
  - apply (proj1 (stream_text_exact demo_openai_lines _ ["data: garbage"])).
    repeat apply Forall2_cons_2; [| | | | |apply Forall2_nil_2].
    + exact (sl_comment _ " keep-alive").
    + refine (sl_event _ (str_drop 7 (default ε (demo_openai_lines !! 1%nat))) _ _ eq_refl _).
      eapply oe_text; reflexivity.
    + exact (sl_blank _ ε eq_refl).
    + refine (sl_event _ (str_drop 7 (default ε (demo_openai_lines !! 3%nat))) _ _ eq_refl _).
      eapply oe_text; reflexivity.
    + refine (sl_event _ (str_drop 7 (default ε (demo_openai_lines !! 4%nat))) _ _ eq_refl _).
      eapply oe_silent; [reflexivity..|left; reflexivity].
  - apply (proj1 (proj2 (stream_text_exact demo_anthropic_lines _ []))).
    repeat apply Forall2_cons_2; [| | | | |apply Forall2_nil_2].
    + refine (sl_field _ "event" " message_start" _). by left.
    + refine (sl_event _ (str_drop 7 (default ε (demo_anthropic_lines !! 1%nat))) _ _ eq_refl _).
      eapply ae_other; [reflexivity|]. by apply (bool_decide_unpack _).
    + exact (sl_blank _ ε eq_refl).
    + refine (sl_field _ "event" " content_block_delta" _). by left.
    + refine (sl_event _ (str_drop 7 (default ε (demo_anthropic_lines !! 4%nat))) _ _ eq_refl _).
      eapply ae_text; reflexivity.
Defined.

(** ** The adapters of OpenAI and Anthropic *)

(** Whatever the service would answer, it is not asked: the answer is a failure,
    and a stream raises at its first step. *)
Lemma adapters_never_call {W} `{!HttpClient W} uuid12 now_str a request w :
  is_ok (request_prompt request) = true →
  (∃ e, openai_execute uuid12 now_str a request w
        = (Ok (adapter_failure e), mkGwWorld (gw_client w) (S (gw_ticks w))))
  ∧ (∃ e, anthropic_execute uuid12 now_str a request w
        = (Ok (adapter_failure e), mkGwWorld (gw_client w) (S (gw_ticks w))))
  ∧ (∃ e, openai_execute_stream (W:=W) a request w = (Ok ([], Raise e), w))
  ∧ ∃ e, anthropic_execute_stream (W:=W) a request w = (Ok ([], Raise e), w).
Proof.
  intros Hp. destruct (request_prompt request) as [v|] eqn:Hv; [|done].
  split_and!; eexists;
    unfold openai_execute, anthropic_execute, execute_with, openai_execute_stream,
      anthropic_execute_stream, stream_method, no_attribute, gw_tick;
    m_unfold; rewrite Hv; reflexivity.
Qed.

(** ** The registry *)

Section RegistryProps.
Context {A : Type} (metadata_of : A → option (dict pyval)).

Inductive adapter_step (r : @AdapterRegistry A) : @AdapterRegistry A → Prop :=
| adapter_step_register a : adapter_step r (adapter_register metadata_of a r).2
| adapter_step_unregister i : adapter_step r (adapter_unregister i r).2.

(** Every adapter is filed under its own, non-empty identifier. *)
Lemma registered_under_own_id r i a : star adapter_step AdapterRegistry_new r →
  adapter_get r i = Some a → adapter_id_of metadata_of a = i ∧ truthy i = true.
Proof.
  intros Hr. revert i a. refine (star_invariant adapter_step (λ r, ∀ i a, adapter_get r i = Some a →
    adapter_id_of metadata_of a = i ∧ truthy i = true) _ _ _ _ Hr); [|done].
  unfold adapter_get. intros r1 r2 H [a|i] j b.
  - unfold adapter_register. destruct (truthy (adapter_id_of metadata_of a)) eqn:Ht; cbn; [|apply H].
    rewrite dict_get_set. case_decide; [|apply H]. intros [= <-]. subst. done.
  - cbn. rewrite dict_get_del. case_decide; [done|apply H].
Qed.
End RegistryProps.

(** ** The local adapter's stream *)

Lemma take_drop n s : str_take n s +:+ str_drop n s = s.
Proof. revert s. induction n as [|n IH]; intros [|c s]; cbn; [done..|]. f_equal. apply IH. Qed.

Lemma drop_len n s : str_len (str_drop n s) = (str_len s - n)%nat.
Proof. revert s. induction n as [|n IH]; intros [|c s]; cbn; [done..|]. apply IH. Qed.

Lemma take_len n s : (str_len (str_take n s) ≤ n)%nat.
Proof. revert s. induction n as [|n IH]; intros [|c s]; cbn; [lia..|]. specialize (IH s). unfold str_len in IH. lia. Qed.

(** As much fuel as the text is long is enough: the pieces make up the text. *)
Lemma pieces_text fuel s : (str_len s ≤ fuel)%nat →
  foldr String.append ε (pieces fuel s) = s ∧ Forall (λ t, str_len t ≤ 10)%nat (pieces fuel s).
Proof.
  revert s. induction fuel as [|fuel IH]; intros s Hs; cbn [pieces].
  { destruct s; [done|cbn in Hs; lia]. }
  destruct s as [|c s]; [done|]. cbn [truthy String.eqb negb].
  destruct (IH (str_drop 10 (String c s))) as [Hj Hf]; [rewrite drop_len; cbn in *; lia|].
  split; [|constructor; [apply take_len|exact Hf]].
  cbn [foldr]. rewrite Hj. apply take_drop.
Qed.

(** The chunks of the stream make up the text that [execute] answers at once. *)
Lemma local_stream_text fr request text :
  (prompt ← request_prompt request; local_text fr prompt) = Ok text →
  ∃ ps, local_execute_stream fr request
        = (map (λ t, text_chunk (VStr t)) ps ++ [stop_chunk], Ok tt)
    ∧ foldr String.append ε ps = text.
Proof.
  intros Ht. unfold local_execute_stream. rewrite Ht. exists (pieces (str_len text) text).
  split; [done|]. by apply pieces_text.
Qed.
