(* ===== verification/Config.v ===== *)
(** * Configuration ([config/settings.py], [config/secrets.py])

    The runtime's settings with the constraints of their fields and their two
    validators, and the credentials with their two sources. Settings are read
    from the environment and converted by pydantic, which also writes the text
    of a validation error: the values a settings object is built from and that
    text are arguments here. Upper- and lower-casing agree with Python on
    ASCII. *)
From S2P Require Import Prelude PyStr PyDict PyVal PyText DateTime FileStore Streams.
From Stdlib Require Import Ascii.

Definition ascii_upper (c : ascii) : ascii :=
  let n := nat_of_ascii c in
  if (97 <=? n)%nat && (n <=? 122)%nat then ascii_of_nat (n - 32) else c.

(** [s.upper()] *)
Fixpoint str_upper (s : string) : string :=
  match s with ε => ε | String c s' => String (ascii_upper c) (str_upper s') end.

(** ** Settings *)

Record RuntimeSettings := mkSettings {
  budget_max_steps : Z;
  budget_max_tokens : Z;
  budget_timeout_seconds : Z;
  tenant_max_agents : Z;
  tenant_max_steps_per_agent : Z;
  tenant_max_tokens_per_agent : Z;
  tenant_max_concurrent_executions : Z;
  tenant_max_checkpoints : Z;
  log_level : string;
  log_output : string;
  event_backend : string;
  redis_url : string;
  event_channel_prefix : string;
  quota_max_concurrent : Z;
  quota_max_per_minute : Z;
  quota_max_steps : Z;
  quota_rate_limit_per_second : Q;
  quota_burst_size : Z;
  api_title : string;
  api_version : string
}.

Definition RuntimeSettings_default : RuntimeSettings :=
  mkSettings 10 100000 3600 10 10 100000 5 100 "INFO" "stdout" "memory" ε "kitematic"
    5 60 10 10 100 "Kitematic Runtime API" "0.2.0".

(** What pydantic reports of a field: it is out of its bound, or its validator
    raised. *)
Inductive field_error := OutOfBound | Refused (e : exn).
#[export] Instance field_error_eq_dec : EqDecision field_error.
Proof. solve_decision. Defined.

(** [sorted(allowed)] in a message *)
Definition allowed_repr (allowed : list string) : string :=
  "[" +:+ str_join ", " (map str_repr (py_sorted str_leb allowed)) +:+ "]".

Definition allowed_backends : list string :=
  ["memory"; "redis"; "redis_pubsub"; "redis_streams"; "streams"].
Definition allowed_levels : list string := ["DEBUG"; "INFO"; "WARNING"; "ERROR"; "CRITICAL"].

Definition validate_event_backend (value : string) : outcome string :=
  let lower := str_lower value in
  if decide (lower ∈ allowed_backends) then Ok lower
  else Raise (mkExn "ValueError" ("Invalid event_backend: " +:+ str_repr value
         +:+ ". Must be one of: " +:+ allowed_repr allowed_backends)).

Definition validate_log_level (value : string) : outcome string :=
  let upper := str_upper value in
  if decide (upper ∈ allowed_levels) then Ok upper
  else Raise (mkExn "ValueError" ("Invalid log level: " +:+ str_repr value
         +:+ ". Must be one of: " +:+ allowed_repr allowed_levels)).

(** [Field(gt=0)] and [Field(ge=0)] *)
Definition gt0 (name : string) (value : Z) : list (string * field_error) :=
  if (0 <? value)%Z then [] else [(name, OutOfBound)].
Definition ge0 (name : string) (value : Q) : list (string * field_error) :=
  if Qle_bool 0 value then [] else [(name, OutOfBound)].
Definition checked (name : string) (o : outcome string) : list (string * field_error) :=
  match o with Ok _ => [] | Raise e => [(name, Refused e)] end.

(** The errors of all fields, in the order of their declarations. *)
Definition settings_errors (s : RuntimeSettings) : list (string * field_error) :=
  gt0 "budget_max_steps" (budget_max_steps s)
  ++ gt0 "budget_max_tokens" (budget_max_tokens s)
  ++ gt0 "budget_timeout_seconds" (budget_timeout_seconds s)
  ++ gt0 "tenant_max_agents" (tenant_max_agents s)
  ++ gt0 "tenant_max_steps_per_agent" (tenant_max_steps_per_agent s)
  ++ gt0 "tenant_max_tokens_per_agent" (tenant_max_tokens_per_agent s)
  ++ gt0 "tenant_max_concurrent_executions" (tenant_max_concurrent_executions s)
  ++ gt0 "tenant_max_checkpoints" (tenant_max_checkpoints s)
  ++ checked "log_level" (validate_log_level (log_level s))
  ++ checked "event_backend" (validate_event_backend (event_backend s))
  ++ ge0 "quota_max_concurrent" (inject_Z (quota_max_concurrent s))
  ++ ge0 "quota_max_per_minute" (inject_Z (quota_max_per_minute s))
  ++ ge0 "quota_max_steps" (inject_Z (quota_max_steps s))
  ++ ge0 "quota_rate_limit_per_second" (quota_rate_limit_per_second s)
  ++ ge0 "quota_burst_size" (inject_Z (quota_burst_size s)).

(** The validators' answers replace the values given. *)
Definition with_validated (level backend : string) (s : RuntimeSettings) : RuntimeSettings :=
  mkSettings (budget_max_steps s) (budget_max_tokens s) (budget_timeout_seconds s)
    (tenant_max_agents s) (tenant_max_steps_per_agent s) (tenant_max_tokens_per_agent s)
    (tenant_max_concurrent_executions s) (tenant_max_checkpoints s)
    level (log_output s) backend (redis_url s) (event_channel_prefix s)
    (quota_max_concurrent s) (quota_max_per_minute s) (quota_max_steps s)
    (quota_rate_limit_per_second s) (quota_burst_size s) (api_title s) (api_version s).

Section Settings.
Variable error_text : list (string * field_error) → string.

(** [RuntimeSettings(...)] from the values given for its fields. *)
Definition RuntimeSettings_new (given : RuntimeSettings) : outcome RuntimeSettings :=
  match settings_errors given with
  | [] =>
      level ← validate_log_level (log_level given);
      backend ← validate_event_backend (event_backend given);
      mret (with_validated level backend given)
  | errors => Raise (mkExn "ValidationError" (error_text errors))
  end.
End Settings.

(** [create_event_publisher(settings)], which reads three of the fields. *)
Definition publisher_of (has_redis : bool) (s : RuntimeSettings) : outcome publisher_choice :=
  create_event_publisher has_redis (event_backend s) (redis_url s) (event_channel_prefix s).

(** ** Secrets *)

Record SecretsModel := mkSecrets { admin_api_key : string; api_key_salt : string }.
Definition model_fields : list string := ["admin_api_key"; "api_key_salt"].

(** [SecretsModel( **data)] *)
Definition SecretsModel_new (data : dict string) : SecretsModel :=
  mkSecrets (dict_get_or ε "admin_api_key" data) (dict_get_or ε "api_key_salt" data).

(** [s.partition(c)]: what comes before and after the first [c]. *)
Fixpoint str_partition (c : ascii) (s : string) : string * string :=
  match s with
  | ε => (ε, ε)
  | String d s' =>
      if decide (d = c) then (ε, s')
      else let '(key, value) := str_partition c s' in (String d key, value)
  end.

Definition line_feed : ascii := ascii_of_nat 10.
Definition carriage_return : ascii := ascii_of_nat 13.

(** Reading in text mode: CR and CR LF become LF. *)
Fixpoint universal_newlines (s : string) : string :=
  match s with
  | ε => ε
  | String c s' =>
      if decide (c = carriage_return)
      then match s' with
           | String d s'' =>
               if decide (d = line_feed) then String line_feed (universal_newlines s'')
               else String line_feed (universal_newlines s')
           | ε => String line_feed ε
           end
      else String c (universal_newlines s')
  end.

(** [for line in f], less the newlines at the ends of the lines. *)
Definition text_lines (s : string) : list string :=
  let pieces := str_split line_feed (universal_newlines s) in
  if decide (List.last pieces ε = ε) then removelast pieces else pieces.

(** A line [key=value], trimmed; [None] for a blank line, a comment, a line
    without an equals sign. *)
Definition secret_line (line : string) : option (string * string) :=
  let line := str_strip line in
  if negb (truthy line) || str_startswith "#" line || negb (str_contains "=" line) then None
  else let '(key, value) := str_partition "=" line in
       Some (str_lower (str_strip key), str_strip value).

Definition take_line (data : dict string) (line : string) : dict string :=
  match secret_line line with
  | Some (field_name, value) =>
      if decide (field_name ∈ model_fields ∧ dict_mem field_name data = false)
      then dict_set field_name value data else data
  | None => data
  end.

Definition NotADirectoryError : exn := mkExn "NotADirectoryError" "Not a directory".

(** Where a name leads: every directory on the way has to be one. *)
Fixpoint open_walk (fs : FS) (cur : path) (p : list string) : outcome path :=
  match p with
  | [] => Ok cur
  | c :: p' =>
      if decide (cur ∈ fs_dirs fs)
      then open_walk fs (if decide (c = ε ∨ c = ".") then cur else enter cur c) p'
      else if decide (is_Some (fs_files fs !! cur)) then Raise NotADirectoryError
      else Raise FileNotFoundError
  end.

Section Secrets.
Variable environ : string → option string.

Definition take_env (env_prefix : string) (data : dict string) (field_name : string)
    : dict string :=
  match environ (env_prefix +:+ str_upper field_name) with
  | Some value => if truthy value then dict_set field_name value data else data
  | None => data
  end.

(** [open(secrets_file)], relative to the current directory. *)
Definition open_text (fs : FS) (cwd : path) (name : string) : outcome string :=
  if has_nul name then Raise (mkExn "ValueError" "embedded null byte")
  else
    p ← open_walk fs (if str_startswith "/" name then [] else cwd) (str_split "/" name);
    if decide (p ∈ fs_dirs fs) then Raise IsADirectoryError
    else match fs_files fs !! p with Some text => Ok text | None => Raise FileNotFoundError end.

Definition create_secrets_provider (fs : FS) (cwd : path) (env_prefix secrets_file : string)
    : outcome SecretsModel :=
  let data := foldl (take_env env_prefix) [] model_fields in
  if truthy secrets_file then
    match open_text fs cwd secrets_file with
    | Ok text => Ok (SecretsModel_new (foldl take_line data (text_lines text)))
    | Raise e =>
        if decide (exn_class e = "FileNotFoundError") then Ok (SecretsModel_new data)
        else Raise e
    end
  else Ok (SecretsModel_new data).
End Secrets.

(** ** Theorems: settings *)

Definition bounded (s : RuntimeSettings) : Prop :=
  Forall (λ z, 0 < z)%Z
    [budget_max_steps s; budget_max_tokens s; budget_timeout_seconds s; tenant_max_agents s;
     tenant_max_steps_per_agent s; tenant_max_tokens_per_agent s;
     tenant_max_concurrent_executions s; tenant_max_checkpoints s]
  ∧ Forall (λ z, 0 <= z)%Z
    [quota_max_concurrent s; quota_max_per_minute s; quota_max_steps s; quota_burst_size s]
  ∧ (0 <= quota_rate_limit_per_second s)%Q.

Lemma gt0_nil n z : gt0 n z = [] ↔ (0 < z)%Z.
Proof. unfold gt0. case_match; b2p; split; done || lia. Qed.

Lemma ge0_nil n q : ge0 n q = [] ↔ (0 <= q)%Q.
Proof. unfold ge0. rewrite <- Qle_bool_iff. by case_match. Qed.

Lemma ge0_int_nil n z : ge0 n (inject_Z z) = [] ↔ (0 <= z)%Z.
Proof. rewrite ge0_nil. unfold Qle. cbn. lia. Qed.

Lemma validated_backend v :
  validate_event_backend v = Ok (str_lower v) ∧ str_lower v ∈ allowed_backends
  ∨ (∃ e, validate_event_backend v = Raise e) ∧ str_lower v ∉ allowed_backends.
Proof. unfold validate_event_backend. case_decide; [by left|right]. split; [by eexists|done]. Qed.

Lemma validated_level v :
  validate_log_level v = Ok (str_upper v) ∧ str_upper v ∈ allowed_levels
  ∨ (∃ e, validate_log_level v = Raise e) ∧ str_upper v ∉ allowed_levels.
Proof. unfold validate_log_level. case_decide; [by left|right]. split; [by eexists|done]. Qed.

Lemma checked_backend n v :
  checked n (validate_event_backend v) = [] ↔ str_lower v ∈ allowed_backends.
Proof. destruct (validated_backend v) as [[-> ?]|[[e ->] ?]]; done. Qed.

Lemma checked_level n v : checked n (validate_log_level v) = [] ↔ str_upper v ∈ allowed_levels.
Proof. destruct (validated_level v) as [[-> ?]|[[e ->] ?]]; done. Qed.

(** No field is in error exactly when the bounds hold and both names are known. *)
Lemma settings_errors_nil s :
  settings_errors s = [] ↔
  bounded s ∧ str_lower (event_backend s) ∈ allowed_backends
  ∧ str_upper (log_level s) ∈ allowed_levels.
Proof.
  unfold settings_errors, bounded.
  rewrite !app_nil, !gt0_nil, !ge0_int_nil, ge0_nil, checked_backend, checked_level.
  rewrite !Forall_cons, !Forall_nil. tauto.
Qed.

(** What is allowed is unchanged by the validator that allows it. *)
Lemma lower_allowed b : b ∈ allowed_backends → str_lower b = b.
Proof. unfold allowed_backends. intros Hb. repeat (apply elem_of_cons in Hb as [->|Hb]; [done|]). by apply elem_of_nil in Hb. Qed.

Lemma upper_allowed l : l ∈ allowed_levels → str_upper l = l.
Proof. unfold allowed_levels. intros Hb. repeat (apply elem_of_cons in Hb as [->|Hb]; [done|]). by apply elem_of_nil in Hb. Qed.

Lemma settings_new_ok et given s :
  RuntimeSettings_new et given = Ok s ↔
  settings_errors given = []
  ∧ s = with_validated (str_upper (log_level given)) (str_lower (event_backend given)) given.
Proof.
  unfold RuntimeSettings_new. destruct (settings_errors given) as [|e es] eqn:He; [|naive_solver].
  apply settings_errors_nil in He as (_ & Hb & Hl).
  destruct (validated_level (log_level given)) as [[-> _]|[_ ?]]; [|done].
  destruct (validated_backend (event_backend given)) as [[-> _]|[_ ?]]; [|done].
  cbn. split; [by intros [= ->]|by intros [_ ->]].
Qed.

(** The publisher for a name the validator knows. *)
Lemma publisher_of_allowed hr s :
  event_backend s ∈ allowed_backends →
  match publisher_of hr s with
  | Ok ChooseMemory => event_backend s = "memory"
  | Ok (ChoosePubSub url p) | Ok (ChooseStreams url p) =>
      hr = true ∧ truthy url = true ∧ url = redis_url s ∧ p = event_channel_prefix s
  | Raise e =>
      event_backend s ≠ "memory"
      ∧ (if truthy (redis_url s) then hr = false ∧ exn_class e = "RuntimeError"
         else str_startswith "redis_url is required" (exn_str e) = true)
  end.
Proof.
  unfold publisher_of, allowed_backends. generalize (redis_url s), (event_channel_prefix s).
  intros url prefix Hb. unfold create_event_publisher. destruct (truthy url) eqn:Hu, hr;
    repeat (apply elem_of_cons in Hb as [->|Hb]; [by rewrite ?Hu|]);
    by apply elem_of_nil in Hb.
Qed.

(** Settings are built exactly when every field is within its bound, the
    event backend is a known name in any casing and the log level a known level
    in any casing; the two names are stored in lower and in upper case and the
    other fields as given. Building settings again from the result changes
    nothing. The factory never refuses the backend of such settings as unknown:
    it answers with the memory publisher or with a Redis publisher at the
    configured URL, and fails only for a Redis backend whose URL is empty or
    whose package is missing. *)
Theorem settings_exact et given s hr :
  (RuntimeSettings_new et given = Ok s ↔
     bounded given ∧ str_lower (event_backend given) ∈ allowed_backends
     ∧ str_upper (log_level given) ∈ allowed_levels
     ∧ s = with_validated (str_upper (log_level given)) (str_lower (event_backend given)) given)
  ∧ (RuntimeSettings_new et given = Ok s →
     RuntimeSettings_new et s = Ok s
     ∧ match publisher_of hr s with
       | Ok ChooseMemory => event_backend s = "memory"
       | Ok (ChoosePubSub url p) | Ok (ChooseStreams url p) =>
           hr = true ∧ truthy url = true ∧ url = redis_url s ∧ p = event_channel_prefix s
       | Raise e =>
           event_backend s ≠ "memory"
           ∧ (if truthy (redis_url s) then hr = false ∧ exn_class e = "RuntimeError"
              else str_startswith "redis_url is required" (exn_str e) = true)
       end).
Proof.
  split; [rewrite settings_new_ok, settings_errors_nil; tauto|].
  rewrite settings_new_ok. intros [He ->]. apply settings_errors_nil in He as (Hbd & Hb & Hl).
  split; [|by apply publisher_of_allowed].
  apply settings_new_ok. rewrite settings_errors_nil. cbn.
  rewrite (lower_allowed _ Hb), (upper_allowed _ Hl). done.
Qed.

Definition demo_given : RuntimeSettings :=
  mkSettings 3 100 60 1 1 1 1 1 "debug" "stdout" "Redis_Streams" "redis://r" "k"
    0 0 0 0 0 "api" "1".

Lemma settings_exact_witness :
  let s := with_validated "DEBUG" "redis_streams" demo_given in
  RuntimeSettings_new (λ _, ε) demo_given = Ok s
  ∧ RuntimeSettings_new (λ _, ε) s = Ok s
  ∧ publisher_of true s = Ok (ChooseStreams "redis://r" "k").
Proof.
  split; [reflexivity|].
  exact (conj (proj1 (proj2 (settings_exact (λ _, ε) demo_given
    (with_validated "DEBUG" "redis_streams" demo_given) true) eq_refl)) eq_refl).
Defined.

(** Every error is reported at once, the bounds and the validators' messages. *)
Lemma demo_settings_errors :
  settings_errors (mkSettings 0 100 60 1 1 1 1 1 "loud" "stdout" "memory" ε "k" 0 (-1) 0 0 0 "api" "1")
  = [("budget_max_steps", OutOfBound);
     ("log_level", Refused (mkExn "ValueError"
        "Invalid log level: 'loud'. Must be one of: ['CRITICAL', 'DEBUG', 'ERROR', 'INFO', 'WARNING']"));
     ("quota_max_per_minute", OutOfBound)].
Proof. vm_compute. reflexivity. Qed.

(** ** Theorems: secrets *)

(** The value of the first line that names a field. *)
Definition line_value (f line : string) : option string :=
  match secret_line line with
  | Some (k, v) => if decide (k = f) then Some v else None
  | None => None
  end.
Definition first_value (f : string) (lines : list string) : option string :=
  head (omap (line_value f) lines).

Lemma first_value_cons f line lines :
  first_value f (line :: lines)
  = match line_value f line with Some v => Some v | None => first_value f lines end.
Proof. unfold first_value. cbn. by destruct (line_value f line). Qed.

Lemma take_line_get f d line : f ∈ model_fields →
  dict_get f (take_line d line)
  = match dict_get f d with Some v => Some v | None => line_value f line end.
Proof.
  intros Hf. unfold take_line, line_value. destruct (secret_line line) as [[k v]|]; [|by case_match].
  destruct (decide (k = f)) as [->|Hk].
  - destruct (dict_get f d) as [w|] eqn:Hd.
    + rewrite decide_False; [done|]. rewrite dict_mem_false, Hd. by intros [_ ?].
    + rewrite decide_True by (by rewrite dict_mem_false). apply dict_get_set_eq.
  - case_decide; [rewrite dict_get_set_ne by done|]; by case_match.
Qed.

Lemma take_lines_get f lines d : f ∈ model_fields →
  dict_get f (foldl take_line d lines)
  = match dict_get f d with Some v => Some v | None => first_value f lines end.
Proof.
  intros Hf. revert d. induction lines as [|l lines IH]; intros d; [cbn; by destruct (dict_get f d)|].
  cbn [foldl]. rewrite IH, take_line_get, first_value_cons by done. by destruct (dict_get f d).
Qed.

Section SecretsProps.
Context (environ : string → option string) (env_prefix : string).

Definition env_value (f : string) : option string :=
  match environ (env_prefix +:+ str_upper f) with
  | Some v => if truthy v then Some v else None
  | None => None
  end.

(** The environment if it holds a non-empty value, else the file, else nothing. *)
Definition secret_for (lines : list string) (f : string) : string :=
  match env_value f with Some v => v | None => default ε (first_value f lines) end.

Lemma take_env_get f g d :
  dict_get f (take_env environ env_prefix d g)
  = match env_value g with
    | Some v => if decide (f = g) then Some v else dict_get f d
    | None => dict_get f d
    end.
Proof.
  unfold take_env, env_value. destruct (environ _) as [v|]; [|done].
  destruct (truthy v); [|done]. apply dict_get_set.
Qed.

Lemma env_data f : f ∈ model_fields →
  dict_get f (foldl (take_env environ env_prefix) [] model_fields) = env_value f.
Proof.
  unfold model_fields. cbn [foldl]. intros Hf.
  repeat (apply elem_of_cons in Hf as [->|Hf];
    [rewrite !take_env_get; cbn; by repeat case_match|]).
  by apply elem_of_nil in Hf.
Qed.

Lemma secrets_of lines :
  SecretsModel_new (foldl take_line (foldl (take_env environ env_prefix) [] model_fields) lines)
  = mkSecrets (secret_for lines "admin_api_key") (secret_for lines "api_key_salt").
Proof.
  unfold SecretsModel_new, dict_get_or, secret_for.
  rewrite !take_lines_get, !env_data by (unfold model_fields; set_solver).
  f_equal; by destruct (env_value _).
Qed.

(** Each credential is the environment's when that is not empty, else the first
    one the file gives, an empty one included, else empty. No file name, or a
    file that is not there, counts as a file without lines; any other error in
    opening it is raised, even when the environment has every credential. *)
Lemma secrets_exact fs cwd file :
  create_secrets_provider environ fs cwd env_prefix file
  = match (if truthy file then open_text fs cwd file else Ok ε) with
    | Raise e =>
        if decide (exn_class e = "FileNotFoundError")
        then Ok (mkSecrets (secret_for [] "admin_api_key") (secret_for [] "api_key_salt"))
        else Raise e
    | Ok text => Ok (mkSecrets (secret_for (text_lines text) "admin_api_key")
                       (secret_for (text_lines text) "api_key_salt"))
    end.
Proof.
  unfold create_secrets_provider.
  destruct (truthy file); [destruct (open_text fs cwd file)|]; rewrite <- secrets_of; done.
Qed.
End SecretsProps.

(** A file with a comment, CR LF line ends, spaces and a repeated field; the salt
    is taken from the environment. *)
Definition demo_secrets : string :=
  "# keys" +:+ String line_feed (" Admin_Api_Key = k1=2 " +:+ String carriage_return
  (String line_feed ("admin_api_key=k3" +:+ String line_feed "api_key_salt=file"))).

Lemma demo_secrets_read :
  create_secrets_provider
    (λ v, if decide (v = "K_API_KEY_SALT") then Some "env" else None)
    (mkFS {[ []; ["srv"] ]} {[ ["srv"; "secrets"] := demo_secrets ]}) ["srv"] "K_" "./secrets"
  = Ok (mkSecrets "k1=2" "env")
  ∧ create_secrets_provider (λ _, None) (mkFS {[ []; ["srv"] ]} ∅) ["srv"] "K_" "secrets"
  = Ok (mkSecrets ε ε)
  ∧ create_secrets_provider (λ _, Some "env") (mkFS {[ []; ["srv"] ]} ∅) ["srv"] "K_" "."
  = Raise IsADirectoryError.
Proof. vm_compute. split_and!; reflexivity. Qed.
