(* ===== verification/Assembly.v ===== *)
(** * Assembly of the application ([create_app] in [api/rest/app.py])

    What the application is made of when [create_app] is called: its arguments
    where they are given, otherwise a provider without keys, the publisher the
    settings name and a registry of its own; and the first half of [lifespan].
    The publisher is known at run time only: [Backend] is one of the three, and
    behaves as the one it is. The settings read from the environment and the
    Redis client of a URL are arguments. *)
From S2P Require Import Prelude PyStr PyDict PyVal ExecState Observability Events Publisher Abi Runtime.
From S2P Require Import RuntimeSpec RuntimeProps Tenant Isolation Quotas Auth Api Streams StreamsProps Config.

(** ** The publisher of an application *)

Inductive Backend (W : Type) :=
| BMemory (p : InMemoryEventPublisher)
| BPubSub (channel_prefix : string) (p : RedisEventPublisher W)
| BStreams (stream_prefix : string) (p : StreamPublisher W).
Arguments BMemory {W}.
Arguments BPubSub {W}.
Arguments BStreams {W}.

Section Backend.
Context {W : Type} `{!RedisClient W}.
Variable float_repr : Q → string.
Variable time_str : Z → string.
Variable time : W → Z.

(** A method of whichever object it is. *)
Definition dispatch {A}
    (m : ∀ P, EventPublisher P → M P A) : M (Backend W) A := λ b,
  match b with
  | BMemory p => let '(o, p') := m _ memory_publisher p in (o, BMemory p')
  | BPubSub prefix p => let '(o, p') := m _ (redis_publisher prefix float_repr) p in
                        (o, BPubSub prefix p')
  | BStreams prefix p => let '(o, p') := m _ (stream_publisher prefix time_str time) p in
                         (o, BStreams prefix p')
  end.

Definition backend_local (b : Backend W) : InMemoryEventPublisher :=
  match b with BMemory p => p | BPubSub _ p => rp_local p | BStreams _ p => st_local p end.
Definition backend_put_local (l : InMemoryEventPublisher) (b : Backend W) : Backend W :=
  (dispatch (λ P _, modify (ep_put_local l)) b).2.

Definition backend_publisher : EventPublisher (Backend W) := {|
  ep_publish e := dispatch (λ P _, ep_publish e);
  ep_subscribe x t := dispatch (λ P _, ep_subscribe x t);
  ep_unsubscribe x q := dispatch (λ P _, ep_unsubscribe x q);
  ep_close x := dispatch (λ P _, ep_close x);
  ep_close_all := dispatch (λ P _, ep_close_all);
  ep_active_executions b := active_executions (backend_local b);
  ep_subscriber_count b := subscriber_count (backend_local b);
  ep_local := backend_local;
  ep_put_local := backend_put_local
|}.

#[local] Existing Instance backend_publisher.

(** A method that acts locally in each of the three acts locally. *)
Lemma dispatch_locally {A} (m : ∀ P, EventPublisher P → M P A) a f (b : Backend W) :
  (∀ P (HP : EventPublisher P) (HL : PublisherLaws P) p, locally (m P HP) (a (ep_local p)) f p) →
  locally (dispatch m) (a (backend_local b)) f b.
Proof.
  intros Hm. destruct b as [p|prefix p|prefix p]; unfold locally; cbn [dispatch backend_local].
  - destruct (Hm _ _ memory_laws p) as (p' & -> & Hl). by exists (BMemory p').
  - destruct (Hm _ _ (pubsub_laws prefix float_repr) p) as (p' & -> & Hl). by exists (BPubSub prefix p').
  - destruct (Hm _ _ (stream_laws prefix time_str time) p) as (p' & -> & Hl).
    by exists (BStreams prefix p').
Qed.

#[export] Instance backend_laws : PublisherLaws (Backend W).
Proof.
  split.
  - intros e [p|prefix p|prefix p]; cbn [ep_publish backend_publisher dispatch].
    + pose proof (law_publish e p) as Hl. by destruct (ep_publish e p) as [[[]|ex] p'].
    + pose proof (@law_publish _ _ (pubsub_laws prefix float_repr) e p) as Hl.
      by destruct (ep_publish e p) as [[[]|ex] p'].
    + pose proof (@law_publish _ _ (stream_laws prefix time_str time) e p) as Hl.
      by destruct (ep_publish e p) as [[[]|ex] p'].
  - intros x t b. apply (dispatch_locally (λ P _, ep_subscribe x t) (λ l, (subscribe x t l).1)).
    intros P HP HL p. apply law_subscribe.
  - intros x q b. apply (dispatch_locally (λ P _, ep_unsubscribe x q) (λ _, tt)).
    intros P HP HL p. apply law_unsubscribe.
  - intros x b. apply (dispatch_locally (λ P _, ep_close x) (λ _, tt)).
    intros P HP HL p. apply law_close.
  - intros b. apply (dispatch_locally (λ P _, ep_close_all) (λ _, tt)).
    intros P HP HL p. apply law_close_all.
  - done.
  - done.
  - by intros l [].
Qed.

(** ** [create_app] *)

(** The constructor the factory calls; [redis] gives the client of a URL. *)
Definition publisher_made (redis : string → W) (c : publisher_choice) : Backend W :=
  match c with
  | ChooseMemory => BMemory InMemoryEventPublisher_new
  | ChoosePubSub url prefix => BPubSub prefix (RedisEventPublisher_new (redis url))
  | ChooseStreams url prefix => BStreams prefix (RedisStreamPublisher_new (redis url))
  end.

Context {E : Type} `{!PolicyEvaluator E, !IntentRouter E, !ToolGateway E, !StatePersistence E}.
Variable clock obs_clock : nat → Z.
Variable uuid : nat → string.
Variable ob : Observers.
Variable _fingerprint : string → string.

(** The state of the application with its title and version. [env_settings] is
    what [RuntimeSettings()] gives or raises. *)
Definition create_app (has_redis : bool) (redis : string → W) (env_settings : outcome RuntimeSettings)
    (runtime : World E) (auth_provider : option APIKeyAuthProvider)
    (event_publisher : option (Backend W)) (metrics_registry : option MetricsRegistry)
    (settings : option RuntimeSettings) : outcome (App E (Backend W) * (string * string)) :=
  let auth_provider := default (APIKeyAuthProvider_new _fingerprint [] ε) auth_provider in
  app_settings ← match settings with Some s => Ok s | None => env_settings end;
  event_publisher ← match event_publisher with
                    | Some p => Ok p
                    | None => choice ← publisher_of has_redis app_settings;
                              Ok (publisher_made redis choice)
                    end;
  let metrics_registry := default MetricsRegistry_new metrics_registry in
  Ok (mkApp runtime auth_provider event_publisher metrics_registry [] 0 0,
      (api_title app_settings, api_version app_settings)).

(** The first half of [lifespan], less the time stamp nothing reads. *)
Definition startup_app (version : string) : M (App E (Backend W)) unit :=
  on_runtime_world (on_obs (log (ob_logger ob) LInfo "API starting" [("version", VStr version)])).
End Backend.

(** ** What a submission leaves when the publisher fails *)

Section Submissions.
Context {E : Type} `{!PolicyEvaluator E, !IntentRouter E, !ToolGateway E, !StatePersistence E}.
Context {P : Type} `{!EventPublisher P}.
Context (clock obs_clock : nat → Z) (uuid : nat → string) (ob : Observers).
Context (api_clock : nat → Z) (api_uuid : nat → string) (_fingerprint : string → string).
Implicit Types s : App E P.

(** C19: once the runtime has executed a submitted intent its result is on file and
    its tenant can ask for it, whatever the publisher does; the submission
    itself is answered 201 with the result only when the publisher took the
    event, and 500 with the publisher's error when it raised. *)
Theorem submission_outlives_publisher req auth xa s r w1 :
  execute_intent clock obs_clock uuid ob (intent_of req (api_clock (ap_ticks s))) (ap_world s)
    = (Ok r, w1) →
  au_tenant_id auth ≠ ε →
  let '(o, s') := submit_intent clock obs_clock uuid ob api_clock api_uuid req auth ε xa s in
  ap_world s' = w1
  ∧ (api_execution_status (er_execution_id r) auth s').1
    = Ok (Response (mkStatusResponse (er_execution_id r) (ExecutionState_value (er_state r))
                      (iq_agent_id req) (iq_action req) (er_success r) (er_error r)))
  ∧ ∃ event, ev_execution_id event = er_execution_id r ∧ ev_tenant_id event = au_tenant_id auth
      ∧ let '(published, p') := ep_publish event (ap_publisher s) in
        ap_publisher s' = p'
        ∧ handled 201 o = match published with
                          | Ok _ => (201%Z, inl (response_of r))
                          | Raise e => (500%Z, inr (mkErrorResponse (exn_str e) "INTERNAL_ERROR"))
                          end.
Proof.
  intros Hx Ht.
  destruct (submit_effect clock obs_clock uuid ob api_clock api_uuid req auth ε xa s)
    as (now & agent & id & now' & H).
  destruct (submit_intent _ _ _ _ _ _ _ _ _ _ s) as [o s']. rewrite Hx in H. destruct H as [-> H].
  set (ev := event_for _ _ _ _ _) in H. destruct (ep_publish ev (ap_publisher s)) as [op p'] eqn:Hp.
  destruct H as (-> & <- & Htab). split_and!; [done| |].
  - unfold api_execution_status. m_unfold. rewrite Htab, dict_get_set_eq.
    cbn [record_of rc_tenant_id]. change (str_or ε (au_tenant_id auth)) with (au_tenant_id auth).
    rewrite String.eqb_refl, andb_false_r. done.
  - exists ev. split_and!; [done|done|]. rewrite Hp. by destruct op.
Qed.

(** ** The provider of an application stays the one it was given *)

Definition keeps_provider {A} (m : M (App E P) A) : Prop := ∀ s,
  ap_provider (m s).2 = ap_provider s.

Lemma keeps_provider_bind {A B} (m : M (App E P) A) (k : A → M (App E P) B) :
  keeps_provider m → (∀ a, keeps_provider (k a)) → keeps_provider (m ≫= k).
Proof.
  intros Hm Hk s. unfold mbind, M_bind. specialize (Hm s). destruct (m s) as [[a|e] s1]; [|done].
  by rewrite Hk.
Qed.

Lemma keeps_world {A} (m : M (World E) A) : keeps_provider (on_runtime_world m).
Proof. intros s. unfold on_runtime_world, zoom. by destruct (m (ap_world s)). Qed.
Lemma keeps_publisher {A} (m : M P A) : keeps_provider (on_publisher m).
Proof. intros s. unfold on_publisher, zoom. by destruct (m (ap_publisher s)). Qed.
Lemma keeps_provider_ret {A} (a : A) : keeps_provider (mret a).
Proof. done. Qed.
Lemma keeps_count metric : keeps_provider (ap_count metric).
Proof. done. Qed.
Lemma keeps_now : keeps_provider (ap_now api_clock).
Proof. done. Qed.
Lemma keeps_uuid : keeps_provider (ap_new_uuid api_uuid).
Proof. done. Qed.
Lemma keeps_store r : keeps_provider (store_execution r).
Proof. done. Qed.
Lemma keeps_read {A} (f : App E P → A) : keeps_provider (read f).
Proof. done. Qed.

Create HintDb provider.
#[local] Hint Resolve keeps_world keeps_publisher keeps_provider_ret keeps_count keeps_now keeps_uuid
  keeps_store keeps_read : provider.

Ltac keeps := repeat first [ solve [eauto with provider] | apply keeps_provider_bind; [|intros ?] | case_match ].

Lemma api_step_provider s s' :
  api_step clock obs_clock uuid ob api_clock api_uuid _fingerprint s s' →
  ap_provider s' = ap_provider s.
Proof.
  assert (∀ a b c, keeps_provider (_ws_authenticate _fingerprint a b c)) as Hws
    by (intros a b c; unfold _ws_authenticate; keeps).
  assert (∀ {A} (m : M (App E P) A), keeps_provider m → ap_provider (m s).2 = ap_provider s) as Hm by auto.
  intros [req auth xt xa|x auth|key|x a b c|x q|]; apply Hm.
  - unfold submit_intent. keeps.
  - unfold api_execution_status. keeps.
  - unfold get_auth_context. keeps.
  - unfold open_events. keeps.
  - apply keeps_publisher.
  - unfold shutdown_app. keeps.
Qed.

Lemma provider_stays s s' :
  star (api_step clock obs_clock uuid ob api_clock api_uuid _fingerprint) s s' →
  ap_provider s' = ap_provider s.
Proof.
  intros Hs. apply (star_invariant _ (λ s1, ap_provider s1 = ap_provider s)) in Hs; [done| |done].
  intros s1 s2 <- Hst. by apply api_step_provider.
Qed.
End Submissions.

(** ** What [create_app] makes *)

Section Created.
Context {W : Type} `{!RedisClient W}.
Context (float_repr : Q → string) (time_str : Z → string) (time : W → Z).
Context {E : Type} `{!PolicyEvaluator E, !IntentRouter E, !ToolGateway E, !StatePersistence E}.
Context (clock obs_clock : nat → Z) (uuid : nat → string) (ob : Observers).
Context (api_clock : nat → Z) (api_uuid : nat → string) (_fingerprint : string → string).

(** The requests an application serves with whichever publisher it has. *)
#[local] Notation serves := (api_step
  (EventPublisher0 := backend_publisher float_repr time_str time)
  clock obs_clock uuid ob api_clock api_uuid _fingerprint).

(** What the factory makes of a backend that passed validation. *)
Lemma factory_exact has_redis (redis : string → W) s : event_backend s ∈ allowed_backends →
  match publisher_of has_redis s with
  | Ok choice =>
      event_backend s = "memory" ∧ publisher_made redis choice = BMemory InMemoryEventPublisher_new
      ∨ has_redis = true ∧ redis_url s ≠ ε
        ∧ (event_backend s ∈ ["redis"; "redis_pubsub"]
           ∧ publisher_made redis choice
             = BPubSub (event_channel_prefix s) (RedisEventPublisher_new (redis (redis_url s)))
           ∨ event_backend s ∈ ["redis_streams"; "streams"]
           ∧ publisher_made redis choice
             = BStreams (event_channel_prefix s) (RedisStreamPublisher_new (redis (redis_url s))))
  | Raise e =>
      event_backend s ≠ "memory"
      ∧ (redis_url s = ε ∧ exn_class e = "ValueError"
         ∨ redis_url s ≠ ε ∧ has_redis = false ∧ exn_class e = "RuntimeError")
  end.
Proof.
  unfold publisher_of, allowed_backends. generalize (redis_url s), (event_channel_prefix s).
  intros url prefix Hb.
  repeat (apply elem_of_cons in Hb as [->|Hb]); [..|by apply elem_of_nil in Hb].
  { left. done. }
  all: destruct url as [|c url]; [by split; [|left]|]; destruct has_redis;
    [right; split; [done|]; split; [done|]|by split; [|right]].
  1,2: left. 3,4: right.
  all: split; [rewrite !elem_of_cons; tauto|reflexivity].
Qed.

(** C20: an application made from accepted settings alone serves the runtime it
    was given and starts with an empty table and with the publisher the settings
    name, in any casing: a new one in memory for memory, one over Redis channels
    for redis and redis_pubsub, one over Redis streams for redis_streams and
    streams, the last two with the configured prefix and the client of the
    configured URL. It is not made exactly when Redis is named and has no URL, a
    [ValueError], or no package, a [RuntimeError]. Having no provider it admits
    nobody: every key is answered 401, whatever it serves. *)
Theorem created_app_safe error_text given settings has_redis (redis : string → W) (runtime : World E) metrics :
  RuntimeSettings_new error_text given = Ok settings →
  let backend := str_lower (event_backend given) in
  let url := redis_url given in
  let prefix := event_channel_prefix given in
  match create_app _fingerprint has_redis redis (Ok settings) runtime None None metrics None with
  | Ok (app, (title, version)) =>
      fresh_app app ∧ ap_world app = runtime
      ∧ title = api_title given ∧ version = api_version given
      ∧ (backend = "memory" ∧ ap_publisher app = BMemory InMemoryEventPublisher_new
         ∨ has_redis = true ∧ url ≠ ε
           ∧ (backend ∈ ["redis"; "redis_pubsub"]
              ∧ ap_publisher app = BPubSub prefix (RedisEventPublisher_new (redis url))
              ∨ backend ∈ ["redis_streams"; "streams"]
              ∧ ap_publisher app = BStreams prefix (RedisStreamPublisher_new (redis url))))
      ∧ ∀ app' key,
          star serves app app' →
          handled 200 (get_auth_context _fingerprint key app').1
          = (401%Z, inr (mkErrorResponse "Invalid or missing API key" "UNAUTHORIZED"))
  | Raise e =>
      backend ≠ "memory"
      ∧ (url = ε ∧ exn_class e = "ValueError"
         ∨ url ≠ ε ∧ has_redis = false ∧ exn_class e = "RuntimeError")
  end.
Proof.
  intros Hg backend url prefix. apply settings_new_ok in Hg as [He ->].
  apply settings_errors_nil in He as (_ & Hb & _).
  set (st := with_validated _ _ given).
  pose proof (factory_exact has_redis redis st Hb) as Hp.
  unfold create_app. cbn [mbind outcome_bind].
  destruct (publisher_of has_redis st) as [c|e]; cbn [mbind outcome_bind]; [|exact Hp].
  split_and!; [done|done|done|done|exact Hp|].
  intros app' key Hs. apply provider_stays in Hs.
  unfold get_auth_context. rewrite (bind_ok (read _) _ _ _ _ eq_refl), Hs.
  cbn [ap_provider default]. unfold authenticate. by destruct (truthy key).
Qed.
End Created.

(** ** A concrete application *)

(** A client that cannot encode a field that is a dictionary, as the documentation
    of the Redis client has it; every event has one. *)
Definition demo_redis : RedisClient unit := {|
  redis_publish _ _ := mret tt;
  xadd _ _ _ := raise (mkExn "DataError" "Invalid input of type: 'dict'");
  xgroup_create _ _ := mret tt;
  xreadgroup _ _ _ _ _ := mret None;
  xack _ _ _ := mret tt;
  xrange _ _ _ _ := mret None;
  xtrim _ _ := mret tt
|}.
Definition demo_backend : EventPublisher (Backend unit) :=
  @backend_publisher unit demo_redis (λ _, ε) (λ _, "0") (λ _, 0%Z).

Definition demo_settings (backend : string) : RuntimeSettings :=
  with_validated "INFO" backend
    (mkSettings 10 100000 3600 10 10 100000 5 100 "info" "stdout" backend "redis://r" "k"
       5 60 10 10 100 "Title" "0.2.0").
Definition demo_created (backend : string) : outcome (App unit (Backend unit) * (string * string)) :=
  create_app (E := unit) (λ k, k) true (λ _, tt) (Ok (demo_settings backend)) (demo_world RUNNING)
    None None None None.

Lemma created_app_safe_witness :
  (∃ app texts, demo_created "redis_streams" = Ok (app, texts)
     ∧ ap_publisher app = BStreams "k" (RedisStreamPublisher_new tt)
     ∧ handled 200 (get_auth_context (λ k, k) "key" app).1
       = (401%Z, inr (mkErrorResponse "Invalid or missing API key" "UNAUTHORIZED"))).
Proof.
  pose proof (@created_app_safe unit demo_redis (λ _, ε) (λ _, "0") (λ _, 0%Z) unit
    (demo_policy true) demo_router demo_gateway demo_store demo_clock demo_clock demo_uuid
    demo_observers demo_clock demo_uuid (λ k, k) (λ _, ε) (demo_settings "redis_streams")
    (demo_settings "redis_streams") true (λ _, tt) (demo_world RUNNING) None eq_refl) as H.
  fold (demo_created "redis_streams") in H.
  destruct (demo_created "redis_streams") as [[app [title version]]|e] eqn:Hc.
  - destruct H as (_ & _ & _ & _ & [[Hm _]|(_ & _ & [[Hm _]|[_ Hp]])] & H).
    + vm_compute in Hm. discriminate.
    + apply list_elem_of_In in Hm. vm_compute in Hm. destruct Hm as [Hm|[Hm|[]]]; discriminate Hm.
    + exists app, (title, version). exact (conj eq_refl (conj Hp (H app "key" star_refl))).
  - vm_compute in Hc. discriminate.
Defined.

(** The application over Redis streams answers 500 to a submission it executed. *)
Definition demo_streams_app : App unit (Backend unit) :=
  mkApp (demo_world RUNNING) (mkProvider ε []) (BStreams "k" (RedisStreamPublisher_new tt))
    MetricsRegistry_new [] 0 0.
Definition demo_streams_submit : outcome (http ExecutionResponse) * App unit (Backend unit) :=
  @submit_intent unit (demo_policy true) demo_router demo_gateway demo_store _ demo_backend
    demo_clock demo_clock demo_uuid demo_observers demo_clock demo_uuid
    (mkIntentRequest "a1" "act" []) tenant_a ε ε demo_streams_app.

Lemma submission_outlives_publisher_witness :
  handled 201 demo_streams_submit.1
  = (500%Z, inr (mkErrorResponse "Invalid input of type: 'dict'" "INTERNAL_ERROR"))
  ∧ ∃ r, er_success r = true
      ∧ (api_execution_status (E := unit) (er_execution_id r) tenant_a demo_streams_submit.2).1
        = Ok (Response (mkStatusResponse (er_execution_id r) (ExecutionState_value (er_state r))
                          "a1" "act" (er_success r) (er_error r))).
Proof.
  split; [vm_compute; reflexivity|].
  destruct (demo_execute true (mkIntent "a1" "act" [] 0) (demo_world RUNNING)) as [[r|e] w1] eqn:Hx;
    [|vm_compute in Hx; discriminate].
  exists r. split; [vm_compute in Hx; injection Hx as <- _; reflexivity|].
  pose proof (@submission_outlives_publisher unit (demo_policy true) demo_router demo_gateway demo_store
    _ demo_backend demo_clock demo_clock demo_uuid demo_observers demo_clock demo_uuid
    (mkIntentRequest "a1" "act" []) tenant_a ε demo_streams_app r w1 Hx ltac:(discriminate)) as H.
  fold demo_streams_submit in H. destruct demo_streams_submit as [o s'].
  exact (proj1 (proj2 H)).
Defined.
