(* ===== verification/Domain.v ===== *)
(** * Domain models ([core/domain/adapter.py], [approval.py], [execution.py],
    [agent_manifest.py], [exceptions.py])

    The data of adapters, approvals, executions and agent manifests with their
    validations, and the domain's exceptions. The duration of an execution is
    computed in binary64 floats as the source does, on [SpecFloat]; budgets and
    costs, which are only compared, are exact rationals. *)
From S2P Require Import Prelude PyStr PyDict PyVal PyText Tenant Storage.
From Stdlib Require Import SpecFloat.

(** ** Adapters *)

Inductive AdapterType := FRAMEWORK | MODEL | TOOL | MCP | MEMORY | EXECUTOR.
Inductive TrustLevel := T0_UNKNOWN | T1_COMMUNITY | T2_TESTED | T3_ENTERPRISE | T4_CRITICAL.

Definition TrustLevel_value (t : TrustLevel) : string :=
  match t with
  | T0_UNKNOWN => "T0_UNKNOWN" | T1_COMMUNITY => "T1_COMMUNITY" | T2_TESTED => "T2_TESTED"
  | T3_ENTERPRISE => "T3_ENTERPRISE" | T4_CRITICAL => "T4_CRITICAL"
  end.

Record Adapter := mkAdapter {
  ad_adapter_id : string;
  ad_name : string;
  ad_type : AdapterType;
  ad_provider : string;
  ad_version : string;
  ad_trust_level : TrustLevel;
  ad_capabilities : list string;
  ad_dependencies : list string;
  ad_status : string;
  ad_created_at : option datetime
}.

Definition Adapter_validate (a : Adapter) : list string :=
  check (truthy (ad_adapter_id a)) "adapter_id is required"
  ++ check (truthy (ad_name a)) "name is required".
Definition Adapter_is_valid (a : Adapter) : bool := Nat.eqb (length (Adapter_validate a)) 0.

(** The values are compared as strings. *)
Definition Adapter_is_trusted (a : Adapter) : bool :=
  str_leb (TrustLevel_value T2_TESTED) (TrustLevel_value (ad_trust_level a)).

(** ** Approvals *)

Inductive ApprovalStatus := ApprovalPending | APPROVED | ApprovalRejected | EXPIRED.
#[export] Instance ApprovalStatus_eq_dec : EqDecision ApprovalStatus.
Proof. solve_decision. Defined.
Inductive RiskLevel := LOW | MEDIUM | HIGH | CRITICAL.

Record ApprovalRequest := mkApproval {
  ar_approval_id : string;
  ar_execution_id : string;
  ar_agent_instance_id : string;
  ar_action : string;
  ar_risk_level : RiskLevel;
  ar_status : ApprovalStatus;
  ar_reason : string;
  ar_payload : string;
  ar_approved_by : option string;
  ar_rejection_reason : option string;
  ar_expires_at : option datetime;
  ar_created_at : option datetime;
  ar_decided_at : option datetime
}.

Definition ApprovalRequest_validate (a : ApprovalRequest) : list string :=
  check (truthy (ar_approval_id a)) "approval_id is required"
  ++ check (truthy (ar_execution_id a)) "execution_id is required"
  ++ check (truthy (ar_action a)) "action is required".
Definition ApprovalRequest_is_valid (a : ApprovalRequest) : bool :=
  Nat.eqb (length (ApprovalRequest_validate a)) 0.

Definition is_decided (a : ApprovalRequest) : bool :=
  bool_decide (ar_status a ∈ [APPROVED; ApprovalRejected]).

(** [now] is the reading of [datetime.now(UTC)]. *)
Definition approval_is_expired (now : Z) (a : ApprovalRequest) : outcome bool :=
  match ar_expires_at a, ar_created_at a with
  | Some expires_at, Some _ => datetime_lt expires_at (Aware now)
  | _, _ => Ok false
  end.

(** ** Executions *)

Inductive RunStatus := RunPending | RunRunning | RunPaused | RunCompleted | RunFailed.

Record BudgetConsumed := mkConsumed { bc_tokens : Z; bc_cost_usd : Q; bc_time_ms : Z }.
Definition BudgetConsumed_default : BudgetConsumed := mkConsumed 0 0 0.

Record ExecutionStep := mkStep {
  es_step_number : Z;
  es_node_name : string;
  es_runtime : string;
  es_input_state_hash : option string;
  es_output_state_hash : option string;
  es_started_at : option datetime;
  es_completed_at : option datetime
}.

Record Execution := mkExecution {
  ex_execution_id : string;
  ex_tenant_id : string;
  ex_agent_instance_id : string;
  ex_agent_manifest_version : string;
  ex_status : RunStatus;
  ex_goal : string;
  ex_steps : list ExecutionStep;
  ex_budget_consumed : BudgetConsumed;
  ex_started_at : option datetime;
  ex_completed_at : option datetime
}.

Definition Execution_validate (e : Execution) : list string :=
  check (truthy (ex_execution_id e)) "execution_id is required"
  ++ check (truthy (ex_agent_instance_id e)) "agent_instance_id is required"
  ++ check (truthy (ex_goal e)) "goal is required".
Definition Execution_is_valid (e : Execution) : bool := Nat.eqb (length (Execution_validate e)) 0.

Definition step_count (e : Execution) : nat := length (ex_steps e).
Definition total_tokens (e : Execution) : Z := bc_tokens (ex_budget_consumed e).
Definition total_cost (e : Execution) : Q := bc_cost_usd (ex_budget_consumed e).

(** An integer as an operand of binary64 arithmetic. *)
Definition float_operand (z : Z) : spec_float :=
  match z with
  | Z0 => S754_zero false
  | Zpos m => S754_finite false m 0
  | Zneg m => S754_finite true m 0
  end.

(** [timedelta(microseconds=us).total_seconds()]: the quotient of two integers,
    rounded once. *)
Definition total_seconds (us : Z) : spec_float :=
  SFdiv 53 1024 (float_operand us) (float_operand 1000000).

(** [int(f)] for a finite [f] *)
Definition float_trunc (f : spec_float) : Z :=
  match f with
  | S754_finite s m e =>
      let n := if (0 <=? e)%Z then Z.shiftl (Zpos m) e else Z.shiftr (Zpos m) (- e) in
      if s then (- n)%Z else n
  | _ => 0%Z
  end.

(** [int(d.total_seconds() * 1000)] for a difference of [us] microseconds *)
Definition millis_of (us : Z) : Z :=
  float_trunc (SFmul 53 1024 (total_seconds us) (float_operand 1000)).

(** [completed_at - started_at], in microseconds *)
Definition datetime_sub (a b : datetime) : outcome Z :=
  match a, b with
  | Naive s, Naive t | Aware s, Aware t => Ok (s - t)%Z
  | _, _ => Raise (mkExn "TypeError" "can't subtract offset-naive and offset-aware datetimes")
  end.

Definition duration_ms (e : Execution) : outcome Z :=
  match ex_started_at e, ex_completed_at e with
  | Some started, Some completed =>
      us ← datetime_sub completed started;
      mret (millis_of us)
  | _, _ => Ok 0%Z
  end.

(** ** Agent manifests *)

Inductive AgentStatus := DRAFT | ACTIVE | ARCHIVED.
Record AgentIdentity := mkIdentity { ai_name : string; ai_role : string; ai_goal : string }.
Record RuntimeDefinition := mkDefinition {
  rd_framework : string;
  rd_entrypoint : string;
  rd_runtime_contract_version : string
}.
Record AgentCapabilities := mkAgentCaps {
  ac_allowed_tools : list string;
  ac_allowed_models : list string
}.
Record Constraints := mkConstraints {
  co_max_budget_usd : Q;
  co_max_loops : Z;
  co_max_tokens_per_run : Z;
  co_human_escalation_triggers : list string
}.
Definition Constraints_default : Constraints := mkConstraints 10 100 100000 [].

Record AgentManifest := mkAgentManifest {
  am_agent_id : string;
  am_version : string;
  am_tenant_id : string;
  am_identity : AgentIdentity;
  am_runtime_definition : RuntimeDefinition;
  am_capabilities : AgentCapabilities;
  am_constraints : Constraints;
  am_policy_profile : string;
  am_created_at : option datetime;
  am_updated_at : option datetime
}.

Definition AgentManifest_validate (m : AgentManifest) : list string :=
  check (truthy (am_agent_id m)) "agent_id is required"
  ++ check (truthy (am_version m)) "version is required"
  ++ check (truthy (am_tenant_id m)) "tenant_id is required"
  ++ check (truthy (ai_name (am_identity m))) "identity.name is required"
  ++ check (truthy (rd_framework (am_runtime_definition m))) "runtime_definition.framework is required"
  ++ check (Qle_bool 0 (co_max_budget_usd (am_constraints m))) "max_budget_usd must be >= 0"
  ++ check (1 <=? co_max_loops (am_constraints m))%Z "max_loops must be >= 1".
Definition AgentManifest_is_valid (m : AgentManifest) : bool :=
  Nat.eqb (length (AgentManifest_validate m)) 0.

(** ** Exceptions: a constructor and the text of the exception it makes *)

Definition domain_error_code : string := "DOMAIN_ERROR".
Definition ValidationError (errors : list string) : exn :=
  mkExn "ValidationError" (str_join "; " errors).
Definition PolicyViolationError (reason : string) (matched_rule : option string) : exn :=
  mkExn "PolicyViolationError" ("Policy violation: " +:+ reason).
Definition BudgetExceededError (float_repr : Q → string) (budget_type : string)
    (limit actual : pyval) : exn :=
  mkExn "BudgetExceededError" (budget_type +:+ " budget exceeded: "
    +:+ py_str float_repr actual +:+ " > " +:+ py_str float_repr limit).
Definition ApprovalRequiredError (approval_id action risk_level : string) : exn :=
  mkExn "ApprovalRequiredError" ("Approval required for " +:+ action
    +:+ " (risk: " +:+ risk_level +:+ ")").
Definition AdapterNotFoundError (adapter_name : string) : exn :=
  mkExn "AdapterNotFoundError" ("Adapter not found: " +:+ adapter_name).
Definition StateConflictError (current target : string) : exn :=
  mkExn "StateConflictError" ("Invalid state transition: " +:+ current +:+ " → " +:+ target).

(** ** Theorems *)

(** The string comparison orders the levels as they are declared. *)
Lemma trusted_exact a :
  Adapter_is_trusted a = true ↔ ad_trust_level a ∉ [T0_UNKNOWN; T1_COMMUNITY].
Proof.
  unfold Adapter_is_trusted. rewrite !not_elem_of_cons.
  destruct (ad_trust_level a); vm_compute (str_leb _ _); split; try done;
    [by intros [? _]|by intros [_ [? _]]|..]; intros _; split_and!; try done; apply not_elem_of_nil.
Qed.

(** A manifest is valid exactly when its required names are there, its budget is
    not negative and it may loop at least once. *)
Lemma agent_manifest_valid m :
  AgentManifest_is_valid m = true ↔
  truthy (am_agent_id m) = true ∧ truthy (am_version m) = true ∧ truthy (am_tenant_id m) = true
  ∧ truthy (ai_name (am_identity m)) = true
  ∧ truthy (rd_framework (am_runtime_definition m)) = true
  ∧ (0 <= co_max_budget_usd (am_constraints m))%Q ∧ (1 <= co_max_loops (am_constraints m))%Z.
Proof.
  unfold AgentManifest_is_valid. rewrite Nat.eqb_eq, length_zero_iff_nil.
  unfold AgentManifest_validate. rewrite !app_nil, !check_nil.
  by rewrite Qle_bool_iff, Z.leb_le.
Qed.

(** An approval without a creation date never expires; one with both dates
    expires when its date lies strictly before the clock. *)
Lemma approval_expiry now a :
  (ar_created_at a = None → approval_is_expired now a = Ok false)
  ∧ (∀ t c, ar_expires_at a = Some (Aware t) → ar_created_at a = Some c →
     approval_is_expired now a = Ok (t <? now)%Z)
  ∧ (∀ t c, ar_expires_at a = Some (Naive t) → ar_created_at a = Some c →
     approval_is_expired now a = Raise datetime_TypeError).
Proof.
  unfold approval_is_expired. split_and!; intros *.
  - intros ->. by case_match.
  - by intros -> ->.
  - by intros -> ->.
Qed.

(** Truncating a product of floats loses a millisecond: of the whole numbers of
    milliseconds up to two seconds every duration is right or one short, and an
    execution of 1.001 seconds is reported as 1000. *)
Lemma demo_duration :
  forallb (λ n, bool_decide (millis_of (1000 * Z.of_nat n) = Z.of_nat n
                   ∨ millis_of (1000 * Z.of_nat n) = Z.of_nat n - 1)%Z) (seq 0 2001) = true
  ∧ millis_of 1001000 = 1000%Z ∧ millis_of 1000999 = 1000%Z ∧ millis_of (-1500) = (-1)%Z.
Proof. vm_compute. split_and!; reflexivity. Qed.
