(* ===== verification/Telemetry.v ===== *)
(** * OpenTelemetry providers ([kernel/observability/opentelemetry.py])

    The three module globals, how they are filled on first use, and shutdown.
    The OpenTelemetry packages are a class over an arbitrary state, any call of
    which may raise, the import inside a function included; the environment is
    an argument. *)
From S2P Require Import Prelude PyStr.

(** [P]: providers, [H]: what they hand out (tracers, meters, loggers). *)
Class OtelSdk (W P H : Type) := {
  sdk_tracer_provider : string → M W P;
  add_exporter : P → string → M W unit;
  api_tracer_provider : M W P;
  api_meter_provider : M W P;
  api_logger_provider : M W P;
  provider_get : P → string → M W H;
  provider_shutdown : P → M W unit
}.

(** A provider of the packages, or the class made on the spot without them. *)
Inductive provider (P : Type) := Sdk (p : P) | Noop.
Arguments Sdk {P} _.
Arguments Noop {P}.

Record Otel (W P : Type) := mkOtel {
  ot_client : W;
  ot_tracer : option (provider P);
  ot_meter : option (provider P);
  ot_logger : option (provider P)
}.
Arguments mkOtel {W P} _ _ _ _.
Arguments ot_client {W P} _.
Arguments ot_tracer {W P} _.
Arguments ot_meter {W P} _.
Arguments ot_logger {W P} _.

Definition is_import_error (e : exn) : bool :=
  bool_decide (exn_class e ∈ ["ImportError"; "ModuleNotFoundError"]).

Section Otel.
Context {W P H : Type} `{!OtelSdk W P H}.
(** Whether the SDK could be imported, and [os.environ]. *)
Variable has_otel : bool.
Variable environ : string → option string.
Implicit Types s : Otel W P.

Definition on_sdk {A} (m : M W A) : M (Otel W P) A :=
  zoom ot_client (λ w s, mkOtel w (ot_tracer s) (ot_meter s) (ot_logger s)) m.
Definition set_tracer (p : provider P) : M (Otel W P) unit := modify (λ s : Otel W P,
  mkOtel (ot_client s) (Some p) (ot_meter s) (ot_logger s)).
Definition set_meter (p : provider P) : M (Otel W P) unit := modify (λ s : Otel W P,
  mkOtel (ot_client s) (ot_tracer s) (Some p) (ot_logger s)).
Definition set_logger (p : provider P) : M (Otel W P) unit := modify (λ s : Otel W P,
  mkOtel (ot_client s) (ot_tracer s) (ot_meter s) (Some p)).

Definition is_enabled : bool :=
  has_otel && (truthy_opt (environ "OTEL_SERVICE_NAME")
               || truthy_opt (environ "OTEL_EXPORTER_OTLP_ENDPOINT")).

(** The provider is assigned before its exporter is added. *)
Definition get_tracer_provider : M (Otel W P) (provider P) :=
  current ← read (λ s : Otel W P, ot_tracer s);
  match current with
  | Some p => mret p
  | None =>
      if is_enabled then
        p ← on_sdk (sdk_tracer_provider (default "kitematic" (environ "OTEL_SERVICE_NAME")));
        set_tracer (Sdk p) ;;
        match environ "OTEL_EXPORTER_OTLP_ENDPOINT" with
        | Some endpoint => when (truthy endpoint) (on_sdk (add_exporter p endpoint))
        | None => mret tt
        end ;;
        mret (Sdk p)
      else
        p ← on_sdk api_tracer_provider;
        set_tracer (Sdk p) ;;
        mret (Sdk p)
  end.

(** [try: ... except ImportError: ...] around the package's getter *)
Definition or_noop (m : M W P) : M (Otel W P) (provider P) := λ s,
  match on_sdk m s with
  | (Ok p, s') => (Ok (Sdk p), s')
  | (Raise e, s') => if is_import_error e then (Ok Noop, s') else (Raise e, s')
  end.

Definition get_meter_provider : M (Otel W P) (provider P) :=
  current ← read (λ s : Otel W P, ot_meter s);
  match current with
  | Some p => mret p
  | None => p ← or_noop api_meter_provider; set_meter p ;; mret p
  end.

Definition get_logger_provider : M (Otel W P) (provider P) :=
  current ← read (λ s : Otel W P, ot_logger s);
  match current with
  | Some p => mret p
  | None => p ← or_noop api_logger_provider; set_logger p ;; mret p
  end.

(** [None] is the object without behaviour a no-op provider hands out. *)
Definition handle_of (name : string) (p : provider P) : M (Otel W P) (option H) :=
  match p with
  | Sdk p => h ← on_sdk (provider_get p name); mret (Some h)
  | Noop => mret None
  end.

Definition get_tracer (name : string) : M (Otel W P) (option H) :=
  p ← get_tracer_provider; handle_of name p.
Definition get_meter (name : string) : M (Otel W P) (option H) :=
  p ← get_meter_provider; handle_of name p.
Definition get_logger (name : string) : M (Otel W P) (option H) :=
  p ← get_logger_provider; handle_of name p.

(** [with suppress(Exception): provider.shutdown()]; a no-op provider has no such
    method, which is suppressed as well. *)
Definition shutdown_provider (p : option (provider P)) : M (Otel W P) unit :=
  match p with
  | Some (Sdk p) => attempt (on_sdk (provider_shutdown p)) ;; mret tt
  | _ => mret tt
  end.

Definition otel_shutdown : M (Otel W P) unit :=
  tracer ← read (λ s : Otel W P, ot_tracer s);
  meter ← read (λ s : Otel W P, ot_meter s);
  logger ← read (λ s : Otel W P, ot_logger s);
  shutdown_provider tracer ;; shutdown_provider meter ;; shutdown_provider logger.

(** ** Theorems *)

(** One call of the module's interface. *)
Inductive otel_step s : Otel W P → Prop :=
| ot_get_tracer name : otel_step s (get_tracer name s).2
| ot_get_meter name : otel_step s (get_meter name s).2
| ot_get_logger name : otel_step s (get_logger name s).2
| ot_shutdown : otel_step s (otel_shutdown s).2.

(** Globals that are set keep their value. *)
Definition settled s s' : Prop :=
  (∀ p, ot_tracer s = Some p → ot_tracer s' = Some p)
  ∧ (∀ p, ot_meter s = Some p → ot_meter s' = Some p)
  ∧ (∀ p, ot_logger s = Some p → ot_logger s' = Some p).

#[export] Instance settled_preorder : PreOrder settled.
Proof. split; [by intros s|]. intros a b c (?&?&?) (?&?&?). split_and!; auto. Qed.

(** Computations that keep what is set. *)
Definition keeps_globals {A} (m : M (Otel W P) A) : Prop := ∀ s, settled s (m s).2.

Lemma keeps_bind {A B} (m : M (Otel W P) A) (k : A → M (Otel W P) B) :
  keeps_globals m → (∀ a, keeps_globals (k a)) → keeps_globals (m ≫= k).
Proof.
  intros Hm Hk s. unfold mbind, M_bind. specialize (Hm s). destruct (m s) as [[a|e] s1]; [|done].
  etransitivity; [exact Hm|apply Hk].
Qed.

Lemma keeps_ret {A} (a : A) : keeps_globals (mret a).
Proof. by intros s. Qed.

Lemma keeps_sdk {A} (m : M W A) : keeps_globals (on_sdk m).
Proof. intros s. unfold on_sdk, zoom. by destruct (m _). Qed.

Lemma keeps_attempt {A} (m : M (Otel W P) A) : keeps_globals m → keeps_globals (attempt m).
Proof. intros Hm s. unfold attempt. specialize (Hm s). by destruct (m s). Qed.

Lemma keeps_noop m : keeps_globals (or_noop m).
Proof.
  intros s. unfold or_noop. pose proof (keeps_sdk m s) as Hm.
  destruct (on_sdk m s) as [[p|e] s1]; [done|]. by destruct (is_import_error e).
Qed.

Lemma keeps_shutdown p : keeps_globals (shutdown_provider p).
Proof.
  destruct p as [[p|]|]; [|apply keeps_ret..].
  apply keeps_bind; [apply keeps_attempt, keeps_sdk|intros _; apply keeps_ret].
Qed.

Lemma keeps_tracer : keeps_globals get_tracer_provider.
Proof.
  intros s. unfold get_tracer_provider, mbind at 1, M_bind at 1, read.
  destruct (ot_tracer s) as [p|] eqn:Ht; [done|].
  assert (∀ (k : P → M (Otel W P) (provider P)) m,
    (∀ p, keeps_globals (k p)) → settled s ((p ← on_sdk m; set_tracer (Sdk p) ;; k p) s).2) as Hset.
  { intros k m Hk. unfold on_sdk, zoom, mbind, M_bind, set_tracer, modify.
    destruct (m _) as [[p|e] w]; [|done]. etransitivity; [|apply Hk]. split_and!; cbn; congruence || done. }
  destruct is_enabled; apply Hset; intros p; [|apply keeps_ret].
  apply keeps_bind; [|intros; apply keeps_ret].
  destruct (environ "OTEL_EXPORTER_OTLP_ENDPOINT") as [e|]; [|apply keeps_ret].
  unfold when. destruct (truthy e); [apply keeps_sdk|apply keeps_ret].
Qed.

Lemma keeps_meter : keeps_globals get_meter_provider.
Proof.
  intros s. unfold get_meter_provider, mbind at 1, M_bind at 1, read.
  destruct (ot_meter s) as [p|] eqn:Ht; [done|].
  pose proof (keeps_noop api_meter_provider s) as Hm. unfold mbind, M_bind.
  destruct (or_noop api_meter_provider s) as [[p|e] s1]; [|done].
  destruct Hm as (?&?&?). split_and!; cbn; congruence || done.
Qed.

Lemma keeps_logger : keeps_globals get_logger_provider.
Proof.
  intros s. unfold get_logger_provider, mbind at 1, M_bind at 1, read.
  destruct (ot_logger s) as [p|] eqn:Ht; [done|].
  pose proof (keeps_noop api_logger_provider s) as Hm. unfold mbind, M_bind.
  destruct (or_noop api_logger_provider s) as [[p|e] s1]; [|done].
  destruct Hm as (?&?&?). split_and!; cbn; congruence || done.
Qed.

Lemma keeps_handle name p : keeps_globals (handle_of name p).
Proof.
  destruct p; [|apply keeps_ret]. apply keeps_bind; [apply keeps_sdk|intros; apply keeps_ret].
Qed.

Lemma otel_step_settled s s' : otel_step s s' → settled s s'.
Proof.
  intros [name|name|name|].
  - apply keeps_bind; [apply keeps_tracer|apply keeps_handle].
  - apply keeps_bind; [apply keeps_meter|apply keeps_handle].
  - apply keeps_bind; [apply keeps_logger|apply keeps_handle].
  - do 3 (apply keeps_bind; [by intros ?|intros ?]).
    do 2 (apply keeps_bind; [apply keeps_shutdown|intros _]). apply keeps_shutdown.
Qed.

(** A provider once returned is the one returned ever after, after a shutdown
    too: nothing resets the globals. *)
Lemma tracer_provider_settles s p s1 s2 :
  get_tracer_provider s = (Ok p, s1) → star otel_step s1 s2 → get_tracer_provider s2 = (Ok p, s2).
Proof.
  intros Hg Hst.
  assert (ot_tracer s1 = Some p) as H1.
  { revert Hg. unfold get_tracer_provider, set_tracer, on_sdk, when. m_unfold.
    repeat (case_match; simplify_eq/=); intros; by simplify_eq. }
  destruct (star_preorder otel_step settled _ _ otel_step_settled Hst) as (Hk & _ & _).
  unfold get_tracer_provider. m_unfold. by rewrite (Hk _ H1).
Qed.

(** Shutdown never raises, whatever the providers do. *)
Lemma shutdown_total s : (otel_shutdown s).1 = Ok tt.
Proof.
  unfold otel_shutdown, shutdown_provider, on_sdk. m_unfold.
  repeat (case_match; simplify_eq/=); done.
Qed.

(** Without the packages meters and loggers fall back to objects without
    behaviour, tracers do not: the import error reaches the caller. *)
Lemma tracer_needs_packages s e w :
  has_otel = false → ot_tracer s = None → ot_meter s = None → is_import_error e = true →
  api_tracer_provider (ot_client s) = (Raise e, w) →
  api_meter_provider (ot_client s) = (Raise e, w) →
  (get_tracer_provider s).1 = Raise e ∧ (get_meter_provider s).1 = Ok Noop.
Proof.
  intros Ho Ht Hm He Hat Ham. split.
  - unfold get_tracer_provider, is_enabled, on_sdk. m_unfold. rewrite Ht, Ho. cbn. by rewrite Hat.
  - unfold get_meter_provider, or_noop, on_sdk. m_unfold. rewrite Hm, Ham. cbn. by rewrite He.
Qed.

(** When the exporter cannot be added the first call fails and every later one
    answers the provider without an exporter. *)
Lemma failed_exporter_is_kept s p endpoint e w w' :
  is_enabled = true → ot_tracer s = None →
  environ "OTEL_EXPORTER_OTLP_ENDPOINT" = Some endpoint → truthy endpoint = true →
  sdk_tracer_provider (default "kitematic" (environ "OTEL_SERVICE_NAME")) (ot_client s) = (Ok p, w) →
  add_exporter p endpoint w = (Raise e, w') →
  let '(o, s') := get_tracer_provider s in
  o = Raise e ∧ get_tracer_provider s' = (Ok (Sdk p), s').
Proof.
  intros He Ht Hep Htr Hp Ha. unfold get_tracer_provider at 1, on_sdk, set_tracer, when. m_unfold.
  rewrite Ht, He, Hp, Hep, Htr. cbn. rewrite Ha. done.
Qed.
End Otel.
