(* ===== verification/Logging.v ===== *)
(** * Log lines and serialised traces ([kernel/observability/logging.py], [tracing.py])

    The JSON formatter of the runtime's logger, the logger with its OpenTelemetry
    copy, and the dictionaries a trace is answered as. A record reaches the
    formatter with the arguments of its message already in the text; the name and
    the text of an exception are its [exc_info]. *)
From S2P Require Import Prelude PyStr PyDict PyVal PyText Observability Json.
From Stdlib Require Import Ascii.

(** ** Formatting *)

Definition levelname (l : log_level) : string :=
  match l with LDebug => "DEBUG" | LInfo => "INFO" | LWarning => "WARNING" | LError => "ERROR" end.

(** [entry] before it is printed; [now] is [datetime.now(UTC)]. An empty
    correlation or metrics dictionary is falsy. *)
Definition log_entry (now : Z) (exc_info : option (string * string)) (r : LogRecord) : dict pyval :=
  let entry := [ ("timestamp", VStr (isoformat now)); ("level", VStr (levelname (lr_level r)));
                 ("logger", VStr (lr_name r)); ("message", VStr (lr_message r)) ] in
  let entry := match lr_correlation r with [] => entry | _ => dict_update entry (lr_correlation r) end in
  let entry := match exc_info with
               | Some (type_, message) =>
                   dict_set "exception" (VDict [("type", VStr type_); ("message", VStr message)]) entry
               | None => entry
               end in
  match lr_metrics r with
  | Some (m :: ms) => dict_set "metrics" (VDict (m :: ms)) entry
  | _ => entry
  end.

(** [JSONLogFormatter.format]; every value is one JSON has, so [default=str] is
    never called. *)
Definition format (float_repr : Q → string) (now : Z) (exc_info : option (string * string))
    (r : LogRecord) : string :=
  json_dumps float_repr (VDict (log_entry now exc_info r)).

(** ** The logger and its copy *)

(** The third-party logger the records are also given to. *)
Class OtelLogger (W : Type) := { otel_emit : LogRecord → M W unit }.

(** [ml_otel]: whether [_otel_logger] is set. *)
Record MirroredLogger := mkMirroredLogger {
  ml_logger : RuntimeLogger;
  ml_otel : bool
}.

Definition MirroredLogger_new (name : string) (otel_logger : bool) : MirroredLogger :=
  mkMirroredLogger (RuntimeLogger_new name) otel_logger.

Section Logger.
Context {W : Type} `{!OtelLogger W}.

(** The record [_log] makes: [{**base, **(correlation or {})}]. *)
Definition make_record (l : RuntimeLogger) (level : log_level) (message : string)
    (correlation : option (dict pyval)) (extra : dict pyval) : LogRecord :=
  mkLogRecord (lg_name l) level message (dict_update (lg_base_correlation l) (default [] correlation))
    (match extra with [] => None | _ => Some extra end).

(** [_log] over the records handled so far and the third-party client. *)
Definition _log (l : MirroredLogger) (level : log_level) (message : string)
    (correlation : option (dict pyval)) (extra : dict pyval) : M (list LogRecord * W) unit :=
  let record := make_record (ml_logger l) level message correlation extra in
  modify (λ s, (s.1 ++ [record], s.2));;
  when (ml_otel l) (zoom snd (λ w s, (s.1, w)) (otel_emit record)).
End Logger.

(** The clone is made without the third-party logger. *)
Definition mirrored_with_correlation (l : MirroredLogger) (correlation : dict pyval) : MirroredLogger :=
  mkMirroredLogger (with_correlation (ml_logger l) correlation) false.

(** Without a correlation of the call, what is handled is [Observability.log_to]. *)
Lemma make_record_plain l level message extra sink :
  log_to l level message extra sink = sink ++ [make_record l level message None extra].
Proof. done. Qed.

(** ** Traces as dictionaries *)

Definition TraceEntry_to_dict (e : TraceEntry) : dict pyval :=
  [ ("phase", VStr (TracePhase_value (te_phase e))); ("start_time", VStr (isoformat (te_start_time e)));
    ("end_time", VStr (isoformat (te_end_time e))); ("duration_ms", VFloat (py_round2 (te_duration_ms e)));
    ("success", VBool (te_success e));
    ("error", match te_error e with Some m => VStr m | None => VNone end);
    ("metadata", VDict (te_metadata e)) ].

Definition get_trace (t : ExecutionTracer) : list (dict pyval) := map TraceEntry_to_dict (tr_entries t).

(** ** One line each *)

Definition printable (c : ascii) : bool := (32 <=? code c)%Z && (code c <=? 126)%Z.
(** Values whose strings are ASCII and whose floats print as such. *)
Fixpoint ascii_value (float_repr : Q → string) (v : pyval) : bool :=
  match v with
  | VNone | VBool _ | VInt _ => true
  | VFloat q => str_all printable (float_repr q)
  | VStr s => is_ascii s
  | VList l => forallb (ascii_value float_repr) l
  | VDict d => forallb (λ kv, is_ascii (fst kv) && ascii_value float_repr (snd kv)) d
  end.

Lemma str_all_join p sep l :
  str_all p sep = true → Forall (λ s, str_all p s = true) l → str_all p (str_join sep l) = true.
Proof.
  intros Hs. induction 1 as [|s l H1 H2 IH]; [done|]. destruct l as [|t l]; [by cbn|].
  change (str_join sep (s :: t :: l)) with (s +:+ sep +:+ str_join sep (t :: l)).
  by rewrite !str_all_app, H1, Hs, IH.
Qed.

Lemma escape_printable c : (code c <? 128)%Z = true → str_all printable (escape (code c)) = true.
Proof.
  destruct c as [[] [] [] [] [] [] [] []]; try (intros H; vm_compute in H; discriminate H);
    intros _; reflexivity.
Qed.

Lemma json_string_printable s : is_ascii s = true → str_all printable (json_string s) = true.
Proof.
  intros Hs. unfold json_string. change (String quote_char ?t) with (str1 quote_char +:+ t).
  rewrite str_all_app. apply andb_true_iff. split; [done|].
  induction s as [|c s IH]; [done|]. cbn [is_ascii] in Hs. apply andb_true_iff in Hs as [Hc Hs].
  rewrite codepoints_ascii by done. cbn [foldr]. by rewrite str_all_app, escape_printable, IH.
Qed.

Lemma pretty_printable (x : N) s :
  str_all printable s = true → str_all printable (pretty_N_go x s) = true.
Proof.
  revert s. induction (N.lt_wf_0 x) as [x _ IH]; intros s Hs.
  destruct (decide (x = 0)%N) as [->|Hx]; [by rewrite pretty_N_go_0|].
  rewrite pretty_N_go_step by lia. apply IH; [apply N.div_lt; lia|].
  assert (x mod 10 < 10)%N as Hmod by (apply N.mod_lt; lia).
  destruct (digit_char _ Hmod) as [Hd _]. cbn [str_all printable]. rewrite Hs, andb_true_r.
  unfold is_digit in Hd. unfold printable. apply andb_true_iff in Hd as [H1%Z.leb_le H2%Z.leb_le].
  apply andb_true_iff. split; apply Z.leb_le; lia.
Qed.

Lemma str_of_Z_printable z : str_all printable (str_of_Z z) = true.
Proof.
  assert (∀ x : N, str_all printable (pretty x) = true) as HN.
  { intros x. unfold pretty, pretty_N. case_decide; [done|]. by apply pretty_printable. }
  unfold str_of_Z, pretty, pretty_Z. destruct z as [|p|p]; [done|apply HN|].
  rewrite str_all_app. apply andb_true_iff. split; [done|apply HN].
Qed.

Lemma json_text_printable fr v : ascii_value fr v = true → str_all printable (json_text fr v) = true.
Proof.
  induction v as [|b|z|q|s|l IH|d IH] using pyval_rect'; intros Hv; try done.
  - by destruct b.
  - apply str_of_Z_printable.
  - by apply json_string_printable.
  - cbn [json_text]. rewrite !str_all_app. cbn [ascii_value] in Hv.
    rewrite (str_all_join _ ", "); [done|done|]. apply Forall_fmap.
    induction IH as [|x l Hx Hl IHl]; [done|].
    cbn [forallb] in Hv. apply andb_true_iff in Hv as [H1 H2]. constructor; [by apply Hx|by apply IHl].
  - cbn [json_text]. rewrite !str_all_app. cbn [ascii_value] in Hv.
    rewrite (str_all_join _ ", "); [done|done|]. apply Forall_fmap.
    induction IH as [|x l Hx Hl IHl]; [done|].
    cbn [forallb] in Hv. apply andb_true_iff in Hv as [[H1 H2]%andb_true_iff H3].
    constructor; [|by apply IHl]. unfold compose. rewrite !str_all_app.
    rewrite json_string_printable, Hx by done. done.
Qed.

Lemma key_sorted_ascii fr v : ascii_value fr v = true → ascii_value fr (key_sorted v) = true.
Proof.
  induction v as [|b|z|q|s|l IH|d IH] using pyval_rect'; intros Hv; try done;
    cbn [ascii_value key_sorted] in *.
  - induction IH as [|x l Hx Hl IHl]; [done|].
    cbn [forallb map] in *. apply andb_true_iff in Hv as [H1 H2]. by rewrite Hx, IHl.
  - apply forallb_forall. intros kv Hkv%list_elem_of_In. rewrite sorted_items_perm in Hkv.
    apply list_elem_of_fmap in Hkv as (kv' & -> & Hin). simpl.
    rewrite forallb_forall in Hv. rewrite Forall_forall in IH. specialize (IH _ Hin).
    apply list_elem_of_In, Hv in Hin. apply andb_true_iff in Hin as [H1 H2].
    apply andb_true_iff. auto.
Qed.

(** ** Properties *)

Lemma forallb_elem {A} (f : A → bool) l : forallb f l = true ↔ ∀ x, x ∈ l → f x = true.
Proof.
  rewrite forallb_forall. split; intros H x Hx; apply H; by apply list_elem_of_In.
Qed.

Lemma dict_update_ok (P : string * pyval → bool) (d d' : dict pyval) :
  forallb P d = true → forallb P d' = true → forallb P (dict_update d d') = true.
Proof.
  rewrite !forallb_elem. unfold dict_update. revert d. induction d' as [|[k v] d' IH]; [done|].
  intros d Hd Hd'. cbn. apply IH; [|intros x Hx; apply Hd'; by right].
  intros kv Hkv%dict_set_items. destruct Hkv as [->|Hkv]; [apply Hd'; by left|auto].
Qed.
Lemma str_pad_printable w z : str_all printable (str_pad w z) = true.
Proof.
  unfold str_pad. rewrite str_all_app, str_of_Z_printable, andb_true_r.
  generalize (w - str_len (str_of_Z z))%nat. intros n. induction n as [|n IH]; [done|exact IH].
Qed.

Lemma isoformat_ascii t : is_ascii (isoformat t) = true.
Proof.
  assert (∀ s, str_all printable s = true → is_ascii s = true) as Hp.
  { intros s. induction s as [|c s IH]; [done|]. cbn. unfold printable.
    rewrite !andb_true_iff, !Z.leb_le, Z.ltb_lt. intros [[??] ?]. split; [lia|auto]. }
  apply Hp. unfold isoformat, isoformat_naive. destruct (civil_of_days _) as [[y m] d].
  rewrite !str_all_app, !str_pad_printable. destruct (_ =? 0)%Z; [done|].
  by rewrite str_all_app, str_pad_printable.
Qed.

(** What a record and an exception are made of. *)
Definition ascii_record (fr : Q → string) (exc_info : option (string * string)) (r : LogRecord) : Prop :=
  is_ascii (lr_name r) = true ∧ is_ascii (lr_message r) = true
  ∧ ascii_value fr (VDict (lr_correlation r)) = true
  ∧ (∀ m, lr_metrics r = Some m → ascii_value fr (VDict m) = true)
  ∧ ∀ t m, exc_info = Some (t, m) → is_ascii t = true ∧ is_ascii m = true.

Lemma log_entry_ascii fr now exc_info r :
  ascii_record fr exc_info r → ascii_value fr (VDict (log_entry now exc_info r)) = true.
Proof.
  intros (Hn & Hm & Hc & Hx & He). cbn [ascii_value] in *. unfold log_entry.
  set (P := λ kv : string * pyval, is_ascii kv.1 && ascii_value fr kv.2) in *.
  assert (∀ k v d, P (k, v) = true → forallb P d = true → forallb P (dict_set k v d) = true) as Hset.
  { intros k v d Hv Hd. apply (dict_update_ok P d [(k, v)]); [done|]. cbn [forallb]. by rewrite Hv. }
  set (e0 := [_; _; _; _]). assert (forallb P e0 = true) as H0.
  { unfold e0, P. cbn -[isoformat]. rewrite isoformat_ascii, Hn, Hm. by destruct (lr_level r). }
  set (e1 := match lr_correlation r with [] => e0 | _ => _ end). assert (forallb P e1 = true) as H1.
  { unfold e1. destruct (lr_correlation r) as [|kv c]; [done|]. by apply dict_update_ok. }
  set (e2 := match exc_info with Some _ => _ | None => e1 end). assert (forallb P e2 = true) as H2.
  { unfold e2. destruct exc_info as [[t m]|]; [|done]. destruct (He t m eq_refl) as [Ht Hm'].
    apply Hset; [|done]. unfold P. cbn. by rewrite Ht, Hm'. }
  destruct (lr_metrics r) as [[|kv m]|]; [done| |done].
  apply Hset; [|done]. exact (Hx (kv :: m) eq_refl).
Qed.

(** Whatever the message, the correlation and the metrics hold, line feeds
    included, a record is one line of printable characters; when it has no float
    and no repeated key, reading the line back gives every field of the entry. *)
Theorem log_line_exact fr now exc_info r :
  ascii_record fr exc_info r →
  str_all printable (format fr now exc_info r) = true
  ∧ (json_exact (VDict (log_entry now exc_info r)) = true →
     ∃ d, json_loads (format fr now exc_info r) = Some (VDict d)
       ∧ ∀ k, dict_get k d = key_sorted <$> dict_get k (log_entry now exc_info r)).
Proof.
  intros Hr. split; [by apply json_text_printable, key_sorted_ascii, log_entry_ascii|].
  intros He. eexists. split; [exact (json_round_trip fr _ He)|].
  intros k. apply key_sorted_get.
  cbn [json_exact] in He. by apply andb_true_iff in He as [_ He%bool_decide_eq_true].
Qed.

Definition demo_record : LogRecord :=
  make_record (RuntimeLogger_new "kitematic.runtime") LInfo
    ("done" +:+ String (chr 10) "ok") (Some [("tenant_id", VStr "t1"); ("level", VStr "x")])
    [("steps", VInt 3)].

Lemma log_line_exact_witness :
  str_all printable (format (λ _, ε) 0 None demo_record) = true
  ∧ dict_get "level" (log_entry 0 None demo_record) = Some (VStr "x")
  ∧ ∃ d, json_loads (format (λ _, ε) 0 None demo_record) = Some (VDict d).
Proof.
  assert (ascii_record (λ _, ε) None demo_record) as Hr
    by (split_and!; [vm_compute; reflexivity..|by intros m [= <-]|by intros]).
  destruct (log_line_exact (λ _, ε) 0 None demo_record Hr) as [H1 H2].
  split; [exact H1|]. split; [vm_compute; reflexivity|].
  destruct H2 as (d & Hd & _); [vm_compute; reflexivity|]. exists d. exact Hd.
Defined.

(** A correlated logger no longer gives its records to the third-party logger. *)
Lemma correlated_not_emitted {W} `{!OtelLogger W} l correlation level message extra (s : list LogRecord * W) :
  (_log (mirrored_with_correlation l correlation) level message None extra s).2.2 = s.2.
Proof. done. Qed.
