(* ===== verification/Mirrors.v ===== *)
(** * Metrics and phases mirrored to OpenTelemetry
    ([kernel/observability/metrics.py], [tracing.py])

    A registry with a meter and a tracer with a third-party tracer do to
    themselves what [Observability] says and give a copy to the third party's
    instruments and spans. The calls of those are a class over an arbitrary
    client and may raise; [OtelLaws] states what OpenTelemetry documents: its
    calls do not raise, and an instrument or a span keeps what it is given. *)
From S2P Require Import Prelude PyStr PyDict PyVal PyText Observability.
From Stdlib Require Import QArith Ascii.

Class OtelApi (W : Type) := {
  create_counter : string → string → M W nat;
  create_histogram : string → string → M W nat;
  counter_add : nat → Z → M W unit;
  histogram_record : nat → Q → M W unit;
  start_span : string → dict pyval → M W nat;
  span_set_error : nat → string → M W unit;
  span_set_attribute : nat → string → pyval → M W unit;
  span_end : nat → M W unit
}.

(** [s.replace(".", "_")] *)
Fixpoint dots_to_underscores (s : string) : string :=
  match s with
  | ε => ε
  | String c s' => String (if decide (c = "."%char) then "_"%char else c) (dots_to_underscores s')
  end.

(** ** The registry and its instruments *)

(** [mm_meter]: whether [_otel_meter] is set. *)
Record MirroredMetrics (W : Type) := mkMirroredMetrics {
  mm_client : W;
  mm_metrics : MetricsRegistry;
  mm_meter : bool;
  mm_counters : dict nat;
  mm_histograms : dict nat
}.
Arguments mkMirroredMetrics {W}.
Arguments mm_client {W}.
Arguments mm_metrics {W}.
Arguments mm_meter {W}.
Arguments mm_counters {W}.
Arguments mm_histograms {W}.

Definition MirroredMetrics_new {W} (w : W) (otel_meter : bool) : MirroredMetrics W :=
  mkMirroredMetrics w MetricsRegistry_new otel_meter [] [].

Section Metrics.
Context {W : Type} `{!OtelApi W}.
Implicit Types s : MirroredMetrics W.

Definition on_meter {A} (m : M W A) : M (MirroredMetrics W) A :=
  zoom mm_client (λ w s, mkMirroredMetrics w (mm_metrics s) (mm_meter s) (mm_counters s) (mm_histograms s)) m.
Definition on_metrics (f : MetricsRegistry → MetricsRegistry) : M (MirroredMetrics W) unit :=
  modify (λ s, mkMirroredMetrics (mm_client s) (f (mm_metrics s)) (mm_meter s) (mm_counters s) (mm_histograms s)).

Definition _otel_counter (metric : string) : M (MirroredMetrics W) (option nat) :=
  s ← read id;
  if negb (mm_meter s) then mret None else
  match dict_get metric (mm_counters s) with
  | Some h => mret (Some h)
  | None =>
      h ← on_meter (create_counter (dots_to_underscores metric) ("Counter for " +:+ metric));
      modify (λ s, mkMirroredMetrics (mm_client s) (mm_metrics s) (mm_meter s)
        (dict_set metric h (mm_counters s)) (mm_histograms s));;
      mret (Some h)
  end.

Definition _otel_histogram (metric : string) : M (MirroredMetrics W) (option nat) :=
  s ← read id;
  if negb (mm_meter s) then mret None else
  match dict_get metric (mm_histograms s) with
  | Some h => mret (Some h)
  | None =>
      h ← on_meter (create_histogram (dots_to_underscores metric) ("Histogram for " +:+ metric));
      modify (λ s, mkMirroredMetrics (mm_client s) (mm_metrics s) (mm_meter s)
        (mm_counters s) (dict_set metric h (mm_histograms s)));;
      mret (Some h)
  end.

(** [increment(metric, value)] *)
Definition mirrored_increment (metric : string) (value : Z) : M (MirroredMetrics W) unit :=
  on_metrics (increment metric value);;
  otel ← _otel_counter metric;
  match otel with Some h => on_meter (counter_add h value) | None => mret tt end.

(** [record(metric, value)] *)
Definition mirrored_record (metric : string) (value : Q) : M (MirroredMetrics W) unit :=
  on_metrics (metrics_record metric value);;
  otel ← _otel_histogram metric;
  match otel with Some h => on_meter (histogram_record h value) | None => mret tt end.
End Metrics.

(** ** The tracer and its spans *)

(** [mt_otel]: whether [_otel_tracer] is set; [mt_status]: whether
    [opentelemetry.trace.status] could be imported. [mt_spans] is [_otel_spans],
    the last one opened at the end. *)
Record MirroredTracer (W : Type) := mkMirroredTracer {
  mt_client : W;
  mt_tracer : ExecutionTracer;
  mt_otel : bool;
  mt_status : bool;
  mt_spans : list nat
}.
Arguments mkMirroredTracer {W}.
Arguments mt_client {W}.
Arguments mt_tracer {W}.
Arguments mt_otel {W}.
Arguments mt_status {W}.
Arguments mt_spans {W}.

Definition MirroredTracer_new {W} (w : W) (c : ObservabilityContext) (otel_tracer status : bool)
    : MirroredTracer W := mkMirroredTracer w (ExecutionTracer_new c) otel_tracer status [].

Section Tracer.
Context {W : Type} `{!OtelApi W}.
Implicit Types s : MirroredTracer W.

Definition on_spans {A} (m : M W A) : M (MirroredTracer W) A :=
  zoom mt_client (λ w s, mkMirroredTracer w (mt_tracer s) (mt_otel s) (mt_status s) (mt_spans s)) m.
Definition put_tracer (f : ExecutionTracer → ExecutionTracer) : M (MirroredTracer W) unit :=
  modify (λ s, mkMirroredTracer (mt_client s) (f (mt_tracer s)) (mt_otel s) (mt_status s) (mt_spans s)).
Definition put_spans (f : list nat → list nat) : M (MirroredTracer W) unit :=
  modify (λ s, mkMirroredTracer (mt_client s) (mt_tracer s) (mt_otel s) (mt_status s) (f (mt_spans s))).

(** The span of a phase that ends. *)
Definition close_span (h : nat) (success : bool) (error : option string) (duration_ms : Q)
    : M (MirroredTracer W) unit :=
  s ← read id;
  when (truthy_opt error && mt_status s) (on_spans (span_set_error h (default ε error)));;
  on_spans (span_set_attribute h "duration_ms" (VFloat duration_ms));;
  on_spans (span_set_attribute h "success" (VStr (if success then "True" else "False")));;
  on_spans (span_end h).

(** [end_phase(success, error)]: the entry is recorded before the span is
    closed and the phase left after it. *)
Definition mirrored_end_phase (now : Z) (success : bool) (error : option string)
    : M (MirroredTracer W) unit :=
  s ← read id;
  match tr_current_phase (mt_tracer s) with
  | None => raise no_phase_error
  | Some phase =>
      let duration_ms := (now - tr_current_start (mt_tracer s)) # 1000 in
      let entry := mkTrace phase (tr_current_start (mt_tracer s)) now duration_ms success error
                     (tr_current_metadata (mt_tracer s)) in
      put_tracer (λ t, mkTracer (tr_context t) (tr_entries t ++ [entry]) (tr_current_phase t)
                         (tr_current_start t) (tr_current_metadata t));;
      match last (mt_spans s) with
      | Some h => put_spans (λ l, take (pred (length l)) l);; close_span h success error duration_ms
      | None => mret tt
      end;;
      put_tracer (λ t, mkTracer (tr_context t) (tr_entries t) None 0 [])
  end.

Definition span_attributes (c : ObservabilityContext) (metadata : dict pyval) : dict pyval :=
  dict_update [ ("execution_id", VStr (oc_execution_id c)); ("agent_id", VStr (oc_agent_id c));
                ("tenant_id", VStr (oc_tenant_id c)); ("intent_action", VStr (oc_intent_action c)) ]
    metadata.

(** [start_phase(phase, metadata)]; [now0] is the clock reading of the phase it
    ends first. *)
Definition mirrored_start_phase (now0 now : Z) (phase : TracePhase) (metadata : dict pyval)
    : M (MirroredTracer W) unit :=
  s ← read id;
  match tr_current_phase (mt_tracer s) with
  | Some _ => mirrored_end_phase now0 true None
  | None => mret tt
  end;;
  put_tracer (λ t, mkTracer (tr_context t) (tr_entries t) (Some phase) now metadata);;
  when (mt_otel s)
    (h ← on_spans (start_span (TracePhase_value phase)
                     (span_attributes (tr_context (mt_tracer s)) metadata));
     put_spans (λ l, l ++ [h])).

(** [clear()] leaves the spans as they are. *)
Definition mirrored_clear : M (MirroredTracer W) unit := put_tracer tracer_clear.
End Tracer.

(** ** What the third party promises *)

(** Counters with their totals, histograms with their values, open spans. *)
Record otel_view := mkOtelView {
  ov_totals : gmap nat Z;
  ov_values : gmap nat (list Q);
  ov_open : list nat
}.

Class OtelLaws (W : Type) `{!OtelApi W} := {
  ol_view : W → otel_view;
  law_create_counter name description w : ∃ h w', create_counter name description w = (Ok h, w')
    ∧ ov_totals (ol_view w) !! h = None
    ∧ ol_view w' = mkOtelView (<[h := 0%Z]> (ov_totals (ol_view w))) (ov_values (ol_view w)) (ov_open (ol_view w));
  law_create_histogram name description w : ∃ h w', create_histogram name description w = (Ok h, w')
    ∧ ov_values (ol_view w) !! h = None
    ∧ ol_view w' = mkOtelView (ov_totals (ol_view w)) (<[h := []]> (ov_values (ol_view w))) (ov_open (ol_view w));
  law_counter_add h v w : ∃ w', counter_add h v w = (Ok tt, w')
    ∧ ol_view w' = mkOtelView (alter (λ z, z + v)%Z h (ov_totals (ol_view w))) (ov_values (ol_view w)) (ov_open (ol_view w));
  law_histogram_record h v w : ∃ w', histogram_record h v w = (Ok tt, w')
    ∧ ol_view w' = mkOtelView (ov_totals (ol_view w)) (alter (λ l, l ++ [v]) h (ov_values (ol_view w))) (ov_open (ol_view w));
  law_start_span name attributes w : ∃ h w', start_span name attributes w = (Ok h, w')
    ∧ h ∉ ov_open (ol_view w)
    ∧ ol_view w' = mkOtelView (ov_totals (ol_view w)) (ov_values (ol_view w)) (ov_open (ol_view w) ++ [h]);
  law_set_error h message w : ∃ w', span_set_error h message w = (Ok tt, w') ∧ ol_view w' = ol_view w;
  law_set_attribute h k v w : ∃ w', span_set_attribute h k v w = (Ok tt, w') ∧ ol_view w' = ol_view w;
  law_span_end h w : ∃ w', span_end h w = (Ok tt, w')
    ∧ ol_view w' = mkOtelView (ov_totals (ol_view w)) (ov_values (ol_view w))
                     (filter (λ h', h' ≠ h) (ov_open (ol_view w)))
}.

(** *** Metrics *)

(** A family of instruments [made] for metrics, over what each holds. *)
Definition instruments {V} (made : dict nat) (held : gmap nat V) (value : string → V) (used : string → Prop) : Prop :=
  (∀ k h, dict_get k made = Some h → held !! h = Some (value k))
  ∧ (∀ k, used k → is_Some (dict_get k made))
  ∧ ∀ k k' h, dict_get k made = Some h → dict_get k' made = Some h → k = k'.

Lemma instruments_new {V} made (held : gmap nat V) value used k h v :
  instruments made held value used → held !! h = None → dict_get k made = None → value k = v →
  instruments (dict_set k h made) (<[h := v]> held) value used.
Proof.
  intros (H1 & H2 & H3) Hh Hk Hv. split_and!.
  - intros k' h'. rewrite dict_get_set. case_decide as Hd.
    + intros [= <-]. rewrite lookup_insert_eq. by subst.
    + intros Hg. rewrite lookup_insert_ne; [auto|]. intros <-. rewrite (H1 _ _ Hg) in Hh. done.
  - intros k' Hu. rewrite dict_get_set. case_decide; [by eexists|auto].
  - intros k1 k2 h'. rewrite !dict_get_set. repeat case_decide; subst; try done; eauto.
    + intros [= <-] Hg. by rewrite (H1 _ _ Hg) in Hh.
    + intros Hg [= <-]. by rewrite (H1 _ _ Hg) in Hh.
Qed.

Lemma instruments_put {V} made (held : gmap nat V) value value' used k h f :
  instruments made held value used → dict_get k made = Some h →
  value' k = f (value k) → (∀ k', k' ≠ k → value' k' = value k') →
  instruments made (alter f h held) value' (λ k', k' = k ∨ used k').
Proof.
  intros (H1 & H2 & H3) Hk Hv Hv'. split_and!; [| |done].
  - intros k' h' Hg. destruct (decide (h' = h)) as [->|Hne].
    + assert (k' = k) as -> by by eapply H3. by rewrite lookup_alter_eq, (H1 _ _ Hk), Hv.
    + rewrite lookup_alter_ne by done. rewrite (H1 _ _ Hg), Hv'; [done|]. intros ->. congruence.
  - intros k' [->|Hu]; [by eexists|auto].
Qed.

Lemma instruments_used {V} made (held : gmap nat V) value (used used' : string → Prop) :
  (∀ k, used' k → used k) → instruments made held value used → instruments made held value used'.
Proof. intros Hu (H1 & H2 & H3). split_and!; auto. Qed.

Section MetricsLaws.
Context {W : Type} `{!OtelApi W, !OtelLaws W}.
Implicit Types s : MirroredMetrics W.

Definition totals s := ov_totals (ol_view (mm_client s)).
Definition values s := ov_values (ol_view (mm_client s)).

Lemma otel_counter_ok k s value used :
  mm_meter s = true → instruments (mm_counters s) (totals s) value used →
  (dict_get k (mm_counters s) = None → value k = 0%Z) →
  ∃ h w made, _otel_counter k s
      = (Ok (Some h), mkMirroredMetrics w (mm_metrics s) true made (mm_histograms s))
    ∧ dict_get k made = Some h ∧ instruments made (ov_totals (ol_view w)) value used
    ∧ ov_values (ol_view w) = values s.
Proof.
  intros Hm Hi Hz. unfold _otel_counter. rewrite (bind_ok (read _) _ _ _ _ eq_refl). cbn. rewrite Hm. cbn.
  destruct (dict_get k (mm_counters s)) as [h|] eqn:Hk.
  { exists h, (mm_client s), (mm_counters s). split_and!; [|done..]. destruct s. cbn in *. by subst. }
  destruct (law_create_counter (dots_to_underscores k) ("Counter for " +:+ k) (mm_client s))
    as (h & w & Hc & Hnew & Hv).
  exists h, w, (dict_set k h (mm_counters s)). split.
  { rewrite (bind_ok (on_meter (create_counter (dots_to_underscores k) ("Counter for " +:+ k))) _ s h (mkMirroredMetrics w (mm_metrics s) (mm_meter s) (mm_counters s) (mm_histograms s)))
      by (unfold on_meter, zoom; by rewrite Hc).
    cbn. by rewrite Hm. }
  rewrite dict_get_set_eq, Hv. split_and!; [done| |done]. cbn. apply instruments_new; auto.
Qed.

Lemma otel_histogram_ok k s value used :
  mm_meter s = true → instruments (mm_histograms s) (values s) value used →
  (dict_get k (mm_histograms s) = None → value k = []) →
  ∃ h w made, _otel_histogram k s
      = (Ok (Some h), mkMirroredMetrics w (mm_metrics s) true (mm_counters s) made)
    ∧ dict_get k made = Some h ∧ instruments made (ov_values (ol_view w)) value used
    ∧ ov_totals (ol_view w) = totals s.
Proof.
  intros Hm Hi Hz. unfold _otel_histogram. rewrite (bind_ok (read _) _ _ _ _ eq_refl). cbn. rewrite Hm. cbn.
  destruct (dict_get k (mm_histograms s)) as [h|] eqn:Hk.
  { exists h, (mm_client s), (mm_histograms s). split_and!; [|done..]. destruct s. cbn in *. by subst. }
  destruct (law_create_histogram (dots_to_underscores k) ("Histogram for " +:+ k) (mm_client s))
    as (h & w & Hc & Hnew & Hv).
  exists h, w, (dict_set k h (mm_histograms s)). split.
  { rewrite (bind_ok (on_meter (create_histogram (dots_to_underscores k) ("Histogram for " +:+ k))) _ s h (mkMirroredMetrics w (mm_metrics s) (mm_meter s) (mm_counters s) (mm_histograms s)))
      by (unfold on_meter, zoom; by rewrite Hc).
    cbn. by rewrite Hm. }
  rewrite dict_get_set_eq, Hv. split_and!; [done| |done]. cbn. apply instruments_new; auto.
Qed.

(** Every counter and histogram in use has an instrument of its own, which holds
    what the registry answers. *)
Definition mirrored s : Prop :=
  mm_meter s = true
  ∧ instruments (mm_counters s) (totals s) (get_counter (mm_metrics s))
      (λ k, is_Some (dict_get k (mt_counters (mm_metrics s))))
  ∧ instruments (mm_histograms s) (values s) (get_histogram (mm_metrics s))
      (λ k, is_Some (dict_get k (mt_histograms (mm_metrics s)))).

Lemma not_used {V} (d : dict V) made (held : gmap nat V) value k :
  instruments made held value (λ k, is_Some (dict_get k d)) → dict_get k made = None → dict_get k d = None.
Proof. intros (_ & H & _) Hk. destruct (dict_get k d) eqn:Hd; [|done]. destruct (H k); [by eexists|congruence]. Qed.

Lemma mirrored_increment_ok k v s : mirrored s →
  ∃ s', mirrored_increment k v s = (Ok tt, s') ∧ mm_metrics s' = increment k v (mm_metrics s) ∧ mirrored s'.
Proof.
  intros (Hm & Hc & Hh). unfold mirrored_increment, on_metrics.
  rewrite (bind_ok (modify _) _ _ _ _ eq_refl).
  match goal with |- context [(_ ≫= _) ?s] => set (s1 := s) end.
  destruct (otel_counter_ok k s1 (get_counter (mm_metrics s)) (λ k, is_Some (dict_get k (mt_counters (mm_metrics s)))))
    as (h & w & made & Ho & Hk & Hi & Hv); [done|done| |].
  { intros Hk%(not_used _ _ _ _ _ Hc). unfold get_counter, dict_get_or. by rewrite Hk. }
  rewrite (bind_ok _ _ _ _ _ Ho). destruct (law_counter_add h v w) as (w' & Ha & Hw').
  unfold on_meter, zoom. cbn. rewrite Ha. eexists. split; [done|]. split; [done|].
  split; [done|]. unfold totals, values. cbn. rewrite Hw'. cbn. split.
  - eapply instruments_used; [|eapply (instruments_put _ _ (get_counter (mm_metrics s)))]; [|done|done|..].
    + intros k'. cbn. rewrite dict_get_set. case_decide; auto.
    + unfold get_counter, dict_get_or. cbn. by rewrite dict_get_set_eq.
    + intros k' Hne. unfold get_counter, dict_get_or. cbn. by rewrite dict_get_set_ne.
  - rewrite Hv. exact Hh.
Qed.

Lemma mirrored_record_ok k v s : mirrored s →
  ∃ s', mirrored_record k v s = (Ok tt, s') ∧ mm_metrics s' = metrics_record k v (mm_metrics s) ∧ mirrored s'.
Proof.
  intros (Hm & Hc & Hh). unfold mirrored_record, on_metrics.
  rewrite (bind_ok (modify _) _ _ _ _ eq_refl).
  match goal with |- context [(_ ≫= _) ?s] => set (s1 := s) end.
  destruct (otel_histogram_ok k s1 (get_histogram (mm_metrics s)) (λ k, is_Some (dict_get k (mt_histograms (mm_metrics s)))))
    as (h & w & made & Ho & Hk & Hi & Hv); [done|done| |].
  { intros Hk%(not_used _ _ _ _ _ Hh). unfold get_histogram, dict_get_or. by rewrite Hk. }
  rewrite (bind_ok _ _ _ _ _ Ho). destruct (law_histogram_record h v w) as (w' & Ha & Hw').
  unfold on_meter, zoom. cbn. rewrite Ha. eexists. split; [done|]. split; [done|].
  split; [done|]. unfold totals, values. cbn. rewrite Hw'. cbn. split; [rewrite Hv; exact Hc|].
  eapply instruments_used; [|eapply (instruments_put _ _ (get_histogram (mm_metrics s)))]; [|done|done|..].
  - intros k'. cbn. rewrite dict_get_set. case_decide; auto.
  - unfold get_histogram, dict_get_or. cbn. by rewrite dict_get_set_eq.
  - intros k' Hne. unfold get_histogram, dict_get_or. cbn. by rewrite dict_get_set_ne.
Qed.

Inductive metric_call := Increment (metric : string) (value : Z) | RecordValue (metric : string) (value : Q).
Definition metric_do (c : metric_call) s : MirroredMetrics W :=
  match c with Increment k v => (mirrored_increment k v s).2 | RecordValue k v => (mirrored_record k v s).2 end.
Definition metric_plain (c : metric_call) (m : MetricsRegistry) : MetricsRegistry :=
  match c with Increment k v => increment k v m | RecordValue k v => metrics_record k v m end.

(** Whatever is counted and recorded, the registry answers as one without a
    meter does, and every metric has an instrument, its own, that holds the
    registry's count or values. *)
Theorem metrics_mirrored w calls k :
  let s := foldl (λ s c, metric_do c s) (MirroredMetrics_new w true) calls in
  mm_metrics s = foldl (λ m c, metric_plain c m) MetricsRegistry_new calls
  ∧ (is_Some (dict_get k (mt_counters (mm_metrics s))) →
     ∃ h, dict_get k (mm_counters s) = Some h ∧ totals s !! h = Some (get_counter (mm_metrics s) k)
       ∧ ∀ k', dict_get k' (mm_counters s) = Some h → k' = k)
  ∧ (is_Some (dict_get k (mt_histograms (mm_metrics s))) →
     ∃ h, dict_get k (mm_histograms s) = Some h ∧ values s !! h = Some (get_histogram (mm_metrics s) k)
       ∧ ∀ k', dict_get k' (mm_histograms s) = Some h → k' = k).
Proof.
  intros s.
  assert (mm_metrics s = foldl (λ m c, metric_plain c m) MetricsRegistry_new calls ∧ mirrored s) as [Hs Hm].
  { assert (mirrored (MirroredMetrics_new w true)) as H0
      by (split; [done|]; split; (split_and!; [done|by intros k' [? ?]|done])).
    change MetricsRegistry_new with (mm_metrics (MirroredMetrics_new w true)).
    unfold s. revert H0. generalize (MirroredMetrics_new w true). clear.
    induction calls as [|c calls IH]; intros s0 H0; [done|]. cbn.
    assert (mm_metrics (metric_do c s0) = metric_plain c (mm_metrics s0) ∧ mirrored (metric_do c s0)) as [Hc Hm].
    { destruct c as [k v|k v]; cbn;
        [destruct (mirrored_increment_ok k v s0 H0) as (s' & -> & ? & ?)
        |destruct (mirrored_record_ok k v s0 H0) as (s' & -> & ? & ?)]; done. }
    destruct (IH _ Hm) as [H1 H2]. by rewrite <- Hc. }
  split; [done|]. destruct Hm as (_ & (C1 & C2 & C3) & (V1 & V2 & V3)). split.
  - intros Hk. destruct (C2 k Hk) as [h Hh]. exists h. split_and!; [done|by apply C1|eauto].
  - intros Hk. destruct (V2 k Hk) as [h Hh]. exists h. split_and!; [done|by apply V1|eauto].
Qed.
End MetricsLaws.

(** *** Phases *)

Section TracerLaws.
Context {W : Type} `{!OtelApi W}.
Implicit Types s : MirroredTracer W.

Definition with_tracer (t : ExecutionTracer) s : MirroredTracer W :=
  mkMirroredTracer (mt_client s) t (mt_otel s) (mt_status s) (mt_spans s).

(** Without a third-party tracer the phases are those of [Observability]. *)
Lemma end_phase_plain now success error s : mt_spans s = [] →
  mirrored_end_phase now success error s
  = (let '(o, t) := end_phase now success error (mt_tracer s) in (o, with_tracer t s)).
Proof.
  intros Hs. destruct s as [w t otel st spans]. cbn in Hs. subst. unfold mirrored_end_phase, end_phase.
  rewrite (bind_ok (read _) _ _ _ _ eq_refl). cbn. by destruct (tr_current_phase t).
Qed.

Lemma start_phase_plain now0 now phase metadata s : mt_otel s = false → mt_spans s = [] →
  mirrored_start_phase now0 now phase metadata s
  = (Ok tt, with_tracer (start_phase now0 now phase metadata (mt_tracer s)).2 s).
Proof.
  intros Ho Hs. unfold mirrored_start_phase, start_phase. rewrite (bind_ok (read _) _ _ _ _ eq_refl). cbn [id].
  destruct (tr_current_phase (mt_tracer s)) as [p|] eqn:Hp.
  - pose proof (end_phase_plain now0 true None s Hs) as He. unfold end_phase in *. rewrite Hp in *.
    rewrite (bind_ok _ _ _ _ _ He). destruct s. cbn in *. by subst.
  - rewrite (bind_ok (mret tt) _ _ _ _ eq_refl). destruct s. cbn in *. by subst.
Qed.

Context `{!OtelLaws W}.

(** The spans on the stack are the open ones: one in a phase, none outside. *)
Definition balanced s : Prop :=
  mt_otel s = true ∧ ov_open (ol_view (mt_client s)) = mt_spans s
  ∧ length (mt_spans s) = match tr_current_phase (mt_tracer s) with Some _ => 1 | None => 0 end%nat.

Lemma close_span_ok h success error d s :
  ∃ w, close_span h success error d s
       = (Ok tt, mkMirroredTracer w (mt_tracer s) (mt_otel s) (mt_status s) (mt_spans s))
    ∧ ov_open (ol_view w) = filter (λ h', h' ≠ h) (ov_open (ol_view (mt_client s))).
Proof.
  unfold close_span. rewrite (bind_ok (read _) _ _ _ _ eq_refl). cbn [id].
  set (e := when _ _).
  assert (∃ w0, e s = (Ok tt, mkMirroredTracer w0 (mt_tracer s) (mt_otel s) (mt_status s) (mt_spans s))
    ∧ ol_view w0 = ol_view (mt_client s)) as (w0 & He & Hw0).
  { unfold e, when. destruct (_ && _); [|exists (mt_client s); by destruct s].
    destruct (law_set_error h (default ε error) (mt_client s)) as (w0 & Hw & Hv).
    exists w0. unfold on_spans, zoom. by rewrite Hw. }
  rewrite (bind_ok _ _ _ _ _ He).
  destruct (law_set_attribute h "duration_ms" (VFloat d) w0) as (w1 & H1 & Hw1).
  destruct (law_set_attribute h "success" (VStr (if success then "True" else "False")) w1) as (w2 & H2 & Hw2).
  destruct (law_span_end h w2) as (w3 & H3 & Hw3).
  exists w3. unfold on_spans, zoom, mbind, M_bind. cbn [mt_client mt_tracer mt_otel mt_status mt_spans].
  rewrite H1. cbn [mt_client mt_tracer mt_otel mt_status mt_spans].
  rewrite H2. cbn [mt_client mt_tracer mt_otel mt_status mt_spans]. rewrite H3. split; [done|].
  rewrite Hw3. cbn. by rewrite Hw2, Hw1, Hw0.
Qed.

Lemma end_phase_ok now success error s p :
  balanced s → tr_current_phase (mt_tracer s) = Some p →
  ∃ s', mirrored_end_phase now success error s = (Ok tt, s')
    ∧ mt_tracer s' = (end_phase now success error (mt_tracer s)).2 ∧ balanced s'
    ∧ tr_current_phase (mt_tracer s') = None.
Proof.
  intros (Ho & Hv & Hl) Hp. rewrite Hp in Hl. unfold mirrored_end_phase, end_phase.
  rewrite (bind_ok (read _) _ _ _ _ eq_refl). cbn [id]. rewrite Hp.
  rewrite (bind_ok (put_tracer _) _ _ _ _ eq_refl).
  destruct (mt_spans s) as [|h [|h' l]] eqn:Hs; [done| |done]. cbn [last].
  match goal with |- context [(_ ≫= _) ?s] => set (s1 := s) end.
  edestruct (close_span_ok h success error ((now - tr_current_start (mt_tracer s)) # 1000)
    (mkMirroredTracer (mt_client s1) (mt_tracer s1) true (mt_status s1) [])) as (w & Hw & Hopen).
  assert (∀ m : M (MirroredTracer W) unit, (put_spans (λ l : list nat, take (pred (length l)) l);; m) s1
    = m (mkMirroredTracer (mt_client s1) (mt_tracer s1) true (mt_status s1) [])) as Hpop.
  { intros m. unfold s1, put_spans. rewrite (bind_ok (modify _) _ _ _ _ eq_refl).
    cbn [mt_client mt_tracer mt_otel mt_status mt_spans]. by rewrite Ho. }
  eexists. split; [rewrite (bind_ok _ _ _ tt _ (eq_trans (Hpop _) Hw)); reflexivity|].
  cbn. split; [done|]. split; [|done]. split_and!; [done| |done]. cbn. rewrite Hopen. cbn. rewrite Hv.
  by rewrite filter_cons_False by tauto.
Qed.

Lemma start_phase_ok now0 now phase metadata s :
  balanced s →
  ∃ s', mirrored_start_phase now0 now phase metadata s = (Ok tt, s')
    ∧ mt_tracer s' = (start_phase now0 now phase metadata (mt_tracer s)).2 ∧ balanced s'.
Proof.
  intros Hb. unfold mirrored_start_phase, start_phase. rewrite (bind_ok (read _) _ _ _ _ eq_refl). cbn [id].
  set (m := match tr_current_phase _ with Some _ => mirrored_end_phase _ _ _ | None => _ end).
  set (t1 := match tr_current_phase _ with Some _ => _ | None => mt_tracer s end).
  assert (∃ s1, m s = (Ok tt, s1) ∧ mt_tracer s1 = t1 ∧ balanced s1 ∧ tr_current_phase (mt_tracer s1) = None)
    as (s1 & Hm & Ht & (Ho & Hv & Hl) & Hp).
  { unfold m, t1. destruct (tr_current_phase (mt_tracer s)) as [p|] eqn:Hp.
    - exact (end_phase_ok now0 true None s p Hb Hp).
    - by exists s. }
  rewrite (bind_ok _ _ _ _ _ Hm). rewrite (bind_ok (put_tracer _) _ _ _ _ eq_refl).
  destruct Hb as (-> & _). cbn [when].
  destruct (law_start_span (TracePhase_value phase) (span_attributes (tr_context (mt_tracer s)) metadata)
    (mt_client s1)) as (h & w & Hw & _ & Hview).
  rewrite Hp in Hl. apply nil_length_inv in Hl. rewrite Hl in Hv.
  eexists. split; [unfold on_spans, zoom, mbind, M_bind; cbn; rewrite Hw; reflexivity|].
  cbn. rewrite <- Ht. split; [done|]. split_and!; [done| |by rewrite Hl]. cbn. by rewrite Hview, Hv, Hl.
Qed.

Definition mirrored_do (c : tracer_call) s : MirroredTracer W :=
  match c with
  | TStart now0 now p md => (mirrored_start_phase now0 now p md s).2
  | TEnd now ok err => (mirrored_end_phase now ok err s).2
  end.

(** A traced execution opens and closes its spans in step with its phases: the
    entries are those of a tracer alone, at most one span is open at a time,
    the one of the current phase, and none is open when no phase is. *)
Theorem spans_balanced w c status calls :
  ov_open (ol_view w) = [] →
  let s := foldl (λ s call, mirrored_do call s) (MirroredTracer_new w c true status) calls in
  mt_tracer s = foldl (λ t call, tracer_do call t) (ExecutionTracer_new c) calls
  ∧ balanced s.
Proof.
  intros Hw. assert (balanced (MirroredTracer_new w c true status)) as Hb by done.
  change (ExecutionTracer_new c) with (mt_tracer (MirroredTracer_new w c true status)) at 1.
  revert Hb. generalize (MirroredTracer_new w c true status). clear.
  induction calls as [|call calls IH]; intros s Hb; [done|]. cbn.
  assert (mt_tracer (mirrored_do call s) = tracer_do call (mt_tracer s) ∧ balanced (mirrored_do call s)) as [Hc Hb'].
  { destruct call as [now0 now p md|now ok err]; cbn.
    - destruct (start_phase_ok now0 now p md s Hb) as (s' & -> & ? & ?). done.
    - destruct (tr_current_phase (mt_tracer s)) as [p|] eqn:Hp.
      + destruct (end_phase_ok now ok err s p Hb Hp) as (s' & -> & ? & ? & _). done.
      + unfold mirrored_end_phase, end_phase. rewrite (bind_ok (read _) _ _ _ _ eq_refl). cbn.
        by rewrite Hp. }
  rewrite <- Hc. by apply IH.
Qed.
End TracerLaws.

(** ** A third party that keeps everything *)

#[export] Instance recording_otel : OtelApi otel_view := {|
  create_counter _ _ := λ w,
    let h := fresh (dom (ov_totals w)) in
    (Ok h, mkOtelView (<[h := 0%Z]> (ov_totals w)) (ov_values w) (ov_open w));
  create_histogram _ _ := λ w,
    let h := fresh (dom (ov_values w)) in
    (Ok h, mkOtelView (ov_totals w) (<[h := []]> (ov_values w)) (ov_open w));
  counter_add h v := modify (λ w, mkOtelView (alter (λ z, z + v)%Z h (ov_totals w)) (ov_values w) (ov_open w));
  histogram_record h v := modify (λ w, mkOtelView (ov_totals w) (alter (λ l, l ++ [v]) h (ov_values w)) (ov_open w));
  start_span _ _ := λ w,
    let h := fresh (list_to_set (ov_open w) : gset nat) in
    (Ok h, mkOtelView (ov_totals w) (ov_values w) (ov_open w ++ [h]));
  span_set_error _ _ := mret tt;
  span_set_attribute _ _ _ := mret tt;
  span_end h := modify (λ w, mkOtelView (ov_totals w) (ov_values w) (filter (λ h', h' ≠ h) (ov_open w)))
|}.

#[export] Instance recording_laws : OtelLaws otel_view.
Proof.
  refine {| ol_view w := w |}; intros; try (eexists; by split); eexists _, _; (split; [done|]); split; try done.
  - apply not_elem_of_dom, is_fresh.
  - apply not_elem_of_dom, is_fresh.
  - intros Hh. apply (is_fresh (list_to_set (ov_open w) : gset nat)). by apply elem_of_list_to_set.
Defined.

Definition demo_otel : otel_view := mkOtelView ∅ ∅ [].
Definition demo_phases : list tracer_call :=
  [TStart 0 1 INTENT_RECEIVED []; TStart 2 3 POLICY_EVALUATION []; TEnd 5 false (Some "denied");
   TEnd 6 true None].

Lemma spans_balanced_witness :
  let s := foldl (λ s call, mirrored_do call s) (MirroredTracer_new demo_otel (mkObs "x" "t" "a" "i") true true)
             demo_phases in
  length (tr_entries (mt_tracer s)) = 2%nat ∧ ov_open (mt_client s) = [] ∧ balanced s.
Proof.
  intros s. split; [vm_compute; reflexivity|]. split; [vm_compute; reflexivity|].
  apply (spans_balanced demo_otel (mkObs "x" "t" "a" "i") true demo_phases). reflexivity.
Defined.

(** [clear] in a phase forgets the phase but not its span, which no later call
    ends. *)
Example clear_leaves_span :
  let s0 := MirroredTracer_new demo_otel (mkObs "x" "t" "a" "i") true true in
  let s1 := (mirrored_clear (mirrored_start_phase 0 1 INTENT_RECEIVED [] s0).2).2 in
  let s2 := foldl (λ s call, mirrored_do call s) s1 demo_phases in
  ov_open (mt_client s1) = mt_spans s1 ∧ length (mt_spans s1) = 1%nat
  ∧ mt_spans s2 = mt_spans s1 ∧ ov_open (mt_client s2) = mt_spans s1
  ∧ tr_current_phase (mt_tracer s2) = None.
Proof. vm_compute. done. Qed.

(** Two metrics whose names differ in a dot share the name of their instruments. *)
Example instrument_names_collide : dots_to_underscores "a.b" = dots_to_underscores "a_b".
Proof. reflexivity. Qed.

Example demo_metrics_mirrored :
  let s := foldl (λ s c, metric_do c s) (MirroredMetrics_new demo_otel true)
             [Increment "runs" 2; RecordValue "ms" (1 # 2); Increment "fails" 1; Increment "runs" 3] in
  mm_counters s = [("runs", 0%nat); ("fails", 1%nat)]
  ∧ totals s !! 0%nat = Some 5%Z ∧ totals s !! 1%nat = Some 1%Z ∧ values s !! 0%nat = Some [1 # 2].
Proof. vm_compute. done. Qed.
