(* ===== verification/Contracts.v ===== *)
(** * Contracts of the repositories and of policy

    [core/contracts/memory_repository.py],
    [control_plane/registry/template_repository.py], [instance_repository.py] and
    the protocols of [control_plane/policy/types.py]: abstract classes whose
    docstrings say what an implementation guarantees. Each is a class of
    operations with the guarantees as laws; what follows for a client is proved
    against the laws, and the implementations of [Storage], [Registry] and
    [PolicyEngine] are shown to satisfy them. *)
From S2P Require Import Prelude PyStr PyDict PyVal Capabilities PolicyEngine Storage Registry.

(** ** Memory *)

Class MemoryContract (R : Type) := {
  mc_save : MemoryItem → M R MemoryItem;
  mc_get : string → M R (option MemoryItem);
  mc_search : string → option string → option MemoryType → Q → M R (list MemoryItem);
  mc_list_by_agent : string → M R (list MemoryItem);
  mc_delete : string → M R unit
}.

(** An answer to a query over the items [stored] that satisfy [P], begun at time
    [t] and ended at [t']: by creation time, then identifier, each item once,
    none that had expired when the query began and all that have not when it
    ends. *)
Record answer (stored : string → option MemoryItem) (P : MemoryItem → Prop) (t t' : Z)
    (l : list MemoryItem) : Prop := {
  an_sorted : Sorted (λ a b, mem_leb a b = true) l;
  an_once : NoDup (mi_item_id <$> l);
  an_live m : m ∈ l → stored (mi_item_id m) = Some m ∧ P m ∧ ¬ expired_at t m;
  an_all m : stored (mi_item_id m) = Some m → P m → ¬ expired_at t' m → m ∈ l
}.

Lemma answer_ext f g P t t' l : (∀ i, f i = g i) → answer f P t t' l → answer g P t t' l.
Proof.
  intros Hfg [A1 A2 A3 A4].
  split; [done|done|intros m; rewrite <- Hfg; apply A3|intros m; rewrite <- Hfg; apply A4].
Qed.

(** [ml_ok]: the states calls lead to. [ml_items]: what is stored. [ml_time]: the
    time the next call reads first. *)
Class MemoryLaws (R : Type) `{!MemoryContract R} := {
  ml_ok : R → Prop;
  ml_items : R → string → option MemoryItem;
  ml_time : R → Z;
  ml_save m r : ml_ok r → well_dated m →
    (∀ old, ml_items r (mi_item_id m) = Some old →
       mi_agent_instance_id old = mi_agent_instance_id m) →
    ∃ r', mc_save m r = (Ok m, r') ∧ ml_ok r'
      ∧ ∀ i, ml_items r' i = if decide (i = mi_item_id m) then Some m else ml_items r i;
  ml_delete i r : ml_ok r →
    ∃ r', mc_delete i r = (Ok tt, r') ∧ ml_ok r'
      ∧ ∀ j, ml_items r' j = if decide (j = i) then None else ml_items r j;
  ml_get i r : ml_ok r →
    ∃ o r', mc_get i r = (Ok o, r') ∧ ml_ok r' ∧ (∀ j, ml_items r' j = ml_items r j)
      ∧ (∀ m, o = Some m → ml_items r i = Some m ∧ ¬ expired_at (ml_time r) m)
      ∧ (∀ m, ml_items r i = Some m → ¬ expired_at (ml_time r') m → o = Some m);
  ml_search q a t c r : ml_ok r →
    ∃ l r', mc_search q a t c r = (Ok l, r') ∧ ml_ok r' ∧ (∀ j, ml_items r' j = ml_items r j)
      ∧ answer (ml_items r) (λ m, search_match q a t c m = true) (ml_time r) (ml_time r') l;
  ml_list a r : ml_ok r →
    ∃ l r', mc_list_by_agent a r = (Ok l, r') ∧ ml_ok r' ∧ (∀ j, ml_items r' j = ml_items r j)
      ∧ answer (ml_items r) (λ m, mi_agent_instance_id m = a) (ml_time r) (ml_time r') l
}.

(** *** A client of any memory repository *)

Inductive memory_call :=
| Remember (m : MemoryItem)
| Forget (i : string)
| Recall (i : string)
| Look (query : string) (agent : option string) (memory_type : option MemoryType) (min : Q)
| Browse (agent : string).

Section Client.
Context {R : Type} `{!MemoryContract R, !MemoryLaws R}.
Implicit Types (r : R) (calls : list memory_call).

Definition memory_do (call : memory_call) (r : R) : R :=
  match call with
  | Remember m => (mc_save m r).2
  | Forget i => (mc_delete i r).2
  | Recall i => (mc_get i r).2
  | Look q a t c => (mc_search q a t c r).2
  | Browse a => (mc_list_by_agent a r).2
  end.

(** What the calls leave stored: a finite map. *)
Definition remembered (s : gmap string MemoryItem) (call : memory_call) : gmap string MemoryItem :=
  match call with
  | Remember m => <[mi_item_id m := m]> s
  | Forget i => delete i s
  | _ => s
  end.

(** The dates are aware ones and no identifier moves to another agent. *)
Definition call_allowed (s : gmap string MemoryItem) (call : memory_call) : Prop :=
  match call with
  | Remember m => well_dated m ∧ ∀ old, s !! mi_item_id m = Some old →
      mi_agent_instance_id old = mi_agent_instance_id m
  | _ => True
  end.
Fixpoint calls_allowed (s : gmap string MemoryItem) (calls : list memory_call) : Prop :=
  match calls with
  | [] => True
  | call :: calls => call_allowed s call ∧ calls_allowed (remembered s call) calls
  end.

Definition stores r (s : gmap string MemoryItem) : Prop := ml_ok r ∧ ∀ i, ml_items r i = s !! i.

Lemma memory_do_stores call r s :
  stores r s → call_allowed s call → stores (memory_do call r) (remembered s call).
Proof.
  intros [Hok Hs] Hc. destruct call as [m|i|i|q a t c|a]; cbn in *.
  - destruct Hc as [Hd Ho]. destruct (ml_save m r) as (r' & -> & Hok' & Hi); [done|done|by setoid_rewrite Hs|].
    split; [done|]. intros i. cbn. rewrite Hi. case_decide; subst; [by rewrite lookup_insert_eq|].
    by rewrite lookup_insert_ne.
  - destruct (ml_delete i r) as (r' & -> & Hok' & Hi); [done|]. split; [done|]. intros j. cbn. rewrite Hi.
    case_decide; subst; [by rewrite lookup_delete_eq|]. by rewrite lookup_delete_ne.
  - destruct (ml_get i r) as (o & r' & -> & Hok' & Hi & _); [done|]. split; [done|]. cbn. intros j. by rewrite Hi.
  - destruct (ml_search q a t c r) as (l & r' & -> & Hok' & Hi & _); [done|]. split; [done|]. cbn. intros j. by rewrite Hi.
  - destruct (ml_list a r) as (l & r' & -> & Hok' & Hi & _); [done|]. split; [done|]. cbn. intros j. by rewrite Hi.
Qed.

Lemma memory_calls_store calls r s :
  stores r s → calls_allowed s calls → stores (foldl (λ r c, memory_do c r) r calls) (foldl remembered s calls).
Proof.
  revert r s. induction calls as [|call calls IH]; intros r s Hs Hc; [done|].
  destruct Hc as [H1 H2]. cbn. apply IH; [by apply memory_do_stores|done].
Qed.

(** To a client, any repository that keeps the contract is a finite map of items
    with expiry. *)
Lemma contract_refines_map r0 calls a i :
  ml_ok r0 → (∀ j, ml_items r0 j = None) → calls_allowed ∅ calls →
  let r := foldl (λ r c, memory_do c r) r0 calls in
  let s := foldl remembered ∅ calls in
  (∃ l r', mc_list_by_agent a r = (Ok l, r')
     ∧ answer (λ j, s !! j) (λ m, mi_agent_instance_id m = a) (ml_time r) (ml_time r') l)
  ∧ ∃ o r', mc_get i r = (Ok o, r')
     ∧ (∀ m, o = Some m → s !! i = Some m ∧ ¬ expired_at (ml_time r) m)
     ∧ (∀ m, s !! i = Some m → ¬ expired_at (ml_time r') m → o = Some m).
Proof.
  intros Hok Hempty Hc r s.
  assert (stores r s) as [Hr Hs] by (apply memory_calls_store; [split; [done|]; intros j; by rewrite Hempty|done]).
  split.
  - destruct (ml_list a r Hr) as (l & r' & Hl & _ & _ & Ha). exists l, r'. split; [done|].
    by apply (answer_ext (ml_items r)).
  - destruct (ml_get i r Hr) as (o & r' & Ho & _ & _ & A1 & A2). exists o, r'. split; [done|].
    split; intros m; rewrite <- Hs; auto.
Qed.
End Client.

(** *** The in-memory repository *)

Section InMemory.
Context (clock : nat → Z) (iter : gset string → list string).
Context (clock_mono : ∀ m n : nat, (m ≤ n)%nat → (clock m ≤ clock n)%Z).
Context (iter_perm : ∀ X, iter X ≡ₚ elements X).
Implicit Types r : MemoryRepository.

Definition in_memory_contract : MemoryContract MemoryRepository := {|
  mc_save := mem_save;
  mc_get := mem_get clock;
  mc_search := search clock;
  mc_list_by_agent := list_by_agent clock iter;
  mc_delete := mem_delete
|}.

Definition in_memory_ok r : Prop :=
  mem_inv r ∧ ∀ i m, dict_get i (mr_store r) = Some m → well_dated m.

Lemma in_memory_ok_same r r' : same_data r r' → in_memory_ok r → in_memory_ok r'.
Proof.
  intros Hs [HI Hd]. split; [by eapply same_data_inv|]. destruct Hs as (Hs & _ & _). by rewrite Hs.
Qed.

Lemma answers_answer P r l r' : answers clock P r l r' →
  same_data r r'
  ∧ answer (λ i, dict_get i (mr_store r)) P (clock (mr_ticks r)) (clock (mr_ticks r')) l.
Proof. intros (Hs & H1 & H2 & H3 & H4). by split. Qed.

Lemma mem_get_exact i r : in_memory_ok r →
  ∃ o r', mem_get clock i r = (Ok o, r') ∧ same_data r r'
    ∧ (∀ m, o = Some m → dict_get i (mr_store r) = Some m ∧ ¬ expired_at (clock (mr_ticks r)) m)
    ∧ (∀ m, dict_get i (mr_store r) = Some m → ¬ expired_at (clock (mr_ticks r')) m → o = Some m).
Proof using clock_mono.
  intros [_ Hd]. unfold mem_get. rewrite (bind_ok (read _) _ _ _ _ eq_refl).
  destruct (dict_get i (mr_store r)) as [m|] eqn:Hm.
  2:{ eexists _, _. split; [done|]. split; [reflexivity|]. done. }
  destruct (mem_is_expired_ok clock m r (Hd _ _ Hm)) as (b & r' & Hb & Hs & Hexp).
  rewrite (bind_ok _ _ _ _ _ Hb). eexists _, r'. split; [done|]. split; [done|].
  assert (clock (mr_ticks r) ≤ clock (mr_ticks r'))%Z as Hle by (apply clock_mono, Hs).
  destruct b; split.
  - done.
  - intros m' [= <-] Hne. destruct Hne. destruct (proj1 Hexp eq_refl) as (d & Hde & Hlt).
    unfold expired_at. rewrite Hde. lia.
  - intros m' [= <-]. split; [done|]. unfold expired_at. destruct (mi_expires_at m) as [d|]; [|tauto].
    intros Hlt. assert (false = true); [|done]. apply Hexp. by exists d.
  - by intros m' [= <-].
Qed.

Lemma in_memory_save m r : in_memory_ok r → well_dated m →
  (∀ old, dict_get (mi_item_id m) (mr_store r) = Some old →
     mi_agent_instance_id old = mi_agent_instance_id m) →
  ∃ r', mem_save m r = (Ok m, r') ∧ in_memory_ok r'
    ∧ ∀ i, dict_get i (mr_store r') = if decide (i = mi_item_id m) then Some m else dict_get i (mr_store r).
Proof.
  intros [HI Hd] Hm Ho. eexists. split; [done|].
  assert (∀ i, dict_get i (mr_store (mem_save m r).2)
    = if decide (i = mi_item_id m) then Some m else dict_get i (mr_store r)) as Hg
    by (intros i; apply dict_get_set).
  split; [|exact Hg]. split; [by apply (mem_step_inv clock iter r), mem_step_save|].
  intros i m'. rewrite Hg. case_decide; [by intros [= <-]|apply Hd].
Qed.

Lemma in_memory_delete i r : in_memory_ok r →
  ∃ r', mem_delete i r = (Ok tt, r') ∧ in_memory_ok r'
    ∧ ∀ j, dict_get j (mr_store r') = if decide (j = i) then None else dict_get j (mr_store r).
Proof.
  intros [HI Hd]. eexists. split; [done|].
  assert (∀ j, dict_get j (mr_store (mem_delete i r).2)
    = if decide (j = i) then None else dict_get j (mr_store r)) as Hg.
  { intros j. unfold mem_delete, modify. cbn. destruct (dict_get i (mr_store r)) as [m|] eqn:Hm.
    - apply dict_get_del.
    - case_decide; by subst. }
  split; [|exact Hg]. split; [by apply (mem_step_inv clock iter r), mem_step_delete|].
  intros j m. rewrite Hg. case_decide; [done|apply Hd].
Qed.

Definition in_memory_laws : MemoryLaws MemoryRepository (MemoryContract0 := in_memory_contract).
Proof using clock_mono iter_perm.
  refine {| ml_ok := in_memory_ok; ml_items r i := dict_get i (mr_store r);
            ml_time r := clock (mr_ticks r) |}.
  - intros m r. apply in_memory_save.
  - intros i r. apply in_memory_delete.
  - intros i r Hok. destruct (mem_get_exact i r Hok) as (o & r' & Ho & Hs & H1 & H2).
    exists o, r'. split_and!; [done|by eapply in_memory_ok_same| |done|done].
    intros j. by destruct Hs as (-> & _).
  - intros q a t c r Hok.
    destruct (search_answers clock clock_mono r q a t c) as (l & r' & Hl & Ha%answers_answer); [apply Hok..|].
    destruct Ha as [Hs Ha]. exists l, r'. split_and!; [done|by eapply in_memory_ok_same| |done].
    intros j. by destruct Hs as (-> & _).
  - intros a r Hok.
    destruct (list_answers clock iter clock_mono r a) as (l & r' & Hl & Ha%answers_answer); [done|apply Hok..|].
    destruct Ha as [Hs Ha]. exists l, r'. split_and!; [done|by eapply in_memory_ok_same| |done].
    intros j. by destruct Hs as (-> & _).
Defined.

(** The calls of a client of the in-memory repository. *)
Definition in_memory_do (call : memory_call) (r : MemoryRepository) : MemoryRepository :=
  match call with
  | Remember m => (mem_save m r).2
  | Forget i => (mem_delete i r).2
  | Recall i => (mem_get clock i r).2
  | Look q a t c => (search clock q a t c r).2
  | Browse a => (list_by_agent clock iter a r).2
  end.

(** C39: to its client the in-memory memory repository is a finite map of items
    with expiry. After any calls on a new repository that save items with aware
    dates and move no identifier to another agent, with a clock that does not go
    back and whatever order the index is iterated in: a lookup, a listing of an
    agent and a search answer from the items last saved and not deleted since; an
    item that has expired before the call is not answered, one that has not
    expired when it returns is; listings and searches hold an item once, by
    creation time; and no call raises. *)
Theorem memory_repository_refines_map calls i a q agent ty min :
  calls_allowed ∅ calls →
  let r := foldl (λ r c, in_memory_do c r) MemoryRepository_new calls in
  let s := foldl remembered ∅ calls in
  let time r := clock (mr_ticks r) in
  (∃ o r', mem_get clock i r = (Ok o, r')
     ∧ (∀ m, o = Some m → s !! i = Some m ∧ ¬ expired_at (time r) m)
     ∧ (∀ m, s !! i = Some m → ¬ expired_at (time r') m → o = Some m))
  ∧ (∃ l r', list_by_agent clock iter a r = (Ok l, r')
     ∧ answer (λ j, s !! j) (λ m, mi_agent_instance_id m = a) (time r) (time r') l)
  ∧ (∃ l r', search clock q agent ty min r = (Ok l, r')
     ∧ answer (λ j, s !! j) (λ m, search_match q agent ty min m = true) (time r) (time r') l)
  ∧ (∀ m, ∃ r', mem_save m r = (Ok m, r'))
  ∧ ∃ r', mem_delete i r = (Ok tt, r').
Proof using clock_mono iter_perm.
  intros Hc r s time. pose (laws := in_memory_laws).
  assert (in_memory_ok r ∧ ∀ j, dict_get j (mr_store r) = s !! j) as [Hok Hs].
  { apply (@memory_calls_store MemoryRepository in_memory_contract laws calls); [|exact Hc]. split; [|done].
    split; [split; [apply indexed_nil|apply dict_wf_nil]|by intros ? ? [=]]. }
  split; [|split; [|split; [|split; [by intros m; eexists|by eexists]]]].
  - destruct (mem_get_exact i r Hok) as (o & r' & Ho & _ & H1 & H2). exists o, r'.
    split; [done|]. split; intros m; rewrite <- Hs; auto.
  - destruct (list_answers clock iter clock_mono r a) as (l & r' & Hl & [_ Ha]%answers_answer);
      [done|apply Hok..|].
    exists l, r'. split; [done|]. by apply (answer_ext (λ j, dict_get j (mr_store r))).
  - destruct (search_answers clock clock_mono r q agent ty min) as (l & r' & Hl & [_ Ha]%answers_answer);
      [apply Hok..|].
    exists l, r'. split; [done|]. by apply (answer_ext (λ j, dict_get j (mr_store r))).
Qed.
End InMemory.

Lemma demo_mem_clock_mono (m n : nat) : (m ≤ n)%nat → (demo_mem_clock m ≤ demo_mem_clock n)%Z.
Proof. unfold demo_mem_clock. lia. Qed.
Definition demo_memory_calls : list memory_call :=
  [Remember (demo_memory "m1" "a" 2 None); Remember (demo_memory "m2" "a" 1 None);
   Remember (demo_memory "m3" "b" 1 None); Recall "m1"; Forget "m2";
   Remember (demo_memory "m4" "a" 0 None)].

Lemma memory_repository_refines_map_witness :
  let r := foldl (λ r c, in_memory_do demo_mem_clock elements c r) MemoryRepository_new
             demo_memory_calls in
  (list_by_agent demo_mem_clock elements "a" r).1
  = Ok [demo_memory "m4" "a" 0 None; demo_memory "m1" "a" 2 None]
  ∧ ∃ o r', mem_get demo_mem_clock "m1" r = (Ok o, r').
Proof.
  intros r. split; [vm_compute; reflexivity|].
  assert (calls_allowed ∅ demo_memory_calls) as Hc.
  { assert (∀ i a t, well_dated (demo_memory i a t None)) as Hd by (intros; split; [by eexists|done]).
    unfold demo_memory_calls. repeat (split;
      [first [exact I | split; [apply Hd|intros old H; vm_compute in H; discriminate H]]|]). exact I. }
  destruct (memory_repository_refines_map demo_mem_clock elements demo_mem_clock_mono
    (λ X, Permutation_refl _) demo_memory_calls "m1" "a" ε None None 0%Q Hc)
    as [(o & r' & H & _) _].
  exact (ex_intro _ o (ex_intro _ r' H)).
Defined.

(** ** Templates and instances *)

(** What [TemplateRepository] and [InstanceRepository] have in common: entries
    are made from a [Sp], answered as an [En], listed by an [F], and deleting one
    archives it. An [U] is an update that leaves the entries themselves alone. *)
Class ArchiveContract (R Sp En F U : Type) := {
  ar_create : Sp → M R string;
  ar_get : R → string → option En;
  ar_list : R → F → list En;
  ar_update : string → U → R → R;
  ar_delete : string → R → R
}.

(** [al_entry i sp]: the entry made from [sp] under the identifier [i].
    [al_valid]: what may be created from (its references are objects). *)
Class ArchiveLaws (R Sp En F U : Type) `{!ArchiveContract R Sp En F U} := {
  al_ok : R → Prop;
  al_valid : R → Sp → Prop;
  al_entry : string → Sp → En;
  al_id : En → string;
  al_archive : En → En;
  al_selects : F → En → bool;
  al_entry_id i sp : al_id (al_entry i sp) = i;
  al_archive_id e : al_id (al_archive e) = al_id e;
  al_archive_twice e : al_archive (al_archive e) = al_archive e;
  al_create sp r : al_ok r → al_valid r sp →
    ∃ i r', ar_create sp r = (Ok i, r') ∧ al_ok r' ∧ ar_get r i = None
      ∧ ∀ j, ar_get r' j = if decide (j = i) then Some (al_entry i sp) else ar_get r j;
  al_update i u r : al_ok r → al_ok (ar_update i u r) ∧ ∀ j, ar_get (ar_update i u r) j = ar_get r j;
  al_delete i r : al_ok r → al_ok (ar_delete i r)
    ∧ ∀ j, ar_get (ar_delete i r) j = if decide (j = i) then al_archive <$> ar_get r j else ar_get r j;
  al_list f r : al_ok r → NoDup (al_id <$> ar_list r f)
    ∧ ∀ e, e ∈ ar_list r f ↔ ar_get r (al_id e) = Some e ∧ al_selects f e = true
}.

Section Archive.
Context {R Sp En F U : Type} `{!ArchiveContract R Sp En F U, !ArchiveLaws R Sp En F U}.
Implicit Types (r : R) (e : En).

Inductive archive_step r : R → Prop :=
| as_create sp : al_valid r sp → archive_step r (ar_create sp r).2
| as_update i u : archive_step r (ar_update i u r)
| as_delete i : archive_step r (ar_delete i r).

(** An entry as a later state may show it. *)
Definition kept e e' : Prop := e' = e ∨ e' = al_archive e.

Lemma kept_trans e1 e2 e3 : kept e1 e2 → kept e2 e3 → kept e1 e3.
Proof. unfold kept. intros [-> | ->] [-> | ->]; auto. right. apply al_archive_twice. Qed.

Lemma archive_step_keeps r r' i e :
  al_ok r → archive_step r r' → ar_get r i = Some e →
  al_ok r' ∧ ∃ e', ar_get r' i = Some e' ∧ kept e e'.
Proof.
  intros Hok [sp Hv|j u|j] He.
  - destruct (al_create sp r Hok Hv) as (j & r1 & -> & Hok' & Hnew & Hg). split; [done|].
    exists e. split; [|by left]. cbn. rewrite Hg. case_decide; [congruence|done].
  - destruct (al_update j u r Hok) as [Hok' Hg]. split; [done|]. exists e. split; [by rewrite Hg|by left].
  - destruct (al_delete j r Hok) as [Hok' Hg]. split; [done|]. rewrite Hg, He.
    case_decide; cbn; eexists; (split; [done|]); [by right|by left].
Qed.

(** Nothing is ever lost or changed but for being archived: an identifier that
    [ar_create] answered was not in use and is answered for ever after as what it
    was made from, archived or not, and stays in every listing that selects it. *)
Theorem entries_never_lost sp r i r1 r2 f :
  al_ok r → al_valid r sp → ar_create sp r = (Ok i, r1) → star archive_step r1 r2 →
  ar_get r i = None
  ∧ ∃ e, ar_get r2 i = Some e ∧ kept (al_entry i sp) e
      ∧ (al_selects f e = true → e ∈ ar_list r2 f).
Proof.
  intros Hok Hv Hc Hs.
  destruct (al_create sp r Hok Hv) as (i' & r' & Hc' & Hok1 & Hnew & Hg). rewrite Hc in Hc'. simplify_eq.
  split; [done|].
  assert (al_ok r2 ∧ ∃ e, ar_get r2 i' = Some e ∧ kept (al_entry i' sp) e) as (Hok2 & e & He & Hk).
  { specialize (Hg i'). rewrite decide_True in Hg by done.
    assert (kept (al_entry i' sp) (al_entry i' sp)) as Hk by by left.
    revert Hok1 Hg Hk. generalize (al_entry i' sp) at 1 3. clear Hc.
    induction Hs as [r3|r3 r4 r5 Hstep _ IH]; intros e Hok3 He Hk; [by eauto|].
    destruct (archive_step_keeps _ _ _ _ Hok3 Hstep He) as (Hok4 & e' & He' & Hk').
    apply (IH e'); [done|done|by eapply kept_trans]. }
  exists e. split; [done|]. split; [done|]. intros Hf. apply (al_list f r2 Hok2). split; [|done].
  destruct Hk as [-> | ->]; [|rewrite al_archive_id]; by rewrite al_entry_id.
Qed.

(** A listing is a function of what is stored: two states that answer every
    identifier alike list the same entries. *)
Lemma archive_list_determined r r' f :
  al_ok r → al_ok r' → (∀ i, ar_get r i = ar_get r' i) → ar_list r f ≡ₚ ar_list r' f.
Proof.
  intros Hok Hok' Hg. destruct (al_list f r Hok) as [Hn Hm], (al_list f r' Hok') as [Hn' Hm'].
  apply NoDup_Permutation; [by eapply NoDup_fmap_1|by eapply NoDup_fmap_1|].
  intros e. by rewrite Hm, Hm', Hg.
Qed.
End Archive.

(** Entries of a dictionary, selected. *)
Lemma selected_values {V} (id_of : V → string) (P : V → bool) (d : dict V) :
  dict_wf d → (∀ i v, dict_get i d = Some v → id_of v = i) →
  let l := filter (λ v, P v = true) (dict_values d) in
  NoDup (id_of <$> l) ∧ ∀ v, v ∈ l ↔ dict_get (id_of v) d = Some v ∧ P v = true.
Proof.
  intros Hwf Hid l.
  assert (∀ v, v ∈ dict_values d ↔ dict_get (id_of v) d = Some v) as Hin.
  { intros v. unfold dict_values. rewrite list_elem_of_fmap. split.
    - intros ([k v'] & -> & Hin%dict_elem_get); [|done]. cbn in *. by rewrite (Hid _ _ Hin).
    - intros Hg%dict_get_elem. by exists (id_of v, v). }
  split.
  - assert (id_of <$> dict_values d = dict_keys d) as He.
    { unfold dict_values, dict_keys. rewrite <- list_fmap_compose. apply list_fmap_ext.
      intros n [k v] Hl%list_elem_of_lookup_2. cbn. by apply Hid, dict_elem_get. }
    unfold dict_wf in Hwf. rewrite <- He in Hwf. revert Hwf. unfold l. generalize (dict_values d).
    clear. intros l. induction l as [|v l IH]; [done|]. rewrite fmap_cons, NoDup_cons. intros [Hv Hl].
    rewrite filter_cons. case_decide; [|by apply IH]. rewrite fmap_cons, NoDup_cons. split; [|by apply IH].
    rewrite list_elem_of_fmap. intros (w & Hw & [_ Hin']%list_elem_of_filter). apply Hv.
    rewrite Hw. apply list_elem_of_fmap. by exists w.
  - intros v. unfold l. rewrite list_elem_of_filter, Hin. tauto.
Qed.

(** *** The template repository *)

Record TemplateSpec := mkTemplateSpec {
  ts_name : string;
  ts_framework : string;
  ts_manifest : dict pyval
}.

Definition TemplateRepository (R : Type) : Type :=
  ArchiveContract R TemplateSpec Template (option string) Empty_set.

Definition memory_template_repository : TemplateRepository MemoryTemplateRepository := {|
  ar_create sp := create_template (ts_name sp) (ts_framework sp) (ts_manifest sp);
  ar_get := get_template;
  ar_list := list_templates;
  ar_update _ (u : Empty_set) _ := match u with end;
  ar_delete := delete_template
|}.

Definition template_inv (r : MemoryTemplateRepository) : Prop :=
  dict_wf (tr_templates r)
  ∧ ∀ i t, dict_get i (tr_templates r) = Some t →
      tp_id t = i ∧ ∃ n, (n < tr_next_id r)%nat ∧ i = "tpl-" +:+ str_of_nat n.

Lemma create_template_law n f m r : template_inv r →
  ∃ i r', create_template n f m r = (Ok i, r') ∧ template_inv r' ∧ get_template r i = None
    ∧ ∀ j, get_template r' j = if decide (j = i) then Some (mkTemplate i n f m "active")
                               else get_template r j.
Proof.
  intros [Hwf HI]. eexists _, _. split; [done|]. split_and!.
  - split; [by apply dict_wf_set|]. intros i t. cbn. rewrite dict_get_set. case_decide as Hd.
    + intros [= <-]. split; [done|]. exists (tr_next_id r). split; [lia|done].
    + intros Hg. destruct (HI _ _ Hg) as (H1 & k & Hk & ->). split; [done|]. exists k. split; [lia|done].
  - unfold get_template. destruct (dict_get _ _) as [t|] eqn:Ht; [|done].
    destruct (HI _ _ Ht) as (_ & k & Hk & Heq%(str_app_inj_l "tpl-")). apply (inj pretty) in Heq. lia.
  - intros j. apply dict_get_set.
Qed.

Definition archived_template (t : Template) : Template :=
  mkTemplate (tp_id t) (tp_name t) (tp_framework t) (tp_manifest t) "archived".

Lemma delete_template_law i r : template_inv r → template_inv (delete_template i r)
  ∧ ∀ j, get_template (delete_template i r) j
         = if decide (j = i) then archived_template <$> get_template r j else get_template r j.
Proof.
  intros [Hwf HI]. unfold delete_template, get_template.
  destruct (dict_get i (tr_templates r)) as [t|] eqn:Ht; cbn.
  - split; [split; [by apply dict_wf_set|]|]; intros j; cbn.
    + intros t'. rewrite dict_get_set. case_decide; subst; [|apply HI]. intros [= <-]. apply (HI _ _ Ht).
    + rewrite dict_get_set. case_decide; subst; [by rewrite Ht|done].
  - split; [done|]. intros j. case_decide; subst; [by rewrite Ht|done].
Qed.

Definition template_selected (framework : option string) (t : Template) : bool :=
  if truthy_opt framework then bool_decide (tp_framework t = default ε framework) else true.

Lemma list_templates_selected r f :
  list_templates r f = filter (λ t, template_selected f t = true) (dict_values (tr_templates r)).
Proof.
  unfold list_templates, template_selected. destruct (truthy_opt f).
  - apply list_filter_iff. intros t. by rewrite bool_decide_eq_true.
  - symmetry. generalize (dict_values (tr_templates r)). intros l.
    induction l as [|t l IH]; [done|]. by rewrite filter_cons_True, IH.
Qed.

Definition memory_template_laws : ArchiveLaws _ _ _ _ _ (ArchiveContract0 := memory_template_repository).
Proof.
  refine {| al_ok := template_inv; al_valid _ _ := True; al_id := tp_id;
            al_entry i sp := mkTemplate i (ts_name sp) (ts_framework sp) (ts_manifest sp) "active";
            al_archive := archived_template; al_selects := template_selected |}; try done.
  - intros sp r Hok _. by apply create_template_law.
  - intros i r. apply delete_template_law.
  - intros f r [Hwf HI]. cbn. rewrite list_templates_selected. apply selected_values; [done|].
    intros i t Ht. by destruct (HI _ _ Ht).
Defined.

(** *** The instance repository *)

Record InstanceSpec := mkInstanceSpec {
  nsp_tenant : string;
  nsp_template : string;
  nsp_name : string;
  nsp_config : nat
}.

(** An update rewrites the configuration object an entry refers to. *)
Definition InstanceRepository (R : Type) : Type :=
  ArchiveContract R InstanceSpec Instance_ string (dict pyval).

Definition memory_instance_repository : InstanceRepository MemoryInstanceRepository := {|
  ar_create sp := create_instance (nsp_tenant sp) (nsp_template sp) (nsp_name sp) (nsp_config sp);
  ar_get := get_instance;
  ar_list := list_instances;
  ar_update := update_instance;
  ar_delete := delete_instance
|}.

Definition archived_instance (i : Instance_) : Instance_ :=
  mkInstance (it_id i) (it_tenant_id i) (it_template_id i) (it_name i) (it_config i) "archived".

Lemma delete_instance_law i r : instance_inv r → instance_inv (delete_instance i r)
  ∧ ∀ j, get_instance (delete_instance i r) j
         = if decide (j = i) then archived_instance <$> get_instance r j else get_instance r j.
Proof.
  intros HI. split; [by eapply instance_step_inv; [|constructor]|]. intros j.
  unfold delete_instance, get_instance.
  destruct (dict_get i (nr_instances r)) as [x|] eqn:Hx; cbn.
  - rewrite dict_get_set. case_decide; subst; [by rewrite Hx|done].
  - case_decide; subst; [by rewrite Hx|done].
Qed.

Lemma update_instance_law i config r : instance_inv r → instance_inv (update_instance i config r)
  ∧ ∀ j, get_instance (update_instance i config r) j = get_instance r j.
Proof.
  intros HI. split; [by eapply instance_step_inv; [|constructor]|]. intros j.
  unfold update_instance, get_instance. by destruct (dict_get i (nr_instances r)).
Qed.

Definition memory_instance_laws : ArchiveLaws _ _ _ _ _ (ArchiveContract0 := memory_instance_repository).
Proof.
  refine {| al_ok := instance_inv; al_id := it_id;
            al_valid r sp := is_Some (nr_heap r !! nsp_config sp);
            al_entry i sp := mkInstance i (nsp_tenant sp) (nsp_template sp) (nsp_name sp)
                               (nsp_config sp) "active";
            al_archive := archived_instance;
            al_selects tenant i := bool_decide (it_tenant_id i = tenant) |}; try done.
  - intros sp r Hok Hv. eexists _, _. split; [done|].
    split; [by eapply instance_step_inv; [|constructor]|].
    split; [by apply (create_instance_fresh (nsp_tenant sp) (nsp_template sp) (nsp_name sp) (nsp_config sp))|].
    intros j. apply dict_get_set.
  - intros i u r. apply update_instance_law.
  - intros i r. apply delete_instance_law.
  - intros tenant r [Hwf HI]. cbn.
    replace (list_instances r tenant)
      with (filter (λ i, bool_decide (it_tenant_id i = tenant) = true) (dict_values (nr_instances r)))
      by (apply list_filter_iff; intros i; by rewrite bool_decide_eq_true).
    apply selected_values; [done|]. intros i x Hx. by destruct (HI _ _ Hx).
Defined.

(** An instance of one tenant after another is created, both are updated through
    their shared configuration and the first is deleted. *)
Definition demo_instances : MemoryInstanceRepository :=
  MemoryInstanceRepository_new {[ 0%nat := [("model", VStr "a")] ]}.
Definition demo_later : MemoryInstanceRepository :=
  delete_instance "inst-1" (update_instance "inst-1" [("model", VStr "b")]
    (create_instance "t2" "tpl-1" "y" 0 (create_instance "t1" "tpl-1" "x" 0 demo_instances).2).2).

Lemma entries_never_lost_witness :
  list_instances demo_later "t1" = [mkInstance "inst-1" "t1" "tpl-1" "x" 0 "archived"]
  ∧ get_instance demo_instances "inst-1" = None
  ∧ ∃ e, get_instance demo_later "inst-1" = Some e.
Proof.
  split; [vm_compute; reflexivity|].
  assert (instance_inv demo_instances) as Hok by (split; [apply dict_wf_nil|by intros ? ? [=]]).
  assert (is_Some (nr_heap demo_instances !! 0%nat)) as Hv by by eexists.
  pose proof (@entries_never_lost MemoryInstanceRepository InstanceSpec Instance_ string (dict pyval)
    memory_instance_repository memory_instance_laws (mkInstanceSpec "t1" "tpl-1" "x" 0) demo_instances
    "inst-1" (create_instance "t1" "tpl-1" "x" 0 demo_instances).2 demo_later "t1" Hok Hv eq_refl) as H.
  destruct H as (Hnone & e & He & _).
  - eapply star_step; [apply (as_create (ArchiveLaws0 := memory_instance_laws) _
      (mkInstanceSpec "t2" "tpl-1" "y" 0)); by eexists|].
    eapply star_step; [apply (as_update (ArchiveLaws0 := memory_instance_laws) _ "inst-1"
      ([("model", VStr "b")] : dict pyval))|].
    eapply star_step; [apply (as_delete (ArchiveLaws0 := memory_instance_laws) _ "inst-1")|apply star_refl].
  - split; [exact Hnone|]. exists e. exact He.
Defined.

(** ** Policy decisions: the cache and the resolver ([control_plane/policy/types.py]) *)

(** The clock is read by the implementation, so the time is an argument; so is
    [fnmatch], the library's pattern matcher. *)
Class PolicyCacheContract (C V : Type) := {
  pc_get : Z → string → C → option V * C;
  pc_set : Z → string → V → C → C;
  pc_invalidate : option string → C → C
}.

(** [pcl_holds c k]: what the cache holds for [k]. It may forget at any call. *)
Class PolicyCacheLaws (C V : Type) `{!PolicyCacheContract C V} := {
  pcl_matches : string → string → bool;
  pcl_holds : C → string → option V;
  pcl_get now k c v : (pc_get now k c).1 = Some v → pcl_holds c k = Some v;
  pcl_get_keeps now k c k' v : pcl_holds (pc_get now k c).2 k' = Some v → pcl_holds c k' = Some v;
  pcl_set now k x c k' v : pcl_holds (pc_set now k x c) k' = Some v →
    if decide (k' = k) then v = x else pcl_holds c k' = Some v;
  pcl_invalidate p c k v : pcl_holds (pc_invalidate p c) k = Some v →
    pcl_holds c k = Some v ∧ ∃ pattern, p = Some pattern ∧ pcl_matches k pattern = false
}.

Inductive cache_call (V : Type) :=
| CacheGet (now : Z) (key : string)
| CacheSet (now : Z) (key : string) (value : V)
| CacheInvalidate (pattern : option string).
Arguments CacheGet {V}.
Arguments CacheSet {V}.
Arguments CacheInvalidate {V}.

Section CacheClient.
Context {C V : Type} `{!PolicyCacheContract C V, !PolicyCacheLaws C V}.
Implicit Types (c : C) (calls : list (cache_call V)).

Definition cache_do c (call : cache_call V) : C :=
  match call with
  | CacheGet now k => (pc_get now k c).2
  | CacheSet now k v => pc_set now k v c
  | CacheInvalidate p => pc_invalidate p c
  end.

(** The value last set for [k] and not invalidated since. *)
Definition latest_value (k : string) (found : option V) (call : cache_call V) : option V :=
  match call with
  | CacheGet _ _ => found
  | CacheSet _ k' v => if decide (k = k') then Some v else found
  | CacheInvalidate None => None
  | CacheInvalidate (Some pattern) => if pcl_matches k pattern then None else found
  end.

Lemma cache_do_sound k c call v found :
  (∀ w, pcl_holds c k = Some w → found = Some w) →
  pcl_holds (cache_do c call) k = Some v → latest_value k found call = Some v.
Proof.
  intros Hf. destruct call as [now k'|now k' x|[pattern|]]; cbn.
  - intros Hv%pcl_get_keeps. auto.
  - intros Hv%pcl_set. case_decide; [by subst|auto].
  - intros (Hv & p & [= <-] & Hm)%pcl_invalidate. rewrite Hm. auto.
  - intros (_ & p & [=] & _)%pcl_invalidate.
Qed.

(** A hit is never stale: whatever was called before, what the cache answers for
    a key is the value last set for it and not invalidated since. *)
Theorem cache_never_stale c0 calls now k v :
  (∀ w, pcl_holds c0 k ≠ Some w) →
  (pc_get now k (foldl cache_do c0 calls)).1 = Some v →
  foldl (latest_value k) None calls = Some v.
Proof.
  intros Hempty Hv%pcl_get.
  enough (∀ calls c found, (∀ w, pcl_holds c k = Some w → found = Some w) →
    ∀ w, pcl_holds (foldl cache_do c calls) k = Some w → foldl (latest_value k) found calls = Some w)
    as Hall by (apply (Hall calls c0); [intros w Hw; by destruct (Hempty w)|done]).
  clear. intros calls. induction calls as [|call calls IH]; intros c found Hf; [done|].
  cbn. apply IH. intros w. by apply cache_do_sound.
Qed.
End CacheClient.

Section InMemoryCache.
Variable fnmatch : string → string → bool.

Definition memory_policy_cache : PolicyCacheContract PolicyCache PolicyDecision := {|
  pc_get := cache_get;
  pc_set := cache_set;
  pc_invalidate := cache_invalidate fnmatch
|}.

Lemma dict_get_filter {V} (P : string → bool) k (d : dict V) v :
  dict_get k (filter (λ kv, P kv.1 = true) d) = Some v → dict_get k d = Some v ∧ P k = true.
Proof.
  induction d as [|[k' w] d IH]; [done|]. rewrite filter_cons. cbn.
  case_decide as HP; cbn; case_decide; subst; auto. intros Hg.
  destruct (IH Hg) as [_ HP']. by destruct HP.
Qed.

Lemma cache_del_holds {V} k k' (c : dict V) v : dict_get k (dict_del k' c) = Some v → dict_get k c = Some v.
Proof. rewrite dict_get_del. by case_decide. Qed.

Definition memory_cache_laws : PolicyCacheLaws PolicyCache PolicyDecision
  (PolicyCacheContract0 := memory_policy_cache).
Proof.
  refine {| pcl_matches := fnmatch; pcl_holds c k := fst <$> dict_get k c |}.
  - intros now k c v. cbn. unfold cache_get. destruct (dict_get k c) as [[w t]|]; [|done].
    by destruct (now >=? t)%Z.
  - intros now k c k' v. cbn. unfold cache_get. destruct (dict_get k c) as [[w t]|]; [|done].
    destruct (now >=? t)%Z; [|done]. intros ([w' t'] & Hg%cache_del_holds & Hw)%fmap_Some.
    cbn. by rewrite Hg, Hw.
  - intros now k x c k' v. cbn. unfold cache_set. rewrite dict_get_set.
    case_decide; [by intros [= <-]|]. destruct (_ <=? _)%Z; [|done].
    destruct (oldest c) as [[k0 t0]|]; [|done].
    intros ([w' t'] & Hg%cache_del_holds & Hw)%fmap_Some. by rewrite Hg, Hw.
  - intros [p|] c k v; cbn; [|done]. intros ([w t] & Hg & Hw)%fmap_Some.
    assert (dict_get k (filter (λ kv, negb (fnmatch kv.1 p) = true) c) = Some (w, t)) as Hg'.
    { rewrite <- Hg. f_equal. apply list_filter_iff. intros kv. by destruct (fnmatch kv.1 p). }
    apply (dict_get_filter (λ k, negb (fnmatch k p))) in Hg' as [Hg' Hp].
    split; [by rewrite Hg', Hw|]. exists p. split; [done|]. by destruct (fnmatch k p).
Defined.
End InMemoryCache.

(** The TTL: the same question an hour later is a miss. *)
Lemma cache_never_stale_witness :
  let d := mkDecision (Some "DENY") None None in
  let calls := [CacheSet 0 "k" (mkDecision (Some "ALLOW") None None); CacheInvalidate None;
                CacheSet 5 "k" d; CacheSet 6 "other" (mkDecision (Some "ALLOW") None None)] in
  let c := foldl (cache_do (PolicyCacheContract0 := memory_policy_cache (λ _ _, false))) [] calls in
  (cache_get 7 "k" c).1 = Some d ∧ (cache_get (3600 * usec_per_sec) "k" c).1 = None
  ∧ foldl (latest_value (PolicyCacheLaws0 := memory_cache_laws (λ _ _, false)) "k") None calls = Some d.
Proof.
  intros d calls c. split; [vm_compute; reflexivity|]. split; [vm_compute; reflexivity|].
  apply (cache_never_stale (PolicyCacheLaws0 := memory_cache_laws (λ _ _, false)) [] calls 7 "k" d);
    [done|vm_compute; reflexivity].
Defined.

(** *** The resolver *)

Class CapabilityResolverContract (R : Type) := {
  cr_validate_required : R → list string → CapabilityValidationResult;
  cr_resolve : R → list string → list Capability;
  cr_is_registered : R → string → bool
}.

(** The required identifiers, a [frozenset], come as a list without repetition in
    its iteration order. *)
Class CapabilityResolverLaws (R : Type) `{!CapabilityResolverContract R} := {
  crl_ok : R → Prop;
  crl_missing r required i : i ∈ vr_missing (cr_validate_required r required)
    ↔ i ∈ required ∧ cr_is_registered r i = false;
  crl_valid r required : vr_valid (cr_validate_required r required) = true
    ↔ ∀ i, i ∈ required → cr_is_registered r i = true;
  crl_resolve r ids : crl_ok r → NoDup ids →
    cap_id <$> cr_resolve r ids = filter (λ i, cr_is_registered r i = true) ids
}.

#[export] Instance capability_resolver : CapabilityResolverContract CapabilityRegistry := {|
  cr_validate_required := validate_required;
  cr_resolve := resolve;
  cr_is_registered := resolver_is_registered
|}.

#[export] Instance capability_resolver_laws : CapabilityResolverLaws CapabilityRegistry.
Proof.
  refine {| crl_ok := cap_inv |}.
  - intros r required i. cbn. unfold resolver_is_registered. rewrite list_elem_of_filter. tauto.
  - intros r required. cbn. rewrite Nat.eqb_eq, length_zero_iff_nil. unfold resolver_is_registered.
    induction required as [|i required IH]; [split; [intros _ i Hi; by apply not_elem_of_nil in Hi|done]|].
    rewrite filter_cons. case_decide as Hi.
    + split; [done|]. intros Hall. rewrite Hall in Hi by by left. done.
    + rewrite IH. split; [|intros Hall j Hj; apply Hall; by right].
      intros Hall j [->|Hj]%elem_of_cons; [by destruct (cap_contains r i)|auto].
  - intros r ids HI _. cbn. unfold resolve, resolver_is_registered, cap_contains, cap_get.
    induction ids as [|i ids IH]; [done|]. rewrite filter_cons. cbn.
    destruct (dict_get i r) as [c|] eqn:Hc.
    + rewrite decide_True by (apply dict_mem_true; by eexists). rewrite fmap_cons, IH. f_equal.
      by apply (cap_elem r i c HI) in Hc as [_ ?].
    + rewrite decide_False; [done|]. intros Hm%dict_mem_true. rewrite Hc in Hm. by destruct Hm.
Defined.

(** What passes validation is resolved in full. *)
Lemma validated_resolves {R} `{!CapabilityResolverContract R, !CapabilityResolverLaws R} (r : R) ids :
  crl_ok r → NoDup ids → vr_valid (cr_validate_required r ids) = true →
  cap_id <$> cr_resolve r ids = ids.
Proof.
  intros Hok Hn Hv. rewrite crl_resolve by done. pose proof (proj1 (crl_valid r ids) Hv) as Hall.
  clear Hv Hn. induction ids as [|i ids IH]; [done|]. rewrite filter_cons_True by (apply Hall; by left).
  f_equal. apply IH. intros j Hj. apply Hall. by right.
Qed.
